(** * Reward ledger, badge engine and leaderboards of the playful marketplace

    A shallow embedding of the gamification core of the marketplace
    services (gamification handlers, the order service's reward helpers,
    the auth service's early-bird helper and the Redis leaderboard
    helpers), followed by the properties of the specification that it
    satisfies or violates.

    Conventions of the embedding.
    - Go's [int] is a 64-bit two's-complement integer: values are [Z] and
      every Go-level arithmetic operation is wrapped by [int_wrap].
    - Go's [float64] is the primitive IEEE-754 binary64 type of Rocq.
    - [uuid.UUID] is a number ([uuid_Nil] is 0); [uuid.New] draws from a
      supply kept in the world, [String()] renders it as text.
    - The relational store and the Redis cache are explicit state.  Store
      reads are reliable; every store write consults a schedule of faults
      and may be rejected, in which case it changes nothing and reports an
      error, which the Go code is free to ignore (and often does).
    - A handler is a function that runs to completion, and a detached
      goroutine ([go f(...)]) is run to completion at the point where it
      is spawned.  Requests that overlap are modelled apart, statement by
      statement (module [Overlap]), for the two properties that depend on
      them: the uniqueness of awards and the agreement of ledger and
      counter.
    - Timestamps ([CreatedAt], [EarnedAt], ...) are not modelled. *)

From Stdlib Require Import ZArith List Lia Floats Uint63 Sorting.Sorted Permutation.
From stdpp Require Import base gmap strings list pretty sorting.

Open Scope Z_scope.

(** ** Machine numbers *)

Module GoInt.

Definition int_min : Z := - 2 ^ 63.
Definition int_max : Z := 2 ^ 63 - 1.

Definition in_range (z : Z) : bool := (int_min <=? z) && (z <=? int_max).

(** Two's-complement wrap-around of a 64-bit signed integer. *)
Definition int_wrap (z : Z) : Z := (z + 2 ^ 63) mod 2 ^ 64 - 2 ^ 63.

Definition int_add (a b : Z) : Z := int_wrap (a + b).
Definition int_sub (a b : Z) : Z := int_wrap (a - b).

(** [float64(n)] for an [int] n: the nearest binary64 value. *)
Definition float64_of_int (z : Z) : float :=
  if z =? int_min then PrimFloat.opp (PrimFloat.mul (PrimFloat.of_uint63 (Uint63.of_Z (2 ^ 62))) 2%float)
  else if z <? 0 then PrimFloat.opp (PrimFloat.of_uint63 (Uint63.of_Z (- z)))
  else PrimFloat.of_uint63 (Uint63.of_Z z).

(** [int(f)] for a [float64] f: the fraction is discarded (truncation
    towards zero).  Go leaves the result unspecified when the value does
    not fit; the amd64 conversion instruction then yields the minimal
    integer, which is what is written here. *)
Definition int_of_float64 (f : float) : Z :=
  match Prim2SF f with
  | S754_zero _ => 0
  | S754_finite s m e =>
      let mag := if 0 <=? e then Z.pos m * 2 ^ e else Z.pos m / 2 ^ (- e) in
      let v := if s then - mag else mag in
      if in_range v then v else int_min
  | _ => int_min
  end.

Definition is_nan (f : float) : bool := negb (PrimFloat.eqb f f).

End GoInt.
Export GoInt.

(** ** shared/models *)

Module Models.

Definition UUID := N.
Bind Scope N_scope with UUID.
Definition uuid_Nil : UUID := 0%N.
Definition uuid_String (id : UUID) : string := pretty id.

Definition UserRole := string.
Definition RoleBuyer : UserRole := "buyer".
Definition RoleSeller : UserRole := "seller".

Definition UserLevel := string.
Definition LevelBronze : UserLevel := "bronze".
Definition LevelSilver : UserLevel := "silver".
Definition LevelGold : UserLevel := "gold".
Definition LevelPlatinum : UserLevel := "platinum".

Definition BadgeType := string.
Definition BadgeFirstOrder : BadgeType := "first_order".
Definition BadgeTopSeller : BadgeType := "top_seller".
Definition BadgeBigSpender : BadgeType := "big_spender".
Definition BadgeEarlyBird : BadgeType := "early_bird".
Definition BadgeReviewer : BadgeType := "reviewer".
Definition BadgeReferrer : BadgeType := "referrer".

Definition OrderStatus := string.
Definition OrderPending : OrderStatus := "pending".
Definition OrderConfirmed : OrderStatus := "confirmed".
Definition OrderProcessing : OrderStatus := "processing".
Definition OrderShipped : OrderStatus := "shipped".
Definition OrderDelivered : OrderStatus := "delivered".
Definition OrderCancelled : OrderStatus := "cancelled".

Record User := mkUser {
  u_ID : UUID;
  u_Name : string;
  u_Role : UserRole;
  u_Level : UserLevel;
  u_TotalXP : Z;
  u_TotalSpent : float;
  u_TotalSales : float
}.

Record Badge := mkBadge {
  b_ID : UUID;
  b_Type : BadgeType;
  b_Name : string;
  b_XPReward : Z
}.

Record UserBadge := mkUserBadge {
  ub_ID : UUID;
  ub_UserID : UUID;
  ub_BadgeID : UUID
}.

Record XPTransaction := mkXPTransaction {
  tx_ID : UUID;
  tx_UserID : UUID;
  tx_Amount : Z;
  tx_Reason : string;
  tx_Reference : string
}.

(** An order item with its product preloaded; of the product only the
    seller is read by the reward code. *)
Record OrderItem := mkOrderItem {
  oi_ID : UUID;
  oi_ProductID : UUID;
  oi_Quantity : Z;
  oi_Price : float;
  oi_Product_SellerID : UUID
}.

Record Order := mkOrder {
  o_ID : UUID;
  o_BuyerID : UUID;
  o_TotalAmount : float;
  o_Status : OrderStatus;
  o_Notes : string;
  o_Items : list OrderItem
}.

Record LeaderboardEntry := mkLeaderboardEntry {
  le_UserID : UUID;
  le_Name : string;
  le_Score : float;
  le_Rank : Z;
  le_Level : UserLevel;
  le_BadgeCount : Z
}.

(** The zero value of the struct, as [models.LeaderboardEntry{}]. *)
Definition LeaderboardEntry_zero : LeaderboardEntry :=
  mkLeaderboardEntry uuid_Nil "" 0%float 0 "" 0.

End Models.
Export Models.

(** ** Level resolver (gamification handlers) *)

Module Level.

Definition calculateLevel (xp : Z) : UserLevel :=
  if 5000 <=? xp then LevelPlatinum
  else if 1500 <=? xp then LevelGold
  else if 500 <=? xp then LevelSilver
  else LevelBronze.

Definition calculateXPToNextLevel (currentXP : Z) (currentLevel : UserLevel) : Z :=
  if bool_decide (currentLevel = LevelBronze) then int_sub 500 currentXP
  else if bool_decide (currentLevel = LevelSilver) then int_sub 1500 currentXP
  else if bool_decide (currentLevel = LevelGold) then int_sub 5000 currentXP
  else if bool_decide (currentLevel = LevelPlatinum) then 0
  else 0.

(** Position of a tier in the ladder bronze < silver < gold < platinum. *)
Definition tier_rank (l : UserLevel) : nat :=
  if bool_decide (l = LevelBronze) then 0
  else if bool_decide (l = LevelSilver) then 1
  else if bool_decide (l = LevelGold) then 2
  else if bool_decide (l = LevelPlatinum) then 3
  else 0.

(** The threshold table as the specification words it: half-open
    intervals with inclusive lower bounds. *)
Definition in_interval (lo hi x : Z) : bool := (lo <=? x) && (x <? hi).

Definition level_by_thresholds (x : Z) : UserLevel :=
  if in_interval 0 500 x then LevelBronze
  else if in_interval 500 1500 x then LevelSilver
  else if in_interval 1500 5000 x then LevelGold
  else LevelPlatinum.

End Level.
Export Level.

(** ** shared/utils: response envelopes *)

Module Utils.

Record Response (A : Type) := mkResponse {
  resp_Status : Z;
  resp_Success : bool;
  resp_Message : string;
  resp_Data : option A
}.
Arguments mkResponse {A}.
Arguments resp_Status {A}.
Arguments resp_Success {A}.
Arguments resp_Message {A}.
Arguments resp_Data {A}.

Definition SuccessResponse {A} (message : string) (data : A) : Response A :=
  mkResponse 200 true message (Some data).
Definition ErrorResponse {A} (statusCode : Z) (message : string) : Response A :=
  mkResponse statusCode false message None.
Definition ValidationErrorResponse {A} (message : string) : Response A :=
  ErrorResponse 400 message.
Definition UnauthorizedResponse {A} (message : string) : Response A :=
  ErrorResponse 401 message.
Definition NotFoundResponse {A} (message : string) : Response A :=
  ErrorResponse 404 message.
Definition InternalServerErrorResponse {A} (message : string) : Response A :=
  ErrorResponse 500 message.

End Utils.
Export Utils.

(** ** shared/redis: the leaderboard cache

    A sorted set is kept as the list of its (member, score) pairs in
    ascending rank order, which for Redis is by score and, among equal
    scores, by the byte order of the members.  A hash field holds JSON
    text, represented by what [json.Unmarshal] makes of it. *)

Module Redis.

Inductive JValue :=
| JNull
| JBool (b : bool)
| JNumber (f : float)
| JString (s : string).

Inductive JSONText :=
| JSONObject (fields : gmap string JValue)
| JSONMalformed.

(** [encoding/json] refuses a number that is NaN or infinite. *)
Definition json_encodable (v : JValue) : bool :=
  match v with
  | JNumber f => is_finite f
  | _ => true
  end.

Definition json_Marshal (m : gmap string JValue) : option JSONText :=
  if forallb json_encodable (map snd (map_to_list m)) then Some (JSONObject m) else None.
Definition json_Unmarshal (t : JSONText) : option (gmap string JValue) :=
  match t with
  | JSONObject m => Some m
  | JSONMalformed => None
  end.

Record Client := mkClient {
  redis_up : bool;
  zsets : gmap string (list (string * float));
  hashes : gmap string (gmap string JSONText)
}.

Definition with_zsets (z : gmap string (list (string * float))) (r : Client) : Client :=
  mkClient (redis_up r) z (hashes r).
Definition with_hashes (h : gmap string (gmap string JSONText)) (r : Client) : Client :=
  mkClient (redis_up r) (zsets r) h.

Definition empty_client : Client := mkClient true ∅ ∅.

(** Rank order of the sorted set: (s1, m1) stands before (s2, m2). *)
Definition z_before (s1 : float) (m1 : string) (s2 : float) (m2 : string) : bool :=
  PrimFloat.ltb s1 s2 || (PrimFloat.eqb s1 s2 && String.ltb m1 m2).

Fixpoint zset_insert (m : string) (s : float) (l : list (string * float))
  : list (string * float) :=
  match l with
  | [] => [(m, s)]
  | (m', s') :: rest =>
      if z_before s m s' m' then (m, s) :: l
      else (m', s') :: zset_insert m s rest
  end.

Definition zset_remove (m : string) (l : list (string * float)) : list (string * float) :=
  List.filter (fun e => negb (String.eqb (fst e) m)) l.

(** ZADD key score member: inserts the member or moves it to the place
    of its new score.  A NaN score is refused by the server. *)
Definition ZAdd (key : string) (score : float) (member : string) (r : Client)
  : option Client :=
  if negb (redis_up r) then None
  else if is_nan score then None
  else
    let old := default [] (zsets r !! key) in
    Some (with_zsets (<[key := zset_insert member score (zset_remove member old)]> (zsets r)) r).

(** HSET key field value. *)
Definition HSet (key field : string) (value : JSONText) (r : Client) : option Client :=
  if negb (redis_up r) then None
  else
    let old := default ∅ (hashes r !! key) in
    Some (with_hashes (<[key := <[field := value]> old]> (hashes r)) r).

(** HGET key field: an absent field is reported as an error ([redis.Nil]),
    as is an unreachable server. *)
Definition HGet (key field : string) (r : Client) : option JSONText :=
  if negb (redis_up r) then None
  else default ∅ (hashes r !! key) !! field.

(** The index arithmetic of ZRANGE/ZREVRANGE by rank: negative indexes
    count from the end, the range is inclusive and clipped to the set. *)
Definition range_by_rank {A} (l : list A) (start stop : Z) : list A :=
  let llen := Z.of_nat (length l) in
  let start := if start <? 0 then llen + start else start in
  let stop := if stop <? 0 then llen + stop else stop in
  let start := if start <? 0 then 0 else start in
  if (stop <? start) || (llen <=? start) then []
  else
    let stop := if llen <=? stop then llen - 1 else stop in
    firstn (Z.to_nat (stop - start + 1)) (skipn (Z.to_nat start) l).

Definition ZRevRangeWithScores (key : string) (start stop : Z) (r : Client)
  : option (list (string * float)) :=
  if negb (redis_up r) then None
  else Some (range_by_rank (rev (default [] (zsets r !! key))) start stop).

Definition leaderboard_key (leaderboardType : string) : string :=
  "leaderboard:" +:+ leaderboardType.
Definition leaderboard_users_key (leaderboardType : string) : string :=
  "leaderboard:" +:+ leaderboardType +:+ ":users".

Definition SetLeaderboardEntry (leaderboardType userID : string) (score : float)
    (userData : gmap string JValue) (r : Client) : bool * Client :=
  match ZAdd (leaderboard_key leaderboardType) score userID r with
  | None => (false, r)
  | Some r1 =>
      match json_Marshal userData with
      | None => (false, r1)
      | Some userDataJSON =>
          match HSet (leaderboard_users_key leaderboardType) userID userDataJSON r1 with
          | None => (false, r1)
          | Some r2 => (true, r2)
          end
      end
  end.

(** The body of the loop of [GetLeaderboard] for the member at index [i];
    [None] is a [continue]. *)
Definition leaderboard_entry (leaderboardType : string) (r : Client) (i : Z)
    (member : string * float) : option LeaderboardEntry :=
  let userID := fst member in
  match HGet (leaderboard_users_key leaderboardType) userID r with
  | None => None
  | Some userDataJSON =>
      match json_Unmarshal userDataJSON with
      | None => None
      | Some userData =>
          let name := match userData !! "name" with
                      | Some (JString name) => name
                      | _ => le_Name LeaderboardEntry_zero
                      end in
          let level := match userData !! "level" with
                       | Some (JString level) => level
                       | _ => le_Level LeaderboardEntry_zero
                       end in
          let badgeCount := match userData !! "badge_count" with
                            | Some (JNumber badgeCount) => int_of_float64 badgeCount
                            | _ => le_BadgeCount LeaderboardEntry_zero
                            end in
          Some (mkLeaderboardEntry (le_UserID LeaderboardEntry_zero) name (snd member)
                  (int_add i 1) level badgeCount)
      end
  end.

Fixpoint GetLeaderboard_loop (leaderboardType : string) (r : Client) (i : Z)
    (members : list (string * float)) (entries : list LeaderboardEntry)
  : list LeaderboardEntry :=
  match members with
  | [] => entries
  | member :: rest =>
      match leaderboard_entry leaderboardType r i member with
      | None => GetLeaderboard_loop leaderboardType r (i + 1) rest entries
      | Some entry => GetLeaderboard_loop leaderboardType r (i + 1) rest (entries ++ [entry])
      end
  end.

(** [GetLeaderboard]: [None] is the error of the range read. A nil slice
    and an empty slice are both the empty list. *)
Definition GetLeaderboard (leaderboardType : string) (limit : Z) (r : Client)
  : option (list LeaderboardEntry) :=
  match ZRevRangeWithScores (leaderboard_key leaderboardType) 0 (int_sub limit 1) r with
  | None => None
  | Some members => Some (GetLeaderboard_loop leaderboardType r 0 members [])
  end.

End Redis.

(** ** shared/database: the relational store and the world around it *)

Module Database.

Record World := mkWorld {
  users : list User;
  badges : list Badge;
  user_badges : list UserBadge;
  xp_transactions : list XPTransaction;
  orders : list Order;
  cache : Redis.Client;
  uuid_supply : N;
  write_faults : list bool
}.

Definition with_users (x : list User) (w : World) : World :=
  mkWorld x (badges w) (user_badges w) (xp_transactions w) (orders w) (cache w)
    (uuid_supply w) (write_faults w).
Definition with_user_badges (x : list UserBadge) (w : World) : World :=
  mkWorld (users w) (badges w) x (xp_transactions w) (orders w) (cache w)
    (uuid_supply w) (write_faults w).
Definition with_xp_transactions (x : list XPTransaction) (w : World) : World :=
  mkWorld (users w) (badges w) (user_badges w) x (orders w) (cache w)
    (uuid_supply w) (write_faults w).
Definition with_orders (x : list Order) (w : World) : World :=
  mkWorld (users w) (badges w) (user_badges w) (xp_transactions w) x (cache w)
    (uuid_supply w) (write_faults w).
Definition with_cache (x : Redis.Client) (w : World) : World :=
  mkWorld (users w) (badges w) (user_badges w) (xp_transactions w) (orders w) x
    (uuid_supply w) (write_faults w).
Definition with_uuid_supply (x : N) (w : World) : World :=
  mkWorld (users w) (badges w) (user_badges w) (xp_transactions w) (orders w) (cache w)
    x (write_faults w).
Definition with_write_faults (x : list bool) (w : World) : World :=
  mkWorld (users w) (badges w) (user_badges w) (xp_transactions w) (orders w) (cache w)
    (uuid_supply w) x.

(** Computations over the world. *)
Definition M (A : Type) : Type := World -> A * World.

Definition ret {A} (a : A) : M A := fun w => (a, w).
Definition bind {A B} (m : M A) (k : A -> M B) : M B :=
  fun w => let (a, w') := m w in k a w'.
Definition get : M World := fun w => (w, w).

Notation "'do' x <- m ;; k" := (bind m (fun x => k))
  (at level 10, x name, m at level 99, k at level 200, only parsing).

Fixpoint for_each {A} (l : list A) (body : A -> M unit) : M unit :=
  match l with
  | [] => ret tt
  | x :: rest => do _ <- body x ;; for_each rest body
  end.

(** [uuid.New()] *)
Definition uuid_New : M UUID :=
  fun w => (uuid_supply w, with_uuid_supply (N.succ (uuid_supply w)) w).

(** A write statement.  The next entry of the fault schedule decides
    whether the store rejects it ([true]: rejected); the statement itself
    may also be refused by the store ([None]).  The result is the absence
    of an error. *)
Definition db_exec (stmt : World -> option World) : M bool :=
  fun w =>
    let (fault, w1) :=
      match write_faults w with
      | [] => (false, w)
      | f :: fs => (f, with_write_faults fs w)
      end in
    if fault then (false, w1)
    else match stmt w1 with
         | None => (false, w1)
         | Some w2 => (true, w2)
         end.

(** The store accepts the next [n] writes. *)
Definition writes_accepted (n : nat) (w : World) : bool :=
  forallb negb (firstn n (write_faults w)).

(** [DB.First(&user, id)] *)
Definition first_user (id : UUID) (w : World) : option User :=
  List.find (fun u => bool_decide (u_ID u = id)) (users w).

(** [DB.First(&badge, id)] *)
Definition first_badge (id : UUID) (w : World) : option Badge :=
  List.find (fun b => bool_decide (b_ID b = id)) (badges w).

(** [DB.Where("type = ?", t).First(&badge)] *)
Definition first_badge_of_type (t : BadgeType) (w : World) : option Badge :=
  List.find (fun b => bool_decide (b_Type b = t)) (badges w).

(** [DB.First(&order, id)] with the items preloaded *)
Definition first_order (id : UUID) (w : World) : option Order :=
  List.find (fun o => bool_decide (o_ID o = id)) (orders w).

(** [DB.Where("user_id = ?", id).Find(&existingBadges)] *)
Definition user_badges_of (id : UUID) (w : World) : list UserBadge :=
  List.filter (fun ub => bool_decide (ub_UserID ub = id)) (user_badges w).

(** [DB.Model(&Order{}).Where("buyer_id = ?", id).Count(&n)] *)
Definition count_orders_of_buyer (id : UUID) (w : World) : Z :=
  Z.of_nat (length (List.filter (fun o => bool_decide (o_BuyerID o = id)) (orders w))).

(** The count over orders joined with their items and products, for the
    products of one seller and the delivered orders: one row per item. *)
Definition count_delivered_sales (seller : UUID) (w : World) : Z :=
  Z.of_nat (length (List.flat_map
    (fun o =>
       if bool_decide (o_Status o = OrderDelivered)
       then List.filter (fun it => bool_decide (oi_Product_SellerID it = seller)) (o_Items o)
       else [])
    (orders w))).

(** [DB.Model(&User{}).Count(&n)] *)
Definition count_users (w : World) : Z := Z.of_nat (length (users w)).

(** [DB.Create(&xpTransaction)] *)
Definition create_xp_transaction (tx : XPTransaction) : M bool :=
  db_exec (fun w => Some (with_xp_transactions (xp_transactions w ++ [tx]) w)).

(** [DB.Create(&userBadge)] *)
Definition create_user_badge (ub : UserBadge) : M bool :=
  db_exec (fun w => Some (with_user_badges (user_badges w ++ [ub]) w)).

Definition set_TotalXP (xp : Z) (u : User) : User :=
  mkUser (u_ID u) (u_Name u) (u_Role u) (u_Level u) xp (u_TotalSpent u) (u_TotalSales u).
Definition set_Level (l : UserLevel) (u : User) : User :=
  mkUser (u_ID u) (u_Name u) (u_Role u) l (u_TotalXP u) (u_TotalSpent u) (u_TotalSales u).
Definition set_TotalSales (s : float) (u : User) : User :=
  mkUser (u_ID u) (u_Name u) (u_Role u) (u_Level u) (u_TotalXP u) (u_TotalSpent u) s.

Definition update_where_id (id : UUID) (f : User -> User) (us : list User) : list User :=
  map (fun u => if bool_decide (u_ID u = id) then f u else u) us.

(** [DB.Model(&user).Update("total_xp", v)] *)
Definition update_total_xp (id : UUID) (v : Z) : M bool :=
  db_exec (fun w => Some (with_users (update_where_id id (set_TotalXP v) (users w)) w)).

(** [DB.Model(&user).Update("level", l)] *)
Definition update_level (id : UUID) (l : UserLevel) : M bool :=
  db_exec (fun w => Some (with_users (update_where_id id (set_Level l) (users w)) w)).

(** [DB.Model(&User{}).Where("id = ?", id).Update("total_xp", gorm.Expr("total_xp + ?", n))]:
    the sum is computed by the store, on a bigint column, which refuses a
    result out of range.  The helpers that write the expression as
    [DB.Raw("total_xp + ?", n)] issue the same statement. *)
Definition xp_increment_fits (id : UUID) (n : Z) (w : World) : bool :=
  forallb (fun u => implb (bool_decide (u_ID u = id)) (in_range (u_TotalXP u + n))) (users w).

Definition increment_total_xp (id : UUID) (n : Z) : M bool :=
  db_exec (fun w =>
    if xp_increment_fits id n w
    then Some (with_users
                 (update_where_id id (fun u => set_TotalXP (u_TotalXP u + n) u) (users w)) w)
    else None).

(** [... Update("total_sales", gorm.Expr("total_sales + ?", x))]: the sum
    is computed by the store.  The column is taken to be double
    precision, so that the sum is a binary64 addition; on a decimal
    column the store adds exactly and the value read back can differ in
    the last place. *)
Definition increment_total_sales (id : UUID) (x : float) : M bool :=
  db_exec (fun w =>
    Some (with_users
            (update_where_id id (fun u => set_TotalSales (PrimFloat.add (u_TotalSales u) x) u)
               (users w)) w)).

(** [DB.Save(&order)] *)
Definition save_order (o : Order) : M bool :=
  db_exec (fun w =>
    Some (with_orders (map (fun o' => if bool_decide (o_ID o' = o_ID o) then o else o') (orders w)) w)).

(** [ORDER BY key DESC]: rows of larger key first, rows of equal key in
    the order of the table. *)
Fixpoint insert_desc {A} (key : A -> float) (x : A) (l : list A) : list A :=
  match l with
  | [] => [x]
  | y :: rest =>
      if PrimFloat.ltb (key x) (key y) then y :: insert_desc key x rest
      else x :: l
  end.

Fixpoint order_by_desc {A} (key : A -> float) (l : list A) : list A :=
  match l with
  | [] => []
  | x :: rest => insert_desc key x (order_by_desc key rest)
  end.

(** [Limit(n)]: a negative n lifts the limit; 0 gives no row, as the
    current versions of the library have it. *)
Definition gorm_Limit {A} (n : Z) (l : list A) : list A :=
  if n <? 0 then l else firstn (Z.to_nat n) l.

End Database.
Export Database.

(** ** services/gamification/handlers *)

Module Gamification.

Record AddXPRequest := mkAddXPRequest {
  req_UserID : UUID;
  req_Amount : Z;
  req_Reason : string;
  req_Reference : string
}.

Record AddXPResult := mkAddXPResult {
  res_user_id : UUID;
  res_old_xp : Z;
  res_new_xp : Z;
  res_xp_gained : Z;
  res_old_level : UserLevel;
  res_new_level : UserLevel;
  res_leveled_up : bool;
  res_transaction : XPTransaction
}.

Record CheckBadgesRequest := mkCheckBadgesRequest {
  cb_UserID : UUID
}.

Record LeaderboardResponse := mkLeaderboardResponse {
  lr_Type : string;
  lr_Period : string;
  lr_Entries : list LeaderboardEntry
}.

Definition updateLeaderboards (user : User) (newXP : Z) : M unit :=
  fun w =>
    let userData : gmap string Redis.JValue :=
      <["name" := Redis.JString (u_Name user)]>
        (<["level" := Redis.JString (u_Level user)]>
           (<["badge_count" := Redis.JNumber (float64_of_int 0)]> ∅)) in
    if bool_decide (u_Role user = RoleBuyer) then
      (tt, with_cache (snd (Redis.SetLeaderboardEntry "weekly_buyers"
                              (uuid_String (u_ID user)) (u_TotalSpent user) userData (cache w))) w)
    else if bool_decide (u_Role user = RoleSeller) then
      (tt, with_cache (snd (Redis.SetLeaderboardEntry "monthly_sellers"
                              (uuid_String (u_ID user)) (u_TotalSales user) userData (cache w))) w)
    else (tt, w).

(** The request body is [None] when the parser rejects it.  The [user]
    struct is the row as read; the two updates through [Model(&user)]
    also set the field of the struct, which the leaderboard update reads. *)
Definition AddXP (body : option AddXPRequest) : M (Response AddXPResult) :=
  match body with
  | None => ret (ValidationErrorResponse "Invalid request body")
  | Some req =>
      if bool_decide (req_UserID req = uuid_Nil) || (req_Amount req =? 0)
         || bool_decide (req_Reason req = "")
      then ret (ValidationErrorResponse "User ID, amount, and reason are required")
      else
        do w <- get ;;
        match first_user (req_UserID req) w with
        | None => ret (NotFoundResponse "User not found")
        | Some user =>
            do id <- uuid_New ;;
            let xpTransaction :=
              mkXPTransaction id (req_UserID req) (req_Amount req) (req_Reason req)
                (req_Reference req) in
            do created <- create_xp_transaction xpTransaction ;;
            if negb created
            then ret (InternalServerErrorResponse "Failed to create XP transaction")
            else
              let oldXP := u_TotalXP user in
              let newXP := int_add oldXP (req_Amount req) in
              do updated <- update_total_xp (u_ID user) newXP ;;
              if negb updated
              then ret (InternalServerErrorResponse "Failed to update user XP")
              else
                let user := set_TotalXP newXP user in
                let oldLevel := calculateLevel oldXP in
                let newLevel := calculateLevel newXP in
                let leveledUp := negb (bool_decide (newLevel = oldLevel)) in
                do user <- (if leveledUp
                         then do _ <- update_level (u_ID user) newLevel ;;
                              ret (set_Level newLevel user)
                         else ret user) ;;
                do _ <- updateLeaderboards user newXP ;;
                ret (SuccessResponse "XP added successfully"
                       (mkAddXPResult (req_UserID req) oldXP newXP (req_Amount req)
                          oldLevel newLevel leveledUp xpTransaction))
        end
  end.

Definition awardXP (userID : UUID) (amount : Z) (reason : string) : M unit :=
  do id <- uuid_New ;;
  let xpTransaction := mkXPTransaction id userID amount reason "" in
  do _ <- create_xp_transaction xpTransaction ;;
  do _ <- increment_total_xp userID amount ;;
  ret tt.

(** The map of badge types already held: each award is resolved to its
    badge row by id; an award whose badge row is missing contributes the
    zero value of the type, the empty string. *)
Definition existing_badge_types (existingBadges : list UserBadge) (w : World)
  : gmap string bool :=
  fold_left
    (fun m badge =>
       let badgeInfo_Type := match first_badge (ub_BadgeID badge) w with
                             | Some badgeInfo => b_Type badgeInfo
                             | None => ""
                             end in
       <[badgeInfo_Type := true]> m)
    existingBadges ∅.

(** The [switch badge.Type] of the badge rules. *)
Definition shouldAward (user : User) (badge : Badge) (w : World) : bool :=
  if bool_decide (b_Type badge = BadgeFirstOrder) then 1 <=? count_orders_of_buyer (u_ID user) w
  else if bool_decide (b_Type badge = BadgeTopSeller) then 10 <=? count_delivered_sales (u_ID user) w
  else if bool_decide (b_Type badge = BadgeBigSpender) then PrimFloat.leb 5000 (u_TotalSpent user)
  else if bool_decide (b_Type badge = BadgeEarlyBird) then count_users w <=? 100
  else if bool_decide (b_Type badge = BadgeReviewer) then false
  else if bool_decide (b_Type badge = BadgeReferrer) then false
  else false.

Fixpoint checkAndAwardBadges_loop (user : User) (existingBadgeTypes : gmap string bool)
    (badges : list Badge) (newBadges : list UserBadge) : M (list UserBadge) :=
  match badges with
  | [] => ret newBadges
  | badge :: rest =>
      if default false (existingBadgeTypes !! b_Type badge)
      then checkAndAwardBadges_loop user existingBadgeTypes rest newBadges
      else
        do w <- get ;;
        if shouldAward user badge w then
          do id <- uuid_New ;;
          let userBadge := mkUserBadge id (u_ID user) (b_ID badge) in
          do created <- create_user_badge userBadge ;;
          if created then
            do _ <- (if 0 <? b_XPReward badge
                  then awardXP (u_ID user) (b_XPReward badge) ("Badge: " +:+ b_Name badge)
                  else ret tt) ;;
            checkAndAwardBadges_loop user existingBadgeTypes rest (newBadges ++ [userBadge])
          else checkAndAwardBadges_loop user existingBadgeTypes rest newBadges
        else checkAndAwardBadges_loop user existingBadgeTypes rest newBadges
  end.

Definition checkAndAwardBadges (user : User) : M (list UserBadge) :=
  do w <- get ;;
  let badges := badges w in
  let existingBadges := user_badges_of (u_ID user) w in
  let existingBadgeTypes := existing_badge_types existingBadges w in
  checkAndAwardBadges_loop user existingBadgeTypes badges [].

Definition CheckAndAwardBadges (body : option CheckBadgesRequest)
  : M (Response (list UserBadge)) :=
  match body with
  | None => ret (ValidationErrorResponse "Invalid request body")
  | Some req =>
      if bool_decide (cb_UserID req = uuid_Nil)
      then ret (ValidationErrorResponse "User ID is required")
      else
        do w <- get ;;
        match first_user (cb_UserID req) w with
        | None => ret (NotFoundResponse "User not found")
        | Some user =>
            do newBadges <- checkAndAwardBadges user ;;
            ret (SuccessResponse
                   ("Checked badges, awarded " +:+ pretty (length newBadges) +:+ " new badges")
                   newBadges)
        end
  end.

(** [UpdateUserLevel]: recomputes the level of a user from the stored XP. *)
Definition UpdateUserLevel (userIDParam : option UUID) : M (Response (UserLevel * UserLevel * bool * Z)) :=
  match userIDParam with
  | None => ret (ValidationErrorResponse "Invalid user ID")
  | Some userID =>
      do w <- get ;;
      match first_user userID w with
      | None => ret (NotFoundResponse "User not found")
      | Some user =>
          let oldLevel := u_Level user in
          let newLevel := calculateLevel (u_TotalXP user) in
          let leveledUp := negb (bool_decide (newLevel = oldLevel)) in
          if leveledUp then
            do updated <- update_level (u_ID user) newLevel ;;
            if negb updated
            then ret (InternalServerErrorResponse "Failed to update user level")
            else ret (SuccessResponse "User level updated successfully"
                        (oldLevel, newLevel, leveledUp, u_TotalXP user))
          else ret (SuccessResponse "User level updated successfully"
                      (oldLevel, newLevel, leveledUp, u_TotalXP user))
      end
  end.

Definition leaderboard_entries_of (score : User -> float) (users : list User)
  : list LeaderboardEntry :=
  imap (fun i user =>
          mkLeaderboardEntry (u_ID user) (u_Name user) (score user)
            (int_add (Z.of_nat i) 1) (u_Level user) (le_BadgeCount LeaderboardEntry_zero))
       users.

Definition generateBuyerLeaderboardFromDB (limit : Z) (w : World) : list LeaderboardEntry :=
  let users :=
    gorm_Limit limit
      (order_by_desc u_TotalSpent
         (List.filter (fun u => bool_decide (u_Role u = RoleBuyer)) (users w))) in
  leaderboard_entries_of u_TotalSpent users.

Definition generateSellerLeaderboardFromDB (limit : Z) (w : World) : list LeaderboardEntry :=
  let users :=
    gorm_Limit limit
      (order_by_desc u_TotalSales
         (List.filter (fun u => bool_decide (u_Role u = RoleSeller)) (users w))) in
  leaderboard_entries_of u_TotalSales users.

(** [c.QueryInt("limit", 10)]: the parameter when it is present and a
    number, the default otherwise. *)
Definition QueryInt (param : option Z) (defaultValue : Z) : Z := default defaultValue param.

Definition GetBuyerLeaderboard (limitParam : option Z) : M (Response LeaderboardResponse) :=
  fun w =>
    let limit := QueryInt limitParam 10 in
    let limit := if 50 <? limit then 50 else limit in
    let entries :=
      match Redis.GetLeaderboard "weekly_buyers" limit (cache w) with
      | Some entries => entries
      | None => generateBuyerLeaderboardFromDB limit w
      end in
    (SuccessResponse "Buyer leaderboard retrieved successfully"
       (mkLeaderboardResponse "buyers" "weekly" entries), w).

Definition GetSellerLeaderboard (limitParam : option Z) : M (Response LeaderboardResponse) :=
  fun w =>
    let limit := QueryInt limitParam 10 in
    let limit := if 50 <? limit then 50 else limit in
    let entries :=
      match Redis.GetLeaderboard "monthly_sellers" limit (cache w) with
      | Some entries => entries
      | None => generateSellerLeaderboardFromDB limit w
      end in
    (SuccessResponse "Seller leaderboard retrieved successfully"
       (mkLeaderboardResponse "sellers" "monthly" entries), w).

End Gamification.

(** ** services/order/handlers: the reward helpers of the order service *)

Module Orders.

Record UpdateOrderStatusRequest := mkUpdateOrderStatusRequest {
  usr_Status : OrderStatus;
  usr_Notes : string
}.

Definition callGamificationService (userID : UUID) (xpAmount : Z) (reason reference : string)
  : M unit :=
  do id <- uuid_New ;;
  let xpTransaction := mkXPTransaction id userID xpAmount reason reference in
  do _ <- create_xp_transaction xpTransaction ;;
  do _ <- increment_total_xp userID xpAmount ;;
  ret tt.

(** The existence check: awards joined with the badge catalog, for one
    user and one badge type. *)
Definition has_badge_of_type (userID : UUID) (badgeType : BadgeType) (w : World) : bool :=
  existsb
    (fun ub =>
       bool_decide (ub_UserID ub = userID)
       && existsb (fun b => bool_decide (b_ID b = ub_BadgeID ub)
                            && bool_decide (b_Type b = badgeType)) (badges w))
    (user_badges w).

Definition checkAndAwardBadge (userID : UUID) (badgeType : BadgeType) : M unit :=
  do w <- get ;;
  match first_user userID w with
  | None => ret tt
  | Some user =>
      if has_badge_of_type userID badgeType w then ret tt
      else
        match first_badge_of_type badgeType w with
        | None => ret tt
        | Some badge =>
            let shouldAward :=
              if bool_decide (badgeType = BadgeFirstOrder)
              then 1 <=? count_orders_of_buyer userID w
              else if bool_decide (badgeType = BadgeTopSeller)
              then 10 <=? count_delivered_sales userID w
              else if bool_decide (badgeType = BadgeBigSpender)
              then PrimFloat.leb 5000 (u_TotalSpent user)
              else false in
            if shouldAward then
              do id <- uuid_New ;;
              let userBadge := mkUserBadge id userID (b_ID badge) in
              do _ <- create_user_badge userBadge ;;
              if 0 <? b_XPReward badge
              then callGamificationService userID (b_XPReward badge)
                     ("Badge: " +:+ b_Name badge) ""
              else ret tt
            else ret tt
        end
  end.

Definition awardFirstOrderXP (userID : UUID) : M unit :=
  do w <- get ;;
  let orderCount := count_orders_of_buyer userID w in
  if orderCount =? 1 then
    do _ <- callGamificationService userID 50 "First Order" "" ;;
    checkAndAwardBadge userID BadgeFirstOrder
  else ret tt.

Definition processDeliveredOrder (order : Order) : M unit :=
  do _ <- for_each (o_Items order) (fun item =>
    let sellerID := oi_Product_SellerID item in
    let saleAmount := PrimFloat.mul (oi_Price item) (float64_of_int (oi_Quantity item)) in
    do _ <- increment_total_sales sellerID saleAmount ;;
    let xpAmount := int_of_float64 (PrimFloat.mul (PrimFloat.div saleAmount 100) 10) in
    if 0 <? xpAmount
    then callGamificationService sellerID xpAmount "Product Sale" (uuid_String (o_ID order))
    else ret tt) ;;
  let buyerXP := int_of_float64 (PrimFloat.mul (PrimFloat.div (o_TotalAmount order) 100) 5) in
  do _ <- (if 0 <? buyerXP
           then callGamificationService (o_BuyerID order) buyerXP "Order Completed"
                  (uuid_String (o_ID order))
           else ret tt) ;;
  do _ <- checkAndAwardBadge (o_BuyerID order) BadgeBigSpender ;;
  for_each (o_Items order) (fun item =>
    checkAndAwardBadge (oi_Product_SellerID item) BadgeTopSeller).

Definition validStatuses : list OrderStatus :=
  [OrderPending; OrderConfirmed; OrderProcessing; OrderShipped; OrderDelivered; OrderCancelled].

Definition set_Status_Notes (status : OrderStatus) (notes : string) (o : Order) : Order :=
  mkOrder (o_ID o) (o_BuyerID o) (o_TotalAmount o) status notes (o_Items o).

(** [orderIDParam] is the parsed path parameter, [userID] and [userRole]
    are the request locals set by the auth middleware, [body] the parsed
    request. *)
Definition UpdateOrderStatus (orderIDParam : option UUID) (userID : option UUID)
    (userRole : UserRole) (body : option UpdateOrderStatusRequest) : M (Response Order) :=
  match orderIDParam with
  | None => ret (ValidationErrorResponse "Invalid order ID")
  | Some orderID =>
  match userID with
  | None => ret (UnauthorizedResponse "User ID not found")
  | Some userID =>
  match body with
  | None => ret (ValidationErrorResponse "Invalid request body")
  | Some req =>
      let isValidStatus := existsb (fun status => bool_decide (usr_Status req = status)) validStatuses in
      if negb isValidStatus then ret (ValidationErrorResponse "Invalid order status")
      else
        do w <- get ;;
        match first_order orderID w with
        | None => ret (NotFoundResponse "Order not found")
        | Some order =>
            let hasPermission :=
              existsb (fun item => bool_decide (oi_Product_SellerID item = userID)) (o_Items order) in
            if negb (bool_decide (userRole = RoleSeller))
            then ret (ErrorResponse 403 "Only sellers can update order status")
            else if negb hasPermission
            then ret (ErrorResponse 403 "You can only update orders for your products")
            else
              let order :=
                set_Status_Notes (usr_Status req)
                  (if bool_decide (usr_Notes req = "") then o_Notes order else usr_Notes req)
                  order in
              do saved <- save_order order ;;
              if negb saved
              then ret (InternalServerErrorResponse "Failed to update order status")
              else
                do _ <- (if bool_decide (usr_Status req = OrderDelivered)
                         then processDeliveredOrder order
                         else ret tt) ;;
                do w' <- get ;;
                let order := default order (first_order (o_ID order) w') in
                ret (SuccessResponse "Order status updated successfully" order)
        end
  end end end.

End Orders.

(** ** services/auth/handlers: the signup reward helpers *)

Module Auth.

Definition calculateLevel (xp : Z) : UserLevel :=
  if 5000 <=? xp then LevelPlatinum
  else if 1500 <=? xp then LevelGold
  else if 500 <=? xp then LevelSilver
  else LevelBronze.

Definition awardXP (userID : UUID) (amount : Z) (reason : string) : M unit :=
  do id <- uuid_New ;;
  let xpTransaction := mkXPTransaction id userID amount reason "" in
  do _ <- create_xp_transaction xpTransaction ;;
  do _ <- increment_total_xp userID amount ;;
  do w <- get ;;
  match first_user userID w with
  | None => ret tt
  | Some user =>
      let newLevel := calculateLevel (u_TotalXP user) in
      if negb (bool_decide (newLevel = u_Level user))
      then do _ <- update_level (u_ID user) newLevel ;; ret tt
      else ret tt
  end.

Definition checkEarlyBirdBadge (user : User) : M unit :=
  do w <- get ;;
  let userCount := count_users w in
  if userCount <=? 100 then
    match first_badge_of_type BadgeEarlyBird w with
    | None => ret tt
    | Some badge =>
        let existingBadge :=
          List.find (fun ub => bool_decide (ub_UserID ub = u_ID user)
                               && bool_decide (ub_BadgeID ub = b_ID badge)) (user_badges w) in
        match existingBadge with
        | Some _ => ret tt
        | None =>
            do id <- uuid_New ;;
            let userBadge := mkUserBadge id (u_ID user) (b_ID badge) in
            do _ <- create_user_badge userBadge ;;
            if 0 <? b_XPReward badge
            then awardXP (u_ID user) (b_XPReward badge) "Early Bird Badge"
            else ret tt
        end
    end
  else ret tt.

End Auth.

(** ** Vocabulary of the properties *)

Module Invariants.

(** A relation between the world before and after a computation that
    holds whatever the computation returns. *)
Definition frames (R : World -> World -> Prop) {A} (m : M A) : Prop :=
  forall w, R w (m w).2.

(** A predicate on worlds that a computation maintains. *)
Definition preserves (P : World -> Prop) {A} (m : M A) : Prop :=
  forall w, P w -> P (m w).2.

(** What the badge rules read besides the user passed to them: the badge
    catalog, the orders and the number of users. *)
Definition rules_frame (w w' : World) : Prop :=
  badges w' = badges w ∧ orders w' = orders w ∧ length (users w') = length (users w).

(** The catalog and the award table are untouched. *)
Definition awards_frame (w w' : World) : Prop :=
  badges w' = badges w ∧ user_badges w' = user_badges w.

(** The catalog is untouched and the award table only grows at its end. *)
Definition awards_grow (w w' : World) : Prop :=
  badges w' = badges w ∧ exists added, user_badges w' = user_badges w ++ added.

(** A badge counts as held in the map built by the badge engine. *)
Definition held (E : gmap string bool) (b : Badge) : bool := default false (E !! b_Type b).

(** The badge type that the badge engine attributes to an award. *)
Definition award_type (w : World) (ub : UserBadge) : string :=
  match first_badge (ub_BadgeID ub) w with
  | Some badgeInfo => b_Type badgeInfo
  | None => ""
  end.

(** The award joined with the catalog is of type [t]. *)
Definition award_has_type (w : World) (t : BadgeType) (ub : UserBadge) : bool :=
  existsb (fun b => bool_decide (b_ID b = ub_BadgeID ub) && bool_decide (b_Type b = t)) (badges w).

(** The award records of a (user id, badge type) pair. *)
Definition awards_of (w : World) (u : UUID) (t : BadgeType) : list UserBadge :=
  List.filter (fun ub => bool_decide (ub_UserID ub = u) && award_has_type w t ub) (user_badges w).

Definition awards_unique (w : World) : Prop :=
  forall u t, (length (awards_of w u t) <= 1)%nat.

(** The constraints of the badge table: the primary key and the unique
    index on the type. *)
Definition catalog_wf (w : World) : Prop :=
  NoDup (map b_ID (badges w)) ∧ NoDup (map b_Type (badges w)).

Definition badge_inv (w : World) : Prop := catalog_wf w ∧ awards_unique w.

(** The XP ledger: the sum of the amounts recorded for a user, and its
    agreement with the counter kept on the user row. *)
Definition ledger_sum (uid : UUID) (w : World) : Z :=
  fold_right Z.add 0
    (map tx_Amount (List.filter (fun tx => bool_decide (tx_UserID tx = uid)) (xp_transactions w))).

Definition ledger_consistent (w : World) : Prop :=
  forall u, In u (users w) -> u_TotalXP u = ledger_sum (u_ID u) w.

(** The stored level is the level of the stored balance. *)
Definition level_consistent (w : World) : Prop :=
  forall u, In u (users w) -> u_Level u = calculateLevel (u_TotalXP u).

(** The rewards of a delivered order as [processDeliveredOrder] computes
    them. *)
Definition sale_amount (item : OrderItem) : float :=
  PrimFloat.mul (oi_Price item) (float64_of_int (oi_Quantity item)).
Definition sale_xp (item : OrderItem) : Z :=
  int_of_float64 (PrimFloat.mul (PrimFloat.div (sale_amount item) 100) 10).
Definition buyer_xp (order : Order) : Z :=
  int_of_float64 (PrimFloat.mul (PrimFloat.div (o_TotalAmount order) 100) 5).

(** A ledger entry without its identifier. *)
Definition tx_entry (tx : XPTransaction) : UUID * Z * string * string :=
  (tx_UserID tx, tx_Amount tx, tx_Reason tx, tx_Reference tx).

(** The sale and order-completion entries of one delivery, in the order
    in which they are recorded. *)
Definition delivery_rewards (order : Order) : list (UUID * Z * string * string) :=
  flat_map (fun item =>
              if 0 <? sale_xp item
              then [(oi_Product_SellerID item, sale_xp item, "Product Sale", uuid_String (o_ID order))]
              else [])
           (o_Items order)
  ++ (if 0 <? buyer_xp order
      then [(o_BuyerID order, buyer_xp order, "Order Completed", uuid_String (o_ID order))]
      else []).

(** The sales total of the user [uid] after the items of one delivery
    have been credited, item after item. *)
Definition sales_credited (items : list OrderItem) (uid : UUID) (sales : float) : float :=
  fold_left (fun acc item =>
               if bool_decide (oi_Product_SellerID item = uid)
               then PrimFloat.add acc (sale_amount item) else acc)
            items sales.

Definition sales_view (w : World) : list (UUID * float) :=
  map (fun u => (u_ID u, u_TotalSales u)) (users w).

(** What the XP and badge helpers leave alone during a delivery. *)
Definition delivery_frame (w w' : World) : Prop :=
  orders w' = orders w ∧ sales_view w' = sales_view w
  ∧ (write_faults w = [] -> write_faults w' = [])
  ∧ exists added, xp_transactions w' = xp_transactions w ++ added.

(** The body of the first loop of [processDeliveredOrder]. *)
Definition credit_item (order : Order) (item : OrderItem) : M unit :=
  let sellerID := oi_Product_SellerID item in
  let saleAmount := PrimFloat.mul (oi_Price item) (float64_of_int (oi_Quantity item)) in
  bind (increment_total_sales sellerID saleAmount) (fun _ =>
    let xpAmount := int_of_float64 (PrimFloat.mul (PrimFloat.div saleAmount 100) 10) in
    if 0 <? xpAmount
    then Orders.callGamificationService sellerID xpAmount "Product Sale" (uuid_String (o_ID order))
    else ret tt).

(** The cache as the code fills it from the user rows: one leaderboard
    update per user, in the order of the table. *)
Definition refresh_leaderboards (w : World) : World :=
  fold_left (fun w u => (Gamification.updateLeaderboards u (u_TotalXP u) w).2) (users w) w.

(** The display fields that [updateLeaderboards] stores for a user. *)
Definition leaderboard_userData (user : User) : gmap string Redis.JValue :=
  <["name" := Redis.JString (u_Name user)]>
    (<["level" := Redis.JString (u_Level user)]>
       (<["badge_count" := Redis.JNumber (float64_of_int 0)]> ∅)).

(** What [updateLeaderboards] does to the cache. *)
Definition leaderboard_update (user : User) (r : Redis.Client) : Redis.Client :=
  if bool_decide (u_Role user = RoleBuyer) then
    (Redis.SetLeaderboardEntry "weekly_buyers" (uuid_String (u_ID user)) (u_TotalSpent user)
       (leaderboard_userData user) r).2
  else if bool_decide (u_Role user = RoleSeller) then
    (Redis.SetLeaderboardEntry "monthly_sellers" (uuid_String (u_ID user)) (u_TotalSales user)
       (leaderboard_userData user) r).2
  else r.

(** A leaderboard entry without the user id. *)
Definition clear_UserID (e : LeaderboardEntry) : LeaderboardEntry :=
  mkLeaderboardEntry uuid_Nil (le_Name e) (le_Score e) (le_Rank e) (le_Level e) (le_BadgeCount e).

(** What a leaderboard entry shows of a user and their place: name,
    score, rank, level and badge count. *)
Definition entry_display (e : LeaderboardEntry) : string * float * Z * UserLevel * Z :=
  (le_Name e, le_Score e, le_Rank e, le_Level e, le_BadgeCount e).

(** The scores of a list are strictly ranked by the comparison of
    [float64]: none is NaN, any two of them are comparable one way
    (hence different), and on them the comparison is a strict order that
    agrees with the equality test. *)
Fixpoint pairwise (R : float -> float -> bool) (l : list float) : bool :=
  match l with
  | [] => true
  | a :: rest => forallb (R a) rest && pairwise R rest
  end.

Definition strictly_ranked (l : list float) : bool :=
  forallb (fun a => negb (is_nan a)) l
  && pairwise (fun a b => PrimFloat.ltb a b || PrimFloat.ltb b a) l
  && forallb (fun a => forallb (fun b =>
       implb (PrimFloat.ltb a b)
         (negb (PrimFloat.ltb b a) && negb (PrimFloat.eqb a b) && negb (PrimFloat.eqb b a))) l) l
  && forallb (fun a => forallb (fun b => forallb (fun c =>
       implb (PrimFloat.ltb a b && PrimFloat.ltb b c) (PrimFloat.ltb a c)) l) l) l.

(** [x] ranks strictly above [y]. *)
Definition ranked_above {A} (key : A -> float) (x y : A) : Prop :=
  PrimFloat.ltb (key y) (key x) = true.

(** The member of the ranked set that stands for a user. *)
Definition leaderboard_member (score : User -> float) (u : User) : string * float :=
  (uuid_String (u_ID u), score u).

(** The entry that the cache path builds for the user at index [i]. *)
Definition cached_entry (score : User -> float) (i : Z) (u : User) : LeaderboardEntry :=
  mkLeaderboardEntry uuid_Nil (u_Name u) (score u) (int_add i 1) (u_Level u) 0.

(** The part of the cache that belongs to one leaderboard. *)
Definition board_zset (board : string) (r : Redis.Client) : list (string * float) :=
  default [] (Redis.zsets r !! Redis.leaderboard_key board).
Definition board_hash (board : string) (r : Redis.Client) : gmap string Redis.JSONText :=
  default ∅ (Redis.hashes r !! Redis.leaderboard_users_key board).

(** The ranked set keeps its members in ascending order. *)
Definition ranked_below (p q : string * float) : Prop := PrimFloat.ltb p.2 q.2 = true.

(** ZADD and HSET of one user on one leaderboard. *)
Definition board_insert (score : User -> float) (z : list (string * float)) (u : User)
  : list (string * float) :=
  Redis.zset_insert (uuid_String (u_ID u)) (score u) (Redis.zset_remove (uuid_String (u_ID u)) z).

Definition board_store (h : gmap string Redis.JSONText) (u : User) : gmap string Redis.JSONText :=
  <[uuid_String (u_ID u) := Redis.JSONObject (leaderboard_userData u)]> h.

Definition is_buyer (u : User) : bool := bool_decide (u_Role u = RoleBuyer).
Definition is_seller (u : User) : bool := bool_decide (u_Role u = RoleSeller).

(** The entries carried by a leaderboard response. *)
Definition response_entries (r : Response Gamification.LeaderboardResponse)
  : list LeaderboardEntry :=
  from_option Gamification.lr_Entries [] (resp_Data r).

(** One step of the system: an operation of the reward core, or anything
    the other services and the environment do (placing orders, signing up
    users, paying, scheduling store faults, evicting the cache), which
    may change everything but the badge catalog and the award table. *)
Inductive step : World -> World -> Prop :=
| step_AddXP body w : step w (Gamification.AddXP body w).2
| step_CheckAndAwardBadges body w : step w (Gamification.CheckAndAwardBadges body w).2
| step_UpdateUserLevel p w : step w (Gamification.UpdateUserLevel p w).2
| step_UpdateOrderStatus oid uid role body w :
    step w (Orders.UpdateOrderStatus oid uid role body w).2
| step_awardFirstOrderXP uid w : step w (Orders.awardFirstOrderXP uid w).2
| step_checkEarlyBirdBadge user w : step w (Auth.checkEarlyBirdBadge user w).2
| step_environment w w' :
    badges w' = badges w -> user_badges w' = user_badges w -> step w w'.

End Invariants.
Export Invariants.

(** ** Concrete worlds used to exercise the code *)

Module Scenarios.

(** The six badges seeded by the migration. *)
Definition seed_badges : list Badge :=
  [ mkBadge 11 BadgeFirstOrder "First Order" 50;
    mkBadge 12 BadgeTopSeller "Top Seller" 200;
    mkBadge 13 BadgeBigSpender "Big Spender" 300;
    mkBadge 14 BadgeEarlyBird "Early Bird" 100;
    mkBadge 15 BadgeReviewer "Reviewer" 150;
    mkBadge 16 BadgeReferrer "Referrer" 250 ].

(** A buyer at 490 XP who has spent 250, and a seller at 0 XP. *)
Definition abebe : User := mkUser 1 "Abebe" RoleBuyer LevelBronze 490 250 0.
Definition sara : User := mkUser 2 "Sara" RoleSeller LevelBronze 0 0 0.

(** One order of the buyer: two units at 125 of a product of the seller. *)
Definition order_31 (status : OrderStatus) : Order :=
  mkOrder 31 1 250 status "" [mkOrderItem 41 51 2 125 2].

(** The shop: the ledger holds the 490 XP of the buyer, nobody holds a
    badge, the cache is empty and reachable, the store accepts writes
    unless a fault schedule says otherwise. *)
Definition shop (status : OrderStatus) (faults : list bool) : World :=
  mkWorld [abebe; sara] seed_badges [] [mkXPTransaction 21 1 490 "Earlier rewards" ""]
    [order_31 status] Redis.empty_client 100 faults.

(** [n] buyers, the i-th having spent i, all on the leaderboard. *)
Definition crowd (n : nat) : list User :=
  map (fun i => mkUser (N.of_nat (S i)) ("buyer " +:+ pretty i) RoleBuyer LevelBronze 0
                  (float64_of_int (Z.of_nat i)) 0)
      (seq 0 n).

Definition crowded_shop : World :=
  refresh_leaderboards (mkWorld (crowd 51) seed_badges [] [] [] Redis.empty_client 100 []).

(** Three buyers and two sellers with different totals. *)
Definition market : World :=
  mkWorld [ mkUser 1 "Abebe" RoleBuyer LevelBronze 490 250 0;
            mkUser 2 "Sara" RoleSeller LevelSilver 700 0 1250.5;
            mkUser 3 "Kebede" RoleBuyer LevelGold 1600 5100 0;
            mkUser 4 "Marta" RoleSeller LevelBronze 10 0 300;
            mkUser 5 "Lidia" RoleBuyer LevelBronze 0 0 0 ]
    seed_badges [] [] [] Redis.empty_client 100 [].

End Scenarios.

(** * The code around the reward core

    The remaining helpers of the files above and their callers: the level
    views of the gamification service, the payment reward, the badge seed
    of the migration, the bearer-token helper and the role middleware with
    the route it guards, the order lookup, and the order placement of the
    order service with the product table it reads. *)

(** ** shared/utils/jwt.go *)

Module JWT.

(** [authHeader[:7]] and [authHeader[7:]] are byte slices of the header. *)
Definition ExtractTokenFromHeader (authHeader : string) : string :=
  if (7 <? String.length authHeader)%nat
     && bool_decide (String.substring 0 7 authHeader = "Bearer ")
  then String.substring 7 (String.length authHeader - 7) authHeader
  else "".

End JWT.

(** ** shared/middleware and the status route of the order service *)

Module Middleware.

(** A middleware answers the request itself or hands it to the next
    handler ([c.Next()]). *)
Inductive Outcome (A : Type) :=
| Reply (r : Response A)
| Next.
Arguments Reply {A}.
Arguments Next {A}.

(** [user_role] is the request local of that name; [None] when it is
    absent or not a [models.UserRole]. *)
Definition RoleMiddleware {A} (allowedRoles : list UserRole) (user_role : option UserRole)
  : Outcome A :=
  match user_role with
  | None => Reply (UnauthorizedResponse "User role not found")
  | Some userRole =>
      if existsb (fun role => bool_decide (userRole = role)) allowedRoles
      then Next
      else Reply (ErrorResponse 403 "Insufficient permissions")
  end.

(** [SetupOrderRoutes]: PUT /orders/:id/status is registered behind
    [RoleMiddleware(models.RoleSeller)].  [user_id] and [user_role] are
    the locals left by the authentication middleware; the handler reads
    an absent role as the empty role. *)
Definition PutOrderStatus (orderIDParam : option UUID) (user_id : option UUID)
    (user_role : option UserRole) (body : option Orders.UpdateOrderStatusRequest)
  : M (Response Order) :=
  match RoleMiddleware [RoleSeller] user_role with
  | Reply r => ret r
  | Next => Orders.UpdateOrderStatus orderIDParam user_id (default "" user_role) body
  end.

End Middleware.

(** ** services/gamification/handlers: the level and XP views *)

Module GamificationViews.

Definition calculateLevelProgress (currentXP : Z) (currentLevel : UserLevel) : float :=
  if bool_decide (currentLevel = LevelBronze)
  then PrimFloat.mul (PrimFloat.div (float64_of_int currentXP) 500) 100
  else if bool_decide (currentLevel = LevelSilver)
  then PrimFloat.mul (PrimFloat.div (float64_of_int (int_sub currentXP 500)) 1000) 100
  else if bool_decide (currentLevel = LevelGold)
  then PrimFloat.mul (PrimFloat.div (float64_of_int (int_sub currentXP 1500)) 3500) 100
  else if bool_decide (currentLevel = LevelPlatinum) then 100%float
  else 0%float.

(** The values of the [map[string]interface{}] built by [getLevelInfo]. *)
Inductive InfoValue :=
| InfoLevel (l : UserLevel)
| InfoInt (n : Z)
| InfoNil
| InfoString (s : string).

Definition getLevelInfo (level : UserLevel) : gmap string InfoValue :=
  let levelInfo : gmap string InfoValue := {[ "name" := InfoLevel level ]} in
  if bool_decide (level = LevelBronze) then
    <["color" := InfoString "#CD7F32"]>
      (<["max_xp" := InfoInt 499]> (<["min_xp" := InfoInt 0]> levelInfo))
  else if bool_decide (level = LevelSilver) then
    <["color" := InfoString "#C0C0C0"]>
      (<["max_xp" := InfoInt 1499]> (<["min_xp" := InfoInt 500]> levelInfo))
  else if bool_decide (level = LevelGold) then
    <["color" := InfoString "#FFD700"]>
      (<["max_xp" := InfoInt 4999]> (<["min_xp" := InfoInt 1500]> levelInfo))
  else if bool_decide (level = LevelPlatinum) then
    <["color" := InfoString "#E5E4E2"]>
      (<["max_xp" := InfoNil]> (<["min_xp" := InfoInt 5000]> levelInfo))
  else levelInfo.

Record UserXP := mkUserXP {
  ux_user_id : UUID;
  ux_total_xp : Z;
  ux_level : UserLevel;
  ux_xp_to_next_level : Z;
  ux_level_progress : float
}.

Definition GetUserXP (userIDParam : option UUID) : M (Response UserXP) :=
  match userIDParam with
  | None => ret (ValidationErrorResponse "Invalid user ID")
  | Some userID =>
      do w <- get ;;
      match first_user userID w with
      | None => ret (NotFoundResponse "User not found")
      | Some user =>
          let xpToNextLevel := calculateXPToNextLevel (u_TotalXP user) (u_Level user) in
          ret (SuccessResponse "User XP retrieved successfully"
                 (mkUserXP (u_ID user) (u_TotalXP user) (u_Level user) xpToNextLevel
                    (calculateLevelProgress (u_TotalXP user) (u_Level user))))
      end
  end.

Record UserLevelInfo := mkUserLevelInfo {
  ul_user_id : UUID;
  ul_level : UserLevel;
  ul_total_xp : Z;
  ul_xp_to_next_level : Z;
  ul_level_progress : float;
  ul_level_info : gmap string InfoValue
}.

Definition GetUserLevel (userIDParam : option UUID) : M (Response UserLevelInfo) :=
  match userIDParam with
  | None => ret (ValidationErrorResponse "Invalid user ID")
  | Some userID =>
      do w <- get ;;
      match first_user userID w with
      | None => ret (NotFoundResponse "User not found")
      | Some user =>
          ret (SuccessResponse "User level retrieved successfully"
                 (mkUserLevelInfo (u_ID user) (u_Level user) (u_TotalXP user)
                    (calculateXPToNextLevel (u_TotalXP user) (u_Level user))
                    (calculateLevelProgress (u_TotalXP user) (u_Level user))
                    (getLevelInfo (u_Level user))))
      end
  end.

End GamificationViews.

(** ** services/payment/handlers: the payment reward *)

Module Payments.

Definition PaymentMethod := string.
Definition PaymentStatus := string.

Record Payment := mkPayment {
  pay_ID : UUID;
  pay_OrderID : UUID;
  pay_Amount : float;
  pay_Method : PaymentMethod;
  pay_Status : PaymentStatus;
  pay_TransactionID : string;
  pay_Reference : string
}.

Definition awardPaymentXP (payment : Payment) : M unit :=
  do w <- get ;;
  match first_order (pay_OrderID payment) w with
  | None => ret tt
  | Some order =>
      do id <- uuid_New ;;
      let xpTransaction :=
        mkXPTransaction id (o_BuyerID order) 10 "Payment Completed"
          (uuid_String (pay_ID payment)) in
      do _ <- create_xp_transaction xpTransaction ;;
      do _ <- increment_total_xp (o_BuyerID order) 10 ;;
      ret tt
  end.

End Payments.

(** ** shared/database: the badge seed of the migration *)

Module Migration.

Definition with_badges (x : list Badge) (w : World) : World :=
  mkWorld (users w) x (user_badges w) (xp_transactions w) (orders w) (cache w)
    (uuid_supply w) (write_faults w).

(** [DB.Create(&badge)]: the table refuses a second row with the same
    primary key or, by its unique index, with the same type. *)
Definition create_badge (b : Badge) : M bool :=
  db_exec (fun w =>
    if existsb (fun b' => bool_decide (b_ID b' = b_ID b) || bool_decide (b_Type b' = b_Type b))
         (badges w)
    then None
    else Some (with_badges (badges w ++ [b]) w)).

(** The badges of the seed: type, name and XP reward.  The seed leaves
    the identifier to the store, which generates it on insertion; here it
    is drawn from the supply. *)
Definition seed : list (BadgeType * string * Z) :=
  [ (BadgeFirstOrder, "First Order", 50);
    (BadgeTopSeller, "Top Seller", 200);
    (BadgeBigSpender, "Big Spender", 300);
    (BadgeEarlyBird, "Early Bird", 100);
    (BadgeReviewer, "Reviewer", 150);
    (BadgeReferrer, "Referrer", 250) ].

Definition seed_badge (badge : BadgeType * string * Z) : M unit :=
  do w <- get ;;
  match first_badge_of_type badge.1.1 w with
  | Some existingBadge => ret tt
  | None =>
      do id <- uuid_New ;;
      do _ <- create_badge (mkBadge id badge.1.1 badge.1.2 badge.2) ;;
      ret tt
  end.

Definition seedBadges : M unit := for_each seed seed_badge.

End Migration.

(** ** services/order/handlers: reading one order *)

Module OrderQueries.

(** The rows that the query of [GetOrder] can return for a caller: a
    buyer is restricted to the orders they placed, a seller to the orders
    joined with one of their products, any other role is not restricted. *)
Definition visible_to (userID : UUID) (userRole : UserRole) (o : Order) : bool :=
  if bool_decide (userRole = RoleBuyer) then bool_decide (o_BuyerID o = userID)
  else if bool_decide (userRole = RoleSeller)
  then existsb (fun item => bool_decide (oi_Product_SellerID item = userID)) (o_Items o)
  else true.

Definition GetOrder (orderIDParam : option UUID) (userID : option UUID) (userRole : UserRole)
  : M (Response Order) :=
  match orderIDParam with
  | None => ret (ValidationErrorResponse "Invalid order ID")
  | Some orderID =>
  match userID with
  | None => ret (UnauthorizedResponse "User ID not found")
  | Some userID =>
      do w <- get ;;
      match List.find (fun o => bool_decide (o_ID o = orderID) && visible_to userID userRole o)
              (orders w) with
      | None => ret (NotFoundResponse "Order not found")
      | Some order => ret (SuccessResponse "Order retrieved successfully" order)
      end
  end end.

End OrderQueries.

(** ** services/order/handlers: placing an order

    The order service reads and updates the product table, which joins
    the world here.  An order row carries its items, and an item the
    seller of its product, as the preloading reads them back; the order
    number and the shipping address of the row are not kept. *)

Module Storefront.

Record Product := mkProduct {
  p_ID : UUID;
  p_Name : string;
  p_Description : string;
  p_Price : float;
  p_Stock : Z;
  p_Category : string;
  p_ImageURL : string;
  p_IsActive : bool;
  p_SellerID : UUID
}.

Record Store := mkStore {
  world : World;
  products : list Product
}.

Definition with_world (x : World) (s : Store) : Store := mkStore x (products s).
Definition with_products (x : list Product) (s : Store) : Store := mkStore (world s) x.

(** Computations over the store. *)
Definition MS (A : Type) : Type := Store -> A * Store.

Definition sret {A} (a : A) : MS A := fun s => (a, s).
Definition sbind {A B} (m : MS A) (k : A -> MS B) : MS B :=
  fun s => let (a, s') := m s in k a s'.
Definition sget : MS Store := fun s => (s, s).

(** A computation over the world, run on the world of the store. *)
Definition lift {A} (m : M A) : MS A :=
  fun s => let (a, w') := m (world s) in (a, with_world w' s).

Notation "'dos' x <- m ;; k" := (sbind m (fun x => k))
  (at level 10, x name, m at level 99, k at level 200, only parsing).

(** A write statement on the product table; see [db_exec]. *)
Definition store_exec (stmt : Store -> option Store) : MS bool :=
  fun s =>
    let (fault, s1) :=
      match write_faults (world s) with
      | [] => (false, s)
      | f :: fs => (f, with_world (with_write_faults fs (world s)) s)
      end in
    if fault then (false, s1)
    else match stmt s1 with
         | None => (false, s1)
         | Some s2 => (true, s2)
         end.

(** [tx.First(&product, id)] *)
Definition first_product (id : UUID) (s : Store) : option Product :=
  List.find (fun p => bool_decide (p_ID p = id)) (products s).

Definition set_Stock (stock : Z) (p : Product) : Product :=
  mkProduct (p_ID p) (p_Name p) (p_Description p) (p_Price p) stock (p_Category p)
    (p_ImageURL p) (p_IsActive p) (p_SellerID p).

(** [tx.Model(&product).Update("stock", v)] *)
Definition update_stock (id : UUID) (v : Z) : MS bool :=
  store_exec (fun s =>
    Some (with_products
            (map (fun p => if bool_decide (p_ID p = id) then set_Stock v p else p) (products s))
            s)).

(** [tx.Create(&order)]: the table refuses a second row with the same
    primary key. *)
Definition create_order (o : Order) : M bool :=
  db_exec (fun w =>
    if existsb (fun o' => bool_decide (o_ID o' = o_ID o)) (orders w)
    then None
    else Some (with_orders (orders w ++ [o]) w)).

Definition add_Item (item : OrderItem) (o : Order) : Order :=
  mkOrder (o_ID o) (o_BuyerID o) (o_TotalAmount o) (o_Status o) (o_Notes o) (o_Items o ++ [item]).

(** [tx.Create(&item)] for an item of the order [orderID] *)
Definition create_order_item (orderID : UUID) (item : OrderItem) : M bool :=
  db_exec (fun w =>
    Some (with_orders
            (map (fun o => if bool_decide (o_ID o = orderID) then add_Item item o else o)
               (orders w)) w)).

Definition set_TotalSpent (x : float) (u : User) : User :=
  mkUser (u_ID u) (u_Name u) (u_Role u) (u_Level u) (u_TotalXP u) x (u_TotalSales u).

(** [... Update("total_spent", gorm.Expr("total_spent + ?", x))]: a
    binary64 addition, as for [increment_total_sales]. *)
Definition increment_total_spent (id : UUID) (x : float) : M bool :=
  db_exec (fun w =>
    Some (with_users
            (update_where_id id (fun u => set_TotalSpent (PrimFloat.add (u_TotalSpent u) x) u)
               (users w)) w)).

(** The tables as they were when the transaction began; the cache, the
    identifier supply and the fault schedule are not part of it. *)
Definition restore (begin s : Store) : Store :=
  mkStore
    (mkWorld (users (world begin)) (badges (world begin)) (user_badges (world begin))
       (xp_transactions (world begin)) (orders (world begin)) (cache (world s))
       (uuid_supply (world s)) (write_faults (world s)))
    (products begin).

(** [tx.Rollback()] *)
Definition Rollback (begin : Store) : MS unit := fun s => (tt, restore begin s).

(** [tx.Commit()]: a commit that the store rejects leaves the tables as
    they were when the transaction began. *)
Definition Commit (begin : Store) : MS bool :=
  fun s =>
    match write_faults (world s) with
    | true :: fs =>
        (false, restore begin (with_world (with_write_faults fs (world s)) s))
    | false :: fs => (true, with_world (with_write_faults fs (world s)) s)
    | [] => (true, s)
    end.

Record OrderItemRequest := mkOrderItemRequest {
  oir_ProductID : UUID;
  oir_Quantity : Z
}.

Record CreateOrderRequest := mkCreateOrderRequest {
  cor_Items : list OrderItemRequest;
  cor_ShippingAddress : string;
  cor_Notes : string
}.

(** The loop over the requested items: [inl] is the response of an early
    return, [inr] the total and the items when the loop ends. *)
Fixpoint process_items (items : list OrderItemRequest) (totalAmount : float)
    (orderItems : list OrderItem) : MS (Response Order + float * list OrderItem) :=
  match items with
  | [] => sret (inr (totalAmount, orderItems))
  | item :: rest =>
      dos s <- sget ;;
      match first_product (oir_ProductID item) s with
      | None =>
          sret (inl (NotFoundResponse
                       ("Product " +:+ uuid_String (oir_ProductID item) +:+ " not found")))
      | Some product =>
          if negb (p_IsActive product)
          then sret (inl (ValidationErrorResponse
                            ("Product " +:+ p_Name product +:+ " is not available")))
          else if p_Stock product <? oir_Quantity item
          then sret (inl (ValidationErrorResponse
                            ("Insufficient stock for product " +:+ p_Name product
                             +:+ ". Available: " +:+ pretty (p_Stock product)
                             +:+ ", Requested: " +:+ pretty (oir_Quantity item))))
          else
            let itemTotal :=
              PrimFloat.mul (p_Price product) (float64_of_int (oir_Quantity item)) in
            let totalAmount := PrimFloat.add totalAmount itemTotal in
            dos id <- lift uuid_New ;;
            let orderItem :=
              mkOrderItem id (oir_ProductID item) (oir_Quantity item) (p_Price product)
                (p_SellerID product) in
            let orderItems := orderItems ++ [orderItem] in
            dos updated <- update_stock (p_ID product)
                             (int_sub (p_Stock product) (oir_Quantity item)) ;;
            if negb updated
            then sret (inl (InternalServerErrorResponse "Failed to update product stock"))
            else process_items rest totalAmount orderItems
      end
  end.

(** The loop that saves the order items; [false] when a creation failed. *)
Fixpoint create_order_items (orderID : UUID) (orderItems : list OrderItem) : M bool :=
  match orderItems with
  | [] => ret true
  | item :: rest =>
      do created <- create_order_item orderID item ;;
      if negb created then ret false else create_order_items orderID rest
  end.

Definition set_TotalAmount (x : float) (o : Order) : Order :=
  mkOrder (o_ID o) (o_BuyerID o) x (o_Status o) (o_Notes o) (o_Items o).

(** [userID] is the request local set by the auth middleware, [body] the
    parsed request. *)
Definition CreateOrder (userID : option UUID) (body : option CreateOrderRequest)
  : MS (Response Order) :=
  match userID with
  | None => sret (UnauthorizedResponse "User ID not found")
  | Some userID =>
  match body with
  | None => sret (ValidationErrorResponse "Invalid request body")
  | Some req =>
      if (length (cor_Items req) =? 0)%nat
      then sret (ValidationErrorResponse "Order must contain at least one item")
      else if bool_decide (cor_ShippingAddress req = "")
      then sret (ValidationErrorResponse "Shipping address is required")
      else
        dos begin <- sget ;;
        dos orderID <- lift uuid_New ;;
        let order := mkOrder orderID userID 0 OrderPending (cor_Notes req) [] in
        dos processed <- process_items (cor_Items req) 0 [] ;;
        match processed with
        | inl response => dos _ <- Rollback begin ;; sret response
        | inr (totalAmount, orderItems) =>
            let order := set_TotalAmount totalAmount order in
            dos created <- lift (create_order order) ;;
            if negb created
            then dos _ <- Rollback begin ;;
                 sret (InternalServerErrorResponse "Failed to create order")
            else
              dos saved <- lift (create_order_items orderID orderItems) ;;
              if negb saved
              then dos _ <- Rollback begin ;;
                   sret (InternalServerErrorResponse "Failed to create order items")
              else
                dos updated <- lift (increment_total_spent userID totalAmount) ;;
                if negb updated
                then dos _ <- Rollback begin ;;
                     sret (InternalServerErrorResponse "Failed to update user stats")
                else
                  dos committed <- Commit begin ;;
                  if negb committed
                  then sret (InternalServerErrorResponse "Failed to commit transaction")
                  else
                    dos s <- sget ;;
                    let order := default order (first_order orderID (world s)) in
                    dos _ <- lift (Orders.awardFirstOrderXP userID) ;;
                    sret (mkResponse 201 true "Order created successfully" (Some order))
        end
  end end.

End Storefront.

(** ** services/user/handlers: the statistics of a user

    The answer without its two time stamps ([member_since],
    [last_login]). *)

Module UserStatistics.
Import Storefront.

Record UserStats := mkUserStats {
  us_user_id : UUID;
  us_name : string;
  us_level : UserLevel;
  us_total_xp : Z;
  us_xp_to_next_level : Z;
  us_total_spent : float;
  us_total_sales : float;
  us_order_count : Z;
  us_product_count : Z;
  us_badge_count : Z
}.

Definition GetUserStats (userIDParam : option UUID) : MS (Response UserStats) :=
  match userIDParam with
  | None => sret (ValidationErrorResponse "Invalid user ID")
  | Some userID =>
      dos s <- sget ;;
      match first_user userID (world s) with
      | None => sret (NotFoundResponse "User not found")
      | Some user =>
          let orderCount := count_orders_of_buyer userID (world s) in
          let productCount :=
            Z.of_nat (length (List.filter (fun p => bool_decide (p_SellerID p = userID))
                                (products s))) in
          let badgeCount := Z.of_nat (length (user_badges_of userID (world s))) in
          let xpToNextLevel :=
            if bool_decide (u_Level user = LevelBronze) then int_sub 500 (u_TotalXP user)
            else if bool_decide (u_Level user = LevelSilver) then int_sub 1500 (u_TotalXP user)
            else if bool_decide (u_Level user = LevelGold) then int_sub 5000 (u_TotalXP user)
            else if bool_decide (u_Level user = LevelPlatinum) then 0
            else 0 in
          let xpToNextLevel := if xpToNextLevel <? 0 then 0 else xpToNextLevel in
          sret (SuccessResponse "User statistics retrieved successfully"
                  (mkUserStats (u_ID user) (u_Name user) (u_Level user) (u_TotalXP user)
                     xpToNextLevel (u_TotalSpent user) (u_TotalSales user)
                     orderCount productCount badgeCount))
      end
  end.

End UserStatistics.

(** ** Vocabulary of the properties of this part *)

Module Frames.

(** The cache is untouched. *)
Definition cache_frame (w w' : World) : Prop := cache w' = cache w.

(** The tables and the cache are untouched. *)
Definition tables_frame (w w' : World) : Prop :=
  users w' = users w ∧ badges w' = badges w ∧ user_badges w' = user_badges w
  ∧ xp_transactions w' = xp_transactions w ∧ orders w' = orders w ∧ cache w' = cache w.

(** The order table is untouched. *)
Definition orders_frame (w w' : World) : Prop := orders w' = orders w.

End Frames.
Export Frames.

(** ** Vocabulary of the properties of order placement *)

Module Purchase.
Import Storefront.

(** Two product tables that differ at most in the stock of their rows. *)
Definition stock_only (ps ps' : list Product) : Prop :=
  Forall2 (fun p p' => set_Stock (p_Stock p) p' = p) ps ps'.

(** The total of a list of order items: the item amounts (price times
    quantity, as [sale_amount]) added up from 0 in the order of the list. *)
Definition items_total (items : list OrderItem) : float :=
  fold_left (fun total item => PrimFloat.add total (sale_amount item)) items 0%float.

(** The item carries the price and the seller of its product in the
    table, and that product is active. *)
Definition priced_from (ps : list Product) (item : OrderItem) : Prop :=
  exists p,
    List.find (fun p => bool_decide (p_ID p = oi_ProductID item)) ps = Some p
    ∧ oi_Price item = p_Price p ∧ oi_Product_SellerID item = p_SellerID p
    ∧ p_IsActive p = true.

(** The order with [items] added at the end of its items. *)
Definition add_Items (items : list OrderItem) (o : Order) : Order :=
  mkOrder (o_ID o) (o_BuyerID o) (o_TotalAmount o) (o_Status o) (o_Notes o) (o_Items o ++ items).

(** The quantity of one product in a request, over all its lines. *)
Definition ordered_quantity (id : UUID) (items : list OrderItemRequest) : Z :=
  fold_right (fun it n => if bool_decide (oir_ProductID it = id) then oir_Quantity it + n else n)
    0 items.

(** The products and quantities of a list of items. *)
Definition requested (items : list OrderItem) : list (UUID * Z) :=
  map (fun item => (oi_ProductID item, oi_Quantity item)) items.

Definition spent_view (w : World) : list (UUID * float) :=
  map (fun u => (u_ID u, u_TotalSpent u)) (users w).

(** What the first-order reward leaves alone. *)
Definition purchase_frame (w w' : World) : Prop :=
  orders w' = orders w ∧ spent_view w' = spent_view w ∧ cache w' = cache w
  ∧ badges w' = badges w.

(** The product table and the tables and cache of the world are
    untouched. *)
Definition store_frame (s s' : Store) : Prop :=
  products s' = products s ∧ tables_frame (world s) (world s').

End Purchase.
Export Purchase.

(** ** A store for the examples *)

Module Stall.
Import Storefront.

(** Two products of the two sellers of [Scenarios.market]. *)
Definition coffee : Product := mkProduct 51 "Coffee" "Sidamo, 1 kg" 125 10 "food" "" true 2.
Definition honey : Product := mkProduct 52 "Honey" "White honey, 500 g" 80.5 3 "food" "" true 4.

Definition stall : Store := mkStore Scenarios.market [coffee; honey].

(** Two units of coffee and one of honey. *)
Definition basket : CreateOrderRequest :=
  mkCreateOrderRequest [mkOrderItemRequest 51 2; mkOrderItemRequest 52 1] "Bole, Addis Ababa" "".

End Stall.

(** * Requests that overlap

    The handlers above are functions that run to completion.  The
    services run requests and detached goroutines concurrently, and take
    no lock and open no transaction around the reward statements; what
    the store runs atomically is a single statement.  This part splits
    the badge and XP operations at their statements and lets the
    statements of different operations interleave.  A configuration is
    the world together with the operations that are between two of their
    statements. *)

Module Overlap.

(** ** The badge operations, statement by statement *)

(** The reads of the order service's [checkAndAwardBadge]: the user, the
    existence check, the badge and the rule.  The result is the badge the
    operation goes on to award. *)
Definition checkAndAwardBadge_decide (userID : UUID) (badgeType : BadgeType) (w : World)
  : option Badge :=
  match first_user userID w with
  | None => None
  | Some user =>
      if Orders.has_badge_of_type userID badgeType w then None
      else
        match first_badge_of_type badgeType w with
        | None => None
        | Some badge =>
            let shouldAward :=
              if bool_decide (badgeType = BadgeFirstOrder)
              then 1 <=? count_orders_of_buyer userID w
              else if bool_decide (badgeType = BadgeTopSeller)
              then 10 <=? count_delivered_sales userID w
              else if bool_decide (badgeType = BadgeBigSpender)
              then PrimFloat.leb 5000 (u_TotalSpent user)
              else false in
            if shouldAward then Some badge else None
        end
  end.

(** The reads of the auth service's [checkEarlyBirdBadge]. *)
Definition checkEarlyBirdBadge_decide (user : User) (w : World) : option Badge :=
  if count_users w <=? 100 then
    match first_badge_of_type BadgeEarlyBird w with
    | None => None
    | Some badge =>
        match List.find (fun ub => bool_decide (ub_UserID ub = u_ID user)
                                   && bool_decide (ub_BadgeID ub = b_ID badge))
                (user_badges w) with
        | Some _ => None
        | None => Some badge
        end
    end
  else None.

(** The insert of an award: [uuid.New()] and [DB.Create(&userBadge)]. *)
Definition insert_award (userID : UUID) (badge : Badge) : M bool :=
  do id <- uuid_New ;;
  create_user_badge (mkUserBadge id userID (b_ID badge)).

(** A badge operation between its reads and its insert.  The badge
    engine reads the awards of the user once ([existingBadgeTypes]) and
    then walks through the catalog it has read. *)
Inductive BadgeInFlight :=
| Decided (userID : UUID) (badge : Badge)
| EngineAt (user : User) (existingBadgeTypes : gmap string bool) (badges : list Badge)
| EngineDecided (user : User) (existingBadgeTypes : gmap string bool) (badge : Badge)
    (badges : list Badge).

(** One statement of the system.  [step] stands for the handlers that
    run without interference and for everything that leaves the catalog
    and the awards alone, the XP credit that follows an insert included.
    [guard] is what a schedule promises about the state in which an
    insert runs. *)
Inductive award_step (guard : World -> UUID -> Badge -> Prop)
  : World * list BadgeInFlight -> World * list BadgeInFlight -> Prop :=
| as_step w w' P :
    step w w' -> award_step guard (w, P) (w', P)
| as_order_decide userID badgeType badge w P :
    checkAndAwardBadge_decide userID badgeType w = Some badge ->
    award_step guard (w, P) (w, Decided userID badge :: P)
| as_early_decide user badge w P :
    checkEarlyBirdBadge_decide user w = Some badge ->
    award_step guard (w, P) (w, Decided (u_ID user) badge :: P)
| as_insert userID badge w P1 P2 :
    guard w userID badge ->
    award_step guard (w, P1 ++ Decided userID badge :: P2)
      ((insert_award userID badge w).2, P1 ++ P2)
| as_engine_start user w P :
    award_step guard (w, P)
      (w, EngineAt user
            (Gamification.existing_badge_types (user_badges_of (u_ID user) w) w)
            (badges w) :: P)
| as_engine_skip user E badge rest w P1 P2 :
    held E badge = true ∨ Gamification.shouldAward user badge w = false ->
    award_step guard (w, P1 ++ EngineAt user E (badge :: rest) :: P2)
      (w, P1 ++ EngineAt user E rest :: P2)
| as_engine_decide user E badge rest w P1 P2 :
    held E badge = false -> Gamification.shouldAward user badge w = true ->
    award_step guard (w, P1 ++ EngineAt user E (badge :: rest) :: P2)
      (w, P1 ++ EngineDecided user E badge rest :: P2)
| as_engine_insert user E badge rest w P1 P2 :
    guard w (u_ID user) badge ->
    award_step guard (w, P1 ++ EngineDecided user E badge rest :: P2)
      ((insert_award (u_ID user) badge w).2, P1 ++ EngineAt user E rest :: P2)
| as_engine_done user E w P1 P2 :
    award_step guard (w, P1 ++ EngineAt user E [] :: P2) (w, P1 ++ P2).

(** Any schedule. *)
Definition any_schedule : World -> UUID -> Badge -> Prop := fun _ _ _ => True.

(** A schedule in which no award of the same user and badge type is
    inserted between the reads of an operation and its insert: when the
    insert runs, the user still holds no award of the type. *)
Definition without_overlap (w : World) (userID : UUID) (badge : Badge) : Prop :=
  awards_of w userID (b_Type badge) = [].

(** The badges an operation in flight may still insert are rows of the
    catalog. *)
Definition from_catalog (w : World) (t : BadgeInFlight) : Prop :=
  match t with
  | Decided _ badge => In badge (badges w)
  | EngineAt _ _ rest => forall b, In b rest -> In b (badges w)
  | EngineDecided _ _ badge rest =>
      In badge (badges w) ∧ forall b, In b rest -> In b (badges w)
  end.

(** ** The XP operations, statement by statement *)

(** The ledger write of [callGamificationService], of the two [awardXP]
    and of [awardPaymentXP]: [uuid.New()] and [DB.Create(&xpTransaction)]. *)
Definition record_xp (userID : UUID) (amount : Z) (reason reference : string) : M bool :=
  do id <- uuid_New ;;
  create_xp_transaction (mkXPTransaction id userID amount reason reference).

(** [AddXP] up to the read of the user; [None] when it answers before. *)
Definition AddXP_read (req : Gamification.AddXPRequest) (w : World) : option User :=
  if bool_decide (Gamification.req_UserID req = uuid_Nil)
     || (Gamification.req_Amount req =? 0)
     || bool_decide (Gamification.req_Reason req = "")
  then None
  else first_user (Gamification.req_UserID req) w.

(** The ledger write of [AddXP]. *)
Definition AddXP_record (req : Gamification.AddXPRequest) : M (bool * XPTransaction) :=
  do id <- uuid_New ;;
  let xpTransaction :=
    mkXPTransaction id (Gamification.req_UserID req) (Gamification.req_Amount req)
      (Gamification.req_Reason req) (Gamification.req_Reference req) in
  do created <- create_xp_transaction xpTransaction ;;
  ret (created, xpTransaction).

(** [AddXP] from the counter write on, for the user as it was read. *)
Definition AddXP_finish (user : User) (req : Gamification.AddXPRequest)
    (xpTransaction : XPTransaction) : M (Response Gamification.AddXPResult) :=
  let oldXP := u_TotalXP user in
  let newXP := int_add oldXP (Gamification.req_Amount req) in
  do updated <- update_total_xp (u_ID user) newXP ;;
  if negb updated
  then ret (InternalServerErrorResponse "Failed to update user XP")
  else
    let user := set_TotalXP newXP user in
    let oldLevel := calculateLevel oldXP in
    let newLevel := calculateLevel newXP in
    let leveledUp := negb (bool_decide (newLevel = oldLevel)) in
    do user <- (if leveledUp
             then do _ <- update_level (u_ID user) newLevel ;;
                  ret (set_Level newLevel user)
             else ret user) ;;
    do _ <- Gamification.updateLeaderboards user newXP ;;
    ret (SuccessResponse "XP added successfully"
           (Gamification.mkAddXPResult (Gamification.req_UserID req) oldXP newXP
              (Gamification.req_Amount req) oldLevel newLevel leveledUp xpTransaction)).

(** The counters: the balance stored for each user row. *)
Definition balances (w : World) : list (UUID * Z) :=
  map (fun u => (u_ID u, u_TotalXP u)) (users w).

(** An XP operation between two of its statements: a credit whose ledger
    entry is written and whose counter increment is to come, and [AddXP]
    after its read and after its ledger write. *)
Inductive XPInFlight :=
| Recorded (userID : UUID) (amount : Z)
| AddXPRead (user : User) (req : Gamification.AddXPRequest)
| AddXPRecorded (user : User) (req : Gamification.AddXPRequest) (xpTransaction : XPTransaction).

(** One statement of the system.  [xs_other] is anything that leaves the
    ledger and the counters alone.  [guard] is what a schedule promises
    about the state in which a counter write runs. *)
Inductive xp_step (guard : World -> list XPInFlight -> UUID -> Z -> Prop)
  : World * list XPInFlight -> World * list XPInFlight -> Prop :=
| xs_record userID amount reason reference w P :
    xp_step guard (w, P)
      ((record_xp userID amount reason reference w).2, Recorded userID amount :: P)
| xs_increment userID amount w P1 P2 :
    guard w (P1 ++ P2) userID amount ->
    xp_step guard (w, P1 ++ Recorded userID amount :: P2)
      ((increment_total_xp userID amount w).2, P1 ++ P2)
| xs_add_read req user w P :
    AddXP_read req w = Some user ->
    xp_step guard (w, P) (w, AddXPRead user req :: P)
| xs_add_record user req w P1 P2 :
    xp_step guard (w, P1 ++ AddXPRead user req :: P2)
      ((AddXP_record req w).2,
       P1 ++ (if (AddXP_record req w).1.1
              then [AddXPRecorded user req (AddXP_record req w).1.2] else []) ++ P2)
| xs_add_finish user req xpTransaction w P1 P2 :
    guard w (P1 ++ P2) (u_ID user) (Gamification.req_Amount req) ->
    xp_step guard (w, P1 ++ AddXPRecorded user req xpTransaction :: P2)
      ((AddXP_finish user req xpTransaction w).2, P1 ++ P2)
| xs_other w w' P :
    xp_transactions w' = xp_transactions w ->
    balances w' = balances w ->
    write_faults w' = write_faults w ->
    xp_step guard (w, P) (w', P).

(** Any schedule. *)
Definition any_order : World -> list XPInFlight -> UUID -> Z -> Prop := fun _ _ _ _ => True.

(** A schedule in which the counter of a user is not written while an
    [AddXP] for that user is between its read and its counter write, and
    in which the new balance fits the column. *)
Definition in_order (w : World) (P : list XPInFlight) (userID : UUID) (amount : Z) : Prop :=
  xp_increment_fits userID amount w = true
  ∧ Forall (fun t => match t with
                     | Recorded _ _ => True
                     | AddXPRead user _ | AddXPRecorded user _ _ => u_ID user <> userID
                     end) P.

(** The amounts recorded in the ledger for a user whose counter write is
    still to come. *)
Definition outstanding (userID : UUID) (P : list XPInFlight) : Z :=
  fold_right
    (fun t n =>
       match t with
       | Recorded uid amount => if bool_decide (uid = userID) then amount + n else n
       | AddXPRead _ _ => n
       | AddXPRecorded user req _ =>
           if bool_decide (u_ID user = userID) then Gamification.req_Amount req + n else n
       end)
    0 P.

(** An [AddXP] in flight still holds the balance of its user. *)
Definition holds_balance (w : World) (t : XPInFlight) : Prop :=
  match t with
  | Recorded _ _ => True
  | AddXPRead user req | AddXPRecorded user req _ =>
      u_ID user = Gamification.req_UserID req
      ∧ forall u, In u (users w) -> u_ID u = u_ID user -> u_TotalXP u = u_TotalXP user
  end.

End Overlap.
Export Overlap.
(** * Properties *)

Section LevelResolver.

Lemma calculateLevel_cases (x : Z) :
  (x < 500 ∧ calculateLevel x = LevelBronze) ∨
  (500 <= x < 1500 ∧ calculateLevel x = LevelSilver) ∨
  (1500 <= x < 5000 ∧ calculateLevel x = LevelGold) ∨
  (5000 <= x ∧ calculateLevel x = LevelPlatinum).
Proof.
  unfold calculateLevel.
  destruct (Z.leb_spec 5000 x); [ right; right; right; split; [lia | reflexivity] |].
  destruct (Z.leb_spec 1500 x); [ right; right; left; split; [lia | reflexivity] |].
  destruct (Z.leb_spec 500 x); [ right; left; split; [lia | reflexivity] |].
  left; split; [lia | reflexivity].
Qed.

(** C5: on non-negative balances [calculateLevel] is the threshold table
    with inclusive lower bounds (bronze [0,500), silver [500,1500), gold
    [1500,5000), platinum from 5000), a balance exactly on a lower bound
    falls in the higher tier, and the tier never decreases when the
    balance grows. *)
Theorem calculateLevel_thresholds_monotone (x y : Z) :
  0 <= x -> x <= y ->
  calculateLevel x = level_by_thresholds x
  ∧ (calculateLevel 500 = LevelSilver ∧ calculateLevel 1500 = LevelGold
     ∧ calculateLevel 5000 = LevelPlatinum ∧ calculateLevel 499 = LevelBronze)
  ∧ (tier_rank (calculateLevel x) <= tier_rank (calculateLevel y))%nat.
Proof.
  intros Hx Hxy. split; [| split].
  - unfold calculateLevel, level_by_thresholds, in_interval.
    destruct (Z.leb_spec 5000 x), (Z.leb_spec 1500 x), (Z.leb_spec 500 x),
      (Z.leb_spec 0 x), (Z.ltb_spec x 500), (Z.ltb_spec x 1500),
      (Z.ltb_spec x 5000); simpl; try reflexivity; lia.
  - repeat split.
  - destruct (calculateLevel_cases x) as [[Hr ->] | [[Hr ->] | [[Hr ->] | [Hr ->]]]];
      destruct (calculateLevel_cases y) as [[Hs ->] | [[Hs ->] | [[Hs ->] | [Hs ->]]]];
      vm_compute; lia.
Qed.

Lemma calculateLevel_thresholds_monotone_witness :
  calculateLevel 500 = level_by_thresholds 500
  ∧ (tier_rank (calculateLevel 500) <= tier_rank (calculateLevel 1500))%nat.
Proof.
  destruct (calculateLevel_thresholds_monotone 500 1500) as (H1 & _ & H3); [lia | lia |].
  exact (conj H1 H3).
Defined.

End LevelResolver.
(** ** The result of AddXP *)

Section AddXPResult.
Import Gamification Scenarios.

Lemma int_wrap_in_range z : in_range z = true -> int_wrap z = z.
Proof.
  unfold in_range, int_wrap, int_min, int_max. intros H.
  apply andb_true_iff in H as [H1 H2]. apply Z.leb_le in H1, H2.
  rewrite Z.mod_small; lia.
Qed.

(** C3: for a request that names an existing user, a non-zero amount and
    a reason, and a store that accepts the two writes of the request,
    [AddXP] answers with a success whose fields are: the old balance, the
    new balance [old + amount] (computed on Go's [int], hence the exact
    sum whenever that fits), the amount, the levels of the two balances,
    and a level-up flag that is set exactly when the two levels differ.
    At 490 XP, 20 more XP give 510 XP, bronze to silver, flag set. *)
Theorem AddXP_result (w : World) (req : AddXPRequest) (user : User) :
  first_user (req_UserID req) w = Some user ->
  req_UserID req <> uuid_Nil -> req_Amount req <> 0 -> req_Reason req <> "" ->
  writes_accepted 2 w = true ->
  exists res w',
    AddXP (Some req) w = (SuccessResponse "XP added successfully" res, w')
    /\ res_old_xp res = u_TotalXP user
    /\ res_new_xp res = int_add (u_TotalXP user) (req_Amount req)
    /\ (in_range (u_TotalXP user + req_Amount req) = true ->
        res_new_xp res = u_TotalXP user + req_Amount req)
    /\ res_xp_gained res = req_Amount req
    /\ res_old_level res = calculateLevel (res_old_xp res)
    /\ res_new_level res = calculateLevel (res_new_xp res)
    /\ (res_leveled_up res = true <-> res_old_level res <> res_new_level res)
    /\ (u_TotalXP user = 490 -> req_Amount req = 20 ->
        res_new_xp res = 510 /\ res_old_level res = LevelBronze
        /\ res_new_level res = LevelSilver /\ res_leveled_up res = true).
Proof.
  intros Hu Hid Ham Hre Hw.
  unfold AddXP.
  rewrite (bool_decide_eq_false_2 _ Hid), (bool_decide_eq_false_2 _ Hre).
  apply Z.eqb_neq in Ham. rewrite Ham. cbn [orb].
  unfold bind at 1. unfold get at 1. rewrite Hu.
  unfold bind, uuid_New, create_xp_transaction, update_total_xp, update_level, db_exec, ret.
  destruct w as [us bs ubs txs os c sup fs]; cbn in *.
  unfold writes_accepted in Hw; cbn in Hw.
  set (lv := bool_decide (calculateLevel (int_add (u_TotalXP user) (req_Amount req)) = calculateLevel (u_TotalXP user))).
  assert (Hlv : negb lv = true <-> calculateLevel (u_TotalXP user) <> calculateLevel (int_add (u_TotalXP user) (req_Amount req))).
  { subst lv. rewrite negb_true_iff, bool_decide_eq_false. split; intros H E; apply H; congruence. }
  assert (Hsc : u_TotalXP user = 490 -> req_Amount req = 20 ->
     int_add (u_TotalXP user) (req_Amount req) = 510 /\ calculateLevel (u_TotalXP user) = LevelBronze /\
     calculateLevel (int_add (u_TotalXP user) (req_Amount req)) = LevelSilver /\ negb lv = true).
  { intros E1 E2. subst lv. rewrite E1, E2. vm_compute. auto. }
  destruct fs as [|[] [|[] fs]]; cbn in Hw; try discriminate; cbn;
    destruct (negb lv) eqn:El; cbn;
    repeat match goal with |- context [match ?l with [] => _ | _ :: _ => _ end] => destruct l as [|[] ?]; cbn end;
    destruct (updateLeaderboards _ _ _) as [[] w'];
    eexists _, _; (split; [reflexivity|]); cbn;
    (repeat split; try reflexivity; try (intros; apply int_wrap_in_range; assumption);
     try (apply Hlv; assumption); try (apply Hsc; assumption)).
Qed.

Lemma AddXP_result_witness :
  exists res w',
    AddXP (Some (mkAddXPRequest 1 20 "Order Completed" "31")) (shop OrderPending [])
    = (SuccessResponse "XP added successfully" res, w')
    ∧ res_new_xp res = 510 ∧ res_old_level res = LevelBronze
    ∧ res_new_level res = LevelSilver ∧ res_leveled_up res = true.
Proof.
  destruct (AddXP_result (shop OrderPending []) (mkAddXPRequest 1 20 "Order Completed" "31") abebe)
    as (res & w' & H & _ & _ & _ & _ & _ & _ & _ & Hsc);
    [reflexivity | discriminate | discriminate | discriminate | reflexivity |].
  exists res, w'. split; [exact H|]. apply Hsc; reflexivity.
Defined.

End AddXPResult.
(** ** Frame and preservation rules for computations over the world *)

Section Frames.
Context (R : World -> World -> Prop).
Hypothesis R_refl : forall w, R w w.
Hypothesis R_trans : forall a b c, R a b -> R b c -> R a c.

Lemma frames_ret {A} (a : A) : frames R (ret a).
Proof. intros w. apply R_refl. Qed.

Lemma frames_get : frames R get.
Proof. intros w. apply R_refl. Qed.

Lemma frames_bind {A B} (m : M A) (k : A -> M B) :
  frames R m -> (forall a, frames R (k a)) -> frames R (bind m k).
Proof.
  intros Hm Hk w. unfold bind. specialize (Hm w). destruct (m w) as [a w1]. cbn in *.
  eapply R_trans; [exact Hm | apply Hk].
Qed.

Lemma frames_for_each {A} (l : list A) (body : A -> M unit) :
  (forall x, frames R (body x)) -> frames R (for_each l body).
Proof.
  intros Hb. induction l as [|x l IH]; cbn [for_each].
  - apply frames_ret.
  - apply frames_bind; [apply Hb | intros _; exact IH].
Qed.

Lemma frames_db_exec (stmt : World -> option World) :
  (forall w fs, R w (with_write_faults fs w)) ->
  (forall w w', stmt w = Some w' -> R w w') ->
  frames R (db_exec stmt).
Proof.
  intros Hf Hs w. unfold db_exec.
  destruct (write_faults w) as [|[] fs]; cbn.
  - destruct (stmt w) eqn:E; cbn; [eauto | apply R_refl].
  - apply Hf.
  - destruct (stmt _) eqn:E; cbn; [|apply Hf]. eapply R_trans; [apply Hf | eauto].
Qed.
End Frames.

Lemma preserves_bind (P : World -> Prop) {A B} (m : M A) (k : A -> M B) :
  preserves P m -> (forall a, preserves P (k a)) -> preserves P (bind m k).
Proof.
  intros Hm Hk w Hw. unfold bind. specialize (Hm w Hw). destruct (m w) as [a w1]. cbn in *.
  apply Hk; assumption.
Qed.

Lemma preserves_ret (P : World -> Prop) {A} (a : A) : preserves P (ret a).
Proof. intros w Hw. exact Hw. Qed.

Lemma preserves_for_each (P : World -> Prop) {A} (l : list A) (body : A -> M unit) :
  (forall x, preserves P (body x)) -> preserves P (for_each l body).
Proof.
  intros Hb. induction l as [|x l IH]; cbn [for_each].
  - apply preserves_ret.
  - apply preserves_bind; [apply Hb | intros _; exact IH].
Qed.

Lemma awards_frame_refl w : awards_frame w w.
Proof. split; reflexivity. Qed.
Lemma awards_frame_trans a b c : awards_frame a b -> awards_frame b c -> awards_frame a c.
Proof. unfold awards_frame. intuition congruence. Qed.

Create HintDb frames.
#[local] Hint Resolve awards_frame_refl awards_frame_trans : frames.

Ltac frames_step :=
  lazymatch goal with
  | |- frames _ (ret _) => apply frames_ret; solve [eauto with frames]
  | |- frames _ get => apply frames_get; solve [eauto with frames]
  | |- frames _ (bind _ _) => apply frames_bind; [solve [eauto with frames] | | intros ?]
  | |- frames _ (for_each _ _) =>
      apply frames_for_each; [solve [eauto with frames] | solve [eauto with frames] | intros ?]
  | |- frames _ (db_exec _) =>
      apply frames_db_exec; [solve [eauto with frames] | solve [eauto with frames]
                            | intros ? ?; repeat split
                            | intros ? ? [= <-]; repeat split ]
  | |- frames _ (match ?x with _ => _ end) => destruct x
  end.

Lemma awards_frame_uuid_New : frames awards_frame uuid_New.
Proof. intros w. split; reflexivity. Qed.

Lemma awards_frame_create_xp tx : frames awards_frame (create_xp_transaction tx).
Proof. unfold create_xp_transaction. repeat frames_step. Qed.

Lemma awards_frame_increment_total_xp id n : frames awards_frame (increment_total_xp id n).
Proof.
  unfold increment_total_xp. apply frames_db_exec; eauto with frames.
  - intros; split; reflexivity.
  - intros w w'. destruct (xp_increment_fits id n w); intros [= <-]. split; reflexivity.
Qed.

Lemma awards_frame_update_total_xp id n : frames awards_frame (update_total_xp id n).
Proof. unfold update_total_xp. repeat frames_step. Qed.
Lemma awards_frame_update_level id n : frames awards_frame (update_level id n).
Proof. unfold update_level. repeat frames_step. Qed.
Lemma awards_frame_increment_total_sales id n : frames awards_frame (increment_total_sales id n).
Proof. unfold increment_total_sales. repeat frames_step. Qed.
Lemma awards_frame_save_order o : frames awards_frame (save_order o).
Proof. unfold save_order. repeat frames_step. Qed.
Lemma awards_frame_updateLeaderboards u n : frames awards_frame (Gamification.updateLeaderboards u n).
Proof.
  intros w. unfold Gamification.updateLeaderboards.
  repeat match goal with |- context [if ?b then _ else _] => destruct b end; split; reflexivity.
Qed.

#[local] Hint Resolve awards_frame_uuid_New awards_frame_create_xp awards_frame_increment_total_xp
  awards_frame_update_total_xp awards_frame_update_level awards_frame_increment_total_sales
  awards_frame_save_order awards_frame_updateLeaderboards : frames.

Ltac frames_auto := repeat first [ solve [eauto with frames] | frames_step ].

Lemma awards_frame_callGamificationService u n r f :
  frames awards_frame (Orders.callGamificationService u n r f).
Proof. unfold Orders.callGamificationService. frames_auto. Qed.

Lemma awards_frame_awardXP u n r : frames awards_frame (Gamification.awardXP u n r).
Proof. unfold Gamification.awardXP. frames_auto. Qed.

Lemma awards_frame_Auth_awardXP u n r : frames awards_frame (Auth.awardXP u n r).
Proof. unfold Auth.awardXP. frames_auto. Qed.

Lemma awards_frame_AddXP body : frames awards_frame (Gamification.AddXP body).
Proof. unfold Gamification.AddXP. frames_auto. Qed.

Lemma awards_frame_UpdateUserLevel p : frames awards_frame (Gamification.UpdateUserLevel p).
Proof. unfold Gamification.UpdateUserLevel. frames_auto. Qed.

(** ** The badge engine is idempotent *)

Section BadgeEngine.
Import Gamification Scenarios.

Lemma rules_frame_refl w : rules_frame w w.
Proof. repeat split. Qed.

Lemma rules_frame_trans w1 w2 w3 : rules_frame w1 w2 -> rules_frame w2 w3 -> rules_frame w1 w3.
Proof. unfold rules_frame. intuition congruence. Qed.

Lemma create_user_badge_spec ub w :
  rules_frame w (create_user_badge ub w).2
  ∧ user_badges (create_user_badge ub w).2
    = (if (create_user_badge ub w).1 then user_badges w ++ [ub] else user_badges w)
  ∧ write_faults (create_user_badge ub w).2 = tl (write_faults w)
  ∧ (write_faults w = [] -> (create_user_badge ub w).1 = true).
Proof.
  unfold create_user_badge, db_exec, rules_frame. destruct w as [us bs ubs txs os c sup fs].
  destruct fs as [|[] fs]; cbn; repeat split; auto; discriminate.
Qed.

Lemma awardXP_spec uid n reason w :
  rules_frame w (awardXP uid n reason w).2
  ∧ user_badges (awardXP uid n reason w).2 = user_badges w
  ∧ write_faults (awardXP uid n reason w).2 = tl (tl (write_faults w)).
Proof.
  unfold awardXP, bind, uuid_New, create_xp_transaction, increment_total_xp, db_exec, ret, rules_frame.
  destruct w as [us bs ubs txs os c sup fs].
  destruct fs as [|[] [|[] fs]]; cbn;
    repeat match goal with |- context [if ?b then _ else _] => destruct b; cbn end;
    repeat split; auto; apply length_map.
Qed.

Lemma shouldAward_frame user b w w' : rules_frame w w' -> shouldAward user b w' = shouldAward user b w.
Proof.
  intros (Hb & Ho & Hl). unfold shouldAward, count_orders_of_buyer, count_delivered_sales, count_users.
  rewrite Ho, Hl. reflexivity.
Qed.

Lemma checkAndAwardBadges_loop_spec user E bs : forall acc w res w',
  checkAndAwardBadges_loop user E bs acc w = (res, w') ->
  rules_frame w w'
  ∧ exists added,
      res = acc ++ added
      ∧ user_badges w' = user_badges w ++ added
      ∧ Forall (fun ub => ub_UserID ub = u_ID user) added
      ∧ sublist (map ub_BadgeID added)
          (map b_ID (List.filter (fun b => negb (held E b)) bs)).
Proof.
  induction bs as [|b bs IH]; intros acc w res w' Hrun;
    cbn [checkAndAwardBadges_loop List.filter] in *.
  - inversion Hrun; subst. split; [apply rules_frame_refl|]. exists []. cbn.
    rewrite !app_nil_r. repeat split; constructor.
  - unfold held at 1. destruct (default false (E !! b_Type b)) eqn:Hh; cbn [negb].
    + eapply IH; eauto.
    + unfold bind at 1, get at 1 in Hrun.
      destruct (shouldAward user b w) eqn:Hs.
      * unfold bind at 1 in Hrun. cbn [uuid_New] in Hrun.
        set (w1 := with_uuid_supply _ w) in *. set (ub := mkUserBadge _ _ _) in *.
        unfold bind at 1 in Hrun.
        destruct (create_user_badge_spec ub w1) as (Hf & Hub & _).
        destruct (create_user_badge ub w1) as [created w2]; cbn [fst snd] in *.
        destruct created.
        -- unfold bind at 1 in Hrun.
           assert (Hx : exists w3 u, (if 0 <? b_XPReward b
                     then awardXP (u_ID user) (b_XPReward b) ("Badge: " +:+ b_Name b)
                     else ret ()) w2 = (u, w3) ∧ rules_frame w2 w3 ∧ user_badges w3 = user_badges w2).
           { destruct (0 <? b_XPReward b).
             - destruct (awardXP_spec (u_ID user) (b_XPReward b) ("Badge: " +:+ b_Name b) w2) as (H1 & H2 & _).
               destruct (awardXP _ _ _ w2) as [u w3]. exists w3, u. auto.
             - exists w2, (). repeat split. }
           destruct Hx as (w3 & u & Hx & Hf3 & Hub3). rewrite Hx in Hrun.
           destruct (IH _ _ _ _ Hrun) as (HfI & added & H1 & H2 & H3 & H4).
           split.
           { eapply rules_frame_trans; [|exact HfI]. eapply rules_frame_trans; [|exact Hf3].
             eapply rules_frame_trans; [|exact Hf]. subst w1. repeat split. }
           exists (ub :: added). rewrite H1, H2, Hub3, Hub. subst w1; cbn.
           rewrite <- !app_assoc. cbn. repeat split; auto.
           constructor; auto.
        -- destruct (IH _ _ _ _ Hrun) as (HfI & added & H1 & H2 & H3 & H4).
           split.
           { eapply rules_frame_trans; [|exact HfI].
             eapply rules_frame_trans; [|exact Hf]. subst w1. repeat split. }
           exists added. rewrite H1, H2, Hub. subst w1; cbn. repeat split; auto.
           constructor; auto.
      * destruct (IH _ _ _ _ Hrun) as (HfI & added & H1 & H2 & H3 & H4).
        split; [exact HfI|]. exists added. repeat split; auto. constructor; auto.
Qed.

Lemma checkAndAwardBadges_loop_nothing user E bs : forall acc w,
  (forall b, In b bs -> held E b = true ∨ shouldAward user b w = false) ->
  checkAndAwardBadges_loop user E bs acc w = (acc, w).
Proof.
  induction bs as [|b bs IH]; intros acc w Hno; cbn [checkAndAwardBadges_loop].
  - reflexivity.
  - destruct (Hno b (or_introl eq_refl)) as [Hh | Hs].
    + unfold held in Hh. rewrite Hh. apply IH. intros b' Hb'. apply Hno. right; exact Hb'.
    + destruct (default false (E !! b_Type b)).
      * apply IH. intros b' Hb'. apply Hno. right; exact Hb'.
      * unfold bind, get. rewrite Hs. apply IH. intros b' Hb'. apply Hno. right; exact Hb'.
Qed.

Lemma checkAndAwardBadges_loop_awards_all user E bs : forall acc w res w',
  write_faults w = [] ->
  checkAndAwardBadges_loop user E bs acc w = (res, w') ->
  write_faults w' = []
  ∧ forall b, In b bs -> held E b = false -> shouldAward user b w = true ->
      exists ub, In ub (user_badges w') ∧ ub_UserID ub = u_ID user ∧ ub_BadgeID ub = b_ID b.
Proof.
  induction bs as [|b bs IH]; intros acc w res w' Hnf Hrun;
    cbn [checkAndAwardBadges_loop] in Hrun.
  - inversion Hrun; subst. split; [assumption|]. intros b [].
  - destruct (default false (E !! b_Type b)) eqn:Hh.
    + destruct (IH _ _ _ _ Hnf Hrun) as (Hnf' & Hall). split; [assumption|].
      intros b' [<- | Hb'] Hh' Hs'; [unfold held in Hh'; congruence | eauto].
    + unfold bind at 1, get at 1 in Hrun.
      destruct (shouldAward user b w) eqn:Hs.
      * unfold bind at 1 in Hrun. cbn [uuid_New] in Hrun.
        set (w1 := with_uuid_supply _ w) in *. set (ub := mkUserBadge _ _ _) in *.
        unfold bind at 1 in Hrun.
        destruct (create_user_badge_spec ub w1) as (Hf & Hub & Hfs & Hok).
        specialize (Hok Hnf).
        destruct (create_user_badge ub w1) as [created w2]; cbn [fst snd] in *. subst created.
        unfold bind at 1 in Hrun.
        assert (Hx : exists w3 u, (if 0 <? b_XPReward b
                  then awardXP (u_ID user) (b_XPReward b) ("Badge: " +:+ b_Name b)
                  else ret ()) w2 = (u, w3) ∧ rules_frame w2 w3
                  ∧ user_badges w3 = user_badges w2 ∧ write_faults w3 = []).
        { assert (Hw2 : write_faults w2 = []) by (rewrite Hfs; subst w1; cbn; rewrite Hnf; reflexivity).
          destruct (0 <? b_XPReward b).
          - destruct (awardXP_spec (u_ID user) (b_XPReward b) ("Badge: " +:+ b_Name b) w2) as (H1 & H2 & H3).
            destruct (awardXP _ _ _ w2) as [u w3]. exists w3, u. rewrite Hw2 in H3. auto.
          - exists w2, (). repeat split; auto. }
        destruct Hx as (w3 & u & Hx & Hf3 & Hub3 & Hnf3). rewrite Hx in Hrun.
        destruct (checkAndAwardBadges_loop_spec _ _ _ _ _ _ _ Hrun) as (_ & added & _ & Hubs & _).
        destruct (IH _ _ _ _ Hnf3 Hrun) as (Hnf' & Hall). split; [assumption|].
        intros b' [<- | Hb'] Hh' Hs'.
        -- exists ub. split; [|split; reflexivity].
           rewrite Hubs, Hub3, Hub. apply in_or_app. left. apply in_or_app. right. left. reflexivity.
        -- apply Hall; auto. rewrite <- Hs'. apply shouldAward_frame.
           eapply rules_frame_trans; [|exact Hf3]. eapply rules_frame_trans; [|exact Hf].
           subst w1. repeat split.
      * destruct (IH _ _ _ _ Hnf Hrun) as (Hnf' & Hall). split; [assumption|].
        intros b' [<- | Hb'] Hh' Hs'; [congruence | eauto].
Qed.

Lemma fold_left_existing_types (w : World) (l : list UserBadge) : forall (m : gmap string bool) t,
  default false (fold_left (fun m badge => <[award_type w badge := true]> m) l m !! t)
  = default false (m !! t) || existsb (fun ub => bool_decide (award_type w ub = t)) l.
Proof.
  induction l as [|ub l IH]; intros m t; cbn [fold_left existsb].
  - rewrite orb_false_r. reflexivity.
  - rewrite IH. destruct (decide (award_type w ub = t)) as [<- | Hne].
    + rewrite lookup_insert_eq, bool_decide_eq_true_2 by reflexivity. cbn.
      rewrite orb_true_r. reflexivity.
    + rewrite lookup_insert_ne, (bool_decide_eq_false_2 _ Hne) by assumption. reflexivity.
Qed.

Lemma held_existing_badge_types (w : World) (l : list UserBadge) (b : Badge) :
  held (existing_badge_types l w) b = existsb (fun ub => bool_decide (award_type w ub = b_Type b)) l.
Proof.
  unfold held, existing_badge_types.
  change (fun m badge => <[match first_badge (ub_BadgeID badge) w with
                           | Some badgeInfo => b_Type badgeInfo | None => "" end := true]> m)
    with (fun (m : gmap string bool) badge => <[award_type w badge := true]> m).
  rewrite fold_left_existing_types. rewrite lookup_empty. reflexivity.
Qed.

Lemma first_badge_In (w : World) (b : Badge) :
  NoDup (map b_ID (badges w)) -> In b (badges w) -> first_badge (b_ID b) w = Some b.
Proof.
  unfold first_badge. induction (badges w) as [|b0 l IH]; cbn; intros Hnd Hin; [contradiction|].
  inversion Hnd as [|? ? Hni Hnd']; subst.
  destruct Hin as [-> | Hin].
  - rewrite bool_decide_eq_true_2; reflexivity.
  - rewrite bool_decide_eq_false_2; [auto|].
    intros Heq. apply Hni. rewrite Heq. apply list_elem_of_In, in_map. exact Hin.
Qed.

Lemma sublist_List_filter {A} (f : A -> bool) (l : list A) : sublist (List.filter f l) l.
Proof.
  induction l as [|x l IH]; cbn; [constructor|].
  destruct (f x); constructor; exact IH.
Qed.

Lemma checkAndAwardBadges_run user w res w' :
  checkAndAwardBadges user w = (res, w') ->
  checkAndAwardBadges_loop user (existing_badge_types (user_badges_of (u_ID user) w) w)
    (badges w) [] w = (res, w').
Proof. unfold checkAndAwardBadges, bind, get. auto. Qed.

Lemma award_type_frame w w' ub : badges w' = badges w -> award_type w' ub = award_type w ub.
Proof. intros H. unfold award_type, first_badge. rewrite H. reflexivity. Qed.

Lemma added_not_held user w res w' :
  NoDup (map b_ID (badges w)) ->
  checkAndAwardBadges user w = (res, w') ->
  forall ub held_ub, In ub res -> In held_ub (user_badges_of (u_ID user) w) ->
    ub_BadgeID ub <> ub_BadgeID held_ub.
Proof.
  intros Hnd Hrun ub hb Hub Hhb Heq.
  apply checkAndAwardBadges_run in Hrun.
  destruct (checkAndAwardBadges_loop_spec _ _ _ _ _ _ _ Hrun) as (_ & added & -> & _ & _ & Hsub).
  cbn in Hub.
  assert (Hin : ub_BadgeID ub ∈ map b_ID (List.filter
            (fun b => negb (held (existing_badge_types (user_badges_of (u_ID user) w) w) b)) (badges w))).
  { eapply elem_of_sublist; [|exact Hsub]. apply list_elem_of_In, in_map. exact Hub. }
  apply list_elem_of_In, in_map_iff in Hin as (b & Hb & Hbf).
  apply filter_In in Hbf as (Hbin & Hnh).
  apply negb_true_iff in Hnh. rewrite held_existing_badge_types in Hnh.
  assert (Hex : existsb (fun ub0 => bool_decide (award_type w ub0 = b_Type b))
                  (user_badges_of (u_ID user) w) = true).
  { apply existsb_exists. exists hb. split; [exact Hhb|]. apply bool_decide_eq_true_2.
    unfold award_type. rewrite <- Heq, <- Hb. rewrite first_badge_In by assumption. reflexivity. }
  congruence.
Qed.

(** C1: two runs of the badge engine in a row for the same user (the
    second on any copy of the user row with the same id).  Over the two
    runs no badge is awarded twice; the second run awards no badge that
    the user holds after the first; the award table grows by exactly the
    awards the two runs report.  When moreover the store accepts every
    write and the spending total of the user is unchanged, the second run
    awards nothing at all. *)
Theorem checkAndAwardBadges_idempotent (w : World) (user user' : User) :
  NoDup (map b_ID (badges w)) ->
  u_ID user' = u_ID user ->
  let first := checkAndAwardBadges user w in
  let second := checkAndAwardBadges user' first.2 in
  NoDup (map ub_BadgeID (first.1 ++ second.1))
  ∧ (forall ub held_ub, In ub second.1 -> In held_ub (user_badges_of (u_ID user) first.2) ->
       ub_BadgeID ub <> ub_BadgeID held_ub)
  ∧ user_badges second.2 = user_badges w ++ first.1 ++ second.1
  ∧ (write_faults w = [] -> u_TotalSpent user' = u_TotalSpent user ->
       second.1 = [] ∧ user_badges second.2 = user_badges first.2).
Proof.
  intros Hnd Hid. cbv zeta.
  destruct (checkAndAwardBadges user w) as [new1 w1] eqn:H1. cbn [fst snd].
  destruct (checkAndAwardBadges user' w1) as [new2 w2] eqn:H2. cbn [fst snd].
  pose proof (checkAndAwardBadges_run _ _ _ _ H1) as R1.
  pose proof (checkAndAwardBadges_run _ _ _ _ H2) as R2.
  destruct (checkAndAwardBadges_loop_spec _ _ _ _ _ _ _ R1)
    as ((Hb1 & Ho1 & Hl1) & added1 & E1 & Hub1 & Hu1 & Hs1).
  destruct (checkAndAwardBadges_loop_spec _ _ _ _ _ _ _ R2)
    as ((Hb2 & Ho2 & Hl2) & added2 & E2 & Hub2 & Hu2 & Hs2).
  cbn in E1, E2. subst new1 new2.
  assert (Hnd1 : NoDup (map b_ID (badges w1))) by (rewrite Hb1; exact Hnd).
  assert (Hdisj : forall ub held_ub, In ub added2 ->
            In held_ub (user_badges_of (u_ID user) w1) -> ub_BadgeID ub <> ub_BadgeID held_ub).
  { rewrite <- Hid. eapply added_not_held; eauto. }
  assert (Hadded1 : forall ub, In ub added1 -> In ub (user_badges_of (u_ID user) w1)).
  { intros ub Hin. unfold user_badges_of. apply filter_In. split.
    - rewrite Hub1. apply in_or_app. right. exact Hin.
    - apply bool_decide_eq_true_2. rewrite Forall_forall in Hu1. apply Hu1, list_elem_of_In, Hin. }
  split; [|split; [|split]].
  - rewrite map_app. apply NoDup_app. split; [|split].
    + eapply sublist_NoDup; [|exact Hs1]. eapply sublist_NoDup; [exact Hnd|].
      apply (fmap_sublist b_ID), sublist_List_filter.
    + intros x Hx1 Hx2.
      apply list_elem_of_In, in_map_iff in Hx1 as (ub1 & <- & Hin1).
      apply list_elem_of_In, in_map_iff in Hx2 as (ub2 & Heq & Hin2).
      exact (Hdisj ub2 ub1 Hin2 (Hadded1 _ Hin1) Heq).
    + eapply sublist_NoDup; [|exact Hs2]. eapply sublist_NoDup; [exact Hnd1|].
      apply (fmap_sublist b_ID), sublist_List_filter.
  - exact Hdisj.
  - rewrite Hub2, Hub1, app_assoc. reflexivity.
  - intros Hnf Hsp.
    destruct (checkAndAwardBadges_loop_awards_all _ _ _ _ _ _ _ Hnf R1) as (_ & Hall).
    assert (Hnone : checkAndAwardBadges_loop user'
              (existing_badge_types (user_badges_of (u_ID user') w1) w1) (badges w1) [] w1 = ([], w1)).
    { apply checkAndAwardBadges_loop_nothing. intros b Hb. rewrite Hb1 in Hb.
      rewrite held_existing_badge_types, Hid.
      destruct (held (existing_badge_types (user_badges_of (u_ID user) w) w) b) eqn:Hh.
      - left. rewrite held_existing_badge_types in Hh.
        apply existsb_exists in Hh as (ub0 & Hin0 & Ht0). apply existsb_exists. exists ub0. split.
        + unfold user_badges_of in *. apply filter_In in Hin0 as (Hin0 & Hu0). apply filter_In.
          split; [|exact Hu0]. rewrite Hub1. apply in_or_app. left. exact Hin0.
        + rewrite (award_type_frame w w1) by exact Hb1. exact Ht0.
      - destruct (shouldAward user b w) eqn:Hs.
        + left. destruct (Hall b Hb Hh Hs) as (ub & Hin & Hu & Hbid).
          apply existsb_exists. exists ub. split.
          * unfold user_badges_of. apply filter_In. split; [exact Hin|].
            apply bool_decide_eq_true_2. exact Hu.
          * apply bool_decide_eq_true_2. unfold award_type. rewrite Hbid.
            rewrite first_badge_In; [reflexivity | exact Hnd1 | rewrite Hb1; exact Hb].
        + right. rewrite <- Hs.
          transitivity (shouldAward user b w1).
          * unfold shouldAward. rewrite Hid, Hsp. reflexivity.
          * apply shouldAward_frame. repeat split; assumption. }
    rewrite Hnone in R2. injection R2 as <- <-. auto.
Qed.

Lemma checkAndAwardBadges_idempotent_witness :
  let first := checkAndAwardBadges abebe (shop OrderPending []) in
  let second := checkAndAwardBadges abebe first.2 in
  NoDup (map ub_BadgeID (first.1 ++ second.1)) ∧ second.1 = [].
Proof.
  destruct (checkAndAwardBadges_idempotent (shop OrderPending []) abebe abebe)
    as (H1 & _ & _ & H2).
  - apply (bool_decide_unpack _). vm_compute. exact I.
  - reflexivity.
  - split; [exact H1|]. apply H2; reflexivity.
Defined.

End BadgeEngine.
(** ** At most one award per user and badge type *)

Lemma awards_of_frame w w' u t : awards_frame w w' -> awards_of w' u t = awards_of w u t.
Proof. intros [Hb Hu]. unfold awards_of, award_has_type. rewrite Hb, Hu. reflexivity. Qed.

Lemma badge_inv_frame w w' : awards_frame w w' -> badge_inv w -> badge_inv w'.
Proof.
  intros Hf [[Hi Ht] Hu]. pose proof Hf as [Hb _]. split; [split; rewrite Hb; assumption|].
  intros u t. rewrite (awards_of_frame _ _ _ _ Hf). apply Hu.
Qed.

Lemma preserves_badge_inv_of_frame {A} (m : M A) : frames awards_frame m -> preserves badge_inv m.
Proof. intros Hf w Hw. eapply badge_inv_frame; [apply Hf | exact Hw]. Qed.

Lemma award_has_type_catalog w t ub :
  award_has_type w t ub = true <->
  exists b, In b (badges w) ∧ b_ID b = ub_BadgeID ub ∧ b_Type b = t.
Proof.
  unfold award_has_type. rewrite existsb_exists. split.
  - intros (b & Hin & H). apply andb_true_iff in H as [H1 H2].
    apply bool_decide_eq_true in H1, H2. eauto.
  - intros (b & Hin & H1 & H2). exists b. split; [assumption|].
    apply andb_true_iff. split; apply bool_decide_eq_true_2; assumption.
Qed.

Lemma NoDup_map_inj_In {A B} (f : A -> B) (l : list A) x y :
  NoDup (map f l) -> In x l -> In y l -> f x = f y -> x = y.
Proof.
  induction l as [|a l IH]; cbn; intros Hnd Hx Hy Heq; [contradiction|].
  inversion Hnd as [|? ? Hni Hnd']; subst.
  destruct Hx as [-> | Hx], Hy as [-> | Hy]; auto.
  - exfalso. apply Hni. rewrite Heq. apply list_elem_of_In, in_map, Hy.
  - exfalso. apply Hni. rewrite <- Heq. apply list_elem_of_In, in_map, Hx.
Qed.

Lemma awards_of_app_one w w' ub u t :
  badges w' = badges w -> user_badges w' = user_badges w ++ [ub] ->
  awards_of w' u t
  = awards_of w u t
    ++ (if bool_decide (ub_UserID ub = u) && award_has_type w t ub then [ub] else []).
Proof.
  intros Hb Hu. unfold awards_of. rewrite Hu, List.filter_app. cbn [List.filter].
  unfold award_has_type. rewrite Hb. reflexivity.
Qed.

Lemma awards_unique_insert w w' ub :
  awards_unique w -> badges w' = badges w -> user_badges w' = user_badges w ++ [ub] ->
  (forall t, award_has_type w t ub = true -> awards_of w (ub_UserID ub) t = []) ->
  awards_unique w'.
Proof.
  intros Hun Hb Hu Hfresh u t. rewrite (awards_of_app_one w w' ub u t Hb Hu).
  destruct (bool_decide (ub_UserID ub = u)) eqn:Hd; cbn [andb].
  - apply bool_decide_eq_true in Hd. subst u.
    destruct (award_has_type w t ub) eqn:Ht.
    + rewrite (Hfresh t Ht). cbn. lia.
    + rewrite app_nil_r. apply Hun.
  - rewrite app_nil_r. apply Hun.
Qed.

Lemma create_user_badge_cases ub w :
  badges (create_user_badge ub w).2 = badges w
  ∧ (user_badges (create_user_badge ub w).2 = user_badges w
     ∨ user_badges (create_user_badge ub w).2 = user_badges w ++ [ub]).
Proof.
  destruct (create_user_badge_spec ub w) as ((Hb & _) & Hu & _). split; [exact Hb|].
  rewrite Hu. destruct (create_user_badge ub w).1; auto.
Qed.

Lemma badge_inv_create w ub :
  badge_inv w ->
  (forall t, award_has_type w t ub = true -> awards_of w (ub_UserID ub) t = []) ->
  badge_inv (create_user_badge ub w).2.
Proof.
  intros [[Hi Ht] Hun] Hfresh. destruct (create_user_badge_cases ub w) as (Hb & [Hu | Hu]).
  - apply (badge_inv_frame w); [split; assumption | repeat split; assumption].
  - split; [split; rewrite Hb; assumption|]. eapply awards_unique_insert; eauto.
Qed.

Lemma existsb_false_filter {A} (f : A -> bool) l : existsb f l = false -> List.filter f l = [].
Proof.
  induction l as [|x l IH]; cbn; [reflexivity|]. intros H.
  apply orb_false_iff in H as [-> H]. auto.
Qed.

Lemma has_badge_of_type_awards_of u t w :
  Orders.has_badge_of_type u t w = false -> awards_of w u t = [].
Proof. intros H. apply existsb_false_filter. exact H. Qed.

Lemma first_badge_of_type_Some t w b :
  first_badge_of_type t w = Some b -> In b (badges w) ∧ b_Type b = t.
Proof.
  unfold first_badge_of_type. intros H. apply find_some in H as [H1 H2].
  apply bool_decide_eq_true in H2. auto.
Qed.

Lemma preserves_badge_inv_checkAndAwardBadge u t :
  preserves badge_inv (Orders.checkAndAwardBadge u t).
Proof.
  intros w Hw. unfold Orders.checkAndAwardBadge. unfold bind at 1, get at 1.
  destruct (first_user u w) as [user|]; [|exact Hw].
  destruct (Orders.has_badge_of_type u t w) eqn:Hhas; [exact Hw|].
  destruct (first_badge_of_type t w) as [badge|] eqn:Hfb; [|exact Hw].
  apply first_badge_of_type_Some in Hfb as [Hin Hty].
  match goal with |- context [if ?c then _ else _] => destruct c end; [|exact Hw].
  unfold bind at 1. cbn [uuid_New].
  set (w1 := with_uuid_supply _ w). set (ub := mkUserBadge _ _ _).
  assert (Hw1 : badge_inv w1) by (apply (badge_inv_frame w); [split; reflexivity | exact Hw]).
  unfold bind at 1.
  assert (Hw2 : badge_inv (create_user_badge ub w1).2).
  { apply badge_inv_create; [exact Hw1|]. intros t' Ht'.
    apply award_has_type_catalog in Ht' as (b & Hb & Hid & Hbt). cbn in Hid, Hb.
    destruct Hw as [[Hi _] _].
    assert (b = badge) by (eapply (NoDup_map_inj_In b_ID); eauto). subst b.
    rewrite <- Hbt, Hty. cbn. apply (has_badge_of_type_awards_of u t w Hhas). }
  destruct (create_user_badge ub w1) as [created w2]. cbn [snd] in Hw2.
  destruct (0 <? b_XPReward badge); [|exact Hw2].
  apply preserves_badge_inv_of_frame; [apply awards_frame_callGamificationService | exact Hw2].
Qed.

Lemma preserves_badge_inv_checkEarlyBirdBadge user :
  preserves badge_inv (Auth.checkEarlyBirdBadge user).
Proof.
  intros w Hw. unfold Auth.checkEarlyBirdBadge. unfold bind at 1, get at 1.
  destruct (count_users w <=? 100); [|exact Hw].
  destruct (first_badge_of_type BadgeEarlyBird w) as [badge|] eqn:Hfb; [|exact Hw].
  apply first_badge_of_type_Some in Hfb as [Hin Hty].
  destruct (List.find _ (user_badges w)) eqn:Hfind; [exact Hw|].
  unfold bind at 1. cbn [uuid_New].
  set (w1 := with_uuid_supply _ w). set (ub := mkUserBadge _ _ _).
  assert (Hw1 : badge_inv w1) by (apply (badge_inv_frame w); [split; reflexivity | exact Hw]).
  unfold bind at 1.
  assert (Hw2 : badge_inv (create_user_badge ub w1).2).
  { apply badge_inv_create; [exact Hw1|]. intros t' Ht'.
    apply award_has_type_catalog in Ht' as (b & Hb & Hid & Hbt). cbn in Hid, Hb.
    destruct Hw as [[Hi Htys] _].
    assert (b = badge) by (eapply (NoDup_map_inj_In b_ID); eauto). subst b.
    change (ub_UserID ub) with (u_ID user).
    rewrite (awards_of_frame w w1) by (split; reflexivity).
    destruct (awards_of w (u_ID user) t') as [|ub0 rest] eqn:Hfl; [reflexivity|].
    exfalso.
    assert (Hin0 : In ub0 (awards_of w (u_ID user) t')) by (rewrite Hfl; left; reflexivity).
    apply filter_In in Hin0 as (Hin0 & Hp). apply andb_true_iff in Hp as [Hp1 Hp2].
    apply award_has_type_catalog in Hp2 as (b0 & Hb0 & Hid0 & Hbt0).
    assert (b0 = badge).
    { eapply (NoDup_map_inj_In b_Type); eauto. congruence. }
    subst b0.
    eapply find_none in Hfind; [|exact Hin0]. cbn beta in Hfind.
    rewrite Hp1 in Hfind. rewrite bool_decide_eq_true_2 in Hfind by (symmetry; exact Hid0).
    discriminate. }
  destruct (create_user_badge ub w1) as [created w2]. cbn [snd] in Hw2.
  destruct (0 <? b_XPReward badge); [|exact Hw2].
  apply preserves_badge_inv_of_frame; [apply awards_frame_Auth_awardXP | exact Hw2].
Qed.

Lemma award_has_type_award_type w t ub :
  NoDup (map b_ID (badges w)) -> award_has_type w t ub = true -> award_type w ub = t.
Proof.
  intros Hnd H. apply award_has_type_catalog in H as (b & Hin & Hid & Ht).
  unfold award_type. rewrite <- Hid, first_badge_In by assumption. exact Ht.
Qed.

Lemma not_held_awards_of user w b :
  NoDup (map b_ID (badges w)) ->
  held (Gamification.existing_badge_types (user_badges_of (u_ID user) w) w) b = false ->
  awards_of w (u_ID user) (b_Type b) = [].
Proof.
  intros Hnd Hh. rewrite held_existing_badge_types in Hh.
  unfold awards_of. destruct (List.filter _ (user_badges w)) as [|ub0 rest] eqn:Hfl; [reflexivity|].
  exfalso.
  assert (Hin0 : In ub0 (List.filter (fun ub1 => bool_decide (ub_UserID ub1 = u_ID user)
                   && award_has_type w (b_Type b) ub1) (user_badges w))) by (rewrite Hfl; left; reflexivity).
  apply filter_In in Hin0 as (Hin0 & Hp). apply andb_true_iff in Hp as [Hp1 Hp2].
  assert (Hex : existsb (fun ub => bool_decide (award_type w ub = b_Type b))
                  (user_badges_of (u_ID user) w) = true).
  { apply existsb_exists. exists ub0. split.
    - unfold user_badges_of. apply filter_In. auto.
    - apply bool_decide_eq_true_2. apply award_has_type_award_type; assumption. }
  congruence.
Qed.

Lemma checkAndAwardBadges_loop_badge_inv user E : forall bs acc w,
  badge_inv w ->
  NoDup (map b_Type bs) ->
  (forall b, In b bs -> In b (badges w)) ->
  (forall b, In b bs -> held E b = false -> awards_of w (u_ID user) (b_Type b) = []) ->
  badge_inv (Gamification.checkAndAwardBadges_loop user E bs acc w).2.
Proof.
  induction bs as [|b bs IH]; intros acc w Hw Hnd Hsub Hfresh;
    cbn [Gamification.checkAndAwardBadges_loop].
  - exact Hw.
  - inversion Hnd as [|? ? Hni Hnd']; subst.
    assert (Hsub' : forall b', In b' bs -> In b' (badges w)) by (intros; apply Hsub; right; assumption).
    assert (Hfresh' : forall b', In b' bs -> held E b' = false ->
              awards_of w (u_ID user) (b_Type b') = []) by (intros; apply Hfresh; [right|]; assumption).
    destruct (default false (E !! b_Type b)) eqn:Hh; [apply IH; assumption|].
    unfold bind at 1, get at 1.
    destruct (Gamification.shouldAward user b w); [|apply IH; assumption].
    unfold bind at 1. cbn [uuid_New].
    set (w1 := with_uuid_supply _ w). set (ub := mkUserBadge _ _ _).
    assert (Hf1 : awards_frame w w1) by (split; reflexivity).
    assert (Hw1 : badge_inv w1) by (apply (badge_inv_frame w); assumption).
    unfold bind at 1.
    destruct (create_user_badge_cases ub w1) as (Hb2 & Hu2).
    assert (Hw2 : badge_inv (create_user_badge ub w1).2).
    { apply badge_inv_create; [exact Hw1|]. intros t' Ht'.
      apply award_has_type_catalog in Ht' as (b0 & Hb0 & Hid0 & Hbt0). cbn in Hid0, Hb0.
      destruct Hw as [[Hi _] _].
      assert (b0 = b) by (eapply (NoDup_map_inj_In b_ID); eauto; apply Hsub; left; reflexivity). subst b0.
      rewrite <- Hbt0. change (ub_UserID ub) with (u_ID user).
      rewrite (awards_of_frame w w1) by assumption.
      apply Hfresh; [left; reflexivity | exact Hh]. }
    destruct (create_user_badge ub w1) as [created w2]. cbn [snd] in *.
    assert (Hrest : forall b', In b' bs -> held E b' = false ->
              awards_of w2 (u_ID user) (b_Type b') = []).
    { intros b' Hb' Hh'. destruct Hu2 as [Hu2 | Hu2].
      - rewrite (awards_of_frame w1 w2) by (split; assumption).
        rewrite (awards_of_frame w w1) by assumption. auto.
      - rewrite (awards_of_app_one w1 w2 ub _ _ Hb2 Hu2).
        rewrite (awards_of_frame w w1) by assumption. rewrite Hfresh' by assumption.
        destruct (award_has_type w1 (b_Type b') ub) eqn:Ht; [|rewrite andb_false_r; reflexivity].
        exfalso. apply award_has_type_catalog in Ht as (b0 & Hb0 & Hid0 & Hbt0). cbn in Hid0, Hb0.
        destruct Hw as [[Hi _] _].
        assert (b0 = b) by (eapply (NoDup_map_inj_In b_ID); eauto; apply Hsub; left; reflexivity). subst b0.
        apply Hni. rewrite Hbt0. apply list_elem_of_In, in_map, Hb'. }
    assert (Hsub2 : forall b', In b' bs -> In b' (badges w2)).
    { intros b' Hb'. rewrite Hb2. cbn. auto. }
    destruct created.
    + unfold bind at 1.
      destruct (0 <? b_XPReward b).
      * pose proof (awards_frame_awardXP (u_ID user) (b_XPReward b) ("Badge: " +:+ b_Name b) w2) as Hf3.
        destruct (Gamification.awardXP _ _ _ w2) as [u w3]. cbn [snd] in Hf3.
        apply IH; auto.
        -- eapply badge_inv_frame; eauto.
        -- intros b' Hb'. destruct Hf3 as [-> _]. auto.
        -- intros b' Hb' Hh'. rewrite (awards_of_frame w2 w3) by assumption. auto.
      * cbn. apply IH; auto.
    + apply IH; auto.
Qed.

Lemma preserves_badge_inv_checkAndAwardBadges user :
  preserves badge_inv (Gamification.checkAndAwardBadges user).
Proof.
  intros w Hw. unfold Gamification.checkAndAwardBadges, bind, get.
  pose proof Hw as [[Hi Ht] _].
  apply checkAndAwardBadges_loop_badge_inv; auto.
  intros b Hb Hh. apply not_held_awards_of; assumption.
Qed.

Lemma preserves_get (P : World -> Prop) : preserves P get.
Proof. intros w Hw. exact Hw. Qed.

Create HintDb preserves.
#[local] Hint Resolve preserves_badge_inv_checkAndAwardBadge
  preserves_badge_inv_checkEarlyBirdBadge preserves_badge_inv_checkAndAwardBadges : preserves.
#[local] Hint Resolve awards_frame_callGamificationService awards_frame_awardXP
  awards_frame_Auth_awardXP awards_frame_AddXP awards_frame_UpdateUserLevel : frames.
#[local] Hint Extern 5 (preserves badge_inv _) =>
  (apply preserves_badge_inv_of_frame; solve [auto with frames]) : preserves.

Ltac preserves_step :=
  lazymatch goal with
  | |- preserves _ (ret _) => apply preserves_ret
  | |- preserves _ get => apply preserves_get
  | |- preserves _ (bind _ _) => apply preserves_bind; [|intros ?]
  | |- preserves _ (for_each _ _) => apply preserves_for_each; intros ?
  | |- preserves _ (match ?x with _ => _ end) => destruct x
  end.
Ltac preserves_auto := repeat first [ solve [auto with preserves] | preserves_step ].

Lemma preserves_badge_inv_processDeliveredOrder o :
  preserves badge_inv (Orders.processDeliveredOrder o).
Proof. unfold Orders.processDeliveredOrder. preserves_auto. Qed.

Lemma preserves_badge_inv_awardFirstOrderXP u :
  preserves badge_inv (Orders.awardFirstOrderXP u).
Proof. unfold Orders.awardFirstOrderXP. preserves_auto. Qed.

#[local] Hint Resolve preserves_badge_inv_processDeliveredOrder : preserves.

Lemma preserves_badge_inv_UpdateOrderStatus a b c d :
  preserves badge_inv (Orders.UpdateOrderStatus a b c d).
Proof. unfold Orders.UpdateOrderStatus. preserves_auto. Qed.

Lemma preserves_badge_inv_CheckAndAwardBadges body :
  preserves badge_inv (Gamification.CheckAndAwardBadges body).
Proof. unfold Gamification.CheckAndAwardBadges. preserves_auto. Qed.

Lemma awards_grow_refl w : awards_grow w w.
Proof. split; [reflexivity|]. exists []. rewrite app_nil_r. reflexivity. Qed.
Lemma awards_grow_trans a b c : awards_grow a b -> awards_grow b c -> awards_grow a c.
Proof.
  intros [H1 [x Hx]] [H2 [y Hy]]. split; [congruence|]. exists (x ++ y).
  rewrite Hy, Hx, app_assoc. reflexivity.
Qed.
Lemma awards_frame_grow {A} (m : M A) : frames awards_frame m -> frames awards_grow m.
Proof.
  intros H w. destruct (H w) as [Hb Hu]. split; [exact Hb|]. exists []. rewrite app_nil_r. exact Hu.
Qed.
Lemma awards_grow_create_user_badge ub : frames awards_grow (create_user_badge ub).
Proof.
  intros w. destruct (create_user_badge_cases ub w) as (Hb & [Hu | Hu]); split; auto.
  - exists []. rewrite app_nil_r. exact Hu.
  - exists [ub]. exact Hu.
Qed.

#[local] Hint Resolve awards_grow_refl awards_grow_trans awards_grow_create_user_badge : frames.
#[local] Hint Extern 5 (frames awards_grow _) =>
  (apply awards_frame_grow; solve [auto with frames]) : frames.

Lemma awards_grow_checkAndAwardBadges_loop user E bs : forall acc,
  frames awards_grow (Gamification.checkAndAwardBadges_loop user E bs acc).
Proof.
  induction bs as [|b bs IH]; intros acc; cbn [Gamification.checkAndAwardBadges_loop]; frames_auto.
Qed.
#[local] Hint Resolve awards_grow_checkAndAwardBadges_loop : frames.

Lemma awards_grow_CheckAndAwardBadges body :
  frames awards_grow (Gamification.CheckAndAwardBadges body).
Proof. unfold Gamification.CheckAndAwardBadges, Gamification.checkAndAwardBadges. frames_auto. Qed.

Lemma awards_grow_checkAndAwardBadge u t : frames awards_grow (Orders.checkAndAwardBadge u t).
Proof. unfold Orders.checkAndAwardBadge. frames_auto. Qed.
#[local] Hint Resolve awards_grow_checkAndAwardBadge : frames.

Lemma awards_grow_awardFirstOrderXP u : frames awards_grow (Orders.awardFirstOrderXP u).
Proof. unfold Orders.awardFirstOrderXP. frames_auto. Qed.

Lemma awards_grow_processDeliveredOrder o : frames awards_grow (Orders.processDeliveredOrder o).
Proof. unfold Orders.processDeliveredOrder. frames_auto. Qed.
#[local] Hint Resolve awards_grow_processDeliveredOrder : frames.

Lemma awards_grow_UpdateOrderStatus a b c d : frames awards_grow (Orders.UpdateOrderStatus a b c d).
Proof. unfold Orders.UpdateOrderStatus. frames_auto. Qed.

Lemma awards_grow_checkEarlyBirdBadge user : frames awards_grow (Auth.checkEarlyBirdBadge user).
Proof. unfold Auth.checkEarlyBirdBadge. frames_auto. Qed.

Lemma step_badge_inv w w' : step w w' -> badge_inv w -> badge_inv w'.
Proof.
  intros Hs Hw. destruct Hs.
  - apply preserves_badge_inv_of_frame; auto with frames.
  - apply preserves_badge_inv_CheckAndAwardBadges; assumption.
  - apply preserves_badge_inv_of_frame; auto with frames.
  - apply preserves_badge_inv_UpdateOrderStatus; assumption.
  - apply preserves_badge_inv_awardFirstOrderXP; assumption.
  - apply preserves_badge_inv_checkEarlyBirdBadge; assumption.
  - eapply badge_inv_frame; [|exact Hw]. split; assumption.
Qed.

Lemma step_awards_grow w w' : step w w' -> awards_grow w w'.
Proof.
  intros Hs. destruct Hs.
  - apply awards_frame_grow; auto with frames.
  - apply awards_grow_CheckAndAwardBadges.
  - apply awards_frame_grow; auto with frames.
  - apply awards_grow_UpdateOrderStatus.
  - apply awards_grow_awardFirstOrderXP.
  - apply awards_grow_checkEarlyBirdBadge.
  - split; [assumption|]. exists []. rewrite app_nil_r. assumption.
Qed.

(** Operations that run one at a time: in every state reachable from a
    state with a well-formed badge catalog and at most one award per
    (user id, badge type), there is at most one award per (user id, badge
    type), and no step adds an award to a pair that already has one.  The
    steps are the operations of the reward core, each run to completion,
    and arbitrary changes by the rest of the system to everything but the
    catalog and the awards.  Operations that overlap are the subject of
    [awards_unique_without_overlap] below. *)
Theorem badge_awards_unique (w0 w w' : World) :
  catalog_wf w0 -> awards_unique w0 -> rtc step w0 w -> step w w' ->
  awards_unique w
  ∧ awards_unique w'
  ∧ forall u t, awards_of w u t <> [] -> awards_of w' u t = awards_of w u t.
Proof.
  intros Hwf Hun Hreach Hstep.
  assert (Hw : badge_inv w).
  { induction Hreach as [w0 | w0 w1 w2 Hs _ IH]; [split; assumption|].
    destruct (step_badge_inv _ _ Hs (conj Hwf Hun)) as [Hwf1 Hun1]. apply IH; assumption. }
  pose proof (step_badge_inv _ _ Hstep Hw) as Hw'.
  split; [apply Hw | split; [apply Hw'|]].
  intros u t Hne. destruct (step_awards_grow _ _ Hstep) as (Hb & added & Hu).
  destruct Hw' as [_ Hun']. specialize (Hun' u t).
  unfold awards_of in *. rewrite Hu, List.filter_app in *.
  unfold award_has_type in *. rewrite Hb in *.
  destruct (List.filter _ (user_badges w)) as [|x l]; [contradiction|].
  destruct (List.filter _ added) as [|y l'].
  - rewrite app_nil_r. reflexivity.
  - rewrite length_app in Hun'. cbn in Hun'. lia.
Qed.

Lemma badge_awards_unique_witness :
  awards_unique (Scenarios.shop OrderPending [])
  ∧ awards_unique (Gamification.CheckAndAwardBadges (Some (Gamification.mkCheckBadgesRequest 1)) (Scenarios.shop OrderPending [])).2.
Proof.
  destruct (badge_awards_unique (Scenarios.shop OrderPending []) (Scenarios.shop OrderPending [])
              (Gamification.CheckAndAwardBadges (Some (Gamification.mkCheckBadgesRequest 1)) (Scenarios.shop OrderPending [])).2)
    as (H1 & H2 & _).
  - split; apply (bool_decide_unpack _); vm_compute; exact I.
  - intros u t. cbn. lia.
  - apply rtc_refl.
  - apply step_CheckAndAwardBadges.
  - exact (conj H1 H2).
Defined.

(** ** Badge operations that overlap *)

Section OverlappingBadges.

(** The handlers are their statements run one after the other. *)
Lemma checkAndAwardBadge_statements (userID : UUID) (badgeType : BadgeType) (w : World) :
  Orders.checkAndAwardBadge userID badgeType w
  = match checkAndAwardBadge_decide userID badgeType w with
    | None => (tt, w)
    | Some badge =>
        (do _ <- insert_award userID badge ;;
         if 0 <? b_XPReward badge
         then Orders.callGamificationService userID (b_XPReward badge)
                ("Badge: " +:+ b_Name badge) ""
         else ret tt) w
    end.
Proof.
  unfold Orders.checkAndAwardBadge, checkAndAwardBadge_decide. unfold bind at 1, get at 1.
  destruct (first_user userID w) as [user|]; [| reflexivity].
  destruct (Orders.has_badge_of_type userID badgeType w); [reflexivity |].
  destruct (first_badge_of_type badgeType w) as [badge|]; [| reflexivity].
  match goal with |- context [if ?c then Some _ else None] => destruct c end; [| reflexivity].
  unfold insert_award, bind, uuid_New. destruct (create_user_badge _ _). reflexivity.
Qed.

Lemma checkEarlyBirdBadge_statements (user : User) (w : World) :
  Auth.checkEarlyBirdBadge user w
  = match checkEarlyBirdBadge_decide user w with
    | None => (tt, w)
    | Some badge =>
        (do _ <- insert_award (u_ID user) badge ;;
         if 0 <? b_XPReward badge
         then Auth.awardXP (u_ID user) (b_XPReward badge) "Early Bird Badge"
         else ret tt) w
    end.
Proof.
  unfold Auth.checkEarlyBirdBadge, checkEarlyBirdBadge_decide. unfold bind at 1, get at 1.
  destruct (count_users w <=? 100); [| reflexivity].
  destruct (first_badge_of_type BadgeEarlyBird w) as [badge|]; [| reflexivity].
  destruct (List.find _ (user_badges w)); [reflexivity |].
  unfold insert_award, bind, uuid_New. destruct (create_user_badge _ _). reflexivity.
Qed.

Lemma checkAndAwardBadges_loop_statements (user : User) (E : gmap string bool) (badge : Badge)
    (rest : list Badge) (acc : list UserBadge) (w : World) :
  Gamification.checkAndAwardBadges_loop user E (badge :: rest) acc w
  = if held E badge || negb (Gamification.shouldAward user badge w)
    then Gamification.checkAndAwardBadges_loop user E rest acc w
    else
      let inserted := insert_award (u_ID user) badge w in
      if inserted.1
      then Gamification.checkAndAwardBadges_loop user E rest
             (acc ++ [mkUserBadge (uuid_supply w) (u_ID user) (b_ID badge)])
             ((if 0 <? b_XPReward badge
               then Gamification.awardXP (u_ID user) (b_XPReward badge)
                      ("Badge: " +:+ b_Name badge)
               else ret tt) inserted.2).2
      else Gamification.checkAndAwardBadges_loop user E rest acc inserted.2.
Proof.
  cbn [Gamification.checkAndAwardBadges_loop]. unfold held.
  destruct (default false (E !! b_Type badge)); [reflexivity |]. cbn [orb].
  unfold bind at 1, get at 1.
  destruct (Gamification.shouldAward user badge w); [| reflexivity]. cbn [negb].
  cbv zeta. unfold insert_award, bind. cbn [uuid_New fst snd].
  destruct (create_user_badge _ _) as [[] w1]; cbn [fst snd]; [| reflexivity].
  destruct (0 <? b_XPReward badge).
  - destruct (Gamification.awardXP _ _ _ w1) as [[] w2]. reflexivity.
  - reflexivity.
Qed.

(** What the reads establish: the operation goes on to insert only for
    a pair that holds no award in the state it has read. *)
Lemma checkAndAwardBadge_decide_Some (userID : UUID) (badgeType : BadgeType) (badge : Badge)
    (w : World) :
  checkAndAwardBadge_decide userID badgeType w = Some badge ->
  In badge (badges w) ∧ b_Type badge = badgeType ∧ awards_of w userID badgeType = [].
Proof.
  unfold checkAndAwardBadge_decide.
  destruct (first_user userID w) as [user|]; [| discriminate].
  destruct (Orders.has_badge_of_type userID badgeType w) eqn:Hhas; [discriminate |].
  destruct (first_badge_of_type badgeType w) as [b|] eqn:Hb; [| discriminate].
  match goal with |- context [if ?c then Some _ else None] => destruct c end; [| discriminate].
  intros [= <-]. apply first_badge_of_type_Some in Hb as [Hin Hty].
  split; [exact Hin |]. split; [exact Hty |]. apply has_badge_of_type_awards_of. exact Hhas.
Qed.

Lemma checkEarlyBirdBadge_decide_Some (user : User) (badge : Badge) (w : World) :
  checkEarlyBirdBadge_decide user w = Some badge ->
  In badge (badges w)
  ∧ (catalog_wf w -> awards_of w (u_ID user) (b_Type badge) = []).
Proof.
  unfold checkEarlyBirdBadge_decide.
  destruct (count_users w <=? 100); [| discriminate].
  destruct (first_badge_of_type BadgeEarlyBird w) as [b|] eqn:Hb; [| discriminate].
  destruct (List.find _ (user_badges w)) eqn:Hfind; [discriminate |].
  intros [= <-]. apply first_badge_of_type_Some in Hb as [Hin Hty].
  split; [exact Hin |]. intros [Hids Htys].
  destruct (awards_of w (u_ID user) (b_Type b)) as [|ub0 rest] eqn:Hfl; [reflexivity |].
  exfalso.
  assert (Hin0 : In ub0 (awards_of w (u_ID user) (b_Type b))) by (rewrite Hfl; left; reflexivity).
  apply filter_In in Hin0 as (Hin0 & Hp). apply andb_true_iff in Hp as [Hp1 Hp2].
  apply award_has_type_catalog in Hp2 as (b0 & Hb0 & Hid0 & Hbt0).
  assert (b0 = b) by (eapply (NoDup_map_inj_In b_Type); eauto). subst b0.
  eapply find_none in Hfind; [| exact Hin0]. cbn beta in Hfind.
  rewrite Hp1 in Hfind. rewrite bool_decide_eq_true_2 in Hfind by (symmetry; exact Hid0).
  discriminate.
Qed.

Lemma from_catalog_badges (w w' : World) (t : BadgeInFlight) :
  badges w' = badges w -> from_catalog w t -> from_catalog w' t.
Proof. intros Hb. destruct t; cbn; rewrite Hb; auto. Qed.

Lemma insert_award_inv (w : World) (userID : UUID) (badge : Badge) :
  badge_inv w -> In badge (badges w) -> awards_of w userID (b_Type badge) = [] ->
  badge_inv (insert_award userID badge w).2 ∧ badges (insert_award userID badge w).2 = badges w.
Proof.
  intros Hw Hin Hnone. unfold insert_award. unfold bind. cbn [uuid_New].
  set (w1 := with_uuid_supply _ w). set (ub := mkUserBadge _ _ _).
  assert (Hw1 : badge_inv w1) by (apply (badge_inv_frame w); [split; reflexivity | exact Hw]).
  split.
  - apply badge_inv_create; [exact Hw1 |]. intros t' Ht'.
    apply award_has_type_catalog in Ht' as (b & Hb & Hid & Hbt). cbn in Hid, Hb.
    destruct Hw as [[Hi _] _].
    assert (b = badge) by (eapply (NoDup_map_inj_In b_ID); eauto). subst b.
    rewrite <- Hbt. rewrite (awards_of_frame w w1) by (split; reflexivity). exact Hnone.
  - destruct (create_user_badge_cases ub w1) as [Hb _]. exact Hb.
Qed.

(** The steps of a schedule without overlap keep the catalog well formed
    and the awards unique. *)
Lemma award_step_inv (c c' : World * list BadgeInFlight) :
  award_step without_overlap c c' ->
  badge_inv c.1 ∧ Forall (from_catalog c.1) c.2 ->
  badge_inv c'.1 ∧ Forall (from_catalog c'.1) c'.2.
Proof.
  intros Hstep. destruct Hstep as
    [ w w' P Hs | u t b w P Hd | user b w P Hd | u b w P1 P2 Hg | user w P
    | user E b rest w P1 P2 Hskip | user E b rest w P1 P2 Hheld Hrule
    | user E b rest w P1 P2 Hg | user E w P1 P2 ]; cbn [fst snd]; intros [Hw HP].
  - split; [exact (step_badge_inv _ _ Hs Hw) |].
    destruct (step_awards_grow _ _ Hs) as [Hb _].
    eapply Forall_impl; [exact HP |]. intros t. apply from_catalog_badges. exact Hb.
  - split; [exact Hw |]. apply Forall_cons_iff. split; [| exact HP].
    apply checkAndAwardBadge_decide_Some in Hd as [Hin _]. exact Hin.
  - split; [exact Hw |]. apply Forall_cons_iff. split; [| exact HP].
    apply checkEarlyBirdBadge_decide_Some in Hd as [Hin _]. exact Hin.
  - apply Forall_app in HP as [HP1 HP2]. apply Forall_cons_iff in HP2 as [Hin HP2].
    destruct (insert_award_inv w u b Hw Hin Hg) as [Hw' Hb]. split; [exact Hw' |].
    apply Forall_app. split; (eapply Forall_impl; [eassumption |]);
      intros t; apply from_catalog_badges; exact Hb.
  - split; [exact Hw |]. apply Forall_cons_iff. split; [| exact HP]. cbn. auto.
  - split; [exact Hw |].
    apply Forall_app in HP as [HP1 HP2]. apply Forall_cons_iff in HP2 as [Hin HP2].
    apply Forall_app. split; [exact HP1 |]. apply Forall_cons_iff. split; [| exact HP2].
    cbn in *. intros b0 Hb0. apply Hin. right. exact Hb0.
  - split; [exact Hw |].
    apply Forall_app in HP as [HP1 HP2]. apply Forall_cons_iff in HP2 as [Hin HP2].
    apply Forall_app. split; [exact HP1 |]. apply Forall_cons_iff. split; [| exact HP2].
    cbn in *. split; [apply Hin; left; reflexivity | intros b0 Hb0; apply Hin; right; exact Hb0].
  - apply Forall_app in HP as [HP1 HP2]. apply Forall_cons_iff in HP2 as [[Hin Hrest] HP2].
    destruct (insert_award_inv w (u_ID user) b Hw Hin Hg) as [Hw' Hb]. split; [exact Hw' |].
    apply Forall_app. split.
    + eapply Forall_impl; [exact HP1 |]. intros t; apply from_catalog_badges; exact Hb.
    + apply Forall_cons_iff. split.
      * apply (from_catalog_badges w _ (EngineAt user E rest) Hb). exact Hrest.
      * eapply Forall_impl; [exact HP2 |]. intros t; apply from_catalog_badges; exact Hb.
  - split; [exact Hw |].
    apply Forall_app in HP as [HP1 HP2]. apply Forall_cons_iff in HP2 as [_ HP2].
    apply Forall_app. auto.
Qed.




End OverlappingBadges.
Section Ledger.
Import Gamification Scenarios.

(** ** The stored level against the stored balance *)

(** C2: the reward helpers of the order service and of the badge engine
    raise the balance of a user without touching the stored level.  The
    buyer at 490 XP, bronze, ends at 590 XP after the first-order reward,
    at 502 XP after the delivery of the order and at 640 XP after a badge
    check, each time still stored as bronze although the level of the new
    balance is silver. *)
Theorem reward_helpers_leave_level_stale :
  level_consistent (shop OrderPending [])
  ∧ first_user 1 (Orders.awardFirstOrderXP 1 (shop OrderPending [])).2
    = Some (mkUser 1 "Abebe" RoleBuyer LevelBronze 590 250 0)
  ∧ first_user 1 (Orders.processDeliveredOrder (order_31 OrderDelivered) (shop OrderDelivered [])).2
    = Some (mkUser 1 "Abebe" RoleBuyer LevelBronze 502 250 0)
  ∧ first_user 1 (CheckAndAwardBadges (Some (mkCheckBadgesRequest 1)) (shop OrderPending [])).2
    = Some (mkUser 1 "Abebe" RoleBuyer LevelBronze 640 250 0)
  ∧ calculateLevel 590 = LevelSilver ∧ calculateLevel 502 = LevelSilver
  ∧ calculateLevel 640 = LevelSilver
  ∧ ¬ level_consistent (Orders.awardFirstOrderXP 1 (shop OrderPending [])).2.
Proof.
  split; [|repeat split; try (vm_compute; reflexivity)].
  - intros u [<- | [<- | []]]; reflexivity.
  - intros H. specialize (H (mkUser 1 "Abebe" RoleBuyer LevelBronze 590 250 0)).
    assert (Hin : In (mkUser 1 "Abebe" RoleBuyer LevelBronze 590 250 0)
                    (users (Orders.awardFirstOrderXP 1 (shop OrderPending [])).2)).
    { vm_compute. left. reflexivity. }
    specialize (H Hin). vm_compute in H. discriminate.
Qed.

Lemma update_where_id_In id f us u' :
  In u' (update_where_id id f us) ->
  exists u, In u us ∧ u' = (if bool_decide (u_ID u = id) then f u else u).
Proof.
  unfold update_where_id. intros H. apply in_map_iff in H as (u & <- & Hin). eauto.
Qed.

Lemma first_user_Some id w user : first_user id w = Some user -> In user (users w) ∧ u_ID user = id.
Proof.
  unfold first_user. intros H. apply find_some in H as [H1 H2].
  apply bool_decide_eq_true in H2. auto.
Qed.

(** The stored tables after a run of [AddXP] in which the store accepts
    every write. *)
Lemma AddXP_tables (w : World) (req : AddXPRequest) (user : User) :
  first_user (req_UserID req) w = Some user ->
  req_UserID req <> uuid_Nil -> req_Amount req <> 0 -> req_Reason req <> "" ->
  write_faults w = [] ->
  let newXP := int_add (u_TotalXP user) (req_Amount req) in
  let w' := (AddXP (Some req) w).2 in
  xp_transactions w'
  = xp_transactions w
    ++ [mkXPTransaction (uuid_supply w) (req_UserID req) (req_Amount req) (req_Reason req)
          (req_Reference req)]
  ∧ users w'
    = (if bool_decide (calculateLevel newXP = calculateLevel (u_TotalXP user))
       then update_where_id (u_ID user) (set_TotalXP newXP) (users w)
       else update_where_id (u_ID user) (set_Level (calculateLevel newXP))
              (update_where_id (u_ID user) (set_TotalXP newXP) (users w)))
  ∧ write_faults w' = [].
Proof.
  intros Hu Hid Ham Hre Hnf. cbv zeta.
  destruct (AddXP (Some req) w) as [resp w'] eqn:Hrun. cbn [snd].
  unfold AddXP in Hrun.
  rewrite (bool_decide_eq_false_2 _ Hid), (bool_decide_eq_false_2 _ Hre) in Hrun.
  apply Z.eqb_neq in Ham. rewrite Ham in Hrun. cbn [orb] in Hrun.
  unfold bind at 1 in Hrun. unfold get at 1 in Hrun. rewrite Hu in Hrun.
  unfold bind, uuid_New, create_xp_transaction, update_total_xp, update_level, db_exec, ret,
    updateLeaderboards in Hrun.
  destruct w as [us bs ubs txs os c sup fs]; cbn in *. subst fs. cbn in Hrun.
  destruct (bool_decide (calculateLevel _ = calculateLevel _)); cbn in Hrun;
    repeat match type of Hrun with context [if ?b then _ else _] => destruct b; cbn in Hrun end;
    injection Hrun as <- <-; cbn; auto.
Qed.

(** On the direct path the stored level follows the balance: when the
    store accepts the writes, [AddXP] keeps the level of every user equal
    to the level of the stored balance. *)
Lemma AddXP_keeps_level_consistent (w : World) (body : option AddXPRequest) :
  level_consistent w -> NoDup (map u_ID (users w)) -> write_faults w = [] ->
  level_consistent (AddXP body w).2.
Proof.
  intros Hc Hnd Hnf. destruct body as [req|]; [|exact Hc].
  destruct (decide (req_UserID req = uuid_Nil)) as [Hid | Hid];
    [unfold AddXP; rewrite (bool_decide_eq_true_2 _ Hid); exact Hc|].
  destruct (decide (req_Amount req = 0)) as [Ham | Ham];
    [unfold AddXP; rewrite Ham, orb_true_r; exact Hc|].
  destruct (decide (req_Reason req = "")) as [Hre | Hre];
    [unfold AddXP; rewrite (bool_decide_eq_true_2 _ Hre), orb_true_r; exact Hc|].
  destruct (first_user (req_UserID req) w) as [user|] eqn:Hu.
  2:{ unfold AddXP. rewrite (bool_decide_eq_false_2 _ Hid), (bool_decide_eq_false_2 _ Hre).
      apply Z.eqb_neq in Ham. rewrite Ham. cbn [orb]. unfold bind, get. rewrite Hu. exact Hc. }
  destruct (AddXP_tables w req user Hu Hid Ham Hre Hnf) as (_ & Hus & _).
  destruct (first_user_Some _ _ _ Hu) as [Huin Huid].
  intros u' Hin'. rewrite Hus in Hin'.
  destruct (bool_decide (calculateLevel _ = calculateLevel _)) eqn:Hlv.
  - apply bool_decide_eq_true in Hlv.
    apply update_where_id_In in Hin' as (u & Hin & ->).
    destruct (bool_decide (u_ID u = u_ID user)) eqn:He; [|apply Hc; exact Hin].
    apply bool_decide_eq_true in He.
    assert (u = user) by (eapply (NoDup_map_inj_In u_ID); eauto). subst u.
    cbn. rewrite Hlv. apply Hc. exact Huin.
  - apply update_where_id_In in Hin' as (u1 & Hin1 & ->).
    apply update_where_id_In in Hin1 as (u & Hin & ->).
    destruct (bool_decide (u_ID u = u_ID user)) eqn:He; cbn [u_ID set_TotalXP]; rewrite He.
    + reflexivity.
    + apply Hc. exact Hin.
Qed.

(** ** The ledger against the counter *)

Lemma ledger_sum_append uid w w' tx :
  xp_transactions w' = xp_transactions w ++ [tx] ->
  ledger_sum uid w' = ledger_sum uid w + (if bool_decide (tx_UserID tx = uid) then tx_Amount tx else 0).
Proof.
  intros H. unfold ledger_sum. rewrite H, List.filter_app, map_app. cbn [List.filter].
  generalize (map tx_Amount (List.filter (fun tx0 => bool_decide (tx_UserID tx0 = uid)) (xp_transactions w))).
  intros l. induction l as [|a l IH]; cbn.
  - destruct (bool_decide (tx_UserID tx = uid)); cbn; lia.
  - rewrite IH. lia.
Qed.

Lemma ledger_consistent_credit (w w' : World) (uid : UUID) (n : Z) (tx : XPTransaction) (xp : User -> Z) :
  ledger_consistent w ->
  xp_transactions w' = xp_transactions w ++ [tx] ->
  tx_UserID tx = uid -> tx_Amount tx = n ->
  users w' = update_where_id uid (fun u => set_TotalXP (xp u) u) (users w) ->
  (forall u, In u (users w) -> u_ID u = uid -> xp u = u_TotalXP u + n) ->
  ledger_consistent w'.
Proof.
  intros Hc Htx Hid Ham Hus Hxp u' Hin. rewrite Hus in Hin.
  apply update_where_id_In in Hin as (u & Hin & ->).
  rewrite (ledger_sum_append _ w w' tx Htx).
  destruct (decide (u_ID u = uid)) as [He | Hne].
  - rewrite (bool_decide_eq_true_2 _ He). cbn [u_TotalXP u_ID set_TotalXP].
    rewrite He, Hid, bool_decide_eq_true_2 by reflexivity.
    rewrite (Hxp u Hin He), Ham, (Hc u Hin), He. reflexivity.
  - rewrite (bool_decide_eq_false_2 _ Hne).
    rewrite bool_decide_eq_false_2 by congruence. rewrite (Hc u Hin). lia.
Qed.

Lemma credit_tables (uid : UUID) (n : Z) (reason reference : string) (w : World) :
  write_faults w = [] -> xp_increment_fits uid n w = true ->
  let w' := (Orders.callGamificationService uid n reason reference w).2 in
  xp_transactions w' = xp_transactions w ++ [mkXPTransaction (uuid_supply w) uid n reason reference]
  ∧ users w' = update_where_id uid (fun u => set_TotalXP (u_TotalXP u + n) u) (users w).
Proof.
  intros Hnf Hfit. cbv zeta.
  unfold Orders.callGamificationService, bind, uuid_New, create_xp_transaction,
    increment_total_xp, db_exec, ret.
  destruct w as [us bs ubs txs os c sup fs]; cbn in *. subst fs. cbn.
  unfold xp_increment_fits in *. cbn in *. rewrite Hfit. cbn. auto.
Qed.

Lemma awardXP_is_callGamificationService uid n reason w :
  awardXP uid n reason w = Orders.callGamificationService uid n reason "" w.
Proof. reflexivity. Qed.

(** Operations that run one at a time: when the store accepts every
    write and no addition leaves the range of the column, each operation
    that records an XP transaction, run to completion on a consistent
    state, leaves the counter of every user equal to the sum of the
    ledger entries of that user.  Operations that overlap are the subject
    of [ledger_consistent_in_order] below. *)
Theorem ledger_consistent_without_faults (w : World) :
  ledger_consistent w -> write_faults w = [] ->
  (forall body,
     (forall req user, body = Some req -> first_user (req_UserID req) w = Some user ->
        in_range (u_TotalXP user + req_Amount req) = true) ->
     ledger_consistent (AddXP body w).2)
  ∧ (forall uid n reason, xp_increment_fits uid n w = true ->
     ledger_consistent (awardXP uid n reason w).2)
  ∧ (forall uid n reason reference, xp_increment_fits uid n w = true ->
     ledger_consistent (Orders.callGamificationService uid n reason reference w).2).
Proof.
  intros Hc Hnf. split; [|split].
  - intros [req|] Hfit; [|exact Hc].
    destruct (decide (req_UserID req = uuid_Nil)) as [Hid | Hid];
      [unfold AddXP; rewrite (bool_decide_eq_true_2 _ Hid); exact Hc|].
    destruct (decide (req_Amount req = 0)) as [Ham | Ham];
      [unfold AddXP; rewrite Ham, orb_true_r; exact Hc|].
    destruct (decide (req_Reason req = "")) as [Hre | Hre];
      [unfold AddXP; rewrite (bool_decide_eq_true_2 _ Hre), orb_true_r; exact Hc|].
    destruct (first_user (req_UserID req) w) as [user|] eqn:Hu.
    2:{ unfold AddXP. rewrite (bool_decide_eq_false_2 _ Hid), (bool_decide_eq_false_2 _ Hre).
        apply Z.eqb_neq in Ham. rewrite Ham. cbn [orb]. unfold bind, get. rewrite Hu. exact Hc. }
    destruct (AddXP_tables w req user Hu Hid Ham Hre Hnf) as (Htx & Hus & _).
    specialize (Hfit req user eq_refl Hu).
    destruct (first_user_Some _ _ _ Hu) as [Huin Huid].
    assert (Hnew : int_add (u_TotalXP user) (req_Amount req) = u_TotalXP user + req_Amount req)
      by (apply int_wrap_in_range; exact Hfit).
    assert (Hbase : ledger_consistent
              (with_users (update_where_id (u_ID user)
                             (set_TotalXP (int_add (u_TotalXP user) (req_Amount req))) (users w))
                 (with_xp_transactions (xp_transactions (AddXP (Some req) w).2) w))).
    { eapply (ledger_consistent_credit w _ (u_ID user) (req_Amount req) _
                (fun _ => int_add (u_TotalXP user) (req_Amount req)) Hc); cbn.
      - exact Htx.
      - cbn. symmetry. exact Huid.
      - reflexivity.
      - reflexivity.
      - intros u Hin He. rewrite Hnew, (Hc u Hin), (Hc user Huin), He. reflexivity. }
    intros u' Hin'. rewrite Hus in Hin'.
    destruct (bool_decide (calculateLevel _ = calculateLevel _)).
    + apply (Hbase u' Hin').
    + apply update_where_id_In in Hin' as (u & Hin & ->).
      specialize (Hbase u Hin). unfold ledger_sum in *. cbn in Hbase.
      destruct (bool_decide (u_ID u = u_ID user)); exact Hbase.
  - intros uid n reason Hfit. rewrite awardXP_is_callGamificationService.
    destruct (credit_tables uid n reason "" w Hnf Hfit) as (Htx & Hus).
    eapply (ledger_consistent_credit w _ uid n _ (fun u => u_TotalXP u + n) Hc); eauto.
  - intros uid n reason reference Hfit.
    destruct (credit_tables uid n reason reference w Hnf Hfit) as (Htx & Hus).
    eapply (ledger_consistent_credit w _ uid n _ (fun u => u_TotalXP u + n) Hc); eauto.
Qed.


(** ** Failures of the ledger write *)

(** C8 (counterexample): the badge check of the buyer awards First Order,
    whose reward is 50 XP; the store rejects the ledger entry of that
    reward (the second write of the run), and the caller still receives
    a success that lists the badge, with no ledger entry for its reward.
    Likewise the seller who marks the order delivered receives a success
    while the ledger entry of the sale reward has been rejected. *)
Lemma ledger_failure_not_surfaced :
  (let r := CheckAndAwardBadges (Some (mkCheckBadgesRequest 1))
              (shop OrderPending [false; true]) in
   resp_Success r.1 = true ∧ resp_Status r.1 = 200
   ∧ map ub_BadgeID <$> resp_Data r.1 = Some [11%N; 14%N]
   ∧ List.filter (fun tx => bool_decide (tx_Reason tx = "Badge: First Order"))
       (xp_transactions r.2) = [])
  ∧ (let r := Orders.UpdateOrderStatus (Some 31%N) (Some 2%N) RoleSeller
                (Some (Orders.mkUpdateOrderStatusRequest OrderDelivered ""))
                (shop OrderShipped [false; false; true]) in
     resp_Success r.1 = true ∧ resp_Status r.1 = 200
     ∧ u_TotalSales <$> first_user 2 r.2 = Some 250%float
     ∧ List.filter (fun tx => bool_decide (tx_Reason tx = "Product Sale"))
         (xp_transactions r.2) = []).
Proof. cbv zeta. repeat split; vm_compute; reflexivity. Qed.

(** C8 (as amended): on the direct path a rejected ledger write is fatal.
    [AddXP] answers with an internal server error and has changed neither
    the users nor the ledger nor the awards nor the cache. *)
Theorem AddXP_ledger_failure_is_fatal (w : World) (req : AddXPRequest) (user : User)
    (fs : list bool) :
  first_user (req_UserID req) w = Some user ->
  req_UserID req <> uuid_Nil -> req_Amount req <> 0 -> req_Reason req <> "" ->
  write_faults w = true :: fs ->
  (AddXP (Some req) w).1 = InternalServerErrorResponse "Failed to create XP transaction"
  ∧ resp_Success (AddXP (Some req) w).1 = false
  ∧ users (AddXP (Some req) w).2 = users w
  ∧ xp_transactions (AddXP (Some req) w).2 = xp_transactions w
  ∧ user_badges (AddXP (Some req) w).2 = user_badges w
  ∧ cache (AddXP (Some req) w).2 = cache w.
Proof.
  intros Hu Hid Ham Hre Hnf.
  destruct (AddXP (Some req) w) as [resp w'] eqn:Hrun. cbn [fst snd].
  unfold AddXP in Hrun.
  rewrite (bool_decide_eq_false_2 _ Hid), (bool_decide_eq_false_2 _ Hre) in Hrun.
  apply Z.eqb_neq in Ham. rewrite Ham in Hrun. cbn [orb] in Hrun.
  unfold bind at 1 in Hrun. unfold get at 1 in Hrun. rewrite Hu in Hrun.
  unfold bind, uuid_New, create_xp_transaction, db_exec, ret in Hrun.
  destruct w as [us bs ubs txs os c sup fs0]; cbn in *. subst fs0. cbn in Hrun.
  injection Hrun as <- <-. cbn. auto 10.
Qed.

Lemma AddXP_ledger_failure_is_fatal_witness :
  (AddXP (Some (mkAddXPRequest 1 20 "Order Completed" "31")) (shop OrderPending [true])).1
  = InternalServerErrorResponse "Failed to create XP transaction"
  ∧ xp_transactions (AddXP (Some (mkAddXPRequest 1 20 "Order Completed" "31"))
                       (shop OrderPending [true])).2
    = xp_transactions (shop OrderPending [true]).
Proof.
  destruct (AddXP_ledger_failure_is_fatal (shop OrderPending [true])
              (mkAddXPRequest 1 20 "Order Completed" "31") abebe [])
    as (H1 & _ & _ & H2 & _); [reflexivity | discriminate | discriminate | discriminate | reflexivity |].
  exact (conj H1 H2).
Defined.

Lemma ledger_consistent_without_faults_witness :
  ledger_consistent (AddXP (Some (mkAddXPRequest 1 20 "Order Completed" "31")) (shop OrderPending [])).2
  ∧ ledger_consistent (awardXP 1 50 "Badge: First Order" (shop OrderPending [])).2.
Proof.
  assert (Hc : ledger_consistent (shop OrderPending []))
    by (intros u [<- | [<- | []]]; reflexivity).
  destruct (ledger_consistent_without_faults (shop OrderPending []) Hc eq_refl) as (H1 & H2 & _).
  split.
  - apply H1. intros req user [= <-] [= <-]. reflexivity.
  - apply H2. reflexivity.
Defined.

End Ledger.
(** ** XP operations that overlap *)

Section OverlappingXP.
Import Gamification.

(** The handlers are their statements run one after the other. *)
Lemma callGamificationService_statements (userID : UUID) (amount : Z)
    (reason reference : string) (w : World) :
  Orders.callGamificationService userID amount reason reference w
  = (tt, (increment_total_xp userID amount (record_xp userID amount reason reference w).2).2).
Proof.
  unfold Orders.callGamificationService, record_xp, bind, uuid_New, ret. cbn [fst snd].
  destruct (create_xp_transaction _ _) as [created w1]. cbn [snd].
  destruct (increment_total_xp userID amount w1). reflexivity.
Qed.

Lemma AddXP_statements (req : AddXPRequest) (w : World) :
  AddXP (Some req) w
  = if bool_decide (req_UserID req = uuid_Nil) || (req_Amount req =? 0)
       || bool_decide (req_Reason req = "")
    then (ValidationErrorResponse "User ID, amount, and reason are required", w)
    else
      match AddXP_read req w with
      | None => (NotFoundResponse "User not found", w)
      | Some user =>
          let recorded := AddXP_record req w in
          if negb recorded.1.1
          then (InternalServerErrorResponse "Failed to create XP transaction", recorded.2)
          else AddXP_finish user req recorded.1.2 recorded.2
      end.
Proof.
  unfold AddXP, AddXP_read.
  destruct (bool_decide (req_UserID req = uuid_Nil) || (req_Amount req =? 0)
            || bool_decide (req_Reason req = "")); [reflexivity |].
  unfold bind at 1, get at 1. destruct (first_user (req_UserID req) w) as [user|]; [| reflexivity].
  cbv zeta. unfold AddXP_record, AddXP_finish, bind, uuid_New, ret. cbn [fst snd].
  destruct (create_xp_transaction _ _) as [created w1]. cbn [fst snd].
  destruct created; reflexivity.
Qed.

(** The statements on a store that accepts every write. *)
Lemma record_xp_tables (userID : UUID) (amount : Z) (reason reference : string) (w : World) :
  write_faults w = [] ->
  let w' := (record_xp userID amount reason reference w).2 in
  xp_transactions w'
  = xp_transactions w ++ [mkXPTransaction (uuid_supply w) userID amount reason reference]
  ∧ users w' = users w ∧ write_faults w' = [].
Proof.
  intros Hnf. cbv zeta. unfold record_xp, bind, uuid_New, create_xp_transaction, db_exec.
  destruct w as [us bs ubs txs os c sup fs]; cbn in *. subst fs. cbn. auto.
Qed.

Lemma AddXP_record_tables (req : AddXPRequest) (w : World) :
  write_faults w = [] ->
  let r := AddXP_record req w in
  r.1.1 = true
  ∧ xp_transactions r.2
    = xp_transactions w
      ++ [mkXPTransaction (uuid_supply w) (req_UserID req) (req_Amount req) (req_Reason req)
            (req_Reference req)]
  ∧ users r.2 = users w ∧ write_faults r.2 = [].
Proof.
  intros Hnf. cbv zeta. unfold AddXP_record, bind, uuid_New, create_xp_transaction, db_exec, ret.
  destruct w as [us bs ubs txs os c sup fs]; cbn in *. subst fs. cbn. auto.
Qed.

Lemma increment_total_xp_tables (userID : UUID) (amount : Z) (w : World) :
  write_faults w = [] -> xp_increment_fits userID amount w = true ->
  let w' := (increment_total_xp userID amount w).2 in
  users w' = update_where_id userID (fun u => set_TotalXP (u_TotalXP u + amount) u) (users w)
  ∧ xp_transactions w' = xp_transactions w ∧ write_faults w' = [].
Proof.
  intros Hnf Hfit. cbv zeta. unfold increment_total_xp, db_exec.
  destruct w as [us bs ubs txs os c sup fs]; cbn in *. subst fs.
  unfold xp_increment_fits in *. cbn in *. rewrite Hfit. cbn. auto.
Qed.

Lemma AddXP_finish_tables (user : User) (req : AddXPRequest) (tx : XPTransaction) (w : World) :
  write_faults w = [] ->
  let newXP := int_add (u_TotalXP user) (req_Amount req) in
  let w' := (AddXP_finish user req tx w).2 in
  balances w'
  = map (fun u => (u_ID u, if bool_decide (u_ID u = u_ID user) then newXP else u_TotalXP u))
      (users w)
  ∧ xp_transactions w' = xp_transactions w ∧ write_faults w' = [].
Proof.
  intros Hnf. cbv zeta.
  assert (Hview : forall l us,
            map (fun u => (u_ID u, u_TotalXP u))
              (update_where_id (u_ID user) (set_Level l)
                 (update_where_id (u_ID user)
                    (set_TotalXP (int_add (u_TotalXP user) (req_Amount req))) us))
            = map (fun u => (u_ID u, if bool_decide (u_ID u = u_ID user)
                                     then int_add (u_TotalXP user) (req_Amount req)
                                     else u_TotalXP u)) us
            ∧ map (fun u => (u_ID u, u_TotalXP u))
                (update_where_id (u_ID user)
                   (set_TotalXP (int_add (u_TotalXP user) (req_Amount req))) us)
              = map (fun u => (u_ID u, if bool_decide (u_ID u = u_ID user)
                                       then int_add (u_TotalXP user) (req_Amount req)
                                       else u_TotalXP u)) us).
  { intros l us. unfold update_where_id. rewrite !map_map. split; apply map_ext; intros u.
    - destruct (bool_decide (u_ID u = u_ID user)) eqn:E; cbn [u_ID set_TotalXP];
        rewrite E; reflexivity.
    - destruct (bool_decide (u_ID u = u_ID user)); reflexivity. }
  destruct (AddXP_finish user req tx w) as [resp w'] eqn:Hrun. cbn [snd].
  unfold AddXP_finish in Hrun.
  unfold bind, update_total_xp, update_level, db_exec, ret, updateLeaderboards in Hrun.
  destruct w as [us bs ubs txs os c sup fs]; cbn in Hnf. subst fs.
  cbn -[update_where_id] in Hrun.
  destruct (bool_decide (calculateLevel _ = calculateLevel _)); cbn -[update_where_id] in Hrun;
    repeat match type of Hrun with
           | context [if ?b then _ else _] => destruct b; cbn -[update_where_id] in Hrun
           end;
    injection Hrun as <- <-; unfold balances; cbn -[update_where_id];
    (split; [apply (Hview LevelBronze us) || apply Hview | auto]).
Qed.

Lemma ledger_sum_tables (userID : UUID) (w w' : World) :
  xp_transactions w' = xp_transactions w -> ledger_sum userID w' = ledger_sum userID w.
Proof. intros H. unfold ledger_sum. rewrite H. reflexivity. Qed.

Lemma outstanding_app (userID : UUID) (P1 P2 : list XPInFlight) :
  outstanding userID (P1 ++ P2) = outstanding userID P1 + outstanding userID P2.
Proof.
  induction P1 as [|t P1 IH]; [reflexivity |]. cbn [app outstanding fold_right].
  change (fold_right _ 0 (P1 ++ P2)) with (outstanding userID (P1 ++ P2)).
  change (fold_right _ 0 P1) with (outstanding userID P1).
  rewrite IH. destruct t as [uid n | user req | user req tx];
    repeat match goal with |- context [bool_decide ?p] => destruct (bool_decide p) end; lia.
Qed.

(** The rows after a change of the counters described row by row. *)
Lemma balances_rows (w w' : World) (g : User -> Z) :
  balances w' = map (fun u => (u_ID u, g u)) (users w) ->
  map u_ID (users w') = map u_ID (users w)
  ∧ forall u', In u' (users w') ->
      exists u, In u (users w) ∧ u_ID u' = u_ID u ∧ u_TotalXP u' = g u.
Proof.
  unfold balances. intros H. split.
  - apply (f_equal (map fst)) in H. rewrite !map_map in H. exact H.
  - intros u' Hin.
    assert (Hv : In (u_ID u', u_TotalXP u') (map (fun u => (u_ID u, g u)) (users w))).
    { rewrite <- H. apply in_map_iff. exists u'. auto. }
    apply in_map_iff in Hv as (u & [= Hid Hxp] & Hu). exists u. auto.
Qed.

Lemma balances_same_rows (w w' : World) :
  users w' = users w -> balances w' = map (fun u => (u_ID u, u_TotalXP u)) (users w).
Proof. intros H. unfold balances. rewrite H. reflexivity. Qed.

Lemma holds_balance_rows (w w' : World) (t : XPInFlight) :
  (forall u', In u' (users w') ->
     exists u, In u (users w) ∧ u_ID u' = u_ID u
               ∧ (match t with
                  | Recorded _ _ => True
                  | AddXPRead user _ | AddXPRecorded user _ _ =>
                      u_ID u = u_ID user -> u_TotalXP u' = u_TotalXP u
                  end)) ->
  holds_balance w t -> holds_balance w' t.
Proof.
  intros Hrows. destruct t as [uid n | user req | user req tx]; cbn; [auto | |];
    intros [Hid Hbal]; (split; [exact Hid |]); intros u' Hin' Hu';
    destruct (Hrows u' Hin') as (u & Hin & Heq & Hxp);
    rewrite Hxp by congruence; apply Hbal; [exact Hin | congruence | exact Hin | congruence].
Qed.


Lemma holds_balance_users (w w' : World) (t : XPInFlight) :
  users w' = users w -> holds_balance w t -> holds_balance w' t.
Proof. intros H. destruct t; cbn; rewrite ?H; auto. Qed.

Lemma holds_balance_elsewhere (w w' : World) (userID : UUID) (P : list XPInFlight) :
  (forall u', In u' (users w') ->
     exists u, In u (users w) ∧ u_ID u' = u_ID u
               ∧ (u_ID u <> userID -> u_TotalXP u' = u_TotalXP u)) ->
  Forall (fun t => match t with
                   | Recorded _ _ => True
                   | AddXPRead user _ | AddXPRecorded user _ _ => u_ID user <> userID
                   end) P ->
  Forall (holds_balance w) P -> Forall (holds_balance w') P.
Proof.
  intros Hrows Hfree HP. induction P as [|t P IH]; [constructor |].
  apply Forall_cons_iff in Hfree as [Ht Hfree]. apply Forall_cons_iff in HP as [Hb HP].
  apply Forall_cons_iff. split; [| apply IH; assumption].
  apply (holds_balance_rows w w'); [| exact Hb].
  intros u' Hin'. destruct (Hrows u' Hin') as (u & Hin & Hid & Hxp).
  exists u. split; [exact Hin |]. split; [exact Hid |].
  destruct t as [uid n | user req | user req tx]; [exact I | |];
    intros Hu; apply Hxp; congruence.
Qed.

Lemma xp_increment_fits_row (userID : UUID) (amount : Z) (w : World) (u : User) :
  xp_increment_fits userID amount w = true -> In u (users w) -> u_ID u = userID ->
  in_range (u_TotalXP u + amount) = true.
Proof.
  unfold xp_increment_fits. intros Hfit Hin Hid. rewrite forallb_forall in Hfit.
  specialize (Hfit u Hin). rewrite (bool_decide_eq_true_2 _ Hid) in Hfit. exact Hfit.
Qed.

Lemma map_u_ID_update_where_id (id : UUID) (f : User -> User) (us : list User) :
  (forall u, u_ID (f u) = u_ID u) -> map u_ID (update_where_id id f us) = map u_ID us.
Proof.
  intros Hf. unfold update_where_id. rewrite map_map. apply map_ext. intros u.
  destruct (bool_decide _); [apply Hf | reflexivity].
Qed.

(** The statements of a schedule in order keep the account: on a store
    that accepts every write, the counter of every user plus the amounts
    whose counter write is outstanding is the sum of the ledger entries
    of the user, and every [AddXP] in flight still holds the balance of
    its user. *)
Lemma xp_step_inv (c c' : World * list XPInFlight) :
  xp_step in_order c c' ->
  write_faults c.1 = [] ∧ NoDup (map u_ID (users c.1))
  ∧ (forall u, In u (users c.1) ->
       u_TotalXP u + outstanding (u_ID u) c.2 = ledger_sum (u_ID u) c.1)
  ∧ Forall (holds_balance c.1) c.2 ->
  write_faults c'.1 = [] ∧ NoDup (map u_ID (users c'.1))
  ∧ (forall u, In u (users c'.1) ->
       u_TotalXP u + outstanding (u_ID u) c'.2 = ledger_sum (u_ID u) c'.1)
  ∧ Forall (holds_balance c'.1) c'.2.
Proof.
  intros Hstep. destruct Hstep as
    [ uid n reason reference w P | uid n w P1 P2 [Hfit Hfree] | req user w P Hread
    | user req w P1 P2 | user req tx w P1 P2 [Hfit Hfree] | w w' P Htx Hbal Hfs ];
    cbn [fst snd]; intros (Hnf & Hids & Hc & HP).
  - destruct (record_xp_tables uid n reason reference w Hnf) as (Htx & Hus & Hnf').
    split; [exact Hnf' |]. split; [rewrite Hus; exact Hids |]. split.
    + intros u Hin. rewrite Hus in Hin. specialize (Hc u Hin).
      rewrite (ledger_sum_append (u_ID u) w _ _ Htx). cbn [tx_UserID tx_Amount].
      cbn [outstanding fold_right]. change (fold_right _ 0 P) with (outstanding (u_ID u) P).
      destruct (bool_decide (uid = u_ID u)); lia.
    + apply Forall_cons_iff. split; [exact I |].
      eapply Forall_impl; [exact HP |]. intros t. apply holds_balance_users. exact Hus.
  - destruct (increment_total_xp_tables uid n w Hnf Hfit) as (Hus & Htx & Hnf').
    split; [exact Hnf' |].
    split; [rewrite Hus, map_u_ID_update_where_id by reflexivity; exact Hids |].
    assert (Hrows : forall u', In u' (users (increment_total_xp uid n w).2) ->
              exists u, In u (users w) ∧ u_ID u' = u_ID u
                        ∧ u_TotalXP u' = (if bool_decide (u_ID u = uid)
                                          then u_TotalXP u + n else u_TotalXP u)).
    { intros u' Hin'. rewrite Hus in Hin'.
      apply update_where_id_In in Hin' as (u & Hin & ->). exists u. split; [exact Hin |].
      destruct (bool_decide (u_ID u = uid)); auto. }
    split.
    + intros u' Hin'. destruct (Hrows u' Hin') as (u & Hin & Hid & Hxp).
      specialize (Hc u Hin). rewrite (ledger_sum_tables _ w _ Htx), Hid, Hxp.
      rewrite outstanding_app in *. cbn [outstanding fold_right] in Hc.
      change (fold_right _ 0 P2) with (outstanding (u_ID u) P2) in Hc.
      destruct (decide (u_ID u = uid)) as [He | Hne].
      * rewrite (bool_decide_eq_true_2 _ He).
        rewrite bool_decide_eq_true_2 in Hc by congruence. lia.
      * rewrite (bool_decide_eq_false_2 _ Hne).
        rewrite bool_decide_eq_false_2 in Hc by congruence. lia.
    + apply Forall_app in HP as [HP1 HP2]. apply Forall_cons_iff in HP2 as [_ HP2].
      apply (holds_balance_elsewhere w _ uid); [| exact Hfree | apply Forall_app; auto].
      intros u' Hin'. destruct (Hrows u' Hin') as (u & Hin & Hid & Hxp).
      exists u. split; [exact Hin |]. split; [exact Hid |]. intros Hne.
      rewrite Hxp, bool_decide_eq_false_2 by exact Hne. reflexivity.
  - split; [exact Hnf |]. split; [exact Hids |].
    unfold AddXP_read in Hread.
    destruct (bool_decide _ || _ || _); [discriminate |].
    apply first_user_Some in Hread as [Huin Huid]. split.
    + intros u Hin. cbn [outstanding fold_right]. apply Hc. exact Hin.
    + apply Forall_cons_iff. split; [| exact HP]. cbn. split; [exact Huid |].
      intros u Hin Hid. f_equal. eapply (NoDup_map_inj_In u_ID); eauto.
  - destruct (AddXP_record_tables req w Hnf) as (Hcreated & Htx & Hus & Hnf').
    rewrite Hcreated.
    apply Forall_app in HP as [HP1 HP2]. apply Forall_cons_iff in HP2 as [Hb HP2].
    pose proof Hb as [Huid _].
    split; [exact Hnf' |]. split; [rewrite Hus; exact Hids |]. split.
    + intros u Hin. rewrite Hus in Hin. specialize (Hc u Hin).
      rewrite (ledger_sum_append (u_ID u) w _ _ Htx). cbn [tx_UserID tx_Amount].
      rewrite !outstanding_app in *. cbn [outstanding fold_right] in *.
      change (fold_right _ 0 P2) with (outstanding (u_ID u) P2) in Hc.
      rewrite <- Huid.
      destruct (bool_decide (u_ID user = u_ID u)); lia.
    + apply Forall_app. split; [| apply Forall_app; split].
      * eapply Forall_impl; [exact HP1 |]. intros t. apply holds_balance_users. exact Hus.
      * apply Forall_cons_iff. split; [| constructor].
        apply (holds_balance_users w _ (AddXPRead user req) Hus). exact Hb.
      * eapply Forall_impl; [exact HP2 |]. intros t. apply holds_balance_users. exact Hus.
  - destruct (AddXP_finish_tables user req tx w Hnf) as (Hview & Htx & Hnf').
    destruct (balances_rows w _ _ Hview) as (Hids' & Hrows).
    apply Forall_app in HP as [HP1 HP2]. apply Forall_cons_iff in HP2 as [[Huid Hheld] HP2].
    split; [exact Hnf' |]. split; [rewrite Hids'; exact Hids |]. split.
    + intros u' Hin'. destruct (Hrows u' Hin') as (u & Hin & Hid & Hxp).
      specialize (Hc u Hin). rewrite (ledger_sum_tables _ w _ Htx), Hid, Hxp.
      rewrite outstanding_app in *. cbn [outstanding fold_right] in Hc.
      change (fold_right _ 0 P2) with (outstanding (u_ID u) P2) in Hc.
      destruct (decide (u_ID u = u_ID user)) as [He | Hne].
      * rewrite (bool_decide_eq_true_2 _ He).
        rewrite bool_decide_eq_true_2 in Hc by congruence.
        pose proof (xp_increment_fits_row _ _ _ u Hfit Hin He) as Hrange.
        rewrite (Hheld u Hin He) in Hrange, Hc.
        unfold int_add. rewrite (int_wrap_in_range _ Hrange). lia.
      * rewrite (bool_decide_eq_false_2 _ Hne).
        rewrite bool_decide_eq_false_2 in Hc by congruence. lia.
    + apply (holds_balance_elsewhere w _ (u_ID user)); [| exact Hfree | apply Forall_app; auto].
      intros u' Hin'. destruct (Hrows u' Hin') as (u & Hin & Hid & Hxp).
      exists u. split; [exact Hin |]. split; [exact Hid |]. intros Hne.
      rewrite Hxp, bool_decide_eq_false_2 by exact Hne. reflexivity.
  - destruct (balances_rows w w' u_TotalXP Hbal) as (Hids' & Hrows).
    split; [congruence |]. split; [rewrite Hids'; exact Hids |]. split.
    + intros u' Hin'. destruct (Hrows u' Hin') as (u & Hin & Hid & Hxp).
      rewrite (ledger_sum_tables _ w _ Htx), Hid, Hxp. apply Hc. exact Hin.
    + eapply Forall_impl; [exact HP |]. intros t. apply holds_balance_rows.
      intros u' Hin'. destruct (Hrows u' Hin') as (u & Hin & Hid & Hxp).
      exists u. split; [exact Hin |]. split; [exact Hid |].
      destruct t; auto.
Qed.


(** A credit and an [AddXP] that run with nothing else in flight are
    schedules in order. *)
Lemma callGamificationService_in_order (userID : UUID) (amount : Z)
    (reason reference : string) (w : World) :
  write_faults w = [] -> xp_increment_fits userID amount w = true ->
  rtc (xp_step in_order) (w, [])
    ((Orders.callGamificationService userID amount reason reference w).2, []).
Proof.
  intros Hnf Hfit. rewrite callGamificationService_statements. cbn [snd].
  destruct (record_xp_tables userID amount reason reference w Hnf) as (_ & Hus & _).
  eapply rtc_l; [apply (xs_record _ userID amount reason reference) |].
  eapply rtc_l; [| apply rtc_refl].
  apply (xs_increment _ userID amount _ [] []). split; [| constructor].
  unfold xp_increment_fits in *. rewrite Hus. exact Hfit.
Qed.

Lemma AddXP_in_order (req : AddXPRequest) (user : User) (w : World) :
  AddXP_read req w = Some user ->
  write_faults w = [] ->
  xp_increment_fits (u_ID user) (req_Amount req) w = true ->
  rtc (xp_step in_order) (w, []) ((AddXP (Some req) w).2, []).
Proof.
  intros Hread Hnf Hfit. rewrite AddXP_statements. pose proof Hread as Hread'.
  unfold AddXP_read in Hread'.
  destruct (bool_decide _ || _ || _); [discriminate |]. rewrite Hread. cbv zeta.
  destruct (AddXP_record_tables req w Hnf) as (Hcreated & _ & Hus & _).
  pose proof (xs_add_record in_order user req w [] []) as Hrec.
  rewrite Hcreated in Hrec |- *. cbn [negb app] in Hrec |- *.
  eapply rtc_l; [apply (xs_add_read _ req user); exact Hread |].
  eapply rtc_l; [exact Hrec |].
  eapply rtc_l; [| apply rtc_refl].
  apply (xs_add_finish _ user req _ _ [] []). split; [| constructor].
  unfold xp_increment_fits in *. rewrite Hus. exact Hfit.
Qed.



(** The schedule that the amended claim excludes: a payment reward is
    credited between the read and the counter write of an [AddXP] for
    the same user.  No write is rejected; the [AddXP] writes back the
    balance it has read plus its amount, and the 10 XP of the reward
    stay in the ledger and are gone from the counter. *)
Lemma AddXP_overwrites_a_credit :
  ledger_consistent (Scenarios.shop OrderPending [])
  ∧ exists c,
      rtc (xp_step any_order) (Scenarios.shop OrderPending [], []) c
      ∧ c.2 = []
      ∧ write_faults c.1 = []
      ∧ ledger_sum 1 c.1 = 520
      ∧ u_TotalXP <$> first_user 1 c.1 = Some 510
      ∧ ¬ ledger_consistent c.1.
Proof.
  split; [intros u [<- | [<- | []]]; reflexivity |].
  set (req := mkAddXPRequest 1 20 "Order Completed" "31").
  set (w1 := (record_xp 1 10 "Payment Completed" "61" (Scenarios.shop OrderPending [])).2).
  set (w2 := (increment_total_xp 1 10 w1).2).
  set (r3 := AddXP_record req w2).
  exists ((AddXP_finish Scenarios.abebe req r3.1.2 r3.2).2, []).
  split; [| split; [reflexivity | split; [reflexivity | split; [| split]]]].
  - eapply rtc_l; [apply (xs_add_read _ req Scenarios.abebe); reflexivity |].
    eapply rtc_l; [apply (xs_record _ 1%N 10 "Payment Completed" "61") |].
    eapply rtc_l; [apply (xs_increment _ 1%N 10 _ [] [AddXPRead Scenarios.abebe req]); exact I |].
    eapply rtc_l; [apply (xs_add_record _ Scenarios.abebe req _ [] []) |].
    eapply rtc_l; [apply (xs_add_finish _ Scenarios.abebe req _ _ [] []); exact I |].
    apply rtc_refl.
  - vm_compute. reflexivity.
  - vm_compute. reflexivity.
  - intros H.
    specialize (H (mkUser 1 "Abebe" RoleBuyer LevelSilver 510 250 0)).
    assert (Hin : In (mkUser 1 "Abebe" RoleBuyer LevelSilver 510 250 0)
                    (users (AddXP_finish Scenarios.abebe req r3.1.2 r3.2).2))
      by (vm_compute; left; reflexivity).
    specialize (H Hin). vm_compute in H. discriminate.
Qed.

End OverlappingXP.
(** ** Delivered orders are rewarded on every call *)

Section Delivery.
Import Scenarios.

Lemma delivery_frame_refl w : delivery_frame w w.
Proof. repeat split; auto. exists []. rewrite app_nil_r. reflexivity. Qed.

Lemma delivery_frame_trans a b c : delivery_frame a b -> delivery_frame b c -> delivery_frame a c.
Proof.
  intros (H1 & H2 & H3 & x & Hx) (G1 & G2 & G3 & y & Hy). repeat split; try congruence; auto.
  exists (x ++ y). rewrite Hy, Hx, app_assoc. reflexivity.
Qed.

#[local] Hint Resolve delivery_frame_refl delivery_frame_trans : frames.

Lemma sales_view_update_xp id f us :
  (forall u, u_ID (f u) = u_ID u ∧ u_TotalSales (f u) = u_TotalSales u) ->
  map (fun u => (u_ID u, u_TotalSales u)) (update_where_id id f us)
  = map (fun u => (u_ID u, u_TotalSales u)) us.
Proof.
  intros Hf. unfold update_where_id. rewrite map_map. apply map_ext. intros u.
  destruct (bool_decide (u_ID u = id)); [|reflexivity]. destruct (Hf u) as [-> ->]. reflexivity.
Qed.

Lemma delivery_frame_db_exec stmt :
  (forall w w', stmt w = Some w' ->
     orders w' = orders w ∧ sales_view w' = sales_view w ∧ write_faults w' = write_faults w
     ∧ exists added, xp_transactions w' = xp_transactions w ++ added) ->
  frames delivery_frame (db_exec stmt).
Proof.
  intros Hs w. unfold db_exec. destruct w as [us bs ubs txs os c sup fs].
  destruct fs as [|[] fs]; cbn.
  - destruct (stmt _) as [w'|] eqn:E; cbn; [|apply delivery_frame_refl].
    destruct (Hs _ _ E) as (H1 & H2 & H3 & H4). repeat split; auto.
  - repeat split; [discriminate|]. exists []. rewrite app_nil_r. reflexivity.
  - destruct (stmt _) as [w'|] eqn:E; cbn.
    + destruct (Hs _ _ E) as (H1 & H2 & H3 & H4). repeat split; auto. discriminate.
    + repeat split; [discriminate|]. exists []. rewrite app_nil_r. reflexivity.
Qed.

Lemma delivery_frame_uuid_New : frames delivery_frame uuid_New.
Proof. intros w. repeat split; auto. exists []. rewrite app_nil_r. reflexivity. Qed.

Lemma delivery_frame_create_xp tx : frames delivery_frame (create_xp_transaction tx).
Proof.
  apply delivery_frame_db_exec. intros w w' [= <-]. repeat split. exists [tx]. reflexivity.
Qed.

Lemma delivery_frame_create_user_badge ub : frames delivery_frame (create_user_badge ub).
Proof.
  apply delivery_frame_db_exec. intros w w' [= <-]. repeat split. exists []. cbn.
  rewrite app_nil_r. reflexivity.
Qed.

Lemma delivery_frame_increment_total_xp id n : frames delivery_frame (increment_total_xp id n).
Proof.
  apply delivery_frame_db_exec. intros w w'. destruct (xp_increment_fits id n w); intros [= <-].
  repeat split.
  - unfold sales_view. cbn. apply sales_view_update_xp. intros u. split; reflexivity.
  - exists []. cbn. rewrite app_nil_r. reflexivity.
Qed.

#[local] Hint Resolve delivery_frame_uuid_New delivery_frame_create_xp
  delivery_frame_create_user_badge delivery_frame_increment_total_xp : frames.

Lemma delivery_frame_callGamificationService u n r f :
  frames delivery_frame (Orders.callGamificationService u n r f).
Proof. unfold Orders.callGamificationService. frames_auto. Qed.
#[local] Hint Resolve delivery_frame_callGamificationService : frames.

Lemma delivery_frame_checkAndAwardBadge u t : frames delivery_frame (Orders.checkAndAwardBadge u t).
Proof. unfold Orders.checkAndAwardBadge. frames_auto. Qed.
#[local] Hint Resolve delivery_frame_checkAndAwardBadge : frames.

Lemma callGamificationService_exact u n r f w :
  write_faults w = [] ->
  xp_transactions (Orders.callGamificationService u n r f w).2
  = xp_transactions w ++ [mkXPTransaction (uuid_supply w) u n r f]
  ∧ write_faults (Orders.callGamificationService u n r f w).2 = []
  ∧ orders (Orders.callGamificationService u n r f w).2 = orders w
  ∧ sales_view (Orders.callGamificationService u n r f w).2 = sales_view w.
Proof.
  intros Hnf.
  unfold Orders.callGamificationService, bind, uuid_New, create_xp_transaction,
    increment_total_xp, db_exec, ret.
  destruct w as [us bs ubs txs os c sup fs]; cbn in *. subst fs. cbn.
  match goal with |- context [if ?b then _ else _] => destruct b end; cbn; repeat split.
  unfold sales_view. cbn. apply sales_view_update_xp. intros u0. split; reflexivity.
Qed.

Lemma increment_total_sales_exact id x w :
  write_faults w = [] ->
  sales_view (increment_total_sales id x w).2
  = map (fun p => (p.1, if bool_decide (id = p.1) then PrimFloat.add p.2 x else p.2)) (sales_view w)
  ∧ xp_transactions (increment_total_sales id x w).2 = xp_transactions w
  ∧ write_faults (increment_total_sales id x w).2 = []
  ∧ orders (increment_total_sales id x w).2 = orders w.
Proof.
  intros Hnf. unfold increment_total_sales, db_exec.
  destruct w as [us bs ubs txs os c sup fs]; cbn in *. subst fs. cbn. repeat split.
  unfold sales_view, update_where_id. cbn. rewrite !map_map. apply map_ext. intros u. cbn.
  destruct (decide (u_ID u = id)) as [He | Hne].
  - rewrite (bool_decide_eq_true_2 _ He). rewrite bool_decide_eq_true_2 by congruence. reflexivity.
  - rewrite (bool_decide_eq_false_2 _ Hne). rewrite bool_decide_eq_false_2 by congruence. reflexivity.
Qed.

Lemma bind_snd {A B} (m : M A) (k : A -> M B) w :
  (bind m k w).2 = (k (m w).1 (m w).2).2.
Proof. unfold bind. destruct (m w). reflexivity. Qed.

Lemma for_each_cons_snd {A} (x : A) (l : list A) (body : A -> M unit) w :
  (for_each (x :: l) body w).2 = (for_each l body (body x w).2).2.
Proof. cbn [for_each]. rewrite bind_snd. reflexivity. Qed.

Lemma optional_credit_exact (cond : bool) u n r f w :
  write_faults w = [] ->
  let w' := ((if cond then Orders.callGamificationService u n r f else ret tt) w).2 in
  write_faults w' = [] ∧ orders w' = orders w ∧ sales_view w' = sales_view w
  ∧ map tx_entry (xp_transactions w')
    = map tx_entry (xp_transactions w) ++ (if cond then [(u, n, r, f)] else []).
Proof.
  intros Hnf. cbv zeta. destruct cond.
  - destruct (callGamificationService_exact u n r f w Hnf) as (G1 & G2 & G3 & G4).
    rewrite G1, map_app. auto.
  - cbn. rewrite app_nil_r. auto.
Qed.

Lemma credit_item_exact (order : Order) (item : OrderItem) w :
  write_faults w = [] ->
  let w' := (credit_item order item w).2 in
  write_faults w' = [] ∧ orders w' = orders w
  ∧ sales_view w'
    = map (fun p => (p.1, if bool_decide (oi_Product_SellerID item = p.1)
                          then PrimFloat.add p.2 (sale_amount item) else p.2)) (sales_view w)
  ∧ map tx_entry (xp_transactions w')
    = map tx_entry (xp_transactions w)
      ++ (if 0 <? sale_xp item
          then [(oi_Product_SellerID item, sale_xp item, "Product Sale", uuid_String (o_ID order))]
          else []).
Proof.
  intros Hnf. cbv zeta. unfold credit_item. rewrite !bind_snd.
  fold (sale_amount item). fold (sale_xp item).
  destruct (increment_total_sales_exact (oi_Product_SellerID item) (sale_amount item) w Hnf)
    as (Hs1 & Ht1 & Hf1 & Ho1).
  destruct (optional_credit_exact (0 <? sale_xp item) (oi_Product_SellerID item) (sale_xp item)
              "Product Sale" (uuid_String (o_ID order)) _ Hf1) as (Hf2 & Ho2 & Hs2 & Ht2).
  repeat split; [assumption | congruence | congruence | congruence].
Qed.

Lemma credit_items_exact (order : Order) (items : list OrderItem) : forall w,
  write_faults w = [] ->
  let w' := (for_each items (credit_item order) w).2 in
  write_faults w' = [] ∧ orders w' = orders w
  ∧ sales_view w' = map (fun p => (p.1, sales_credited items p.1 p.2)) (sales_view w)
  ∧ map tx_entry (xp_transactions w')
    = map tx_entry (xp_transactions w)
      ++ flat_map (fun item =>
                     if 0 <? sale_xp item
                     then [(oi_Product_SellerID item, sale_xp item, "Product Sale",
                            uuid_String (o_ID order))]
                     else []) items.
Proof.
  induction items as [|item items IH]; intros w Hnf; cbv zeta.
  - cbn. rewrite app_nil_r. repeat split; auto.
    rewrite <- (map_id (sales_view w)) at 1. apply map_ext. intros [a b]. reflexivity.
  - rewrite !for_each_cons_snd. cbn [flat_map].
    destruct (credit_item_exact order item w Hnf) as (Hf1 & Ho1 & Hs1 & Ht1).
    destruct (IH _ Hf1) as (Hf2 & Ho2 & Hs2 & Ht2).
    repeat split.
    + exact Hf2.
    + congruence.
    + rewrite Hs2, Hs1, map_map. apply map_ext. intros [a b]. reflexivity.
    + rewrite Ht2, Ht1, <- app_assoc. reflexivity.
Qed.

Lemma for_each_badge_checks_frame (items : list OrderItem) :
  frames delivery_frame
    (for_each items (fun item => Orders.checkAndAwardBadge (oi_Product_SellerID item) BadgeTopSeller)).
Proof. frames_auto. Qed.

Lemma processDeliveredOrder_exact (order : Order) (w : World) :
  write_faults w = [] ->
  let w' := (Orders.processDeliveredOrder order w).2 in
  write_faults w' = [] ∧ orders w' = orders w
  ∧ sales_view w' = map (fun p => (p.1, sales_credited (o_Items order) p.1 p.2)) (sales_view w)
  ∧ exists badge_rewards,
      map tx_entry (xp_transactions w')
      = map tx_entry (xp_transactions w) ++ delivery_rewards order ++ badge_rewards.
Proof.
  intros Hnf. cbv zeta. unfold Orders.processDeliveredOrder.
  change (fun item : OrderItem => bind _ _) with (credit_item order).
  rewrite !bind_snd. fold (buyer_xp order).
  destruct (credit_items_exact order (o_Items order) w Hnf) as (Hf1 & Ho1 & Hs1 & Ht1).
  set (w1 := (for_each (o_Items order) (credit_item order) w).2) in *.
  destruct (optional_credit_exact (0 <? buyer_xp order) (o_BuyerID order) (buyer_xp order)
              "Order Completed" (uuid_String (o_ID order)) w1 Hf1) as (Hf2 & Ho2 & Hs2 & Ht2).
  match type of Hf2 with write_faults ?x = [] => set (w2 := x) in * end.
  pose proof (delivery_frame_checkAndAwardBadge (o_BuyerID order) BadgeBigSpender w2)
    as (Ho3 & Hs3 & Hf3 & added3 & Ht3).
  set (w3 := (Orders.checkAndAwardBadge (o_BuyerID order) BadgeBigSpender w2).2) in *.
  pose proof (for_each_badge_checks_frame (o_Items order) w3) as (Ho4 & Hs4 & Hf4 & added4 & Ht4).
  repeat split.
  - auto.
  - congruence.
  - rewrite Hs4, Hs3, Hs2, Hs1. reflexivity.
  - exists (map tx_entry (added3 ++ added4)).
    rewrite Ht4, Ht3, !map_app, Ht2, Ht1. unfold delivery_rewards.
    rewrite <- !app_assoc. reflexivity.
Qed.

Lemma save_order_exact (o : Order) (w : World) :
  write_faults w = [] ->
  save_order o w
  = (true, with_orders (map (fun o' => if bool_decide (o_ID o' = o_ID o) then o else o') (orders w)) w).
Proof.
  intros Hnf. unfold save_order, db_exec.
  destruct w as [us bs ubs txs os c sup fs]; cbn in *. subst fs. reflexivity.
Qed.

Lemma first_order_saved (o o1 : Order) (id : UUID) (w w' : World) :
  first_order id w = Some o -> o_ID o1 = o_ID o ->
  orders w' = map (fun o' => if bool_decide (o_ID o' = o_ID o1) then o1 else o') (orders w) ->
  first_order id w' = Some o1.
Proof.
  unfold first_order. intros Hfo Hid ->. induction (orders w) as [|a l IH]; cbn in *; [discriminate|].
  destruct (bool_decide (o_ID a = id)) eqn:Ha.
  - injection Hfo as ->. rewrite Hid. rewrite (bool_decide_eq_true_2 (o_ID o = o_ID o) eq_refl).
    rewrite Hid, Ha. reflexivity.
  - destruct (bool_decide (o_ID a = o_ID o1)) eqn:Hb.
    + apply bool_decide_eq_true in Hb. apply find_some in Hfo as [_ Ho].
      apply bool_decide_eq_true in Ho. rewrite Hb, Hid, Ho in Ha.
      rewrite bool_decide_eq_true_2 in Ha by reflexivity. discriminate.
    + rewrite Ha. auto.
Qed.

Lemma UpdateOrderStatus_delivered_run (w : World) (orderID userID : UUID) (order : Order)
    (notes : string) :
  first_order orderID w = Some order ->
  existsb (fun item => bool_decide (oi_Product_SellerID item = userID)) (o_Items order) = true ->
  write_faults w = [] ->
  let order1 := Orders.set_Status_Notes OrderDelivered
                  (if bool_decide (notes = "") then o_Notes order else notes) order in
  let w1 := (save_order order1 w).2 in
  let w2 := (Orders.processDeliveredOrder order1 w1).2 in
  Orders.UpdateOrderStatus (Some orderID) (Some userID) RoleSeller
    (Some (Orders.mkUpdateOrderStatusRequest OrderDelivered notes)) w
  = (SuccessResponse "Order status updated successfully"
       (default order1 (first_order (o_ID order1) w2)), w2).
Proof.
  intros Hfo Hperm Hnf. cbv zeta. unfold Orders.UpdateOrderStatus.
  change (existsb _ Orders.validStatuses) with true. cbn [negb].
  unfold bind at 1, get at 1. rewrite Hfo.
  rewrite (bool_decide_eq_true_2 (RoleSeller = RoleSeller) eq_refl). cbn [negb].
  rewrite Hperm. cbn [negb Orders.usr_Status Orders.usr_Notes].
  unfold bind at 1. rewrite (save_order_exact _ w Hnf). cbn [negb snd].
  rewrite (bool_decide_eq_true_2 (OrderDelivered = OrderDelivered) eq_refl).
  unfold bind at 1.
  destruct (Orders.processDeliveredOrder _ _) as [u w2]. reflexivity.
Qed.

(** C10: there is no guard on the previous status.  When a seller of the
    order sets an order that is already delivered to delivered again and
    the store accepts the writes, the call succeeds and the delivery is
    rewarded once more: every item adds its sale amount to the sales
    total of its seller, and the sale and order-completion entries are
    appended to the ledger (followed by what the badge checks record).
    The order is delivered afterwards as it was before, so the same holds
    for every further call. *)
Theorem UpdateOrderStatus_rewards_delivered_again (w : World) (orderID userID : UUID)
    (order : Order) (notes : string) :
  first_order orderID w = Some order ->
  o_Status order = OrderDelivered ->
  existsb (fun item => bool_decide (oi_Product_SellerID item = userID)) (o_Items order) = true ->
  write_faults w = [] ->
  let r := Orders.UpdateOrderStatus (Some orderID) (Some userID) RoleSeller
             (Some (Orders.mkUpdateOrderStatusRequest OrderDelivered notes)) w in
  resp_Success r.1 = true
  ∧ r.2 = (Orders.processDeliveredOrder
             (Orders.set_Status_Notes OrderDelivered
                (if bool_decide (notes = "") then o_Notes order else notes) order)
             (save_order (Orders.set_Status_Notes OrderDelivered
                (if bool_decide (notes = "") then o_Notes order else notes) order) w).2).2
  ∧ sales_view r.2 = map (fun p => (p.1, sales_credited (o_Items order) p.1 p.2)) (sales_view w)
  ∧ (exists badge_rewards,
       map tx_entry (xp_transactions r.2)
       = map tx_entry (xp_transactions w) ++ delivery_rewards order ++ badge_rewards)
  ∧ (exists order',
       first_order orderID r.2 = Some order' ∧ o_Status order' = OrderDelivered
       ∧ o_Items order' = o_Items order ∧ o_BuyerID order' = o_BuyerID order
       ∧ o_TotalAmount order' = o_TotalAmount order)
  ∧ write_faults r.2 = [].
Proof.
  intros Hfo _ Hperm Hnf. cbv zeta.
  rewrite (UpdateOrderStatus_delivered_run w orderID userID order notes Hfo Hperm Hnf).
  cbn [fst snd].
  set (order1 := Orders.set_Status_Notes OrderDelivered _ order).
  rewrite (save_order_exact order1 w Hnf). cbn [snd].
  set (w1 := with_orders _ w).
  assert (Hnf1 : write_faults w1 = []) by exact Hnf.
  destruct (processDeliveredOrder_exact order1 w1 Hnf1) as (Hf2 & Ho2 & Hs2 & rewards & Ht2).
  split; [reflexivity|]. split; [reflexivity|]. split; [exact Hs2|]. split; [|split].
  - exists rewards. exact Ht2.
  - exists order1. split; [|repeat split].
    eapply (first_order_saved order order1 orderID w); [exact Hfo | reflexivity | exact Ho2].
  - exact Hf2.
Qed.

Lemma UpdateOrderStatus_rewards_delivered_again_witness :
  let r := Orders.UpdateOrderStatus (Some 31%N) (Some 2%N) RoleSeller
             (Some (Orders.mkUpdateOrderStatusRequest OrderDelivered "")) (shop OrderDelivered []) in
  resp_Success r.1 = true
  ∧ sales_view r.2
    = map (fun p => (p.1, sales_credited (o_Items (order_31 OrderDelivered)) p.1 p.2))
        (sales_view (shop OrderDelivered [])).
Proof.
  destruct (UpdateOrderStatus_rewards_delivered_again (shop OrderDelivered []) 31 2
              (order_31 OrderDelivered) "") as (H1 & _ & H2 & _);
    [reflexivity | reflexivity | reflexivity | reflexivity |].
  exact (conj H1 H2).
Defined.

(** The delivery of the order of the shop is rewarded each time the
    seller repeats the call: 250 of sales and the two ledger entries
    per call. *)
Example delivered_twice :
  let call := Orders.UpdateOrderStatus (Some 31%N) (Some 2%N) RoleSeller
                (Some (Orders.mkUpdateOrderStatusRequest OrderDelivered "")) in
  let w2 := (call (call (shop OrderDelivered [])).2).2 in
  sales_view w2 = [(1%N, 0%float); (2%N, 500%float)]
  ∧ map tx_entry (xp_transactions w2)
    = [ (1%N, 490, "Earlier rewards", "");
        (2%N, 25, "Product Sale", "31"); (1%N, 12, "Order Completed", "31");
        (2%N, 25, "Product Sale", "31"); (1%N, 12, "Order Completed", "31") ].
Proof. split; vm_compute; reflexivity. Qed.

End Delivery.
(** ** The cap on leaderboard pages *)

Section LeaderboardCap.
Import Gamification Scenarios.

Lemma GetLeaderboard_loop_length lt r members : forall i entries,
  (length (Redis.GetLeaderboard_loop lt r i members entries) <= length entries + length members)%nat.
Proof.
  induction members as [|m members IH]; intros i entries; cbn [Redis.GetLeaderboard_loop length].
  - lia.
  - destruct (Redis.leaderboard_entry lt r i m).
    + specialize (IH (i + 1) (entries ++ [l])). rewrite length_app in IH. cbn in IH. lia.
    + specialize (IH (i + 1) entries). lia.
Qed.

Lemma range_by_rank_length {A} (l : list A) (stop : Z) :
  0 <= stop -> (length (Redis.range_by_rank l 0 stop) <= Z.to_nat (stop + 1))%nat.
Proof.
  intros Hs. unfold Redis.range_by_rank. cbn [Z.ltb Z.compare].
  destruct (Z.ltb_spec stop 0); [lia|]. cbn [Z.ltb Z.compare].
  destruct (_ || _); [cbn; lia|].
  rewrite length_firstn. destruct (Z.leb_spec (Z.of_nat (length l)) stop); lia.
Qed.

Lemma GetLeaderboard_length lt limit r entries :
  1 <= limit <= 50 -> Redis.GetLeaderboard lt limit r = Some entries ->
  (length entries <= Z.to_nat limit)%nat.
Proof.
  intros Hl. unfold Redis.GetLeaderboard, Redis.ZRevRangeWithScores.
  destruct (negb (Redis.redis_up r)); [discriminate|]. intros [= <-].
  pose proof (GetLeaderboard_loop_length lt r
    (Redis.range_by_rank (rev (default [] (Redis.zsets r !! Redis.leaderboard_key lt))) 0
       (int_sub limit 1)) 0 []) as H.
  assert (Hsub : int_sub limit 1 = limit - 1).
  { unfold int_sub. apply int_wrap_in_range. unfold in_range, int_min, int_max.
    apply andb_true_iff. split; apply Z.leb_le; lia. }
  rewrite Hsub in *.
  pose proof (range_by_rank_length (rev (default [] (Redis.zsets r !! Redis.leaderboard_key lt)))
                (limit - 1)) as H2.
  cbn [length] in H. replace (limit - 1 + 1) with limit in H2 by lia. lia.
Qed.

Lemma leaderboard_entries_of_length score us : length (leaderboard_entries_of score us) = length us.
Proof. unfold leaderboard_entries_of. apply length_imap. Qed.

Lemma gorm_Limit_length {A} (n : Z) (l : list A) :
  0 <= n -> (length (gorm_Limit n l) <= Z.to_nat n)%nat.
Proof.
  intros Hn. unfold gorm_Limit. destruct (Z.ltb_spec n 0); [lia|]. rewrite length_firstn. lia.
Qed.

(** For a limit of at least one the cap holds on both paths and for both
    leaderboards: at most [min limit 50] entries are returned (ten by
    default). *)
Lemma leaderboards_capped_for_positive_limits (w : World) (limitParam : option Z) :
  (forall n, limitParam = Some n -> 1 <= n) ->
  (length (response_entries (GetBuyerLeaderboard limitParam w).1) <= 50)%nat
  ∧ (length (response_entries (GetSellerLeaderboard limitParam w).1) <= 50)%nat.
Proof.
  intros Hpos. unfold GetBuyerLeaderboard, GetSellerLeaderboard, response_entries. cbn.
  set (limit := if 50 <? QueryInt limitParam 10 then 50 else QueryInt limitParam 10).
  assert (Hl : 1 <= limit <= 50).
  { subst limit. unfold QueryInt. destruct limitParam as [n|]; cbn.
    - specialize (Hpos n eq_refl). destruct (Z.ltb_spec 50 n); lia.
    - lia. }
  split.
  - destruct (Redis.GetLeaderboard "weekly_buyers" limit (cache w)) as [entries|] eqn:E.
    + apply GetLeaderboard_length in E; [lia | exact Hl].
    + unfold generateBuyerLeaderboardFromDB. rewrite leaderboard_entries_of_length.
      pose proof (gorm_Limit_length limit
        (order_by_desc u_TotalSpent (List.filter (fun u => bool_decide (u_Role u = RoleBuyer)) (users w)))).
      lia.
  - destruct (Redis.GetLeaderboard "monthly_sellers" limit (cache w)) as [entries|] eqn:E.
    + apply GetLeaderboard_length in E; [lia | exact Hl].
    + unfold generateSellerLeaderboardFromDB. rewrite leaderboard_entries_of_length.
      pose proof (gorm_Limit_length limit
        (order_by_desc u_TotalSales (List.filter (fun u => bool_decide (u_Role u = RoleSeller)) (users w)))).
      lia.
Qed.

(** C6: the cap is only applied to limits above 50.  A limit of 0 reaches
    the ranked set as the range 0..-1, which is the whole set: with 51
    buyers on the leaderboard all 51 come back.  A negative limit lifts
    the limit of the fallback query: with the cache unreachable and a
    limit of -1 all 51 buyers come back as well.  A limit of 500 is cut
    to 50. *)
Theorem leaderboard_cap_misses_nonpositive_limits :
  length (response_entries (GetBuyerLeaderboard (Some 0) crowded_shop).1) = 51%nat
  ∧ length (response_entries
              (GetBuyerLeaderboard (Some (-1))
                 (with_cache (Redis.mkClient false ∅ ∅) crowded_shop)).1) = 51%nat
  ∧ length (response_entries (GetBuyerLeaderboard (Some 500) crowded_shop).1) = 50%nat.
Proof. repeat split; vm_compute; reflexivity. Qed.

End LeaderboardCap.
(** ** The cache path against the fallback *)

Section FallbackParity.
Import Scenarios.

(** *** Strictly ranked scores *)

Section StrictlyRanked.
Variable S : list float.
Hypothesis HS : strictly_ranked S = true.

Lemma ranked_not_nan a : In a S -> is_nan a = false.
Proof.
  unfold strictly_ranked in HS. rewrite !andb_true_iff in HS. destruct HS as [[[H _] _] _].
  rewrite forallb_forall in H. intros Ha. apply negb_true_iff. auto.
Qed.

Lemma ranked_asym a b :
  In a S -> In b S -> PrimFloat.ltb a b = true ->
  PrimFloat.ltb b a = false ∧ PrimFloat.eqb a b = false ∧ PrimFloat.eqb b a = false.
Proof.
  unfold strictly_ranked in HS. rewrite !andb_true_iff in HS. destruct HS as [[_ H] _].
  rewrite forallb_forall in H. intros Ha Hb Hlt. specialize (H a Ha).
  rewrite forallb_forall in H. specialize (H b Hb). rewrite Hlt in H. cbn in H.
  rewrite !andb_true_iff, !negb_true_iff in H. tauto.
Qed.

Lemma ranked_trans a b c :
  In a S -> In b S -> In c S ->
  PrimFloat.ltb a b = true -> PrimFloat.ltb b c = true -> PrimFloat.ltb a c = true.
Proof.
  unfold strictly_ranked in HS. rewrite !andb_true_iff in HS. destruct HS as [_ H].
  rewrite forallb_forall in H. intros Ha Hb Hc H1 H2. specialize (H a Ha).
  rewrite forallb_forall in H. specialize (H b Hb).
  rewrite forallb_forall in H. specialize (H c Hc). rewrite H1, H2 in H. exact H.
Qed.

Lemma pairwise_total (R : float -> float -> bool) l :
  (forall a b, R a b = R b a) -> pairwise R l = true ->
  forall a b, In a l -> In b l -> a <> b -> R a b = true.
Proof.
  intros Hsym. induction l as [|x l IH]; cbn; intros Hp a b Ha Hb Hne; [contradiction|].
  apply andb_true_iff in Hp as [Hx Hp]. rewrite forallb_forall in Hx.
  destruct Ha as [<- | Ha], Hb as [<- | Hb].
  - congruence.
  - auto.
  - rewrite Hsym. auto.
  - auto.
Qed.

Lemma ranked_total a b :
  In a S -> In b S -> a <> b -> PrimFloat.ltb a b = true ∨ PrimFloat.ltb b a = true.
Proof.
  unfold strictly_ranked in HS. rewrite !andb_true_iff in HS. destruct HS as [[[_ H] _] _].
  intros Ha Hb Hne. apply orb_true_iff.
  apply (pairwise_total (fun a b => PrimFloat.ltb a b || PrimFloat.ltb b a) S); auto.
  intros x y. apply orb_comm.
Qed.

Lemma ranked_irrefl a : In a S -> PrimFloat.ltb a a = false.
Proof.
  intros Ha. destruct (PrimFloat.ltb a a) eqn:E; [|reflexivity].
  destruct (ranked_asym a a Ha Ha E) as [H _]. congruence.
Qed.

End StrictlyRanked.

(** *** The two orderings *)

Section Orderings.
Variable S : list float.
Hypothesis HS : strictly_ranked S = true.

Lemma insert_desc_perm {A} (key : A -> float) x l : Permutation (insert_desc key x l) (x :: l).
Proof.
  induction l as [|y l IH]; cbn; [reflexivity|].
  destruct (PrimFloat.ltb (key x) (key y)); [|reflexivity].
  rewrite IH. apply perm_swap.
Qed.

Lemma order_by_desc_perm {A} (key : A -> float) l : Permutation (order_by_desc key l) l.
Proof.
  induction l as [|x l IH]; cbn; [reflexivity|].
  rewrite insert_desc_perm. constructor. exact IH.
Qed.

Lemma insert_desc_sorted {A} (key : A -> float) x l :
  In (key x) S -> (forall y, In y l -> In (key y) S) -> ~ In (key x) (map key l) ->
  StronglySorted (ranked_above key) l ->
  StronglySorted (ranked_above key) (insert_desc key x l).
Proof.
  intros Hx. induction l as [|y l IH]; intros Hl Hfresh Hsorted; cbn.
  - repeat constructor.
  - apply StronglySorted_inv in Hsorted as [Hs Hy].
    assert (HyS : In (key y) S) by (apply Hl; left; reflexivity).
    assert (Hne : key x <> key y) by (intros E; apply Hfresh; left; symmetry; exact E).
    destruct (PrimFloat.ltb (key x) (key y)) eqn:Hlt.
    + constructor.
      * apply IH; auto. -- intros z Hz. apply Hl. right. exact Hz.
        -- intros Hin. apply Hfresh. right. exact Hin.
      * apply Forall_forall. intros z Hz. apply list_elem_of_In in Hz.
        apply (Permutation_in _ (insert_desc_perm key x l)) in Hz as [<- | Hz].
        -- exact Hlt.
        -- rewrite Forall_forall in Hy. apply Hy, list_elem_of_In, Hz.
    + assert (Hyx : PrimFloat.ltb (key y) (key x) = true).
      { destruct (ranked_total S HS _ _ Hx HyS Hne); congruence. }
      constructor; [constructor; assumption|].
      constructor; [exact Hyx|].
      apply Forall_forall. intros z Hz. rewrite Forall_forall in Hy. specialize (Hy z Hz).
      apply list_elem_of_In in Hz.
      apply (ranked_trans S HS (key z) (key y) (key x)); auto.
      apply Hl. right. exact Hz.
Qed.

Lemma order_by_desc_sorted {A} (key : A -> float) l :
  (forall y, In y l -> In (key y) S) -> NoDup (map key l) ->
  StronglySorted (ranked_above key) (order_by_desc key l).
Proof.
  induction l as [|x l IH]; cbn; intros Hl Hnd; [constructor|].
  inversion Hnd as [|? ? Hni Hnd']; subst.
  apply insert_desc_sorted.
  - apply Hl. left. reflexivity.
  - intros y Hy. apply Hl. right. apply (Permutation_in _ (order_by_desc_perm key l)). exact Hy.
  - intros Hin. apply Hni. apply list_elem_of_In.
    eapply Permutation_in; [|exact Hin]. apply Permutation_map, order_by_desc_perm.
  - apply IH; auto.
Qed.

Lemma zset_insert_perm m s l : Permutation (Redis.zset_insert m s l) ((m, s) :: l).
Proof.
  induction l as [|[m' s'] l IH]; cbn; [reflexivity|].
  destruct (Redis.z_before s m s' m'); [reflexivity|].
  rewrite IH. apply perm_swap.
Qed.

Lemma z_before_ranked s m s' m' :
  In s S -> In s' S -> s <> s' -> Redis.z_before s m s' m' = PrimFloat.ltb s s'.
Proof.
  intros Hs Hs' Hne. unfold Redis.z_before.
  destruct (PrimFloat.ltb s s') eqn:Hlt; [reflexivity|].
  destruct (ranked_total S HS _ _ Hs Hs' Hne) as [H | H]; [congruence|].
  destruct (ranked_asym S HS _ _ Hs' Hs H) as (_ & _ & ->). reflexivity.
Qed.

Lemma zset_insert_sorted m s l :
  In s S -> (forall p, In p l -> In p.2 S) -> ~ In s (map snd l) ->
  StronglySorted ranked_below l ->
  StronglySorted ranked_below (Redis.zset_insert m s l).
Proof.
  intros Hx. induction l as [|[m' s'] l IH]; intros Hl Hfresh Hsorted; cbn.
  - repeat constructor.
  - apply StronglySorted_inv in Hsorted as [Hs Hy].
    assert (HyS : In s' S) by (apply (Hl (m', s')); left; reflexivity).
    assert (Hne : s <> s') by (intros E; apply Hfresh; left; symmetry; exact E).
    rewrite (z_before_ranked s m s' m' Hx HyS Hne).
    destruct (PrimFloat.ltb s s') eqn:Hlt.
    + constructor; [constructor; assumption|].
      constructor; [exact Hlt|].
      apply Forall_forall. intros z Hz. rewrite Forall_forall in Hy. specialize (Hy z Hz).
      apply list_elem_of_In in Hz.
      apply (ranked_trans S HS s s' z.2); auto. apply Hl. right. exact Hz.
    + assert (Hyx : PrimFloat.ltb s' s = true).
      { destruct (ranked_total S HS _ _ Hx HyS Hne); congruence. }
      constructor.
      * apply IH; auto. -- intros z Hz. apply Hl. right. exact Hz.
        -- intros Hin. apply Hfresh. right. exact Hin.
      * apply Forall_forall. intros z Hz. apply list_elem_of_In in Hz.
        apply (Permutation_in _ (zset_insert_perm m s l)) in Hz as [<- | Hz].
        -- exact Hyx.
        -- rewrite Forall_forall in Hy. apply Hy, list_elem_of_In, Hz.
Qed.

Lemma zset_remove_absent m l : ~ In m (map fst l) -> Redis.zset_remove m l = l.
Proof.
  unfold Redis.zset_remove. induction l as [|[m' s'] l IH]; cbn; intros Hni; [reflexivity|].
  destruct (String.eqb m' m) eqn:E.
  - apply String.eqb_eq in E. subst. exfalso. apply Hni. left. reflexivity.
  - cbn. rewrite IH; [reflexivity|]. intros H. apply Hni. right. exact H.
Qed.

Lemma StronglySorted_rev {A} (R : A -> A -> Prop) l :
  StronglySorted R l -> StronglySorted (fun x y => R y x) (rev l).
Proof.
  induction 1 as [|x l Hs IH Hx]; cbn; [constructor|].
  apply StronglySorted_app_2; [|exact IH|repeat constructor].
  intros a b Ha Hb. apply list_elem_of_In in Ha, Hb. destruct Hb as [<- | []].
  apply in_rev in Ha. rewrite Forall_forall in Hx. apply Hx, list_elem_of_In, Ha.
Qed.

End Orderings.

(** *** One leaderboard of the cache *)

Lemma json_Marshal_encodable (m : gmap string Redis.JValue) :
  (forall k v, m !! k = Some v -> Redis.json_encodable v = true) ->
  Redis.json_Marshal m = Some (Redis.JSONObject m).
Proof.
  intros Hm. unfold Redis.json_Marshal.
  replace (forallb Redis.json_encodable (map snd (map_to_list m))) with true; [reflexivity |].
  symmetry. apply forallb_forall. intros v Hv.
  apply in_map_iff in Hv as ([k v'] & <- & Hin).
  apply list_elem_of_In, elem_of_map_to_list in Hin. exact (Hm k v' Hin).
Qed.

Lemma json_Marshal_userData (u : User) :
  Redis.json_Marshal (leaderboard_userData u) = Some (Redis.JSONObject (leaderboard_userData u)).
Proof.
  apply json_Marshal_encodable. intros k v. unfold leaderboard_userData.
  rewrite !lookup_insert_Some, lookup_empty.
  intros [[_ <-] | [_ [[_ <-] | [_ [[_ <-] | [_ Hv]]]]]]; [reflexivity .. | discriminate].
Qed.

Lemma SetLeaderboardEntry_same_board board member score data json r :
  Redis.redis_up r = true -> is_nan score = false ->
  Redis.json_Marshal data = Some json ->
  let r' := (Redis.SetLeaderboardEntry board member score data r).2 in
  Redis.redis_up r' = true
  ∧ board_zset board r' = Redis.zset_insert member score (Redis.zset_remove member (board_zset board r))
  ∧ board_hash board r' = <[member := json]> (board_hash board r).
Proof.
  intros Hup Hnan Hjson. cbv zeta.
  unfold Redis.SetLeaderboardEntry, Redis.ZAdd, Redis.HSet, board_zset, board_hash.
  rewrite Hup, Hnan, Hjson. cbn. rewrite Hup. cbn. rewrite !lookup_insert_eq. auto.
Qed.

Lemma SetLeaderboardEntry_other_board board board' member score data r :
  Redis.redis_up r = true ->
  Redis.leaderboard_key board' <> Redis.leaderboard_key board ->
  Redis.leaderboard_users_key board' <> Redis.leaderboard_users_key board ->
  let r' := (Redis.SetLeaderboardEntry board' member score data r).2 in
  Redis.redis_up r' = true
  ∧ board_zset board r' = board_zset board r
  ∧ board_hash board r' = board_hash board r.
Proof.
  intros Hup Hk Hu. cbv zeta.
  unfold Redis.SetLeaderboardEntry, Redis.ZAdd, Redis.HSet, board_zset, board_hash.
  rewrite Hup. cbn. destruct (is_nan score); cbn; [auto|].
  destruct (Redis.json_Marshal data); cbn;
    [rewrite Hup; cbn |]; rewrite ?lookup_insert_ne by assumption; auto.
Qed.

Section Board.
Variables (board : string) (on_board : User -> bool) (score : User -> float).

Hypothesis update_on : forall u r,
  on_board u = true -> Redis.redis_up r = true -> is_nan (score u) = false ->
  Redis.redis_up (leaderboard_update u r) = true
  ∧ board_zset board (leaderboard_update u r) = board_insert score (board_zset board r) u
  ∧ board_hash board (leaderboard_update u r) = board_store (board_hash board r) u.

Hypothesis update_off : forall u r,
  on_board u = false -> Redis.redis_up r = true ->
  Redis.redis_up (leaderboard_update u r) = true
  ∧ board_zset board (leaderboard_update u r) = board_zset board r
  ∧ board_hash board (leaderboard_update u r) = board_hash board r.

Lemma board_after_updates (us : list User) : forall r,
  Redis.redis_up r = true ->
  (forall u, In u us -> on_board u = true -> is_nan (score u) = false) ->
  let r' := fold_left (fun r u => leaderboard_update u r) us r in
  Redis.redis_up r' = true
  ∧ board_zset board r' = fold_left (board_insert score) (List.filter on_board us) (board_zset board r)
  ∧ board_hash board r' = fold_left board_store (List.filter on_board us) (board_hash board r).
Proof.
  induction us as [|u us IH]; intros r Hup Hnan; cbv zeta; cbn [fold_left List.filter].
  - auto.
  - assert (Hnan' : forall u', In u' us -> on_board u' = true -> is_nan (score u') = false)
      by (intros; apply Hnan; [right|]; assumption).
    destruct (on_board u) eqn:Hon.
    + destruct (update_on u r Hon Hup (Hnan u (or_introl eq_refl) Hon)) as (H1 & H2 & H3).
      destruct (IH _ H1 Hnan') as (G1 & G2 & G3). cbn [fold_left].
      rewrite G2, G3, H2, H3. auto.
    + destruct (update_off u r Hon Hup) as (H1 & H2 & H3).
      destruct (IH _ H1 Hnan') as (G1 & G2 & G3). rewrite G2, G3, H2, H3. auto.
Qed.

End Board.

Lemma pairwise_NoDup (R : float -> float -> bool) l :
  (forall a, In a l -> R a a = false) -> pairwise R l = true -> NoDup l.
Proof.
  induction l as [|x l IH]; cbn; intros Hirr Hp; [constructor|].
  apply andb_true_iff in Hp as [Hx Hp]. rewrite forallb_forall in Hx. constructor.
  - intros Hin. apply list_elem_of_In in Hin. specialize (Hx x Hin).
    rewrite Hirr in Hx by (left; reflexivity). discriminate.
  - apply IH; auto.
Qed.

Lemma ranked_NoDup S : strictly_ranked S = true -> NoDup S.
Proof.
  intros HS. pose proof HS as HS'.
  unfold strictly_ranked in HS'. rewrite !andb_true_iff in HS'. destruct HS' as [[[_ H] _] _].
  apply (pairwise_NoDup (fun a b => PrimFloat.ltb a b || PrimFloat.ltb b a) S); [|exact H].
  intros a Ha. rewrite (ranked_irrefl S HS a Ha). reflexivity.
Qed.

Section RankedBoard.
Variable score : User -> float.
Variable bs : list User.
Hypothesis Hranked : strictly_ranked (map score bs) = true.
Hypothesis Hids : NoDup (map u_ID bs).

Lemma board_members_NoDup : NoDup (map (fun u => uuid_String (u_ID u)) bs).
Proof.
  rewrite <- (map_map u_ID uuid_String). apply NoDup_fmap_2; [|exact Hids].
  unfold uuid_String. apply _.
Qed.

Lemma board_zset_sorted : forall l x,
  bs = l ++ x ->
  Permutation (fold_left (board_insert score) l []) (map (leaderboard_member score) l)
  ∧ StronglySorted ranked_below (fold_left (board_insert score) l []).
Proof.
  induction l as [|u l IH] using rev_ind; intros x Hbs.
  - cbn. split; constructor.
  - rewrite fold_left_app. cbn [fold_left].
    destruct (IH ([u] ++ x)) as [Hp Hs]; [rewrite Hbs, <- app_assoc; reflexivity|].
    set (z := fold_left (board_insert score) l []) in *.
    pose proof board_members_NoDup as Hm. pose proof (ranked_NoDup _ Hranked) as Hsc.
    rewrite Hbs, <- app_assoc, !map_app in Hm, Hsc. cbn [map app] in Hm, Hsc.
    apply NoDup_app in Hm as (_ & Hm & _). apply NoDup_app in Hsc as (_ & Hsc & _).
    assert (Hfresh_m : ~ In (uuid_String (u_ID u)) (map fst z)).
    { intros Hin. apply (Permutation_in _ (Permutation_map fst Hp)) in Hin.
      rewrite map_map in Hin. cbn in Hin. apply list_elem_of_In in Hin.
      apply (Hm _ Hin). left. }
    assert (Hfresh_s : ~ In (score u) (map snd z)).
    { intros Hin. apply (Permutation_in _ (Permutation_map snd Hp)) in Hin.
      rewrite map_map in Hin. cbn in Hin. apply list_elem_of_In in Hin.
      apply (Hsc _ Hin). left. }
    change (board_insert score z u)
      with (Redis.zset_insert (uuid_String (u_ID u)) (score u)
              (Redis.zset_remove (uuid_String (u_ID u)) z)).
    rewrite (zset_remove_absent _ _ Hfresh_m). split.
    + rewrite zset_insert_perm, map_app. cbn [map].
      rewrite Hp. apply (Permutation_cons_append _ (leaderboard_member score u)).
    + apply (zset_insert_sorted (map score bs) Hranked); auto.
      * apply in_map. rewrite Hbs, !in_app_iff. left. right. left. reflexivity.
      * intros p Hin. apply (Permutation_in _ Hp) in Hin. apply in_map_iff in Hin as (u' & <- & Hu').
        cbn. apply in_map. rewrite Hbs, !in_app_iff. left. left. exact Hu'.
Qed.

Lemma board_ranking :
  rev (fold_left (board_insert score) bs [])
  = map (leaderboard_member score) (order_by_desc score bs).
Proof.
  destruct (board_zset_sorted bs [] (eq_sym (app_nil_r bs))) as [Hp Hs].
  apply (StronglySorted_unique_strong (ranked_above snd)).
  - intros p q Hp1 Hq1 H1 H2. exfalso. unfold ranked_above in *.
    apply list_elem_of_In, in_rev in Hp1. apply (Permutation_in _ Hp) in Hp1.
    apply in_map_iff in Hp1 as (u1 & <- & Hu1).
    apply list_elem_of_In, in_map_iff in Hq1 as (u2 & <- & Hu2).
    apply (Permutation_in _ (order_by_desc_perm score bs)) in Hu2. cbn in H1, H2.
    destruct (ranked_asym _ Hranked (score u2) (score u1)) as [H _]; auto using in_map.
    congruence.
  - apply (StronglySorted_rev ranked_below). exact Hs.
  - apply (StronglySorted_fmap (leaderboard_member score) (ranked_above score)).
    + intros a b H. exact H.
    + apply (order_by_desc_sorted (map score bs) Hranked).
      * intros y Hy. apply in_map. exact Hy.
      * apply ranked_NoDup. exact Hranked.
  - rewrite <- Permutation_rev, Hp. apply Permutation_map. symmetry. apply order_by_desc_perm.
Qed.

Lemma board_store_other (l : list User) : forall h k,
  ~ In k (map (fun u => uuid_String (u_ID u)) l) -> fold_left board_store l h !! k = h !! k.
Proof.
  induction l as [|u l IH]; intros h k Hni; cbn; [reflexivity|].
  rewrite IH by (intros H; apply Hni; right; exact H).
  unfold board_store. apply lookup_insert_ne. intros E. apply Hni. left. exact E.
Qed.

Lemma board_store_lookup (l : list User) : forall h u,
  NoDup (map (fun u => uuid_String (u_ID u)) l) -> In u l ->
  fold_left board_store l h !! uuid_String (u_ID u) = Some (Redis.JSONObject (leaderboard_userData u)).
Proof.
  induction l as [|x l IH]; intros h u Hnd Hin; cbn in *; [contradiction|].
  inversion Hnd as [|? ? Hni Hnd']; subst. destruct Hin as [-> | Hin].
  - rewrite board_store_other by (rewrite <- list_elem_of_In; exact Hni).
    unfold board_store. apply lookup_insert_eq.
  - apply IH; assumption.
Qed.

End RankedBoard.

(** *** Reading a leaderboard back *)

Lemma range_by_rank_firstn {A} (l : list A) (n : Z) :
  1 <= n -> Redis.range_by_rank l 0 (n - 1) = firstn (Z.to_nat n) l.
Proof.
  intros Hn. unfold Redis.range_by_rank. cbn [Z.ltb Z.compare].
  destruct (Z.ltb_spec (n - 1) 0); [lia|]. cbn [Z.ltb Z.compare].
  destruct (Z.ltb_spec (n - 1) 0); [lia|]. cbn [orb skipn Z.to_nat].
  destruct (Z.leb_spec (Z.of_nat (length l)) 0).
  - destruct l; [|cbn in *; lia]. rewrite firstn_nil. reflexivity.
  - change (skipn (Z.to_nat 0) l) with l.
    destruct (Z.leb_spec (Z.of_nat (length l)) (n - 1)).
    + rewrite !firstn_all2 by lia. reflexivity.
    + f_equal. lia.
Qed.

Lemma leaderboard_entry_cached board r score i u :
  Redis.redis_up r = true ->
  board_hash board r !! uuid_String (u_ID u) = Some (Redis.JSONObject (leaderboard_userData u)) ->
  Redis.leaderboard_entry board r i (leaderboard_member score u) = Some (cached_entry score i u).
Proof.
  intros Hup Hh. unfold Redis.leaderboard_entry, Redis.HGet. rewrite Hup. cbn [negb fst snd leaderboard_member].
  unfold board_hash in Hh. rewrite Hh. cbn [Redis.json_Unmarshal].
  unfold leaderboard_userData.
  rewrite lookup_insert_eq.
  rewrite (lookup_insert_ne _ "name" "level") by discriminate. rewrite lookup_insert_eq.
  rewrite (lookup_insert_ne _ "name" "badge_count") by discriminate.
  rewrite (lookup_insert_ne _ "level" "badge_count") by discriminate. rewrite lookup_insert_eq.
  reflexivity.
Qed.

Lemma GetLeaderboard_loop_cached board r score (us : list User) : forall i entries,
  Redis.redis_up r = true ->
  (forall u, In u us ->
     board_hash board r !! uuid_String (u_ID u) = Some (Redis.JSONObject (leaderboard_userData u))) ->
  Redis.GetLeaderboard_loop board r i (map (leaderboard_member score) us) entries
  = entries ++ imap (fun k u => cached_entry score (i + Z.of_nat k) u) us.
Proof.
  induction us as [|u us IH]; intros i entries Hup Hh; cbn [map Redis.GetLeaderboard_loop imap].
  - rewrite app_nil_r. reflexivity.
  - rewrite (leaderboard_entry_cached board r score i u Hup (Hh u (or_introl eq_refl))).
    rewrite IH by (auto; intros; apply Hh; right; assumption).
    rewrite <- app_assoc. cbn [app]. rewrite Z.add_0_r. do 2 f_equal.
    apply imap_ext. intros k x _. cbn. f_equal. lia.
Qed.

Lemma clear_UserID_entries score us :
  map clear_UserID (Gamification.leaderboard_entries_of score us)
  = imap (fun k u => cached_entry score (0 + Z.of_nat k) u) us.
Proof.
  unfold Gamification.leaderboard_entries_of.
  change (map clear_UserID) with (fmap (M:=list) clear_UserID). rewrite fmap_imap.
  apply imap_ext. intros k x _. reflexivity.
Qed.

Lemma cache_refresh (us : list User) : forall w,
  cache (fold_left (fun w u => (Gamification.updateLeaderboards u (u_TotalXP u) w).2) us w)
  = fold_left (fun r u => leaderboard_update u r) us (cache w).
Proof.
  induction us as [|u us IH]; intros w; cbn [fold_left]; [reflexivity|].
  rewrite IH. f_equal. unfold Gamification.updateLeaderboards, leaderboard_update.
  fold (leaderboard_userData u).
  destruct (bool_decide (u_Role u = RoleBuyer)); [reflexivity|].
  destruct (bool_decide (u_Role u = RoleSeller)); reflexivity.
Qed.

Section BoardParity.
Variables (board : string) (on_board : User -> bool) (score : User -> float).

Hypothesis update_on : forall u r,
  on_board u = true -> Redis.redis_up r = true -> is_nan (score u) = false ->
  Redis.redis_up (leaderboard_update u r) = true
  ∧ board_zset board (leaderboard_update u r) = board_insert score (board_zset board r) u
  ∧ board_hash board (leaderboard_update u r) = board_store (board_hash board r) u.

Hypothesis update_off : forall u r,
  on_board u = false -> Redis.redis_up r = true ->
  Redis.redis_up (leaderboard_update u r) = true
  ∧ board_zset board (leaderboard_update u r) = board_zset board r
  ∧ board_hash board (leaderboard_update u r) = board_hash board r.

Lemma board_parity (w : World) (n : Z) :
  1 <= n <= int_max ->
  NoDup (map u_ID (users w)) ->
  strictly_ranked (map score (List.filter on_board (users w))) = true ->
  Redis.GetLeaderboard board n (cache (refresh_leaderboards (with_cache Redis.empty_client w)))
  = Some (map clear_UserID
            (Gamification.leaderboard_entries_of score
               (gorm_Limit n (order_by_desc score (List.filter on_board (users w)))))).
Proof.
  intros Hn Hids Hranked. unfold refresh_leaderboards. rewrite cache_refresh.
  cbn [users cache with_cache].
  set (bs := List.filter on_board (users w)) in *.
  assert (Hbids : NoDup (map u_ID bs)).
  { eapply sublist_NoDup; [exact Hids|]. apply (fmap_sublist u_ID). apply sublist_List_filter. }
  destruct (board_after_updates board on_board score update_on update_off (users w)
              Redis.empty_client eq_refl) as (Hup & Hz & Hh).
  { intros u Hu Hon. apply (ranked_not_nan _ Hranked). apply in_map. apply filter_In. auto. }
  set (r := fold_left (fun r u => leaderboard_update u r) (users w) Redis.empty_client) in *.
  fold bs in Hz, Hh.
  unfold Redis.GetLeaderboard, Redis.ZRevRangeWithScores. rewrite Hup. cbn [negb].
  assert (Hsub : int_sub n 1 = n - 1).
  { unfold int_sub. apply int_wrap_in_range. unfold in_range, int_min, int_max in *.
    apply andb_true_iff. split; apply Z.leb_le; lia. }
  rewrite Hsub, (range_by_rank_firstn _ n) by lia.
  change (default [] (Redis.zsets r !! Redis.leaderboard_key board)) with (board_zset board r).
  rewrite Hz. change (board_zset board Redis.empty_client) with (@nil (string * float)).
  rewrite (board_ranking score bs Hranked Hbids), firstn_map.
  rewrite (GetLeaderboard_loop_cached board r score).
  - cbn [app]. f_equal. rewrite clear_UserID_entries. unfold gorm_Limit.
    destruct (Z.ltb_spec n 0); [lia|]. reflexivity.
  - exact Hup.
  - intros u Hu. rewrite Hh. apply board_store_lookup.
    + apply board_members_NoDup. exact Hbids.
    + apply (Permutation_in _ (order_by_desc_perm score bs)).
      rewrite <- (firstn_skipn (Z.to_nat n) (order_by_desc score bs)).
      apply in_or_app. left. exact Hu.
Qed.

End BoardParity.

Lemma buyers_update_on u r :
  is_buyer u = true -> Redis.redis_up r = true -> is_nan (u_TotalSpent u) = false ->
  Redis.redis_up (leaderboard_update u r) = true
  ∧ board_zset "weekly_buyers" (leaderboard_update u r)
    = board_insert u_TotalSpent (board_zset "weekly_buyers" r) u
  ∧ board_hash "weekly_buyers" (leaderboard_update u r)
    = board_store (board_hash "weekly_buyers" r) u.
Proof.
  unfold is_buyer, leaderboard_update. intros -> Hup Hnan.
  apply (SetLeaderboardEntry_same_board "weekly_buyers");
    [assumption | assumption | apply json_Marshal_userData].
Qed.

Lemma buyers_update_off u r :
  is_buyer u = false -> Redis.redis_up r = true ->
  Redis.redis_up (leaderboard_update u r) = true
  ∧ board_zset "weekly_buyers" (leaderboard_update u r) = board_zset "weekly_buyers" r
  ∧ board_hash "weekly_buyers" (leaderboard_update u r) = board_hash "weekly_buyers" r.
Proof.
  unfold is_buyer, leaderboard_update. intros -> Hup.
  destruct (bool_decide (u_Role u = RoleSeller)); [|auto].
  apply (SetLeaderboardEntry_other_board "weekly_buyers" "monthly_sellers");
    [assumption | discriminate | discriminate].
Qed.

Lemma sellers_update_on u r :
  is_seller u = true -> Redis.redis_up r = true -> is_nan (u_TotalSales u) = false ->
  Redis.redis_up (leaderboard_update u r) = true
  ∧ board_zset "monthly_sellers" (leaderboard_update u r)
    = board_insert u_TotalSales (board_zset "monthly_sellers" r) u
  ∧ board_hash "monthly_sellers" (leaderboard_update u r)
    = board_store (board_hash "monthly_sellers" r) u.
Proof.
  unfold is_seller, leaderboard_update. intros Hs Hup Hnan. rewrite Hs.
  apply bool_decide_eq_true in Hs.
  rewrite bool_decide_eq_false_2 by (rewrite Hs; discriminate).
  apply (SetLeaderboardEntry_same_board "monthly_sellers");
    [assumption | assumption | apply json_Marshal_userData].
Qed.

Lemma sellers_update_off u r :
  is_seller u = false -> Redis.redis_up r = true ->
  Redis.redis_up (leaderboard_update u r) = true
  ∧ board_zset "monthly_sellers" (leaderboard_update u r) = board_zset "monthly_sellers" r
  ∧ board_hash "monthly_sellers" (leaderboard_update u r) = board_hash "monthly_sellers" r.
Proof.
  unfold is_seller, leaderboard_update. intros -> Hup.
  destruct (bool_decide (u_Role u = RoleBuyer)); [|auto].
  apply (SetLeaderboardEntry_other_board "monthly_sellers" "weekly_buyers");
    [assumption | discriminate | discriminate].
Qed.

Lemma entry_display_clear_UserID (l : list LeaderboardEntry) :
  map entry_display (map clear_UserID l) = map entry_display l.
Proof. rewrite map_map. apply map_ext. intros e. reflexivity. Qed.




(** The user id is outside the parity above.  [GetLeaderboard] reads the
    member, which is the user id as text, and does not assign it to the
    entry, while the fallback sets it: for the one buyer of the shop the
    cache path returns the zero id, the fallback the id of the buyer. *)
Lemma leaderboard_paths_differ_on_user_id :
  let w := refresh_leaderboards (shop OrderPending []) in
  Redis.GetLeaderboard "weekly_buyers" 10 (cache w)
  = Some [mkLeaderboardEntry 0 "Abebe" 250 1 LevelBronze 0]
  ∧ Gamification.generateBuyerLeaderboardFromDB 10 w
    = [mkLeaderboardEntry 1 "Abebe" 250 1 LevelBronze 0]
  ∧ Redis.GetLeaderboard "weekly_buyers" 10 (cache w)
    <> Some (Gamification.generateBuyerLeaderboardFromDB 10 w).
Proof.
  cbv zeta. split; [|split].
  - vm_compute. reflexivity.
  - vm_compute. reflexivity.
  - vm_compute. discriminate.
Qed.

End FallbackParity.
(** * Properties of the code around the reward core *)

(** ** Level views *)

Section LevelViews.
Import GamificationViews.

Lemma int_sub_exact a b : in_range (a - b) = true -> int_sub a b = a - b.
Proof. apply int_wrap_in_range. Qed.

(** The distance reported by [calculateXPToNextLevel], for the level that
    [calculateLevel] gives to the balance, is exact: zero from 5000 XP on,
    and otherwise positive, enough to reach the next tier and not more
    than needed (every smaller gain leaves the level as it is). *)
Theorem calculateXPToNextLevel_exact (xp : Z) :
  int_min + 500 < xp ->
  let d := calculateXPToNextLevel xp (calculateLevel xp) in
  (5000 <= xp -> d = 0)
  ∧ (xp < 5000 ->
     0 < d
     ∧ tier_rank (calculateLevel (xp + d)) = S (tier_rank (calculateLevel xp))
     ∧ forall k, 0 <= k < d -> calculateLevel (xp + k) = calculateLevel xp).
Proof.
  intros Hlo. cbv zeta.
  assert (Hsub : forall t, 500 <= t <= 5000 -> t = 500 \/ 0 <= xp -> xp < 5000 -> int_sub t xp = t - xp).
  { intros t Ht Hxp Hhi. apply int_sub_exact. unfold in_range, int_min, int_max in *.
    apply andb_true_iff. split; apply Z.leb_le; lia. }
  destruct (calculateLevel_cases xp) as [[Hr E] | [[Hr E] | [[Hr E] | [Hr E]]]];
    rewrite E; unfold calculateXPToNextLevel; cbn [bool_decide]; split; intros Hx; try lia.
  - change (bool_decide (LevelBronze = LevelBronze)) with true. cbn iota.
    rewrite (Hsub 500) by lia. split; [lia | split].
    + replace (xp + (500 - xp)) with 500 by lia. reflexivity.
    + intros k Hk. destruct (calculateLevel_cases (xp + k)) as [[? ->] | [[? ?] | [[? ?] | [? ?]]]];
        [reflexivity | lia ..].
  - change (bool_decide (LevelSilver = LevelBronze)) with false.
    change (bool_decide (LevelSilver = LevelSilver)) with true. cbn iota.
    rewrite (Hsub 1500) by lia. split; [lia | split].
    + replace (xp + (1500 - xp)) with 1500 by lia. reflexivity.
    + intros k Hk. destruct (calculateLevel_cases (xp + k)) as [[? ?] | [[? ->] | [[? ?] | [? ?]]]];
        [lia | reflexivity | lia ..].
  - change (bool_decide (LevelGold = LevelBronze)) with false.
    change (bool_decide (LevelGold = LevelSilver)) with false.
    change (bool_decide (LevelGold = LevelGold)) with true. cbn iota.
    rewrite (Hsub 5000) by lia. split; [lia | split].
    + replace (xp + (5000 - xp)) with 5000 by lia. reflexivity.
    + intros k Hk. destruct (calculateLevel_cases (xp + k)) as [[? ?] | [[? ?] | [[? ->] | [? ?]]]];
        [lia | lia | reflexivity | lia].
  - reflexivity.
Qed.

Lemma calculateXPToNextLevel_exact_witness :
  0 < calculateXPToNextLevel 490 (calculateLevel 490)
  ∧ calculateLevel (490 + calculateXPToNextLevel 490 (calculateLevel 490)) = LevelSilver.
Proof.
  destruct (calculateXPToNextLevel_exact 490) as (_ & H); [vm_compute; reflexivity |].
  destruct H as (H1 & _ & _); [lia |]. split; [exact H1 | reflexivity].
Defined.

Lemma first_user_run {A} (id : UUID) (w : World) (user : User) (k : User -> M (Response A))
    (none : M (Response A)) :
  first_user id w = Some user ->
  (bind get (fun w0 => match first_user id w0 with None => none | Some u => k u end)) w
  = k user w.
Proof. intros H. unfold bind, get. rewrite H. reflexivity. Qed.

(** [GetUserLevel], for a user whose stored level is the level of a
    non-negative balance, answers with a level bracket that contains the
    balance and is exactly the range of that level: the lower bound has
    the level and no smaller balance has it, the upper bound has the
    level and the next balance does not, and the top level has no upper
    bound. *)
Theorem GetUserLevel_brackets_balance (w : World) (id : UUID) (user : User) :
  first_user id w = Some user ->
  0 <= u_TotalXP user ->
  u_Level user = calculateLevel (u_TotalXP user) ->
  exists v lo,
    GetUserLevel (Some id) w = (SuccessResponse "User level retrieved successfully" v, w)
    ∧ ul_level_info v !! "name" = Some (InfoLevel (u_Level user))
    ∧ ul_level_info v !! "min_xp" = Some (InfoInt lo)
    ∧ lo <= u_TotalXP user
    ∧ calculateLevel lo = u_Level user
    ∧ (forall x, 0 <= x < lo -> calculateLevel x <> u_Level user)
    ∧ match ul_level_info v !! "max_xp" with
      | Some (InfoInt hi) =>
          u_TotalXP user <= hi ∧ calculateLevel hi = u_Level user
          ∧ calculateLevel (hi + 1) <> u_Level user
      | Some InfoNil => forall y, u_TotalXP user <= y -> calculateLevel y = u_Level user
      | _ => False
      end.
Proof.
  intros Hu Hxp Hl. unfold GetUserLevel. rewrite (first_user_run _ _ _ _ _ Hu).
  destruct (calculateLevel_cases (u_TotalXP user)) as [[Hr E] | [[Hr E] | [[Hr E] | [Hr E]]]];
    rewrite E in Hl; eexists; cbn [ul_level_info]; rewrite Hl.
  - exists 0. split; [reflexivity |].
    split; [reflexivity |]. split; [reflexivity |]. split; [lia |]. split; [reflexivity |].
    split; [intros x Hx; lia |].
    cbn [ul_level_info]. change (getLevelInfo LevelBronze !! "max_xp") with (Some (InfoInt 499)).
    split; [lia | split; [reflexivity | vm_compute; discriminate]].
  - exists 500. split; [reflexivity |].
    split; [reflexivity |]. split; [reflexivity |]. split; [lia |]. split; [reflexivity |].
    split.
    + intros x Hx.
      destruct (calculateLevel_cases x) as [[? ->] | [[? ?] | [[? ?] | [? ?]]]];
        [vm_compute; discriminate | lia ..].
    + cbn [ul_level_info]. change (getLevelInfo LevelSilver !! "max_xp") with (Some (InfoInt 1499)).
      split; [lia | split; [reflexivity | vm_compute; discriminate]].
  - exists 1500. split; [reflexivity |].
    split; [reflexivity |]. split; [reflexivity |]. split; [lia |]. split; [reflexivity |].
    split.
    + intros x Hx.
      destruct (calculateLevel_cases x) as [[? ->] | [[? ->] | [[? ?] | [? ?]]]];
        [vm_compute; discriminate | vm_compute; discriminate | lia ..].
    + cbn [ul_level_info]. change (getLevelInfo LevelGold !! "max_xp") with (Some (InfoInt 4999)).
      split; [lia | split; [reflexivity | vm_compute; discriminate]].
  - exists 5000. split; [reflexivity |].
    split; [reflexivity |]. split; [reflexivity |]. split; [lia |]. split; [reflexivity |].
    split.
    + intros x Hx.
      destruct (calculateLevel_cases x) as [[? ->] | [[? ->] | [[? ->] | [? ?]]]];
        [vm_compute; discriminate | vm_compute; discriminate | vm_compute; discriminate | lia].
    + cbn [ul_level_info]. change (getLevelInfo LevelPlatinum !! "max_xp") with (Some InfoNil).
      cbv beta iota. intros y Hy. destruct (calculateLevel_cases y) as [[? ?] | [[? ?] | [[? ?] | [? ->]]]];
        [lia .. | reflexivity].
Qed.

Lemma GetUserLevel_brackets_balance_witness :
  exists v lo,
    GetUserLevel (Some 1%N) (Scenarios.shop OrderPending [])
    = (SuccessResponse "User level retrieved successfully" v, Scenarios.shop OrderPending [])
    ∧ ul_level_info v !! "min_xp" = Some (InfoInt lo) ∧ lo <= 490.
Proof.
  destruct (GetUserLevel_brackets_balance (Scenarios.shop OrderPending []) 1%N Scenarios.abebe)
    as (v & lo & H1 & _ & H3 & H4 & _); [reflexivity | vm_compute; discriminate | reflexivity |].
  exists v, lo. exact (conj H1 (conj H3 H4)).
Defined.

Lemma calculateXPToNextLevel_nonneg (xp : Z) :
  0 <= xp -> 0 <= calculateXPToNextLevel xp (calculateLevel xp).
Proof.
  intros Hxp.
  destruct (calculateLevel_cases xp) as [[Hr E] | [[Hr E] | [[Hr E] | [Hr E]]]];
    rewrite E; unfold calculateXPToNextLevel; cbn [bool_decide].
  - change (bool_decide (LevelBronze = LevelBronze)) with true. cbn iota.
    rewrite int_sub_exact; [lia |]. unfold in_range, int_min, int_max.
    apply andb_true_iff. split; apply Z.leb_le; lia.
  - change (bool_decide (LevelSilver = LevelBronze)) with false.
    change (bool_decide (LevelSilver = LevelSilver)) with true. cbn iota.
    rewrite int_sub_exact; [lia |]. unfold in_range, int_min, int_max.
    apply andb_true_iff. split; apply Z.leb_le; lia.
  - change (bool_decide (LevelGold = LevelBronze)) with false.
    change (bool_decide (LevelGold = LevelSilver)) with false.
    change (bool_decide (LevelGold = LevelGold)) with true. cbn iota.
    rewrite int_sub_exact; [lia |]. unfold in_range, int_min, int_max.
    apply andb_true_iff. split; apply Z.leb_le; lia.
  - vm_compute. discriminate.
Qed.

Lemma progress_table :
  forallb (fun n =>
             let xp := Z.of_nat n in
             let p := calculateLevelProgress xp (calculateLevel xp) in
             PrimFloat.leb 0 p && PrimFloat.leb p 100 && negb (PrimFloat.eqb p 100))
          (seq 0 5000) = true.
Proof. vm_compute. reflexivity. Qed.

(** [GetUserXP], for a user whose stored level is the level of a
    non-negative balance, reports a distance to the next level that is
    not negative and a progress that is a percentage: between 0 and 100,
    and 100 only at the top level. *)
Theorem GetUserXP_progress_is_percentage (w : World) (id : UUID) (user : User) :
  first_user id w = Some user ->
  0 <= u_TotalXP user ->
  u_Level user = calculateLevel (u_TotalXP user) ->
  exists v,
    GetUserXP (Some id) w = (SuccessResponse "User XP retrieved successfully" v, w)
    ∧ ux_total_xp v = u_TotalXP user
    ∧ 0 <= ux_xp_to_next_level v
    ∧ PrimFloat.leb 0 (ux_level_progress v) = true
    ∧ PrimFloat.leb (ux_level_progress v) 100 = true
    ∧ (PrimFloat.eqb (ux_level_progress v) 100 = true <-> 5000 <= u_TotalXP user).
Proof.
  intros Hu Hxp Hl. unfold GetUserXP. rewrite (first_user_run _ _ _ _ _ Hu).
  eexists. split; [reflexivity |]. cbn [ux_total_xp ux_xp_to_next_level ux_level_progress].
  split; [reflexivity |]. rewrite Hl. split.
  - apply calculateXPToNextLevel_nonneg. exact Hxp.
  - destruct (Z.le_gt_cases 5000 (u_TotalXP user)) as [Hge | Hlt].
    + destruct (calculateLevel_cases (u_TotalXP user)) as [[? ?] | [[? ?] | [[? ?] | [? ->]]]];
        [lia .. |]. repeat split; try reflexivity. intros _. exact Hge.
    + pose proof progress_table as T. rewrite forallb_forall in T.
      specialize (T (Z.to_nat (u_TotalXP user))). rewrite Z2Nat.id in T by lia.
      cbv zeta in T. apply andb_true_iff in T as [T12 T3].
      * apply andb_true_iff in T12 as [T1 T2]. apply negb_true_iff in T3.
        repeat split; [exact T1 | exact T2 | | lia]. rewrite T3. discriminate.
      * apply in_seq. lia.
Qed.

Lemma GetUserXP_progress_is_percentage_witness :
  exists v,
    GetUserXP (Some 1%N) (Scenarios.shop OrderPending [])
    = (SuccessResponse "User XP retrieved successfully" v, Scenarios.shop OrderPending [])
    ∧ 0 <= ux_xp_to_next_level v ∧ PrimFloat.leb (ux_level_progress v) 100 = true.
Proof.
  destruct (GetUserXP_progress_is_percentage (Scenarios.shop OrderPending []) 1%N Scenarios.abebe)
    as (v & H1 & _ & H3 & _ & H5 & _); [reflexivity | vm_compute; discriminate | reflexivity |].
  exists v. exact (conj H1 (conj H3 H5)).
Defined.

End LevelViews.
(** ** Bearer tokens, roles and the guarded status route *)

Section Access.
Import JWT Middleware.

Lemma length_append (p t : string) :
  String.length (p +:+ t) = (String.length p + String.length t)%nat.
Proof.
  induction p as [|a p IH]; [reflexivity |].
  change (String a p +:+ t) with (String a (p +:+ t)). cbn [String.length]. rewrite IH. reflexivity.
Qed.

Lemma substring_all (s : string) : String.substring 0 (String.length s) s = s.
Proof. induction s as [|a s IH]; cbn; [reflexivity | rewrite IH; reflexivity]. Qed.

Lemma substring_prefix (p t : string) : String.substring 0 (String.length p) (p +:+ t) = p.
Proof.
  induction p as [|a p IH]; [destruct t; reflexivity |].
  change (String a p +:+ t) with (String a (p +:+ t)). cbn. rewrite IH. reflexivity.
Qed.

Lemma substring_suffix (p t : string) :
  String.substring (String.length p) (String.length t) (p +:+ t) = t.
Proof.
  induction p as [|a p IH]; [apply substring_all |].
  change (String a p +:+ t) with (String a (p +:+ t)). cbn. exact IH.
Qed.

Lemma substring_split (n : nat) : forall s : string,
  (n <= String.length s)%nat ->
  s = String.substring 0 n s +:+ String.substring n (String.length s - n) s.
Proof.
  induction n as [|n IH]; intros s Hn.
  - rewrite Nat.sub_0_r, substring_all. destruct s; reflexivity.
  - destruct s as [|a s]; [cbn in Hn; lia |]. cbn in Hn. cbn [String.substring String.length Nat.sub].
    change (String a (String.substring 0 n s) +:+ String.substring n (String.length s - n) s)
      with (String a (String.substring 0 n s +:+ String.substring n (String.length s - n) s)).
    rewrite <- IH by lia. reflexivity.
Qed.

(** [ExtractTokenFromHeader] undoes the prefixing of a token with
    "Bearer " (an empty token gives the empty result), and a non-empty
    result is always the rest of a header that begins with "Bearer ". *)
Theorem ExtractTokenFromHeader_bearer :
  (forall token, ExtractTokenFromHeader ("Bearer " +:+ token) = token)
  ∧ (forall authHeader,
       ExtractTokenFromHeader authHeader <> "" ->
       authHeader = "Bearer " +:+ ExtractTokenFromHeader authHeader).
Proof.
  split.
  - intros token. unfold ExtractTokenFromHeader. rewrite length_append.
    change (String.length "Bearer ") with 7%nat.
    destruct (Nat.ltb_spec 7 (7 + String.length token)) as [Hlt | Hge]; cbn [andb].
    + rewrite (substring_prefix "Bearer " token : String.substring 0 7 _ = _).
      rewrite bool_decide_eq_true_2 by reflexivity.
      replace (7 + String.length token - 7)%nat with (String.length token) by lia.
      exact (substring_suffix "Bearer " token).
    + destruct token; [reflexivity | cbn in Hge; lia].
  - intros h Hne. unfold ExtractTokenFromHeader in *.
    destruct (Nat.ltb_spec 7 (String.length h)) as [Hlt | Hge]; cbn [andb] in *;
      [| exfalso; apply Hne; reflexivity].
    destruct (bool_decide _) eqn:E; [| exfalso; apply Hne; reflexivity].
    apply bool_decide_eq_true in E. rewrite <- E at 1. apply substring_split. lia.
Qed.

Lemma bind_fst_snd {A B} (m : M A) (k : A -> M B) (w : World) :
  bind m k w = k (m w).1 (m w).2.
Proof. unfold bind. destruct (m w). reflexivity. Qed.

(** Behind [RoleMiddleware(models.RoleSeller)] the status route answers a
    caller who is not a seller with 401 or 403 and leaves the world as it
    is; and the handler's own refusal, "Only sellers can update order
    status", is never the answer of the route. *)
Theorem PutOrderStatus_sellers_only (orderIDParam user_id : option UUID)
    (user_role : option UserRole) (body : option Orders.UpdateOrderStatusRequest) (w : World) :
  let r := PutOrderStatus orderIDParam user_id user_role body w in
  (user_role <> Some RoleSeller ->
     r.2 = w ∧ resp_Success r.1 = false ∧ resp_Data r.1 = None
     ∧ (resp_Status r.1 = 401 ∨ resp_Status r.1 = 403))
  ∧ resp_Message r.1 <> "Only sellers can update order status".
Proof.
  cbv zeta. unfold PutOrderStatus, RoleMiddleware.
  destruct user_role as [role|]; cbn [existsb orb].
  - destruct (decide (role = RoleSeller)) as [-> | Hne].
    + rewrite bool_decide_eq_true_2 by reflexivity. cbn [orb].
      split; [intros H; congruence |].
      unfold Orders.UpdateOrderStatus. cbn [default].
      destruct orderIDParam as [orderID|]; [| cbn; discriminate].
      destruct user_id as [userID|]; [| cbn; discriminate].
      destruct body as [req|]; [| cbn; discriminate].
      destruct (negb _); [cbn; discriminate |].
      rewrite bind_fst_snd. cbn [get fst snd].
      destruct (first_order orderID w) as [order|]; [| cbn; discriminate].
      rewrite bool_decide_eq_true_2 by reflexivity. cbn [negb].
      destruct (negb _); [cbn; discriminate |].
      rewrite bind_fst_snd.
      destruct (save_order _ w) as [[] w1]; cbn [fst snd negb]; [| cbn; discriminate].
      rewrite bind_fst_snd.
      match goal with |- context [(?m w1).2] => destruct (m w1) as [u w2] end.
      cbn. discriminate.
    + rewrite bool_decide_eq_false_2 by exact Hne. cbn.
      split; [intros _; repeat split; right; reflexivity | discriminate].
  - cbn. split; [intros _; repeat split; left; reflexivity | discriminate].
Qed.

End Access.
(** ** Level repair and the reward paths outside the gamification service *)

Section RewardPaths.
Import Gamification Payments.

Lemma find_update_where_id (id : UUID) (f : User -> User) (us : list User) :
  (forall u, u_ID (f u) = u_ID u) ->
  List.find (fun u => bool_decide (u_ID u = id)) (update_where_id id f us)
  = f <$> List.find (fun u => bool_decide (u_ID u = id)) us.
Proof.
  intros Hf. unfold update_where_id. induction us as [|u us IH]; [reflexivity |].
  cbn [map List.find]. destruct (bool_decide (u_ID u = id)) eqn:E.
  - rewrite Hf, E. reflexivity.
  - rewrite E. exact IH.
Qed.

Lemma update_where_id_others (id : UUID) (f : User -> User) (us : list User) (u : User) :
  (forall u, u_ID (f u) = u_ID u) -> u_ID u <> id ->
  In u (update_where_id id f us) <-> In u us.
Proof.
  intros Hf Hne. unfold update_where_id. rewrite in_map_iff. split.
  - intros (u0 & Hu0 & Hin). destruct (bool_decide (u_ID u0 = id)) eqn:E.
    + apply bool_decide_eq_true in E. exfalso. apply Hne. rewrite <- Hu0, Hf. exact E.
    + subst u0. exact Hin.
  - intros Hin. exists u. rewrite bool_decide_eq_false_2 by exact Hne. auto.
Qed.

Lemma update_where_id_balances (id : UUID) (l : UserLevel) (us : list User) :
  map u_TotalXP (update_where_id id (set_Level l) us) = map u_TotalXP us.
Proof.
  unfold update_where_id. rewrite map_map. apply map_ext. intros u.
  destruct (bool_decide _); reflexivity.
Qed.

Lemma UpdateUserLevel_settled (w : World) (id : UUID) (user : User) :
  first_user id w = Some user ->
  u_Level user = calculateLevel (u_TotalXP user) ->
  UpdateUserLevel (Some id) w
  = (SuccessResponse "User level updated successfully"
       (u_Level user, u_Level user, false, u_TotalXP user), w).
Proof.
  intros Hu Hl. unfold UpdateUserLevel. rewrite (first_user_run _ _ _ _ _ Hu).
  rewrite <- Hl. rewrite bool_decide_eq_true_2 by reflexivity. reflexivity.
Qed.

Lemma UpdateUserLevel_changed (w : World) (id : UUID) (user : User) :
  first_user id w = Some user ->
  u_Level user <> calculateLevel (u_TotalXP user) ->
  writes_accepted 1 w = true ->
  UpdateUserLevel (Some id) w
  = (SuccessResponse "User level updated successfully"
       (u_Level user, calculateLevel (u_TotalXP user), true, u_TotalXP user),
     with_write_faults (tl (write_faults w))
       (with_users (update_where_id id (set_Level (calculateLevel (u_TotalXP user))) (users w)) w)).
Proof.
  intros Hu Hne Hacc. destruct (first_user_Some _ _ _ Hu) as [_ Hid].
  unfold UpdateUserLevel. rewrite (first_user_run _ _ _ _ _ Hu).
  rewrite bool_decide_eq_false_2 by congruence. cbn [negb].
  unfold bind, update_level, db_exec, writes_accepted in *. rewrite Hid.
  destruct w as [us bs ubs txs os c sup fs]. cbn in Hacc |- *.
  destruct fs as [|[] fs]; cbn in Hacc |- *; [reflexivity | discriminate | reflexivity].
Qed.

(** [UpdateUserLevel] repairs a stored level: when the store accepts the
    write, the user is stored with the level of the stored balance, the
    answer reports the old level, the new level and whether they differ,
    no balance and no other user changes, and a second call finds nothing
    to do and changes nothing. *)
Theorem UpdateUserLevel_repairs (w : World) (id : UUID) (user : User) :
  first_user id w = Some user ->
  writes_accepted 1 w = true ->
  let r := UpdateUserLevel (Some id) w in
  let newLevel := calculateLevel (u_TotalXP user) in
  r.1 = SuccessResponse "User level updated successfully"
          (u_Level user, newLevel, negb (bool_decide (newLevel = u_Level user)), u_TotalXP user)
  ∧ first_user id r.2 = Some (set_Level newLevel user)
  ∧ (forall u, u_ID u <> id -> In u (users r.2) <-> In u (users w))
  ∧ map u_TotalXP (users r.2) = map u_TotalXP (users w)
  ∧ xp_transactions r.2 = xp_transactions w
  ∧ user_badges r.2 = user_badges w
  ∧ UpdateUserLevel (Some id) r.2
    = (SuccessResponse "User level updated successfully" (newLevel, newLevel, false, u_TotalXP user),
       r.2).
Proof.
  intros Hu Hacc. cbv zeta.
  destruct (decide (u_Level user = calculateLevel (u_TotalXP user))) as [He | Hne].
  - rewrite (UpdateUserLevel_settled w id user Hu He). cbn [fst snd].
    rewrite (UpdateUserLevel_settled w id user Hu He).
    rewrite <- He, bool_decide_eq_true_2 by reflexivity.
    assert (Hsame : set_Level (u_Level user) user = user) by (destruct user; reflexivity).
    rewrite Hsame. repeat split; auto.
  - rewrite (UpdateUserLevel_changed w id user Hu Hne Hacc). cbn [fst snd].
    rewrite bool_decide_eq_false_2 by congruence.
    set (l := calculateLevel (u_TotalXP user)).
    set (w1 := with_write_faults _ _).
    assert (Hfind : first_user id w1 = Some (set_Level l user)).
    { unfold first_user, w1. cbn [users with_write_faults with_users].
      rewrite find_update_where_id by reflexivity.
      unfold first_user in Hu. rewrite Hu. reflexivity. }
    split; [reflexivity |]. split; [exact Hfind |]. split; [| split; [| split; [| split]]].
    + intros u Hu'. unfold w1. cbn [users with_write_faults with_users].
      apply update_where_id_others; [reflexivity | exact Hu'].
    + unfold w1. cbn [users with_write_faults with_users]. apply update_where_id_balances.
    + reflexivity.
    + reflexivity.
    + exact (UpdateUserLevel_settled w1 id (set_Level l user) Hfind eq_refl).
Qed.

Lemma UpdateUserLevel_repairs_witness :
  first_user 1%N
    (UpdateUserLevel (Some 1%N)
       (mkWorld [mkUser 1 "Abebe" RoleBuyer LevelBronze 590 250 0] [] [] [] []
          Redis.empty_client 100 [])).2
  = Some (set_Level (calculateLevel 590) (mkUser 1 "Abebe" RoleBuyer LevelBronze 590 250 0)).
Proof.
  exact (proj1 (proj2 (UpdateUserLevel_repairs
    (mkWorld [mkUser 1 "Abebe" RoleBuyer LevelBronze 590 250 0] [] [] [] []
       Redis.empty_client 100 [])
    1%N (mkUser 1 "Abebe" RoleBuyer LevelBronze 590 250 0) eq_refl eq_refl))).
Defined.

(** The tables after a run of the auth service's [awardXP] in which the
    store accepts every write. *)
Lemma Auth_awardXP_run (w : World) (id : UUID) (n : Z) (reason : string) (user : User) :
  first_user id w = Some user ->
  write_faults w = [] ->
  xp_increment_fits id n w = true ->
  let credited := update_where_id id (fun u => set_TotalXP (u_TotalXP u + n) u) (users w) in
  let newLevel := Auth.calculateLevel (u_TotalXP user + n) in
  (Auth.awardXP id n reason w).2
  = mkWorld
      (if bool_decide (newLevel = u_Level user) then credited
       else update_where_id id (set_Level newLevel) credited)
      (badges w) (user_badges w)
      (xp_transactions w ++ [mkXPTransaction (uuid_supply w) id n reason ""])
      (orders w) (cache w) (N.succ (uuid_supply w)) [].
Proof.
  intros Hu Hnf Hfit. cbv zeta. destruct (first_user_Some _ _ _ Hu) as [_ Hid].
  unfold Auth.awardXP, bind, uuid_New, create_xp_transaction, increment_total_xp, db_exec, get.
  destruct w as [us bs ubs txs os c sup fs]. cbn in Hnf, Hu |- *. subst fs.
  cbn -[update_where_id Auth.calculateLevel].
  unfold xp_increment_fits in *. cbn -[update_where_id Auth.calculateLevel] in Hfit |- *.
  rewrite Hfit. cbn -[update_where_id Auth.calculateLevel].
  unfold first_user in *. cbn [users] in *.
  rewrite find_update_where_id by reflexivity. rewrite Hu. cbn [fmap option_fmap option_map].
  cbn [u_TotalXP u_Level set_TotalXP].
  destruct (bool_decide (Auth.calculateLevel (u_TotalXP user + n) = u_Level user)) eqn:E;
    cbn [negb]; [reflexivity |].
  unfold update_level, db_exec, ret. cbn -[update_where_id Auth.calculateLevel].
  rewrite Hid. reflexivity.
Qed.

(** The row of the user after such a run. *)
Lemma Auth_awardXP_stored (w : World) (id : UUID) (n : Z) (reason : string) (user : User) :
  first_user id w = Some user ->
  write_faults w = [] ->
  xp_increment_fits id n w = true ->
  first_user id (Auth.awardXP id n reason w).2
  = Some (set_Level (calculateLevel (u_TotalXP user + n))
            (set_TotalXP (u_TotalXP user + n) user)).
Proof.
  intros Hu Hnf Hfit. rewrite (Auth_awardXP_run w id n reason user Hu Hnf Hfit).
  change Auth.calculateLevel with calculateLevel.
  unfold first_user in *. cbn [users].
  destruct (bool_decide (calculateLevel (u_TotalXP user + n) = u_Level user)) eqn:E.
  - apply bool_decide_eq_true in E. rewrite find_update_where_id by reflexivity.
    rewrite Hu. cbn. f_equal. rewrite E. destruct user; reflexivity.
  - rewrite !find_update_where_id by reflexivity. rewrite Hu. reflexivity.
Qed.

(** The auth service's [awardXP] brings the level in line with the
    balance: when the store accepts the writes and the balance fits the
    column, it records the entry, credits the amount and leaves the user
    stored with the level of the new balance (its copy of the level
    resolver is the one of the gamification service); no other user
    changes. *)
Theorem Auth_awardXP_level_follows (w : World) (id : UUID) (n : Z) (reason : string)
    (user : User) :
  first_user id w = Some user ->
  write_faults w = [] ->
  xp_increment_fits id n w = true ->
  let w' := (Auth.awardXP id n reason w).2 in
  (forall x, Auth.calculateLevel x = calculateLevel x)
  ∧ xp_transactions w' = xp_transactions w ++ [mkXPTransaction (uuid_supply w) id n reason ""]
  ∧ first_user id w'
    = Some (set_Level (calculateLevel (u_TotalXP user + n))
              (set_TotalXP (u_TotalXP user + n) user))
  ∧ (forall u, u_ID u <> id -> In u (users w') <-> In u (users w))
  ∧ user_badges w' = user_badges w.
Proof.
  intros Hu Hnf Hfit. cbv zeta.
  split; [reflexivity |].
  split; [rewrite (Auth_awardXP_run w id n reason user Hu Hnf Hfit); reflexivity |].
  split; [exact (Auth_awardXP_stored w id n reason user Hu Hnf Hfit) |].
  rewrite (Auth_awardXP_run w id n reason user Hu Hnf Hfit). cbn [users user_badges].
  change Auth.calculateLevel with calculateLevel.
  split; [| reflexivity].
  - intros u Hne. destruct (bool_decide _).
    + apply update_where_id_others; [reflexivity | exact Hne].
    + rewrite update_where_id_others by (reflexivity || exact Hne).
      apply update_where_id_others; [reflexivity | exact Hne].
Qed.

Lemma Auth_awardXP_level_follows_witness :
  first_user 1%N (Auth.awardXP 1%N 100 "Early Bird Badge" (Scenarios.shop OrderPending [])).2
  = Some (set_Level (calculateLevel (490 + 100)) (set_TotalXP (490 + 100) Scenarios.abebe)).
Proof.
  exact (proj1 (proj2 (proj2 (Auth_awardXP_level_follows (Scenarios.shop OrderPending []) 1%N 100
    "Early Bird Badge" Scenarios.abebe eq_refl eq_refl eq_refl)))).
Defined.

Lemma find_app_none {A} (f : A -> bool) (l l' : list A) :
  List.find f l = None -> List.find f (l ++ l') = List.find f l'.
Proof.
  induction l as [|x l IH]; [reflexivity |]. cbn. destruct (f x); [discriminate | exact IH].
Qed.

(** [checkEarlyBirdBadge], while the user table has at most 100 rows,
    awards the Early Bird badge to a user who does not hold it, records
    its reward in the ledger and credits it; run again, it finds the
    award and changes nothing. *)
Theorem checkEarlyBirdBadge_awards_once (w : World) (user stored : User) (badge : Badge) :
  count_users w <= 100 ->
  first_badge_of_type BadgeEarlyBird w = Some badge ->
  (forall ub, In ub (user_badges w) -> ub_UserID ub = u_ID user -> ub_BadgeID ub <> b_ID badge) ->
  first_user (u_ID user) w = Some stored ->
  0 < b_XPReward badge ->
  write_faults w = [] ->
  xp_increment_fits (u_ID user) (b_XPReward badge) w = true ->
  let w1 := (Auth.checkEarlyBirdBadge user w).2 in
  user_badges w1 = user_badges w ++ [mkUserBadge (uuid_supply w) (u_ID user) (b_ID badge)]
  ∧ xp_transactions w1
    = xp_transactions w
      ++ [mkXPTransaction (N.succ (uuid_supply w)) (u_ID user) (b_XPReward badge)
            "Early Bird Badge" ""]
  ∧ first_user (u_ID user) w1
    = Some (set_Level (calculateLevel (u_TotalXP stored + b_XPReward badge))
              (set_TotalXP (u_TotalXP stored + b_XPReward badge) stored))
  ∧ (Auth.checkEarlyBirdBadge user w1).2 = w1.
Proof.
  intros Hcount Hbadge Hnone Hu Hpos Hnf Hfit. cbv zeta.
  assert (Hfind : List.find (fun ub => bool_decide (ub_UserID ub = u_ID user)
                                       && bool_decide (ub_BadgeID ub = b_ID badge))
                    (user_badges w) = None).
  { destruct (List.find _ _) as [ub|] eqn:E; [| reflexivity].
    apply find_some in E as [Hin Hp]. apply andb_true_iff in Hp as [H1 H2].
    apply bool_decide_eq_true in H1, H2. exfalso. exact (Hnone ub Hin H1 H2). }
  set (w2 := with_user_badges
               (user_badges w ++ [mkUserBadge (uuid_supply w) (u_ID user) (b_ID badge)])
               (with_uuid_supply (N.succ (uuid_supply w)) w)).
  assert (Hrun : (Auth.checkEarlyBirdBadge user w).2
                 = (Auth.awardXP (u_ID user) (b_XPReward badge) "Early Bird Badge" w2).2).
  { unfold Auth.checkEarlyBirdBadge. unfold bind at 1, get at 1.
    apply Z.leb_le in Hcount. rewrite Hcount, Hbadge, Hfind.
    unfold bind at 1. cbn [uuid_New]. unfold bind at 1.
    unfold create_user_badge, db_exec. cbn [write_faults with_uuid_supply]. rewrite Hnf.
    apply Z.ltb_lt in Hpos. rewrite Hpos. reflexivity. }
  rewrite Hrun.
  assert (Hu2 : first_user (u_ID user) w2 = Some stored) by exact Hu.
  assert (Hnf2 : write_faults w2 = []) by exact Hnf.
  assert (Hfit2 : xp_increment_fits (u_ID user) (b_XPReward badge) w2 = true) by exact Hfit.
  pose proof (Auth_awardXP_stored w2 (u_ID user) (b_XPReward badge) "Early Bird Badge"
                stored Hu2 Hnf2 Hfit2) as Hfu.
  pose proof (Auth_awardXP_run w2 (u_ID user) (b_XPReward badge) "Early Bird Badge"
                stored Hu2 Hnf2 Hfit2) as Hw1. cbv zeta in Hw1.
  split; [rewrite Hw1; reflexivity |]. split; [rewrite Hw1; reflexivity |].
  split; [exact Hfu |].
  set (w1 := (Auth.awardXP _ _ _ w2).2) in *.
  unfold Auth.checkEarlyBirdBadge. unfold bind at 1, get at 1.
  assert (Hc1 : (count_users w1 <=? 100) = true).
  { apply Z.leb_le. unfold count_users. rewrite Hw1. cbn [users].
    unfold count_users in Hcount.
    destruct (bool_decide _); unfold update_where_id; rewrite ?length_map; exact Hcount. }
  assert (Hb1 : first_badge_of_type BadgeEarlyBird w1 = Some badge).
  { unfold first_badge_of_type. rewrite Hw1. exact Hbadge. }
  rewrite Hc1, Hb1.
  assert (Hub1 : user_badges w1
                 = user_badges w ++ [mkUserBadge (uuid_supply w) (u_ID user) (b_ID badge)]).
  { rewrite Hw1. reflexivity. }
  rewrite Hub1, (find_app_none _ _ _ Hfind). cbn [List.find ub_UserID ub_BadgeID].
  rewrite !bool_decide_eq_true_2 by reflexivity. reflexivity.
Qed.

Lemma checkEarlyBirdBadge_awards_once_witness :
  user_badges (Auth.checkEarlyBirdBadge Scenarios.abebe (Scenarios.shop OrderPending [])).2
  = [mkUserBadge 100 1 14].
Proof.
  exact (proj1 (checkEarlyBirdBadge_awards_once (Scenarios.shop OrderPending [])
    Scenarios.abebe Scenarios.abebe (mkBadge 14 BadgeEarlyBird "Early Bird" 100)
    ltac:(vm_compute; discriminate) eq_refl ltac:(intros ub []) eq_refl eq_refl eq_refl eq_refl)).
Defined.

Lemma users_levels_credit (id : UUID) (n : Z) (us : list User) :
  map u_Level (update_where_id id (fun u => set_TotalXP (u_TotalXP u + n) u) us) = map u_Level us.
Proof.
  unfold update_where_id. rewrite map_map. apply map_ext. intros u.
  destruct (bool_decide _); reflexivity.
Qed.

(** [awardPaymentXP] credits 10 XP to the buyer of the paid order: when
    the store accepts the writes and the balance fits the column, the
    ledger gains one entry of 10 XP that refers to the payment, the
    counter of the buyer grows by 10 (so a ledger that matched the
    counters still does), and no stored level is recomputed.  For a
    payment whose order does not exist it does nothing. *)
Theorem awardPaymentXP_credits_buyer (w : World) (payment : Payment) :
  (first_order (pay_OrderID payment) w = None -> (awardPaymentXP payment w).2 = w)
  ∧ forall order,
      first_order (pay_OrderID payment) w = Some order ->
      write_faults w = [] ->
      xp_increment_fits (o_BuyerID order) 10 w = true ->
      let w' := (awardPaymentXP payment w).2 in
      xp_transactions w'
      = xp_transactions w
        ++ [mkXPTransaction (uuid_supply w) (o_BuyerID order) 10 "Payment Completed"
              (uuid_String (pay_ID payment))]
      ∧ users w'
        = update_where_id (o_BuyerID order) (fun u => set_TotalXP (u_TotalXP u + 10) u) (users w)
      ∧ map u_Level (users w') = map u_Level (users w)
      ∧ (ledger_consistent w -> ledger_consistent w')
      ∧ orders w' = orders w ∧ user_badges w' = user_badges w ∧ cache w' = cache w.
Proof.
  split.
  - intros Hnone. unfold awardPaymentXP, bind, get. rewrite Hnone. reflexivity.
  - intros order Ho Hnf Hfit. cbv zeta.
    assert (Hrun : (awardPaymentXP payment w).2
                   = (Orders.callGamificationService (o_BuyerID order) 10 "Payment Completed"
                        (uuid_String (pay_ID payment)) w).2).
    { unfold awardPaymentXP. unfold bind at 1, get at 1. rewrite Ho. reflexivity. }
    rewrite Hrun.
    destruct (credit_tables (o_BuyerID order) 10 "Payment Completed"
                (uuid_String (pay_ID payment)) w Hnf Hfit) as (Htx & Hus).
    split; [exact Htx |]. split; [exact Hus |]. split; [rewrite Hus; apply users_levels_credit |].
    split.
    + intros Hc. eapply (ledger_consistent_credit w _ (o_BuyerID order) 10 _
                           (fun u => u_TotalXP u + 10) Hc); eauto.
    + unfold Orders.callGamificationService, bind, uuid_New, create_xp_transaction,
        increment_total_xp, db_exec, ret.
      destruct w as [us bs ubs txs os c sup fs]; cbn in *. subst fs. cbn.
      unfold xp_increment_fits in *. cbn in *. rewrite Hfit. cbn. auto.
Qed.

Lemma awardPaymentXP_credits_buyer_witness :
  xp_transactions
    (Payments.awardPaymentXP (Payments.mkPayment 61 31 250 "cash" "completed" "" "")
       (Scenarios.shop OrderPending [])).2
  = xp_transactions (Scenarios.shop OrderPending [])
    ++ [mkXPTransaction 100 1 10 "Payment Completed" "61"].
Proof.
  exact (proj1 (proj2 (awardPaymentXP_credits_buyer (Scenarios.shop OrderPending [])
    (Payments.mkPayment 61 31 250 "cash" "completed" "" ""))
    (Scenarios.order_31 OrderPending) eq_refl eq_refl eq_refl)).
Defined.

End RewardPaths.

(** ** The badge seed of the migration *)

Section BadgeSeed.
Import Migration.

(** What a step of the seed leaves alone, and how the catalog grows. *)
Lemma seed_badge_step (x : BadgeType * string * Z) (w : World) :
  let w' := (seed_badge x w).2 in
  users w' = users w ∧ user_badges w' = user_badges w
  ∧ xp_transactions w' = xp_transactions w ∧ orders w' = orders w ∧ cache w' = cache w
  ∧ (badges w' = badges w
     ∨ exists id,
         badges w' = badges w ++ [mkBadge id x.1.1 x.1.2 x.2]
         ∧ (forall b, In b (badges w) -> b_ID b <> id ∧ b_Type b <> x.1.1)).
Proof.
  cbv zeta. destruct w as [us bs ubs txs os c sup fs].
  unfold seed_badge, bind, get, uuid_New, create_badge, db_exec, ret.
  cbn -[existsb first_badge_of_type].
  destruct (first_badge_of_type _ _); [cbn; repeat split; auto |].
  assert (Hfresh : existsb (fun b' => bool_decide (b_ID b' = sup)
                                      || bool_decide (b_Type b' = x.1.1)) bs = false ->
                   forall b0, In b0 bs -> b_ID b0 <> sup ∧ b_Type b0 <> x.1.1).
  { intros E b0 Hin.
    assert (Hb : (bool_decide (b_ID b0 = sup) || bool_decide (b_Type b0 = x.1.1)) = false).
    { destruct (_ || _) eqn:Eb; [| reflexivity].
      assert (existsb (fun b' => bool_decide (b_ID b' = sup) || bool_decide (b_Type b' = x.1.1)) bs
              = true) by (apply existsb_exists; eauto). congruence. }
    apply orb_false_iff in Hb as [H1 H2]. apply bool_decide_eq_false in H1, H2. auto. }
  destruct fs as [|[] fs]; cbn -[existsb]; [| repeat split; auto |];
    (destruct (existsb _ bs) eqn:E; cbn; repeat split; auto;
     right; exists sup; split; [reflexivity | exact (Hfresh eq_refl)]).
Qed.

Lemma seed_loop_catalog (l : list (BadgeType * string * Z)) : forall w,
  catalog_wf w ->
  let w' := (for_each l seed_badge w).2 in
  catalog_wf w'
  ∧ users w' = users w ∧ user_badges w' = user_badges w
  ∧ xp_transactions w' = xp_transactions w ∧ orders w' = orders w ∧ cache w' = cache w
  ∧ exists added,
      badges w' = badges w ++ added
      ∧ forall b, In b added -> In (b_Type b, b_Name b, b_XPReward b) l.
Proof.
  induction l as [|x l IH]; intros w Hwf; cbv zeta.
  - cbn. repeat split; try apply Hwf. exists []. rewrite app_nil_r. split; [reflexivity | intros b []].
  - rewrite for_each_cons_snd.
    destruct (seed_badge_step x w) as (H1 & H2 & H3 & H4 & H5 & H6).
    set (w1 := (seed_badge x w).2) in *.
    assert (Hwf1 : catalog_wf w1).
    { destruct H6 as [E | (id & E & Hfresh)]; unfold catalog_wf; rewrite E; [exact Hwf |].
      destruct Hwf as [Hi Ht]. rewrite !map_app. cbn [map b_ID b_Type].
      split; apply NoDup_app; (split; [assumption |]); (split; [| apply NoDup_singleton]).
      - intros i Hin Hin'. apply list_elem_of_In, in_map_iff in Hin as (b & <- & Hb).
        apply list_elem_of_In in Hin'. destruct Hin' as [Hin' | []].
        destruct (Hfresh b Hb) as [Hne _]. congruence.
      - intros t Hin Hin'. apply list_elem_of_In, in_map_iff in Hin as (b & <- & Hb).
        apply list_elem_of_In in Hin'. destruct Hin' as [Hin' | []].
        destruct (Hfresh b Hb) as [_ Hne]. congruence. }
    destruct (IH w1 Hwf1) as (G0 & G1 & G2 & G3 & G4 & G5 & added & G6 & G7).
    split; [exact G0 |]. repeat (split; [congruence |]).
    destruct H6 as [E | (id & E & _)].
    + exists added. rewrite G6, E. split; [reflexivity |]. intros b Hb. right. auto.
    + exists (mkBadge id x.1.1 x.1.2 x.2 :: added). rewrite G6, E, <- app_assoc.
      split; [reflexivity |]. intros b [<- | Hb]; [left; destruct x as [[? ?] ?]; reflexivity |].
      right. auto.
Qed.

(** [seedBadges] respects the constraints of the badge table: it keeps
    the identifiers and the types of the catalog pairwise different, it
    never changes or removes a row that is there (it only appends rows,
    each one of the seed), and it touches no other table. *)
Theorem seedBadges_keeps_catalog (w : World) :
  catalog_wf w ->
  let w' := (seedBadges w).2 in
  catalog_wf w'
  ∧ users w' = users w ∧ user_badges w' = user_badges w
  ∧ xp_transactions w' = xp_transactions w ∧ orders w' = orders w ∧ cache w' = cache w
  ∧ exists added,
      badges w' = badges w ++ added
      ∧ forall b, In b added -> In (b_Type b, b_Name b, b_XPReward b) seed.
Proof. apply seed_loop_catalog. Qed.

Lemma seedBadges_keeps_catalog_witness :
  catalog_wf (seedBadges (mkWorld [] [] [] [] [] Redis.empty_client 11 [])).2.
Proof.
  refine (proj1 (seedBadges_keeps_catalog (mkWorld [] [] [] [] [] Redis.empty_client 11 []) _)).
  split; constructor.
Defined.

Lemma seed_badge_present (x : BadgeType * string * Z) (w : World) (b : Badge) :
  first_badge_of_type x.1.1 w = Some b -> seed_badge x w = (tt, w).
Proof. intros H. unfold seed_badge, bind, get. rewrite H. reflexivity. Qed.

Lemma seed_badge_fresh (x : BadgeType * string * Z) (w : World) :
  first_badge_of_type x.1.1 w = None ->
  write_faults w = [] ->
  (forall b, In b (badges w) -> (b_ID b < uuid_supply w)%N) ->
  seed_badge x w
  = (tt, with_badges (badges w ++ [mkBadge (uuid_supply w) x.1.1 x.1.2 x.2])
           (with_uuid_supply (N.succ (uuid_supply w)) w)).
Proof.
  intros Hnone Hnf Hfresh. destruct w as [us bs ubs txs os c sup fs]. cbn in Hnf, Hfresh. subst fs.
  unfold seed_badge, bind, get, uuid_New, create_badge, db_exec, ret. rewrite Hnone.
  cbn -[existsb].
  assert (E : existsb (fun b' => bool_decide (b_ID b' = sup) || bool_decide (b_Type b' = x.1.1)) bs
              = false).
  { destruct (existsb _ bs) eqn:E; [| reflexivity]. apply existsb_exists in E as (b & Hin & Hb).
    apply orb_true_iff in Hb as [Hb | Hb]; apply bool_decide_eq_true in Hb.
    - specialize (Hfresh b Hin). lia.
    - unfold first_badge_of_type in Hnone. cbn [badges] in Hnone.
      eapply find_none in Hnone; [| exact Hin]. cbn beta in Hnone.
      rewrite bool_decide_eq_true_2 in Hnone by exact Hb. discriminate. }
  rewrite E. reflexivity.
Qed.

Lemma find_app_false {A} (f : A -> bool) (l : list A) (y : A) :
  f y = false -> List.find f (l ++ [y]) = List.find f l.
Proof.
  intros Hy. induction l as [|x l IH]; cbn; [rewrite Hy; reflexivity |].
  destruct (f x); [reflexivity | exact IH].
Qed.

Lemma seed_loop_complete (l : list (BadgeType * string * Z)) :
  NoDup (map (fun x => x.1.1) l) ->
  forall w,
    write_faults w = [] ->
    (forall b, In b (badges w) -> (b_ID b < uuid_supply w)%N) ->
    let w' := (for_each l seed_badge w).2 in
    write_faults w' = []
    ∧ (forall b, In b (badges w') -> (b_ID b < uuid_supply w')%N)
    ∧ (forall t, ~ In t (map (fun x => x.1.1) l) ->
         first_badge_of_type t w' = first_badge_of_type t w)
    ∧ (forall x, In x l ->
         exists b, first_badge_of_type x.1.1 w' = Some b
                   ∧ match first_badge_of_type x.1.1 w with
                     | Some b0 => b = b0
                     | None => b_Name b = x.1.2 ∧ b_XPReward b = x.2
                     end).
Proof.
  induction l as [|x l IH]; intros Hnd w Hnf Hfresh; cbv zeta.
  - cbn. repeat split; auto. intros x [].
  - rewrite for_each_cons_snd. apply NoDup_cons in Hnd as [Hx Hnd].
    assert (Hx' : ~ In x.1.1 (map (fun x => x.1.1) l)) by (rewrite <- list_elem_of_In; exact Hx).
    apply NoDup_ListNoDup in Hnd.
    assert (Hstep :
      exists b, write_faults (seed_badge x w).2 = []
        ∧ (forall b', In b' (badges (seed_badge x w).2) -> (b_ID b' < uuid_supply (seed_badge x w).2)%N)
        ∧ (forall t, t <> x.1.1 ->
             first_badge_of_type t (seed_badge x w).2 = first_badge_of_type t w)
        ∧ first_badge_of_type x.1.1 (seed_badge x w).2 = Some b
        ∧ match first_badge_of_type x.1.1 w with
          | Some b0 => b = b0
          | None => b_Name b = x.1.2 ∧ b_XPReward b = x.2
          end).
    { destruct (first_badge_of_type x.1.1 w) as [b0|] eqn:E.
      - rewrite (seed_badge_present x w b0 E). exists b0. cbn [snd]. rewrite E. repeat split; auto.
      - rewrite (seed_badge_fresh x w E Hnf Hfresh). cbn [snd].
        exists (mkBadge (uuid_supply w) x.1.1 x.1.2 x.2).
        split; [exact Hnf |]. split; [| split; [| split]].
        + cbn [badges with_badges uuid_supply with_uuid_supply]. intros b' Hin.
          apply in_app_iff in Hin as [Hin | [<- | []]]; [specialize (Hfresh b' Hin) |]; cbn; lia.
        + intros t Ht. unfold first_badge_of_type. cbn [badges with_badges].
          apply find_app_false. cbn. apply bool_decide_eq_false_2. congruence.
        + unfold first_badge_of_type in *. cbn [badges with_badges].
          rewrite (find_app_none _ _ _ E). cbn. rewrite bool_decide_eq_true_2 by reflexivity.
          reflexivity.
        + split; reflexivity. }
    destruct Hstep as (b & S1 & S2 & S3 & S4 & S5).
    set (w1 := (seed_badge x w).2) in *.
    apply NoDup_ListNoDup in Hnd.
    destruct (IH Hnd w1 S1 S2) as (G1 & G2 & G3 & G4).
    split; [exact G1 |]. split; [exact G2 |]. split; [| intros y [<- | Hy]].
    + intros t Ht. cbn [map] in Ht.
      rewrite G3 by (intros Hin; apply Ht; right; exact Hin).
      apply S3. intros ->. apply Ht. left. reflexivity.
    + exists b. rewrite (G3 _ Hx'). split; [exact S4 | exact S5].
    + destruct (G4 y Hy) as (b' & B1 & B2). exists b'. split; [exact B1 |].
      assert (Hne : y.1.1 <> x.1.1).
      { intros Heq. apply Hx'. rewrite <- Heq. apply in_map_iff. exists y. auto. }
      rewrite (S3 _ Hne) in B2. exact B2.
Qed.

Lemma seed_loop_settled (l : list (BadgeType * string * Z)) (w : World) :
  (forall x, In x l -> first_badge_of_type x.1.1 w <> None) -> for_each l seed_badge w = (tt, w).
Proof.
  induction l as [|x l IH]; intros H; [reflexivity |].
  cbn [for_each]. unfold bind.
  destruct (first_badge_of_type x.1.1 w) as [b|] eqn:E; [| exfalso; apply (H x); [left |]; auto].
  rewrite (seed_badge_present x w b E). apply IH. intros y Hy. apply H. right. exact Hy.
Qed.

(** [seedBadges] is complete and idempotent: when the store accepts the
    writes and the generated identifiers are new, the catalog afterwards
    has a badge of each of the six types of the seed, with the name and
    the reward of the seed unless a badge of that type was there before
    (that row is kept), and a second run changes nothing. *)
Theorem seedBadges_complete (w : World) :
  write_faults w = [] ->
  (forall b, In b (badges w) -> (b_ID b < uuid_supply w)%N) ->
  let w' := (seedBadges w).2 in
  (forall t name xp,
     In (t, name, xp) seed ->
     exists b, first_badge_of_type t w' = Some b
               ∧ match first_badge_of_type t w with
                 | Some b0 => b = b0
                 | None => b_Name b = name ∧ b_XPReward b = xp
                 end)
  ∧ seedBadges w' = (tt, w').
Proof.
  intros Hnf Hfresh. cbv zeta.
  assert (Hnd : NoDup (map (fun x : BadgeType * string * Z => x.1.1) seed)).
  { apply NoDup_ListNoDup. cbn. repeat constructor; cbn; intuition discriminate. }
  destruct (seed_loop_complete seed Hnd w Hnf Hfresh) as (_ & _ & _ & H).
  split.
  - intros t name xp Hin. exact (H (t, name, xp) Hin).
  - apply seed_loop_settled. intros x Hx. destruct (H x Hx) as (b & Hb & _).
    unfold seedBadges at 1. rewrite Hb. discriminate.
Qed.

Lemma seedBadges_complete_witness :
  map b_Type (badges (seedBadges (mkWorld [] [mkBadge 11 BadgeTopSeller "Best Seller" 500] [] [] []
                                    Redis.empty_client 12 [])).2)
  = [BadgeTopSeller; BadgeFirstOrder; BadgeBigSpender; BadgeEarlyBird; BadgeReviewer; BadgeReferrer]
  ∧ seedBadges (seedBadges (mkWorld [] [mkBadge 11 BadgeTopSeller "Best Seller" 500] [] [] []
                              Redis.empty_client 12 [])).2
    = (tt, (seedBadges (mkWorld [] [mkBadge 11 BadgeTopSeller "Best Seller" 500] [] [] []
                          Redis.empty_client 12 [])).2).
Proof.
  split; [vm_compute; reflexivity |].
  refine (proj2 (seedBadges_complete (mkWorld [] [mkBadge 11 BadgeTopSeller "Best Seller" 500] [] []
                                        [] Redis.empty_client 12 []) eq_refl _)).
  intros b [<- | []]. reflexivity.
Defined.

End BadgeSeed.
(** ** Writing and reading one leaderboard *)

Section Boards.

Lemma zset_insert_filter_out (f : string * float -> bool) (m : string) (s : float)
    (l : list (string * float)) :
  f (m, s) = false -> List.filter f (Redis.zset_insert m s l) = List.filter f l.
Proof.
  intros Hf. induction l as [|[m' s'] l IH]; cbn; [rewrite Hf; reflexivity |].
  destruct (Redis.z_before s m s' m'); cbn; [rewrite Hf; reflexivity |].
  rewrite IH. reflexivity.
Qed.

Lemma zset_insert_filter_in (f : string * float -> bool) (m : string) (s : float)
    (l : list (string * float)) :
  f (m, s) = true -> (forall e, In e l -> f e = false) ->
  List.filter f (Redis.zset_insert m s l) = [(m, s)].
Proof.
  intros Hf. induction l as [|[m' s'] l IH]; intros Hl; cbn; [rewrite Hf; reflexivity |].
  assert (Hl' : forall e, In e l -> f e = false) by (intros; apply Hl; right; assumption).
  assert (Hnone : List.filter f l = []).
  { clear IH Hl. induction l as [|e l IHl]; [reflexivity |]. cbn.
    rewrite (Hl' e (or_introl eq_refl)). apply IHl. intros; apply Hl'; right; assumption. }
  destruct (Redis.z_before s m s' m'); cbn.
  - rewrite Hf, (Hl (m', s') (or_introl eq_refl)), Hnone. reflexivity.
  - rewrite (Hl (m', s') (or_introl eq_refl)). apply IH. exact Hl'.
Qed.

Lemma filter_filter_same {A} (f : A -> bool) (l : list A) :
  List.filter f (List.filter f l) = List.filter f l.
Proof.
  induction l as [|x l IH]; [reflexivity |]. cbn. destruct (f x) eqn:E; cbn; rewrite ?E, IH; reflexivity.
Qed.

Lemma forallb_false_exists {A} (f : A -> bool) (l : list A) :
  forallb f l = false -> exists x, In x l ∧ f x = false.
Proof.
  induction l as [|a l IH]; cbn; [discriminate |].
  destruct (f a) eqn:E; cbn.
  - intros H. destruct (IH H) as (x & Hin & Hx). exists x. auto.
  - intros _. exists a. auto.
Qed.

Lemma json_Marshal_None (m : gmap string Redis.JValue) :
  Redis.json_Marshal m = None
  <-> exists k f, m !! k = Some (Redis.JNumber f) ∧ is_finite f = false.
Proof.
  unfold Redis.json_Marshal.
  destruct (forallb Redis.json_encodable (map snd (map_to_list m))) eqn:E; split.
  - discriminate.
  - intros (k & f & Hk & Hf). exfalso. rewrite forallb_forall in E.
    assert (Hin : In (Redis.JNumber f) (map snd (map_to_list m))).
    { apply in_map_iff. exists (k, Redis.JNumber f). split; [reflexivity |].
      apply list_elem_of_In, elem_of_map_to_list. exact Hk. }
    specialize (E _ Hin). cbn in E. congruence.
  - intros _. apply forallb_false_exists in E as (v & Hin & Hv).
    apply in_map_iff in Hin as ([k v'] & <- & Hin).
    apply list_elem_of_In, elem_of_map_to_list in Hin. cbn in Hv.
    destruct v' as [| b | f | t]; try discriminate. exists k, f. auto.
  - reflexivity.
Qed.

(** [SetLeaderboardEntry] and the reads of the cache.  When the server
    is unreachable or the score is not a number, the call fails and
    changes nothing.  Otherwise the member stands on the board exactly
    once, with the new score, and the other members keep their scores
    and their relative order; the call then succeeds and the user data
    can be read back under the member, unless the user data cannot be
    encoded: then the call fails with the board already updated and the
    stored user data untouched.  The encoding fails exactly when a number
    of the user data is NaN or infinite. *)
Theorem SetLeaderboardEntry_round_trip (board member : string) (score : float)
    (data : gmap string Redis.JValue) (r : Redis.Client) :
  let res := Redis.SetLeaderboardEntry board member score data r in
  let is_member := fun e : string * float => String.eqb e.1 member in
  (Redis.redis_up r = false ∨ is_nan score = true -> res = (false, r))
  ∧ (Redis.redis_up r = true -> is_nan score = false ->
       List.filter is_member (board_zset board res.2) = [(member, score)]
       ∧ List.filter (fun e => negb (is_member e)) (board_zset board res.2)
         = List.filter (fun e => negb (is_member e)) (board_zset board r)
       ∧ match Redis.json_Marshal data with
         | Some json =>
             res.1 = true
             ∧ Redis.HGet (Redis.leaderboard_users_key board) member res.2 = Some json
         | None => res.1 = false ∧ Redis.hashes res.2 = Redis.hashes r
         end)
  ∧ (Redis.json_Marshal data = None
     <-> exists k f, data !! k = Some (Redis.JNumber f) ∧ is_finite f = false).
Proof.
  cbv zeta. split; [| split; [| apply json_Marshal_None]].
  - intros [Hdown | Hnan]; unfold Redis.SetLeaderboardEntry, Redis.ZAdd.
    + rewrite Hdown. reflexivity.
    + destruct (Redis.redis_up r); [| reflexivity]. cbn [negb]. rewrite Hnan. reflexivity.
  - intros Hup Hnan.
    assert (Hz : board_zset board (Redis.SetLeaderboardEntry board member score data r).2
                 = Redis.zset_insert member score (Redis.zset_remove member (board_zset board r))).
    { unfold Redis.SetLeaderboardEntry, Redis.ZAdd, Redis.HSet, board_zset.
      rewrite Hup, Hnan. cbn. destruct (Redis.json_Marshal data); cbn;
        [rewrite Hup; cbn |]; rewrite lookup_insert_eq; reflexivity. }
    split; [| split].
    + rewrite Hz. apply zset_insert_filter_in; [apply String.eqb_refl |].
      intros e He. unfold Redis.zset_remove in He. apply filter_In in He as [_ He].
      apply negb_true_iff in He. exact He.
    + rewrite Hz. rewrite zset_insert_filter_out by (cbn; rewrite String.eqb_refl; reflexivity).
      unfold Redis.zset_remove. apply filter_filter_same.
    + destruct (Redis.json_Marshal data) as [json|] eqn:Hjson.
      * destruct (SetLeaderboardEntry_same_board board member score data json r Hup Hnan Hjson)
          as (Hup' & _ & Hh).
        split.
        -- unfold Redis.SetLeaderboardEntry, Redis.ZAdd, Redis.HSet.
           rewrite Hup, Hnan, Hjson. cbn. rewrite Hup. reflexivity.
        -- unfold Redis.HGet. rewrite Hup'. cbn [negb]. unfold board_hash in Hh. rewrite Hh.
           apply lookup_insert_eq.
      * unfold Redis.SetLeaderboardEntry, Redis.ZAdd. rewrite Hup, Hnan, Hjson. cbn. auto.
Qed.

Lemma leaderboard_entry_Some (board : string) (r : Redis.Client) (i : Z)
    (member : string * float) (e : LeaderboardEntry) :
  Redis.leaderboard_entry board r i member = Some e ->
  le_Rank e = int_add i 1 ∧ le_Score e = member.2 ∧ le_UserID e = uuid_Nil
  ∧ Redis.HGet (Redis.leaderboard_users_key board) member.1 r <> None.
Proof.
  unfold Redis.leaderboard_entry.
  destruct (Redis.HGet _ _ r) as [t|]; [| discriminate].
  destruct (Redis.json_Unmarshal t); [| discriminate].
  intros [= <-]. cbn. repeat split. discriminate.
Qed.

Lemma GetLeaderboard_loop_ranks (board : string) (r : Redis.Client)
    (members : list (string * float)) : forall i entries,
  0 <= i -> i + Z.of_nat (length members) <= int_max ->
  exists added,
    Redis.GetLeaderboard_loop board r i members entries = entries ++ added
    ∧ StronglySorted (fun a b => le_Rank a < le_Rank b) added
    ∧ Forall (fun e =>
                i < le_Rank e <= i + Z.of_nat (length members)
                ∧ le_UserID e = uuid_Nil
                ∧ exists m, members !! Z.to_nat (le_Rank e - 1 - i) = Some (m, le_Score e)
                            ∧ Redis.HGet (Redis.leaderboard_users_key board) m r <> None)
             added.
Proof.
  induction members as [|[m s] members IH]; intros i entries Hi Hmax;
    cbn [Redis.GetLeaderboard_loop].
  - exists []. rewrite app_nil_r. repeat constructor.
  - cbn [length] in Hmax. rewrite Nat2Z.inj_succ in Hmax.
    assert (Hshift : forall e,
      (i + 1 < le_Rank e <= i + 1 + Z.of_nat (length members)
       ∧ le_UserID e = uuid_Nil
       ∧ exists m0, members !! Z.to_nat (le_Rank e - 1 - (i + 1)) = Some (m0, le_Score e)
                    ∧ Redis.HGet (Redis.leaderboard_users_key board) m0 r <> None) ->
      i < le_Rank e <= i + Z.of_nat (length ((m, s) :: members))
      ∧ le_UserID e = uuid_Nil
      ∧ exists m0, ((m, s) :: members) !! Z.to_nat (le_Rank e - 1 - i) = Some (m0, le_Score e)
                   ∧ Redis.HGet (Redis.leaderboard_users_key board) m0 r <> None).
    { intros e (Hr & Hn & m0 & Hm & Hh). cbn [length]. rewrite Nat2Z.inj_succ.
      split; [lia |]. split; [exact Hn |]. exists m0. split; [| exact Hh].
      replace (Z.to_nat (le_Rank e - 1 - i)) with (S (Z.to_nat (le_Rank e - 1 - (i + 1)))) by lia.
      exact Hm. }
    destruct (Redis.leaderboard_entry board r i (m, s)) as [e|] eqn:E.
    + apply leaderboard_entry_Some in E as (Hrank & Hscore & Hnil & Hget).
      assert (Hr : le_Rank e = i + 1).
      { rewrite Hrank. apply int_wrap_in_range. unfold in_range, int_min, int_max in *.
        apply andb_true_iff. split; apply Z.leb_le; lia. }
      destruct (IH (i + 1) (entries ++ [e])) as (added & Heq & Hsorted & Hall); [lia | lia |].
      exists (e :: added). rewrite Heq, <- app_assoc. split; [reflexivity |]. split.
      * constructor; [exact Hsorted |]. eapply Forall_impl; [exact Hall |].
        intros e' (Hr' & _). cbn beta. lia.
      * constructor.
        -- cbn [length]. rewrite Nat2Z.inj_succ. split; [lia |]. split; [exact Hnil |].
           exists m. rewrite Hr. replace (i + 1 - 1 - i) with 0 by lia. cbn.
           cbn in Hscore. rewrite Hscore. split; [reflexivity | exact Hget].
        -- eapply Forall_impl; [exact Hall | exact Hshift].
    + destruct (IH (i + 1) entries) as (added & Heq & Hsorted & Hall); [lia | lia |].
      exists added. split; [exact Heq |]. split; [exact Hsorted |].
      eapply Forall_impl; [exact Hall | exact Hshift].
Qed.

(** The entries that [GetLeaderboard] reads from the cache, for a limit
    of at least one: there are at most [limit] of them, their ranks grow
    strictly and lie between 1 and [limit], the entry of rank k carries
    the score of the k-th highest member of the ranked set, and its user
    id is the zero UUID.  A member without readable user data is left out
    and its rank is not given to another entry. *)
Theorem GetLeaderboard_ranks (board : string) (limit : Z) (r : Redis.Client)
    (entries : list LeaderboardEntry) :
  1 <= limit <= int_max ->
  Redis.GetLeaderboard board limit r = Some entries ->
  Z.of_nat (length entries) <= limit
  ∧ StronglySorted (fun a b => le_Rank a < le_Rank b) entries
  ∧ Forall (fun e =>
              1 <= le_Rank e <= limit
              ∧ le_UserID e = uuid_Nil
              ∧ exists m, rev (board_zset board r) !! Z.to_nat (le_Rank e - 1) = Some (m, le_Score e)
                          ∧ Redis.HGet (Redis.leaderboard_users_key board) m r <> None)
           entries.
Proof.
  intros Hl. unfold Redis.GetLeaderboard, Redis.ZRevRangeWithScores.
  destruct (negb (Redis.redis_up r)); [discriminate |]. intros [= <-].
  assert (Hsub : int_sub limit 1 = limit - 1).
  { apply int_wrap_in_range. unfold in_range, int_min, int_max in *.
    apply andb_true_iff. split; apply Z.leb_le; lia. }
  rewrite Hsub, range_by_rank_firstn by lia. fold (board_zset board r).
  set (members := firstn (Z.to_nat limit) (rev (board_zset board r))).
  assert (Hlen : Z.of_nat (length members) <= limit).
  { unfold members. rewrite length_firstn. lia. }
  destruct (GetLeaderboard_loop_ranks board r members 0 []) as (added & Heq & Hsorted & Hall);
    [lia | lia |].
  rewrite Heq. cbn [app]. split; [| split; [exact Hsorted |]].
  - pose proof (GetLeaderboard_loop_length board r members 0 []) as H. rewrite Heq in H.
    cbn in H. lia.
  - eapply Forall_impl; [exact Hall |]. intros e (Hr & Hn & m & Hm & Hh). cbn beta.
    split; [lia |]. split; [exact Hn |]. exists m. split; [| exact Hh].
    rewrite Z.sub_0_r in Hm. unfold members in Hm.
    change (firstn (Z.to_nat limit)) with (take (A:=string * float) (Z.to_nat limit)) in Hm.
    apply lookup_take_Some in Hm as [Hm _]. exact Hm.
Qed.

Lemma GetLeaderboard_ranks_witness :
  exists entries,
    Redis.GetLeaderboard "weekly_buyers" 3 (cache Scenarios.crowded_shop) = Some entries
    ∧ Z.of_nat (length entries) <= 3
    ∧ StronglySorted (fun a b => le_Rank a < le_Rank b) entries.
Proof.
  destruct (Redis.GetLeaderboard "weekly_buyers" 3 (cache Scenarios.crowded_shop))
    as [entries|] eqn:E; [| vm_compute in E; discriminate].
  exists entries. split; [reflexivity |].
  destruct (GetLeaderboard_ranks "weekly_buyers" 3 (cache Scenarios.crowded_shop) entries)
    as (H1 & H2 & _); [unfold int_max; lia | exact E |].
  exact (conj H1 H2).
Defined.

(** *** The order of [float64] on numbers *)

Lemma SFltb_false_trans (a b c : SpecFloat.spec_float) :
  a <> SpecFloat.S754_nan -> b <> SpecFloat.S754_nan -> c <> SpecFloat.S754_nan ->
  SpecFloat.SFltb a b = false -> SpecFloat.SFltb b c = false -> SpecFloat.SFltb a c = false.
Proof.
  intros Ha Hb Hc. unfold SpecFloat.SFltb, SpecFloat.SFcompare.
  destruct a as [sa|sa| |sa ma ea]; [| | congruence |];
  destruct b as [sb|sb| |sb mb eb]; try congruence;
  destruct c as [sc|sc| |sc mc ec]; try congruence;
  try destruct sa; try destruct sb; try destruct sc; try congruence;
  rewrite ?Pos.compare_cont_spec; unfold Pos.switch_Eq;
  repeat match goal with
         | |- context [Z.compare ?x ?y] => destruct (Z.compare_spec x y)
         | |- context [Pos.compare ?x ?y] => destruct (Pos.compare_spec x y)
         end; cbn; try congruence; try lia.
Qed.

Lemma SFltb_asym (a b : SpecFloat.spec_float) :
  SpecFloat.SFltb a b = true -> SpecFloat.SFltb b a = false.
Proof.
  unfold SpecFloat.SFltb, SpecFloat.SFcompare.
  destruct a as [sa|sa| |sa ma ea]; destruct b as [sb|sb| |sb mb eb]; try congruence;
  try destruct sa; try destruct sb; try congruence;
  rewrite ?Pos.compare_cont_spec; unfold Pos.switch_Eq;
  repeat match goal with
         | |- context [Z.compare ?x ?y] => destruct (Z.compare_spec x y)
         | |- context [Pos.compare ?x ?y] => destruct (Pos.compare_spec x y)
         end; cbn; try congruence; try lia.
Qed.

Lemma number_Prim2SF (x : float) : is_nan x = false -> Prim2SF x <> SpecFloat.S754_nan.
Proof.
  unfold is_nan. rewrite FloatAxioms.eqb_spec. intros H E. rewrite E in H. discriminate.
Qed.

Lemma ltb_false_trans (a b c : float) :
  is_nan a = false -> is_nan b = false -> is_nan c = false ->
  PrimFloat.ltb a b = false -> PrimFloat.ltb b c = false -> PrimFloat.ltb a c = false.
Proof.
  rewrite !FloatAxioms.ltb_spec. intros Ha Hb Hc.
  apply SFltb_false_trans; apply number_Prim2SF; assumption.
Qed.

Lemma ltb_asym (a b : float) : PrimFloat.ltb a b = true -> PrimFloat.ltb b a = false.
Proof. rewrite !FloatAxioms.ltb_spec. apply SFltb_asym. Qed.

(** *** The ranking read from the user table *)

Lemma insert_desc_not_below {A} (key : A -> float) (x : A) (l : list A) :
  is_nan (key x) = false -> (forall y, In y l -> is_nan (key y) = false) ->
  StronglySorted (fun a b => PrimFloat.ltb (key a) (key b) = false) l ->
  StronglySorted (fun a b => PrimFloat.ltb (key a) (key b) = false) (insert_desc key x l).
Proof.
  intros Hx. induction l as [|y l IH]; intros Hl Hsorted; cbn.
  - repeat constructor.
  - apply StronglySorted_inv in Hsorted as [Hs Hy].
    destruct (PrimFloat.ltb (key x) (key y)) eqn:Hlt.
    + constructor.
      * apply IH; [intros z Hz; apply Hl; right; exact Hz | exact Hs].
      * apply Forall_forall. intros z Hz. apply list_elem_of_In in Hz.
        apply (Permutation_in _ (insert_desc_perm key x l)) in Hz as [<- | Hz].
        -- apply ltb_asym. exact Hlt.
        -- rewrite Forall_forall in Hy. apply Hy, list_elem_of_In, Hz.
    + constructor; [constructor; assumption |].
      constructor; [exact Hlt |].
      apply Forall_forall. intros z Hz. rewrite Forall_forall in Hy. specialize (Hy z Hz).
      apply list_elem_of_In in Hz.
      apply (ltb_false_trans (key x) (key y) (key z)); auto.
      * apply Hl. left. reflexivity.
      * apply Hl. right. exact Hz.
Qed.

Lemma order_by_desc_not_below {A} (key : A -> float) (l : list A) :
  (forall y, In y l -> is_nan (key y) = false) ->
  StronglySorted (fun a b => PrimFloat.ltb (key a) (key b) = false) (order_by_desc key l).
Proof.
  induction l as [|x l IH]; cbn; intros Hl; [constructor |].
  apply insert_desc_not_below.
  - apply Hl. left. reflexivity.
  - intros y Hy. apply Hl. right. apply (Permutation_in _ (order_by_desc_perm key l)). exact Hy.
  - apply IH. intros y Hy. apply Hl. right. exact Hy.
Qed.

(** The ranking that [generateBuyerLeaderboardFromDB] reads from the user
    table, for a limit that is not negative and totals that are numbers:
    it lists [min limit n] of the n buyers, each with their id, name,
    level and total as score, a badge count of 0 and their position
    (counted from 1, as an [int]) as rank; the listed totals never increase down the list, and
    no buyer left out has spent more than a listed one. *)
Theorem generateBuyerLeaderboardFromDB_ranking (w : World) (limit : Z) :
  0 <= limit ->
  forallb (fun u => negb (is_nan (u_TotalSpent u))) (List.filter is_buyer (users w)) = true ->
  exists listed rest : list User,
    Permutation (listed ++ rest) (List.filter is_buyer (users w))
    ∧ length listed = Nat.min (Z.to_nat limit) (length (List.filter is_buyer (users w)))
    ∧ Gamification.generateBuyerLeaderboardFromDB limit w
      = imap (fun k u => mkLeaderboardEntry (u_ID u) (u_Name u) (u_TotalSpent u)
                           (int_add (Z.of_nat k) 1) (u_Level u) 0) listed
    ∧ StronglySorted (fun u v => PrimFloat.ltb (u_TotalSpent u) (u_TotalSpent v) = false) listed
    ∧ forall u v, In u listed -> In v rest ->
        PrimFloat.ltb (u_TotalSpent u) (u_TotalSpent v) = false.
Proof.
  intros Hl Hnum.
  set (buyers := List.filter is_buyer (users w)) in *.
  set (ranked := order_by_desc u_TotalSpent buyers).
  assert (Hperm : Permutation ranked buyers) by apply order_by_desc_perm.
  assert (Hsorted : StronglySorted
            (fun u v => PrimFloat.ltb (u_TotalSpent u) (u_TotalSpent v) = false) ranked).
  { apply order_by_desc_not_below. intros u Hu. rewrite forallb_forall in Hnum.
    apply negb_true_iff. apply Hnum. exact Hu. }
  exists (firstn (Z.to_nat limit) ranked), (skipn (Z.to_nat limit) ranked).
  rewrite firstn_skipn. split; [exact Hperm |]. split; [| split; [| split]].
  - rewrite length_firstn, (Permutation_length Hperm). reflexivity.
  - unfold Gamification.generateBuyerLeaderboardFromDB, gorm_Limit, Gamification.leaderboard_entries_of.
    destruct (Z.ltb_spec limit 0); [lia |]. reflexivity.
  - rewrite <- (firstn_skipn (Z.to_nat limit) ranked) in Hsorted.
    eapply StronglySorted_app_1_l. exact Hsorted.
  - intros u v Hu Hv. rewrite <- (firstn_skipn (Z.to_nat limit) ranked) in Hsorted.
    apply (StronglySorted_app_1_elem_of
             (fun u v => PrimFloat.ltb (u_TotalSpent u) (u_TotalSpent v) = false) _ _ u v Hsorted);
      apply list_elem_of_In; assumption.
Qed.

Lemma generateBuyerLeaderboardFromDB_ranking_witness :
  exists listed rest : list User,
    Permutation (listed ++ rest) (List.filter is_buyer (users Scenarios.market))
    ∧ length listed = 2%nat
    ∧ Gamification.generateBuyerLeaderboardFromDB 2 Scenarios.market
      = imap (fun k u => mkLeaderboardEntry (u_ID u) (u_Name u) (u_TotalSpent u)
                           (int_add (Z.of_nat k) 1) (u_Level u) 0) listed.
Proof.
  destruct (generateBuyerLeaderboardFromDB_ranking Scenarios.market 2)
    as (listed & rest & H1 & H2 & H3 & _); [lia | vm_compute; reflexivity |].
  exists listed, rest. exact (conj H1 (conj H2 H3)).
Defined.

End Boards.
(** ** What the reward paths leave alone *)

Section CacheFrame.
Import Gamification.

Lemma cache_frame_refl w : cache_frame w w.
Proof. reflexivity. Qed.
Lemma cache_frame_trans a b c : cache_frame a b -> cache_frame b c -> cache_frame a c.
Proof. unfold cache_frame. congruence. Qed.

#[local] Hint Resolve cache_frame_refl cache_frame_trans : frames.

Lemma cache_frame_uuid_New : frames cache_frame uuid_New.
Proof. intros w. reflexivity. Qed.
Lemma cache_frame_create_xp tx : frames cache_frame (create_xp_transaction tx).
Proof. unfold create_xp_transaction. repeat frames_step. Qed.
Lemma cache_frame_create_user_badge ub : frames cache_frame (create_user_badge ub).
Proof. unfold create_user_badge. repeat frames_step. Qed.
Lemma cache_frame_increment_total_xp id n : frames cache_frame (increment_total_xp id n).
Proof.
  unfold increment_total_xp. apply frames_db_exec; eauto with frames.
  - intros; reflexivity.
  - intros w w'. destruct (xp_increment_fits id n w); intros [= <-]. reflexivity.
Qed.
Lemma cache_frame_update_level id n : frames cache_frame (update_level id n).
Proof. unfold update_level. repeat frames_step. Qed.
Lemma cache_frame_increment_total_sales id n : frames cache_frame (increment_total_sales id n).
Proof. unfold increment_total_sales. repeat frames_step. Qed.
Lemma cache_frame_save_order o : frames cache_frame (save_order o).
Proof. unfold save_order. repeat frames_step. Qed.

#[local] Hint Resolve cache_frame_uuid_New cache_frame_create_xp cache_frame_create_user_badge
  cache_frame_increment_total_xp cache_frame_update_level cache_frame_increment_total_sales
  cache_frame_save_order : frames.

Lemma cache_frame_callGamificationService u n r f :
  frames cache_frame (Orders.callGamificationService u n r f).
Proof. unfold Orders.callGamificationService. frames_auto. Qed.
Lemma cache_frame_awardXP u n r : frames cache_frame (awardXP u n r).
Proof. unfold awardXP. frames_auto. Qed.
Lemma cache_frame_Auth_awardXP u n r : frames cache_frame (Auth.awardXP u n r).
Proof. unfold Auth.awardXP. frames_auto. Qed.

#[local] Hint Resolve cache_frame_callGamificationService cache_frame_awardXP
  cache_frame_Auth_awardXP : frames.

Lemma cache_frame_checkAndAwardBadge u t : frames cache_frame (Orders.checkAndAwardBadge u t).
Proof. unfold Orders.checkAndAwardBadge. frames_auto. Qed.

#[local] Hint Resolve cache_frame_checkAndAwardBadge : frames.

Lemma cache_frame_processDeliveredOrder o : frames cache_frame (Orders.processDeliveredOrder o).
Proof. unfold Orders.processDeliveredOrder. frames_auto. Qed.

#[local] Hint Resolve cache_frame_processDeliveredOrder : frames.

Lemma cache_frame_UpdateOrderStatus a b c d :
  frames cache_frame (Orders.UpdateOrderStatus a b c d).
Proof. unfold Orders.UpdateOrderStatus. frames_auto. Qed.

Lemma cache_frame_awardFirstOrderXP u : frames cache_frame (Orders.awardFirstOrderXP u).
Proof. unfold Orders.awardFirstOrderXP. frames_auto. Qed.

Lemma cache_frame_checkAndAwardBadges_loop user E bs : forall acc,
  frames cache_frame (checkAndAwardBadges_loop user E bs acc).
Proof.
  induction bs as [|b bs IH]; intros acc; cbn [checkAndAwardBadges_loop]; frames_auto.
Qed.

#[local] Hint Resolve cache_frame_checkAndAwardBadges_loop : frames.

Lemma cache_frame_CheckAndAwardBadges body : frames cache_frame (CheckAndAwardBadges body).
Proof. unfold CheckAndAwardBadges, checkAndAwardBadges. frames_auto. Qed.

Lemma cache_frame_UpdateUserLevel p : frames cache_frame (UpdateUserLevel p).
Proof. unfold UpdateUserLevel. frames_auto. Qed.

Lemma cache_frame_checkEarlyBirdBadge user : frames cache_frame (Auth.checkEarlyBirdBadge user).
Proof. unfold Auth.checkEarlyBirdBadge. frames_auto. Qed.

Lemma cache_frame_awardPaymentXP payment : frames cache_frame (Payments.awardPaymentXP payment).
Proof. unfold Payments.awardPaymentXP. frames_auto. Qed.

(** The reward paths other than [AddXP] do not write the leaderboards.
    The status update of an order (with the rewards of a delivery), the
    first-order reward, the badge checks, the level repair, the early-bird
    check and the payment reward leave the cache as it is; so, while the
    cache is reachable, the leaderboards answer the same after a status
    update as before it, whatever the update has credited. *)
Theorem rewards_leave_leaderboards (w : World) :
  (forall oid uid role body, cache (Orders.UpdateOrderStatus oid uid role body w).2 = cache w)
  ∧ (forall uid, cache (Orders.awardFirstOrderXP uid w).2 = cache w)
  ∧ (forall body, cache (CheckAndAwardBadges body w).2 = cache w)
  ∧ (forall p, cache (UpdateUserLevel p w).2 = cache w)
  ∧ (forall user, cache (Auth.checkEarlyBirdBadge user w).2 = cache w)
  ∧ (forall payment, cache (Payments.awardPaymentXP payment w).2 = cache w)
  ∧ (forall oid uid role body limitParam,
       Redis.redis_up (cache w) = true ->
       (GetSellerLeaderboard limitParam (Orders.UpdateOrderStatus oid uid role body w).2).1
       = (GetSellerLeaderboard limitParam w).1
       ∧ (GetBuyerLeaderboard limitParam (Orders.UpdateOrderStatus oid uid role body w).2).1
         = (GetBuyerLeaderboard limitParam w).1).
Proof.
  repeat split.
  - intros. apply cache_frame_UpdateOrderStatus.
  - intros. apply cache_frame_awardFirstOrderXP.
  - intros. apply cache_frame_CheckAndAwardBadges.
  - intros. apply cache_frame_UpdateUserLevel.
  - intros. apply cache_frame_checkEarlyBirdBadge.
  - intros. apply cache_frame_awardPaymentXP.
  - match goal with Hup : Redis.redis_up _ = true |- _ => rename Hup into Hup' end.
    unfold GetSellerLeaderboard. cbn [fst].
    rewrite (cache_frame_UpdateOrderStatus oid uid role body w).
    unfold Redis.GetLeaderboard, Redis.ZRevRangeWithScores. rewrite Hup'. reflexivity.
  - match goal with Hup : Redis.redis_up _ = true |- _ => rename Hup into Hup' end.
    unfold GetBuyerLeaderboard. cbn [fst].
    rewrite (cache_frame_UpdateOrderStatus oid uid role body w).
    unfold Redis.GetLeaderboard, Redis.ZRevRangeWithScores. rewrite Hup'. reflexivity.
Qed.

Lemma updateLeaderboards_run (user : User) (newXP : Z) (w : World) :
  updateLeaderboards user newXP w = (tt, with_cache (leaderboard_update user (cache w)) w).
Proof.
  unfold updateLeaderboards, leaderboard_update. fold (leaderboard_userData user).
  destruct (bool_decide (u_Role user = RoleBuyer)); [reflexivity |].
  destruct (bool_decide (u_Role user = RoleSeller)); [reflexivity |].
  destruct w; reflexivity.
Qed.

(** The cache after a run of [AddXP] in which the store accepts every
    write: one leaderboard update for the user as the handler holds it. *)
Lemma AddXP_cache (w : World) (req : AddXPRequest) (user : User) :
  first_user (req_UserID req) w = Some user ->
  req_UserID req <> uuid_Nil -> req_Amount req <> 0 -> req_Reason req <> "" ->
  write_faults w = [] ->
  let newXP := int_add (u_TotalXP user) (req_Amount req) in
  let held := if bool_decide (calculateLevel newXP = calculateLevel (u_TotalXP user))
              then set_TotalXP newXP user
              else set_Level (calculateLevel newXP) (set_TotalXP newXP user) in
  cache (AddXP (Some req) w).2 = leaderboard_update held (cache w).
Proof.
  intros Hu Hid Ham Hre Hnf. cbv zeta.
  destruct (AddXP (Some req) w) as [resp w'] eqn:Hrun. cbn [snd].
  unfold AddXP in Hrun.
  rewrite (bool_decide_eq_false_2 _ Hid), (bool_decide_eq_false_2 _ Hre) in Hrun.
  apply Z.eqb_neq in Ham. rewrite Ham in Hrun. cbn [orb] in Hrun.
  unfold bind at 1 in Hrun. unfold get at 1 in Hrun. rewrite Hu in Hrun.
  unfold bind, uuid_New, create_xp_transaction, update_total_xp, update_level, db_exec, ret
    in Hrun.
  destruct w as [us bs ubs txs os c sup fs]; cbn in Hnf. subst fs.
  cbn -[updateLeaderboards calculateLevel] in Hrun.
  destruct (bool_decide (calculateLevel _ = calculateLevel _));
    cbn -[updateLeaderboards calculateLevel] in Hrun;
    rewrite updateLeaderboards_run in Hrun; injection Hrun as _ <-; reflexivity.
Qed.

(** [AddXP] puts a buyer on the weekly board: when the store accepts the
    writes and the cache is reachable, the board afterwards holds the
    buyer exactly once, ranked by the total spent (the balance plays no
    part), and the user data read back under the buyer carries the name,
    a badge count of 0 and the level held by the handler: the new level
    when the balance crossed a threshold, the stored level otherwise.
    The sellers' board is not touched. *)
Theorem AddXP_refreshes_leaderboard (w : World) (req : AddXPRequest) (user : User) :
  first_user (req_UserID req) w = Some user ->
  req_UserID req <> uuid_Nil -> req_Amount req <> 0 -> req_Reason req <> "" ->
  write_faults w = [] ->
  Redis.redis_up (cache w) = true ->
  u_Role user = RoleBuyer ->
  is_nan (u_TotalSpent user) = false ->
  let w' := (AddXP (Some req) w).2 in
  let newXP := int_add (u_TotalXP user) (req_Amount req) in
  let shown := if bool_decide (calculateLevel newXP = calculateLevel (u_TotalXP user))
               then u_Level user else calculateLevel newXP in
  let member := uuid_String (u_ID user) in
  Redis.HGet (Redis.leaderboard_users_key "weekly_buyers") member (cache w')
  = Some (Redis.JSONObject
            (<["name" := Redis.JString (u_Name user)]>
               (<["level" := Redis.JString shown]>
                  (<["badge_count" := Redis.JNumber (float64_of_int 0)]> ∅))))
  ∧ List.filter (fun e => String.eqb e.1 member) (board_zset "weekly_buyers" (cache w'))
    = [(member, u_TotalSpent user)]
  ∧ board_zset "monthly_sellers" (cache w') = board_zset "monthly_sellers" (cache w)
  ∧ board_hash "monthly_sellers" (cache w') = board_hash "monthly_sellers" (cache w).
Proof.
  intros Hu Hid Ham Hre Hnf Hup Hrole Hnum. cbv zeta.
  rewrite (AddXP_cache w req user Hu Hid Ham Hre Hnf).
  set (held := if bool_decide _ then set_TotalXP _ user else _).
  assert (Hheld : u_ID held = u_ID user ∧ u_Name held = u_Name user
                  ∧ u_TotalSpent held = u_TotalSpent user ∧ u_Role held = RoleBuyer
                  ∧ u_Level held
                    = (if bool_decide (calculateLevel (int_add (u_TotalXP user) (req_Amount req))
                                       = calculateLevel (u_TotalXP user))
                       then u_Level user
                       else calculateLevel (int_add (u_TotalXP user) (req_Amount req)))).
  { unfold held. destruct (bool_decide _); cbn; auto. }
  destruct Hheld as (H1 & H2 & H3 & H4 & H5).
  assert (Hb : is_buyer held = true) by (apply bool_decide_eq_true_2; exact H4).
  assert (Hs : is_seller held = false)
    by (apply bool_decide_eq_false_2; rewrite H4; discriminate).
  destruct (buyers_update_on held (cache w) Hb Hup) as (G1 & G2 & G3); [rewrite H3; exact Hnum |].
  destruct (sellers_update_off held (cache w) Hs Hup) as (_ & S2 & S3).
  split; [| split; [| split; [exact S2 | exact S3]]].
  - unfold Redis.HGet. rewrite G1. cbn [negb]. fold (board_hash "weekly_buyers"
      (leaderboard_update held (cache w))). rewrite G3. unfold board_store.
    rewrite H1, lookup_insert_eq. unfold leaderboard_userData. rewrite H2, H5. reflexivity.
  - rewrite G2. unfold board_insert. rewrite H1, H3.
    apply zset_insert_filter_in; [apply String.eqb_refl |].
    intros e He. unfold Redis.zset_remove in He. apply filter_In in He as [_ He].
    apply negb_true_iff in He. exact He.
Qed.

Lemma AddXP_refreshes_leaderboard_witness :
  List.filter (fun e => String.eqb e.1 "1")
    (board_zset "weekly_buyers"
       (cache (AddXP (Some (mkAddXPRequest 1 20 "Order Completed" "31"))
                 (Scenarios.shop OrderPending [])).2))
  = [("1", 250%float)].
Proof.
  exact (proj1 (proj2 (AddXP_refreshes_leaderboard (Scenarios.shop OrderPending [])
    (mkAddXPRequest 1 20 "Order Completed" "31") Scenarios.abebe eq_refl
    ltac:(discriminate) ltac:(discriminate) ltac:(discriminate) eq_refl eq_refl eq_refl eq_refl))).
Defined.

End CacheFrame.
(** ** The guards of the order handlers *)

Section OrderGuards.
Import Orders OrderQueries.

Lemma orders_frame_refl w : orders_frame w w.
Proof. reflexivity. Qed.
Lemma orders_frame_trans a b c : orders_frame a b -> orders_frame b c -> orders_frame a c.
Proof. unfold orders_frame. congruence. Qed.

#[local] Hint Resolve orders_frame_refl orders_frame_trans : frames.

Lemma orders_frame_uuid_New : frames orders_frame uuid_New.
Proof. intros w. reflexivity. Qed.
Lemma orders_frame_create_xp tx : frames orders_frame (create_xp_transaction tx).
Proof. unfold create_xp_transaction. repeat frames_step. Qed.
Lemma orders_frame_create_user_badge ub : frames orders_frame (create_user_badge ub).
Proof. unfold create_user_badge. repeat frames_step. Qed.
Lemma orders_frame_increment_total_xp id n : frames orders_frame (increment_total_xp id n).
Proof.
  unfold increment_total_xp. apply frames_db_exec; eauto with frames.
  - intros; reflexivity.
  - intros w w'. destruct (xp_increment_fits id n w); intros [= <-]. reflexivity.
Qed.
Lemma orders_frame_increment_total_sales id n : frames orders_frame (increment_total_sales id n).
Proof. unfold increment_total_sales. repeat frames_step. Qed.

#[local] Hint Resolve orders_frame_uuid_New orders_frame_create_xp orders_frame_create_user_badge
  orders_frame_increment_total_xp orders_frame_increment_total_sales : frames.

Lemma orders_frame_callGamificationService u n r f :
  frames orders_frame (callGamificationService u n r f).
Proof. unfold callGamificationService. frames_auto. Qed.

#[local] Hint Resolve orders_frame_callGamificationService : frames.

Lemma orders_frame_checkAndAwardBadge u t : frames orders_frame (checkAndAwardBadge u t).
Proof. unfold checkAndAwardBadge. frames_auto. Qed.

#[local] Hint Resolve orders_frame_checkAndAwardBadge : frames.

Lemma orders_frame_processDeliveredOrder o : frames orders_frame (processDeliveredOrder o).
Proof. unfold processDeliveredOrder. frames_auto. Qed.

Lemma orders_frame_awardFirstOrderXP u : frames orders_frame (awardFirstOrderXP u).
Proof. unfold awardFirstOrderXP. frames_auto. Qed.

(** The two outcomes of [DB.Save(&order)]. *)
Lemma save_order_cases (o : Order) (w : World) :
  ((save_order o w).1 = false ∧ tables_frame w (save_order o w).2)
  ∨ ((save_order o w).1 = true
     ∧ orders (save_order o w).2
       = map (fun o' => if bool_decide (o_ID o' = o_ID o) then o else o') (orders w)).
Proof.
  unfold save_order, db_exec. destruct w as [us bs ubs txs os c sup fs].
  destruct fs as [|[] fs]; cbn.
  - right. auto.
  - left. unfold tables_frame. cbn. auto 10.
  - right. auto.
Qed.

Lemma tables_frame_refl w : tables_frame w w.
Proof. unfold tables_frame. auto 10. Qed.

(** The guards of [UpdateOrderStatus].  A call that does not succeed
    leaves every table and the cache as they were and answers without
    data.  A call succeeds only for a seller who sells at least one item
    of an existing order and for one of the six statuses; the order is
    then stored with the requested status. *)
Theorem UpdateOrderStatus_guards (orderIDParam userID : option UUID) (userRole : UserRole)
    (body : option UpdateOrderStatusRequest) (w : World) :
  let r := UpdateOrderStatus orderIDParam userID userRole body w in
  (resp_Success r.1 = false -> tables_frame w r.2 ∧ resp_Data r.1 = None)
  ∧ (resp_Success r.1 = true ->
       userRole = RoleSeller
       ∧ exists orderID uid req order,
           orderIDParam = Some orderID ∧ userID = Some uid ∧ body = Some req
           ∧ first_order orderID w = Some order
           ∧ In (usr_Status req) validStatuses
           ∧ (exists item, In item (o_Items order) ∧ oi_Product_SellerID item = uid)
           ∧ exists stored,
               first_order orderID r.2 = Some stored ∧ o_Status stored = usr_Status req
               ∧ o_Items stored = o_Items order ∧ o_BuyerID stored = o_BuyerID order).
Proof.
  cbv zeta. unfold UpdateOrderStatus.
  assert (Hfail : forall (status : Z) (msg : string) (P : Prop),
    let resp : Response Order := ErrorResponse status msg in
    (resp_Success resp = false -> tables_frame w w ∧ resp_Data resp = None)
    ∧ (resp_Success resp = true -> P)).
  { intros status msg P. cbn. split; [intros _; split; [apply tables_frame_refl | reflexivity]
                                      | discriminate]. }
  destruct orderIDParam as [orderID|]; [| apply Hfail].
  destruct userID as [uid|]; [| apply Hfail].
  destruct body as [req|]; [| apply Hfail].
  destruct (existsb _ validStatuses) eqn:Hvalid; cbn [negb]; [| apply Hfail].
  rewrite bind_fst_snd. cbn [get fst snd].
  destruct (first_order orderID w) as [order|] eqn:Hfo; [| apply Hfail].
  destruct (bool_decide (userRole = RoleSeller)) eqn:Hrole; cbn [negb]; [| apply Hfail].
  destruct (existsb _ (o_Items order)) eqn:Hperm; cbn [negb]; [| apply Hfail].
  apply bool_decide_eq_true in Hrole.
  set (order1 := set_Status_Notes (usr_Status req)
                   (if bool_decide (usr_Notes req = "") then o_Notes order else usr_Notes req)
                   order).
  rewrite bind_fst_snd.
  destruct (save_order_cases order1 w) as [[Hs Hframe] | [Hs Ho1]]; rewrite Hs; cbn [negb].
  - cbn [ret fst snd]. split; [intros _; split; [exact Hframe | reflexivity] | discriminate].
  - rewrite bind_fst_snd.
    set (w1 := (save_order order1 w).2) in *.
    set (m := if bool_decide (usr_Status req = OrderDelivered) then _ else _).
    assert (Ho2 : orders (m w1).2 = orders w1).
    { unfold m. destruct (bool_decide (usr_Status req = OrderDelivered));
        [apply orders_frame_processDeliveredOrder | reflexivity]. }
    rewrite bind_fst_snd. cbn [get fst snd ret].
    split; [discriminate |]. intros _. split; [exact Hrole |].
    exists orderID, uid, req, order.
    split; [reflexivity |]. split; [reflexivity |]. split; [reflexivity |].
    split; [exact Hfo |]. split; [| split].
    + apply existsb_exists in Hvalid as (st & Hin & Hst). apply bool_decide_eq_true in Hst.
      rewrite Hst. exact Hin.
    + apply existsb_exists in Hperm as (item & Hin & Hit). apply bool_decide_eq_true in Hit.
      exists item. auto.
    + exists order1. split; [| repeat split].
      eapply (first_order_saved order order1 orderID w); [exact Hfo | reflexivity |].
      rewrite Ho2. exact Ho1.
Qed.

(** There is no guard on the transition.  Whatever the status of the
    order, delivered and cancelled included, a seller of one of its items
    can set any of the other five statuses: when the store accepts the
    write, the call succeeds, the order is stored with the new status
    (and the new notes, unless they are empty), and nothing else
    changes. *)
Theorem UpdateOrderStatus_any_transition (w : World) (orderID userID : UUID) (order : Order)
    (status : OrderStatus) (notes : string) :
  first_order orderID w = Some order ->
  In status [OrderPending; OrderConfirmed; OrderProcessing; OrderShipped; OrderCancelled] ->
  (exists item, In item (o_Items order) ∧ oi_Product_SellerID item = userID) ->
  writes_accepted 1 w = true ->
  let order1 := set_Status_Notes status (if bool_decide (notes = "") then o_Notes order else notes)
                  order in
  let r := UpdateOrderStatus (Some orderID) (Some userID) RoleSeller
             (Some (mkUpdateOrderStatusRequest status notes)) w in
  r.1 = SuccessResponse "Order status updated successfully" order1
  ∧ first_order orderID r.2 = Some order1
  ∧ orders r.2 = map (fun o' => if bool_decide (o_ID o' = o_ID order) then order1 else o') (orders w)
  ∧ users r.2 = users w ∧ xp_transactions r.2 = xp_transactions w
  ∧ user_badges r.2 = user_badges w ∧ cache r.2 = cache w.
Proof.
  intros Hfo Hst (item & Hin & Hit) Hacc. cbv zeta.
  set (order1 := set_Status_Notes status _ order).
  assert (Hvalid : existsb (fun st => bool_decide (status = st)) validStatuses = true).
  { apply existsb_exists. exists status. split; [| apply bool_decide_eq_true_2; reflexivity].
    cbn in Hst |- *. intuition. }
  assert (Hnd : bool_decide (status = OrderDelivered) = false).
  { apply bool_decide_eq_false_2. cbn in Hst. intuition (subst; discriminate). }
  assert (Hperm : existsb (fun it => bool_decide (oi_Product_SellerID it = userID)) (o_Items order)
                  = true).
  { apply existsb_exists. exists item. split; [exact Hin | apply bool_decide_eq_true_2; exact Hit]. }
  assert (Hsave : exists fs,
            save_order order1 w
            = (true, with_write_faults fs
                       (with_orders (map (fun o' => if bool_decide (o_ID o' = o_ID order1)
                                                    then order1 else o') (orders w)) w))).
  { unfold save_order, db_exec, writes_accepted in *.
    destruct w as [us bs ubs txs os c sup fs]. cbn in Hacc |- *.
    destruct fs as [|[] fs]; cbn in Hacc |- *; [exists [] | discriminate | exists fs]; reflexivity. }
  destruct Hsave as (fs & Hsave).
  assert (Hrun : UpdateOrderStatus (Some orderID) (Some userID) RoleSeller
                   (Some (mkUpdateOrderStatusRequest status notes)) w
                 = (SuccessResponse "Order status updated successfully"
                      (default order1 (first_order (o_ID order1) (save_order order1 w).2)),
                    (save_order order1 w).2)).
  { unfold UpdateOrderStatus. cbn [usr_Status usr_Notes]. rewrite Hvalid. cbn [negb].
    unfold bind at 1, get at 1. rewrite Hfo.
    rewrite (bool_decide_eq_true_2 (RoleSeller = RoleSeller) eq_refl). cbn [negb].
    rewrite Hperm. cbn [negb]. fold order1.
    unfold bind at 1. rewrite Hsave. cbn [negb snd]. rewrite Hnd.
    reflexivity. }
  rewrite Hrun, Hsave. cbn [fst snd].
  set (w1 := with_write_faults fs _).
  assert (Hfirst : first_order orderID w1 = Some order1).
  { eapply (first_order_saved order order1 orderID w); [exact Hfo | reflexivity | reflexivity]. }
  assert (Hid : o_ID order = orderID).
  { apply find_some in Hfo as [_ H]. apply bool_decide_eq_true in H. exact H. }
  change (o_ID order1) with (o_ID order). rewrite Hid, Hfirst. cbn [default].
  split; [reflexivity |]. split; [reflexivity |]. split; [| repeat split].
  unfold w1. cbn [orders with_write_faults with_orders]. rewrite <- Hid. reflexivity.
Qed.

Lemma UpdateOrderStatus_any_transition_witness :
  first_order 31%N
    (UpdateOrderStatus (Some 31%N) (Some 2%N) RoleSeller
       (Some (mkUpdateOrderStatusRequest OrderPending "reopened"))
       (Scenarios.shop OrderDelivered [])).2
  = Some (set_Status_Notes OrderPending "reopened" (Scenarios.order_31 OrderDelivered)).
Proof.
  refine (proj1 (proj2 (UpdateOrderStatus_any_transition (Scenarios.shop OrderDelivered [])
    31%N 2%N (Scenarios.order_31 OrderDelivered) OrderPending "reopened" eq_refl _ _ eq_refl))).
  - left. reflexivity.
  - exists (mkOrderItem 41 51 2 125 2). split; [left |]; reflexivity.
Defined.

(** [GetOrder] only reads, and what it returns is an order of the table
    with the requested id that the caller may see: a buyer gets an order
    only if they placed it, a seller only if one of its items is a
    product of theirs.  An order that the caller may see is found. *)
Theorem GetOrder_access (orderIDParam userID : option UUID) (userRole : UserRole) (w : World) :
  let r := GetOrder orderIDParam userID userRole w in
  r.2 = w
  ∧ (forall order,
       resp_Data r.1 = Some order ->
       In order (orders w) ∧ orderIDParam = Some (o_ID order)
       ∧ (userRole = RoleBuyer -> userID = Some (o_BuyerID order))
       ∧ (userRole = RoleSeller ->
          exists item, In item (o_Items order) ∧ userID = Some (oi_Product_SellerID item)))
  ∧ (forall order uid,
       In order (orders w) -> orderIDParam = Some (o_ID order) -> userID = Some uid ->
       visible_to uid userRole order = true ->
       resp_Success r.1 = true).
Proof.
  cbv zeta. unfold GetOrder.
  destruct orderIDParam as [orderID|];
    [| cbn; split; [reflexivity | split; [discriminate | intros ? ? _ [=]]]].
  destruct userID as [uid|];
    [| cbn; split; [reflexivity | split; [discriminate | intros ? ? _ _ [=]]]].
  rewrite bind_fst_snd. cbn [get fst snd].
  destruct (List.find _ (orders w)) as [order|] eqn:Hfind; cbn [ret fst snd].
  - split; [reflexivity |]. split; [| reflexivity].
    intros order' [= <-]. apply find_some in Hfind as [Hin Hp].
    apply andb_true_iff in Hp as [Hid Hvis]. apply bool_decide_eq_true in Hid.
    split; [exact Hin |]. split; [rewrite Hid; reflexivity |]. unfold visible_to in Hvis. split.
    + intros ->. rewrite (bool_decide_eq_true_2 (RoleBuyer = RoleBuyer) eq_refl) in Hvis.
      apply bool_decide_eq_true in Hvis. rewrite Hvis. reflexivity.
    + intros ->. change (bool_decide (RoleSeller = RoleBuyer)) with false in Hvis.
      rewrite (bool_decide_eq_true_2 (RoleSeller = RoleSeller) eq_refl) in Hvis.
      apply existsb_exists in Hvis as (item & Hit & Hs). apply bool_decide_eq_true in Hs.
      exists item. rewrite Hs. auto.
  - split; [reflexivity |]. split; [discriminate |].
    intros order uid' Hin [= Hid] [= <-] Hvis. exfalso.
    eapply find_none in Hfind; [| exact Hin]. cbn beta in Hfind.
    rewrite Hvis, bool_decide_eq_true_2 in Hfind by (symmetry; exact Hid). discriminate.
Qed.

End OrderGuards.
(** ** Placing an order *)

Section OrderPlacement.
Import Storefront.

Lemma sbind_run {A B} (m : MS A) (k : A -> MS B) (s : Store) :
  sbind m k s = k (m s).1 (m s).2.
Proof. unfold sbind. destruct (m s). reflexivity. Qed.

Lemma lift_run {A} (m : M A) (s : Store) :
  lift m s = ((m (world s)).1, with_world (m (world s)).2 s).
Proof. unfold lift. destruct (m (world s)). reflexivity. Qed.

Lemma tables_frame_trans a b c : tables_frame a b -> tables_frame b c -> tables_frame a c.
Proof. unfold tables_frame. intuition congruence. Qed.

Lemma stock_only_refl ps : stock_only ps ps.
Proof. unfold stock_only. induction ps as [|p ps IH]; constructor; [destruct p; reflexivity | exact IH]. Qed.

Lemma stock_only_trans ps1 ps2 ps3 :
  stock_only ps1 ps2 -> stock_only ps2 ps3 -> stock_only ps1 ps3.
Proof.
  unfold stock_only. intros H. revert ps3. induction H as [|p1 p2 l1 l2 Hp H IH]; intros ps3 H3.
  - inversion H3. constructor.
  - inversion H3 as [|? p3 ? l3 Hp3 H3']; subst. constructor; [| apply IH; exact H3'].
    rewrite <- Hp. rewrite <- Hp3. destruct p3; reflexivity.
Qed.

Lemma stock_only_update (id : UUID) (v : Z) (ps : list Product) :
  stock_only ps (map (fun p => if bool_decide (p_ID p = id) then set_Stock v p else p) ps).
Proof.
  unfold stock_only. induction ps as [|p ps IH]; cbn; constructor; [| exact IH].
  destruct (bool_decide _); destruct p; reflexivity.
Qed.

Lemma stock_only_find (ps ps' : list Product) (id : UUID) (p' : Product) :
  stock_only ps ps' ->
  List.find (fun p => bool_decide (p_ID p = id)) ps' = Some p' ->
  exists p, List.find (fun p => bool_decide (p_ID p = id)) ps = Some p
            ∧ set_Stock (p_Stock p) p' = p.
Proof.
  unfold stock_only. induction 1 as [|p q l l' Hp H IH]; cbn; [discriminate |].
  assert (Hid : p_ID p = p_ID q) by (rewrite <- Hp; reflexivity).
  rewrite Hid. destruct (bool_decide (p_ID q = id)).
  - intros [= <-]. exists p. auto.
  - exact IH.
Qed.

Lemma priced_from_stock_only (ps ps' : list Product) (item : OrderItem) :
  stock_only ps ps' -> priced_from ps' item -> priced_from ps item.
Proof.
  intros Hso (p' & Hfind & Hprice & Hseller & Hactive).
  destruct (stock_only_find ps ps' _ p' Hso Hfind) as (p & Hp & Heq).
  exists p. split; [exact Hp |]. rewrite <- Heq. cbn. auto.
Qed.

(** The outcomes of the stock update. *)
Lemma update_stock_cases (id : UUID) (v : Z) (s : Store) :
  let r := update_stock id v s in
  tables_frame (world s) (world r.2)
  ∧ (write_faults (world s) = [] -> write_faults (world r.2) = [] ∧ r.1 = true)
  ∧ (if r.1
     then products r.2
          = map (fun p => if bool_decide (p_ID p = id) then set_Stock v p else p) (products s)
     else products r.2 = products s).
Proof.
  cbv zeta. unfold update_stock, store_exec. destruct s as [w ps].
  destruct w as [us bs ubs txs os c sup fs]. cbn.
  destruct fs as [|[] fs]; cbn; unfold tables_frame; cbn; repeat split; auto; discriminate.
Qed.

Lemma process_items_spec (items : list OrderItemRequest) : forall total acc s,
  let r := process_items items total acc s in
  tables_frame (world s) (world r.2)
  ∧ stock_only (products s) (products r.2)
  ∧ (write_faults (world s) = [] -> write_faults (world r.2) = [])
  ∧ match r.1 with
    | inl resp => resp_Success resp = false ∧ resp_Data resp = None
    | inr (total', acc') =>
        exists new,
          acc' = acc ++ new
          ∧ requested new = map (fun it => (oir_ProductID it, oir_Quantity it)) items
          ∧ total' = fold_left (fun t it => PrimFloat.add t (sale_amount it)) new total
          ∧ Forall (priced_from (products s)) new
    end.
Proof.
  induction items as [|item rest IH]; intros total acc s; cbv zeta; cbn [process_items].
  - cbn. split; [apply tables_frame_refl |]. split; [apply stock_only_refl |].
    split; [auto |]. exists []. rewrite app_nil_r. repeat split. constructor.
  - rewrite sbind_run. cbn [sget fst snd]. unfold first_product.
    destruct (List.find _ (products s)) as [product|] eqn:Hfind;
      [| cbn; split; [apply tables_frame_refl |]; split; [apply stock_only_refl |]; auto].
    destruct (p_IsActive product) eqn:Hactive; cbn [negb];
      [| cbn; split; [apply tables_frame_refl |]; split; [apply stock_only_refl |]; auto].
    destruct (p_Stock product <? oir_Quantity item) eqn:Hstock;
      [cbn; split; [apply tables_frame_refl |]; split; [apply stock_only_refl |]; auto |].
    rewrite sbind_run, lift_run. cbn [uuid_New fst snd].
    set (s1 := with_world _ s).
    rewrite sbind_run.
    destruct (update_stock_cases (p_ID product)
                (int_sub (p_Stock product) (oir_Quantity item)) s1) as (Hf & Hnf & Hps).
    set (r2 := update_stock _ _ s1) in *.
    assert (Hf1 : tables_frame (world s) (world r2.2)).
    { eapply tables_frame_trans; [| exact Hf]. unfold tables_frame. cbn. auto 10. }
    assert (Hso1 : stock_only (products s) (products r2.2)).
    { destruct r2.1; rewrite Hps; [apply stock_only_update | apply stock_only_refl]. }
    destruct r2.1 eqn:Hupd; cbn [negb].
    + specialize (IH (PrimFloat.add total
                        (PrimFloat.mul (p_Price product) (float64_of_int (oir_Quantity item))))
                     (acc ++ [mkOrderItem (uuid_supply (world s)) (oir_ProductID item)
                                (oir_Quantity item) (p_Price product) (p_SellerID product)])
                     r2.2).
      cbv zeta in IH. destruct IH as (G1 & G2 & G3 & G4).
      split; [eapply tables_frame_trans; eassumption |].
      split; [eapply stock_only_trans; eassumption |].
      split; [intros Hn; apply G3; apply Hnf; exact Hn |].
      destruct (process_items rest _ _ r2.2).1 as [resp | [total' acc']]; [exact G4 |].
      destruct G4 as (new & Hacc & Hreq & Htot & Hall).
      exists (mkOrderItem (uuid_supply (world s)) (oir_ProductID item) (oir_Quantity item)
                (p_Price product) (p_SellerID product) :: new).
      split; [rewrite Hacc, <- app_assoc; reflexivity |].
      split; [cbn; rewrite <- Hreq; reflexivity |].
      split; [exact Htot |].
      constructor.
      * exists product. cbn. auto.
      * eapply Forall_impl; [exact Hall |]. intros it Hit.
        eapply priced_from_stock_only; eassumption.
    + cbn. split; [exact Hf1 |]. split; [exact Hso1 |]. split; [| auto].
      intros Hn. apply Hnf. exact Hn.
Qed.


Lemma create_order_cases (o : Order) (w : World) :
  let r := create_order o w in
  users r.2 = users w ∧ badges r.2 = badges w ∧ user_badges r.2 = user_badges w
  ∧ xp_transactions r.2 = xp_transactions w ∧ cache r.2 = cache w
  ∧ (write_faults w = [] -> write_faults r.2 = [])
  ∧ (write_faults w = [] ->
     existsb (fun o' => bool_decide (o_ID o' = o_ID o)) (orders w) = false -> r.1 = true)
  ∧ (if r.1
     then existsb (fun o' => bool_decide (o_ID o' = o_ID o)) (orders w) = false
          ∧ orders r.2 = orders w ++ [o]
     else orders r.2 = orders w).
Proof.
  cbv zeta. unfold create_order, db_exec. destruct w as [us bs ubs txs os c sup fs].
  destruct fs as [|[] fs]; cbn;
    try (destruct (existsb _ os) eqn:E; cbn); repeat split; auto; discriminate.
Qed.

Lemma create_order_items_cases (orderID : UUID) (items : list OrderItem) : forall w,
  let r := create_order_items orderID items w in
  users r.2 = users w ∧ badges r.2 = badges w ∧ user_badges r.2 = user_badges w
  ∧ xp_transactions r.2 = xp_transactions w ∧ cache r.2 = cache w
  ∧ (write_faults w = [] -> write_faults r.2 = [] ∧ r.1 = true)
  ∧ (r.1 = true ->
     orders r.2
     = map (fun o => if bool_decide (o_ID o = orderID) then add_Items items o else o) (orders w)).
Proof.
  induction items as [|item rest IH]; intros w; cbv zeta; cbn [create_order_items].
  - cbn. repeat split; auto. intros _. symmetry. erewrite map_ext; [apply map_id |].
    intros o. destruct (bool_decide _); [| reflexivity].
    unfold add_Items. rewrite app_nil_r. destruct o; reflexivity.
  - rewrite bind_fst_snd.
    assert (Hstep :
      let r := create_order_item orderID item w in
      users r.2 = users w ∧ badges r.2 = badges w ∧ user_badges r.2 = user_badges w
      ∧ xp_transactions r.2 = xp_transactions w ∧ cache r.2 = cache w
      ∧ (write_faults w = [] -> write_faults r.2 = [] ∧ r.1 = true)
      ∧ (r.1 = true ->
         orders r.2
         = map (fun o => if bool_decide (o_ID o = orderID) then add_Item item o else o)
             (orders w))).
    { cbv zeta. unfold create_order_item, db_exec. destruct w as [us bs ubs txs os c sup fs].
      destruct fs as [|[] fs]; cbn; repeat split; auto; discriminate. }
    cbv zeta in Hstep. destruct Hstep as (H1 & H2 & H3 & H4 & H5 & H6 & H7).
    destruct (create_order_item orderID item w) as [created w1]. cbn [fst snd] in *.
    destruct created; cbn [negb].
    + specialize (IH w1). cbv zeta in IH. destruct IH as (G1 & G2 & G3 & G4 & G5 & G6 & G7).
      repeat split; try congruence.
      * apply G6. apply H6. assumption.
      * apply G6. apply H6. assumption.
      * intros Hr. rewrite (G7 Hr), (H7 eq_refl), map_map. apply map_ext. intros o.
        destruct (bool_decide (o_ID o = orderID)) eqn:E.
        -- change (o_ID (add_Item item o)) with (o_ID o). rewrite E.
           unfold add_Items, add_Item. cbn. rewrite <- app_assoc. reflexivity.
        -- rewrite E. reflexivity.
    + cbn. repeat split; auto; try discriminate;
        try (intros Hn; destruct (H6 Hn); solve [auto | discriminate]);
        try (destruct (H6 ltac:(assumption)); solve [auto | discriminate]).
Qed.

Lemma increment_total_spent_cases (id : UUID) (x : float) (w : World) :
  let r := increment_total_spent id x w in
  orders r.2 = orders w ∧ badges r.2 = badges w ∧ user_badges r.2 = user_badges w
  ∧ xp_transactions r.2 = xp_transactions w ∧ cache r.2 = cache w
  ∧ (write_faults w = [] -> write_faults r.2 = [] ∧ r.1 = true)
  ∧ (r.1 = true ->
     users r.2
     = update_where_id id (fun u => set_TotalSpent (PrimFloat.add (u_TotalSpent u) x) u)
         (users w)).
Proof.
  cbv zeta. unfold increment_total_spent, db_exec. destruct w as [us bs ubs txs os c sup fs].
  destruct fs as [|[] fs]; cbn; repeat split; auto; discriminate.
Qed.

Lemma Commit_cases (begin s : Store) :
  let r := Commit begin s in
  cache (world r.2) = cache (world s)
  ∧ (write_faults (world s) = [] -> write_faults (world r.2) = [] ∧ r.1 = true)
  ∧ (if r.1
     then products r.2 = products s ∧ tables_frame (world s) (world r.2)
     else products r.2 = products begin
          ∧ users (world r.2) = users (world begin)
          ∧ badges (world r.2) = badges (world begin)
          ∧ user_badges (world r.2) = user_badges (world begin)
          ∧ xp_transactions (world r.2) = xp_transactions (world begin)
          ∧ orders (world r.2) = orders (world begin)).
Proof.
  cbv zeta. unfold Commit. destruct s as [w ps]. destruct w as [us bs ubs txs os c sup fs].
  destruct fs as [|[] fs]; cbn; unfold tables_frame; cbn; repeat split; auto; discriminate.
Qed.

Lemma find_app_new {A} (f : A -> bool) (l : list A) (x : A) :
  existsb f l = false -> f x = true -> List.find f (l ++ [x]) = Some x.
Proof.
  intros Hl Hx. induction l as [|y l IH]; cbn in *; [rewrite Hx; reflexivity |].
  apply orb_false_iff in Hl as [Hy Hl]. rewrite Hy. apply IH. exact Hl.
Qed.


(** The two outcomes of [CreateOrder] on a request that passes the checks
    of the body: a refusal that leaves the store as it was, or the order,
    committed, followed by the first-order reward run on the committed
    world [w5]. *)
Lemma CreateOrder_run (buyer : UUID) (req : CreateOrderRequest) (s : Store) :
  cor_Items req <> [] -> cor_ShippingAddress req <> "" ->
  let r := CreateOrder (Some buyer) (Some req) s in
  (resp_Success r.1 = false ∧ resp_Data r.1 = None ∧ store_frame s r.2
   ∧ (write_faults (world s) = [] ->
      existsb (fun o => bool_decide (o_ID o = uuid_supply (world s))) (orders (world s)) = false ->
      exists resp,
        (process_items (cor_Items req) 0 [] (with_world (uuid_New (world s)).2 s)).1
        = inl resp))
  ∨ (exists items w5 s2,
       let order :=
         mkOrder (uuid_supply (world s)) buyer (items_total items) OrderPending
           (cor_Notes req) items in
       r.1 = mkResponse 201 true "Order created successfully" (Some order)
       ∧ requested items
         = map (fun it => (oir_ProductID it, oir_Quantity it)) (cor_Items req)
       ∧ Forall (priced_from (products s)) items
       ∧ existsb (fun o => bool_decide (o_ID o = uuid_supply (world s))) (orders (world s)) = false
       ∧ process_items (cor_Items req) 0 [] (with_world (uuid_New (world s)).2 s)
         = (inr (items_total items, items), s2)
       ∧ products r.2 = products s2
       ∧ orders w5 = orders (world s) ++ [order]
       ∧ users w5
         = update_where_id buyer
             (fun u => set_TotalSpent (PrimFloat.add (u_TotalSpent u) (items_total items)) u)
             (users (world s))
       ∧ badges w5 = badges (world s) ∧ user_badges w5 = user_badges (world s)
       ∧ xp_transactions w5 = xp_transactions (world s) ∧ cache w5 = cache (world s)
       ∧ (write_faults (world s) = [] -> write_faults w5 = [])
       ∧ world r.2 = (Orders.awardFirstOrderXP buyer w5).2).
Proof.
  intros Hitems Haddr. cbv zeta. unfold CreateOrder.
  destruct (cor_Items req) as [|i0 irest] eqn:Ereq; [congruence |].
  rewrite <- Ereq. replace (length (cor_Items req) =? 0)%nat with false
    by (rewrite Ereq; reflexivity).
  rewrite (bool_decide_eq_false_2 _ Haddr).
  rewrite sbind_run. cbn [sget fst snd]. rewrite sbind_run, lift_run. cbn [fst snd].
  set (s1 := with_world (uuid_New (world s)).2 s).
  change (uuid_New (world s)).1 with (uuid_supply (world s)).
  rewrite sbind_run.
  pose proof (process_items_spec (cor_Items req) 0 [] s1) as Hloop. cbv zeta in Hloop.
  destruct Hloop as (F1 & SO & NF1 & Hres).
  destruct (process_items (cor_Items req) 0 [] s1) as [[resp | [total items]] s2] eqn:Hp;
    cbn [fst snd] in *.
  { left. destruct Hres as [Hs Hd]. rewrite sbind_run.
    unfold Rollback, restore, store_frame, tables_frame. simpl.
    split; [exact Hs |]. split; [exact Hd |].
    split; [repeat split; auto; apply F1 |]. intros _ _. exists resp. reflexivity. }
  destruct Hres as (new & Hacc & Hreq & Htot & Hall). cbn in Hacc. subst items.
  change (fold_left _ new 0%float) with (items_total new) in Htot. subst total.
  rewrite sbind_run, lift_run.
  set (order0 := set_TotalAmount (items_total new)
                   (mkOrder (uuid_supply (world s)) buyer 0 OrderPending (cor_Notes req) [])).
  pose proof (create_order_cases order0 (world s2)) as Hc. cbv zeta in Hc.
  destruct Hc as (C1 & C2 & C3 & C4 & C5 & C6 & C8 & C7).
  destruct (create_order order0 (world s2)) as [created w3]. cbn [fst snd] in *.
  destruct F1 as (F1u & F1b & F1ub & F1x & F1o & F1c).
  destruct created; cbn [negb].
  2:{ left. rewrite sbind_run. unfold Rollback, restore, store_frame, tables_frame. simpl.
      split; [reflexivity |]. split; [reflexivity |].
      split; [repeat split; auto; change (cache (world s1)) with (cache (world s)) in *;
              congruence |].
      intros Hn Hf. exfalso. rewrite F1o in C8. specialize (C8 (NF1 Hn) Hf). discriminate. }
  destruct C7 as [Hfresh Horders].
  rewrite sbind_run, lift_run. cbn [world with_world].
  pose proof (create_order_items_cases (uuid_supply (world s)) new w3) as Hi. cbv zeta in Hi.
  destruct Hi as (I1 & I2 & I3 & I4 & I5 & I6 & I7).
  destruct (create_order_items (uuid_supply (world s)) new w3) as [saved w4].
  cbn [fst snd] in *.
  destruct saved; cbn [negb].
  2:{ left. rewrite sbind_run. unfold Rollback, restore, store_frame, tables_frame. simpl.
      split; [reflexivity |]. split; [reflexivity |].
      split; [repeat split; auto; change (cache (world s1)) with (cache (world s)) in *;
              congruence |].
      intros Hn _. exfalso. destruct (I6 (C6 (NF1 Hn))). discriminate. }
  specialize (I7 eq_refl).
  rewrite sbind_run, lift_run. cbn [world with_world].
  pose proof (increment_total_spent_cases buyer (items_total new) w4) as Hu. cbv zeta in Hu.
  destruct Hu as (U1 & U2 & U3 & U4 & U5 & U6 & U7).
  destruct (increment_total_spent buyer (items_total new) w4) as [updated w5'].
  cbn [fst snd] in *.
  destruct updated; cbn [negb].
  2:{ left. rewrite sbind_run. unfold Rollback, restore, store_frame, tables_frame. simpl.
      split; [reflexivity |]. split; [reflexivity |].
      split; [repeat split; auto; change (cache (world s1)) with (cache (world s)) in *;
              congruence |].
      intros Hn _. exfalso. destruct (I6 (C6 (NF1 Hn))) as [Hn4 _].
      destruct (U6 Hn4). discriminate. }
  specialize (U7 eq_refl).
  rewrite sbind_run.
  pose proof (Commit_cases s (with_world w5' (with_world w4 (with_world w3 s2)))) as Hk.
  cbv zeta in Hk. destruct Hk as (K1 & K2 & K3).
  destruct (Commit s _) as [committed s6]. cbn [fst snd world with_world] in *.
  destruct committed; cbn [negb].
  2:{ left. cbn. destruct K3 as (K3p & K3u & K3b & K3ub & K3x & K3o).
      unfold store_frame, tables_frame. simpl.
      split; [reflexivity |]. split; [reflexivity |].
      split; [repeat split; auto; change (cache (world s1)) with (cache (world s)) in *;
              congruence |].
      intros Hn _. exfalso. destruct (I6 (C6 (NF1 Hn))) as [Hn4 _].
      destruct (U6 Hn4) as [Hn5 _]. destruct (K2 Hn5). discriminate. }
  destruct K3 as [Kp (Ku & Kb & Kub & Kx & Ko & Kc)].
  rewrite sbind_run. cbn [sget fst snd]. rewrite sbind_run, lift_run. cbn [fst snd].
  right. exists new, (world s6), s2.
  assert (Ho6 : orders (world s6)
                = orders (world s)
                  ++ [mkOrder (uuid_supply (world s)) buyer (items_total new) OrderPending
                        (cor_Notes req) new]).
  { rewrite Ko, U1, I7, Horders, F1o. change (orders (world s1)) with (orders (world s)).
    rewrite map_app. f_equal.
    - erewrite map_ext_in; [apply map_id |]. intros o Ho.
      destruct (bool_decide (o_ID o = uuid_supply (world s))) eqn:E; [| reflexivity].
      exfalso. rewrite F1o in Hfresh. change (orders (world s1)) with (orders (world s)) in Hfresh.
      assert (Hex : existsb (fun o' => bool_decide (o_ID o' = o_ID order0)) (orders (world s)) = true).
      { apply existsb_exists. exists o. split; [exact Ho | exact E]. }
      congruence.
    - cbn. rewrite bool_decide_eq_true_2 by reflexivity. reflexivity. }
  assert (Hfresh' : existsb (fun o => bool_decide (o_ID o = uuid_supply (world s)))
                      (orders (world s)) = false).
  { rewrite F1o in Hfresh. exact Hfresh. }
  cbv zeta. split.
  { unfold first_order. rewrite Ho6. rewrite (find_app_new _ _ _ Hfresh').
    - reflexivity.
    - cbn. apply bool_decide_eq_true_2. reflexivity. }
  split; [exact Hreq |].
  split; [eapply Forall_impl; [exact Hall | intros it Hit; exact Hit] |].
  split; [exact Hfresh' |].
  split; [reflexivity |].
  split; [simpl; exact Kp |].
  split; [exact Ho6 |].
  split; [rewrite Ku, U7, I1, C1, F1u; reflexivity |].
  split; [rewrite Kb, U2, I2, C2, F1b; reflexivity |].
  split; [rewrite Kub, U3, I3, C3, F1ub; reflexivity |].
  split; [rewrite Kx, U4, I4, C4, F1x; reflexivity |].
  split; [rewrite K1, U5, I5, C5, F1c; reflexivity |].
  split; [| reflexivity].
  intros Hn. apply K2. apply U6. apply I6. apply C6. apply NF1. exact Hn.
Qed.


(** [CreateOrder] is all or nothing: an answer other than 201 is a
    refusal without data that leaves the product table, every table of
    the world and the cache exactly as they were, whichever step failed. *)
Theorem CreateOrder_all_or_nothing (userID : option UUID) (body : option CreateOrderRequest)
    (s : Store) :
  let r := CreateOrder userID body s in
  resp_Status r.1 = 201
  ∨ (resp_Success r.1 = false ∧ resp_Data r.1 = None ∧ store_frame s r.2).
Proof.
  cbv zeta.
  assert (Hsame : store_frame s s) by (split; [reflexivity | apply tables_frame_refl]).
  destruct userID as [buyer|]; [| right; cbn; auto].
  destruct body as [req|]; [| right; cbn; auto].
  destruct (cor_Items req) as [|i0 irest] eqn:Ereq.
  { right. unfold CreateOrder. rewrite Ereq. cbn. auto. }
  destruct (decide (cor_ShippingAddress req = "")) as [Eaddr | Haddr].
  { right. unfold CreateOrder. rewrite Ereq. cbn [length Nat.eqb].
    rewrite (bool_decide_eq_true_2 _ Eaddr). cbn. auto. }
  destruct (CreateOrder_run buyer req s) as [Hfail | (items & w5 & s2 & Hok)];
    [rewrite Ereq; discriminate | exact Haddr
    | right; destruct Hfail as (H1 & H2 & H3 & _); auto | left].
  cbv zeta in Hok. destruct Hok as [-> _]. reflexivity.
Qed.


Lemma purchase_frame_refl w : purchase_frame w w.
Proof. repeat split. Qed.
Lemma purchase_frame_trans a b c : purchase_frame a b -> purchase_frame b c -> purchase_frame a c.
Proof. unfold purchase_frame. intuition congruence. Qed.

#[local] Hint Resolve purchase_frame_refl purchase_frame_trans : frames.

Lemma spent_view_update_xp id f us :
  (forall u, u_ID (f u) = u_ID u ∧ u_TotalSpent (f u) = u_TotalSpent u) ->
  map (fun u => (u_ID u, u_TotalSpent u)) (update_where_id id f us)
  = map (fun u => (u_ID u, u_TotalSpent u)) us.
Proof.
  intros Hf. unfold update_where_id. rewrite map_map. apply map_ext. intros u.
  destruct (bool_decide (u_ID u = id)); [|reflexivity]. destruct (Hf u) as [-> ->]. reflexivity.
Qed.

Lemma purchase_frame_uuid_New : frames purchase_frame uuid_New.
Proof. intros w. repeat split. Qed.
Lemma purchase_frame_create_xp tx : frames purchase_frame (create_xp_transaction tx).
Proof. unfold create_xp_transaction. repeat frames_step. Qed.
Lemma purchase_frame_create_user_badge ub : frames purchase_frame (create_user_badge ub).
Proof. unfold create_user_badge. repeat frames_step. Qed.
Lemma purchase_frame_increment_total_xp id n : frames purchase_frame (increment_total_xp id n).
Proof.
  unfold increment_total_xp. apply frames_db_exec; eauto with frames.
  - intros; repeat split.
  - intros w w'. destruct (xp_increment_fits id n w); intros [= <-]. repeat split.
    unfold spent_view. cbn. apply spent_view_update_xp. intros u. split; reflexivity.
Qed.

#[local] Hint Resolve purchase_frame_uuid_New purchase_frame_create_xp
  purchase_frame_create_user_badge purchase_frame_increment_total_xp : frames.

Lemma purchase_frame_callGamificationService u n r f :
  frames purchase_frame (Orders.callGamificationService u n r f).
Proof. unfold Orders.callGamificationService. frames_auto. Qed.
#[local] Hint Resolve purchase_frame_callGamificationService : frames.

Lemma purchase_frame_checkAndAwardBadge u t : frames purchase_frame (Orders.checkAndAwardBadge u t).
Proof. unfold Orders.checkAndAwardBadge. frames_auto. Qed.
#[local] Hint Resolve purchase_frame_checkAndAwardBadge : frames.

Lemma purchase_frame_awardFirstOrderXP u : frames purchase_frame (Orders.awardFirstOrderXP u).
Proof. unfold Orders.awardFirstOrderXP. frames_auto. Qed.

Lemma existsb_false_not_In (id : UUID) (os : list Order) :
  existsb (fun o => bool_decide (o_ID o = id)) os = false -> ¬ In id (map o_ID os).
Proof.
  intros Hex Hin. apply in_map_iff in Hin as (o & Ho & Hin).
  assert (existsb (fun o => bool_decide (o_ID o = id)) os = true); [| congruence].
  apply existsb_exists. exists o. split; [exact Hin | apply bool_decide_eq_true_2; exact Ho].
Qed.

(** An answer of [CreateOrder] that reports success is the 201 answer
    with the order as it is stored: a new row at the end of the order
    table, under an identifier no order had, pending, of the caller, with
    one item per line of the request in the same order, each at the price
    and with the seller of its active product, and with the item amounts
    added up as the total.  The amount spent by the caller has grown by
    that total, nobody else's has changed, and the product table differs
    at most in stock. *)
Theorem CreateOrder_places_order (userID : option UUID) (body : option CreateOrderRequest)
    (s : Store) :
  let r := CreateOrder userID body s in
  resp_Success r.1 = true ->
  exists buyer req order,
    userID = Some buyer ∧ body = Some req
    ∧ r.1 = mkResponse 201 true "Order created successfully" (Some order)
    ∧ orders (world r.2) = orders (world s) ++ [order]
    ∧ ¬ In (o_ID order) (map o_ID (orders (world s)))
    ∧ first_order (o_ID order) (world r.2) = Some order
    ∧ o_BuyerID order = buyer ∧ o_Status order = OrderPending
    ∧ o_Notes order = cor_Notes req
    ∧ requested (o_Items order)
      = map (fun it => (oir_ProductID it, oir_Quantity it)) (cor_Items req)
    ∧ Forall (priced_from (products s)) (o_Items order)
    ∧ o_TotalAmount order = items_total (o_Items order)
    ∧ spent_view (world r.2)
      = map (fun p => (p.1, if bool_decide (p.1 = buyer)
                            then PrimFloat.add p.2 (o_TotalAmount order) else p.2))
          (spent_view (world s))
    ∧ stock_only (products s) (products r.2).
Proof.
  cbv zeta. intros Hok.
  destruct userID as [buyer|]; [| cbn in Hok; discriminate].
  destruct body as [req|]; [| cbn in Hok; discriminate].
  destruct (cor_Items req) as [|i0 irest] eqn:Ereq.
  { unfold CreateOrder in Hok. rewrite Ereq in Hok. cbn in Hok. discriminate. }
  destruct (decide (cor_ShippingAddress req = "")) as [Eaddr | Haddr].
  { unfold CreateOrder in Hok. rewrite Ereq in Hok. cbn [length Nat.eqb] in Hok.
    rewrite (bool_decide_eq_true_2 _ Eaddr) in Hok. cbn in Hok. discriminate. }
  destruct (CreateOrder_run buyer req s) as [(Hfail & _) | (items & w5 & s2 & Hrun)];
    [rewrite Ereq; discriminate | exact Haddr | congruence |].
  cbv zeta in Hrun.
  destruct Hrun as (Hr & Hreq & Hall & Hfresh & Hp & Hps & Ho & Hu & _ & _ & _ & _ & _ & Hw).
  destruct (purchase_frame_awardFirstOrderXP buyer w5) as (Fo & Fs & _ & _).
  rewrite <- Hw in Fo, Fs.
  exists buyer, req. eexists. split; [reflexivity |]. split; [reflexivity |].
  split; [exact Hr |]. cbn [o_ID o_BuyerID o_Status o_Notes o_Items o_TotalAmount].
  assert (Hstored : orders (world (CreateOrder (Some buyer) (Some req) s).2)
                    = orders (world s)
                      ++ [mkOrder (uuid_supply (world s)) buyer (items_total items) OrderPending
                            (cor_Notes req) items]).
  { rewrite Fo. exact Ho. }
  split; [exact Hstored |].
  split; [apply existsb_false_not_In; exact Hfresh |].
  split.
  { unfold first_order. rewrite Hstored. apply find_app_new; [exact Hfresh |].
    cbn. apply bool_decide_eq_true_2. reflexivity. }
  split; [reflexivity |]. split; [reflexivity |]. split; [reflexivity |].
  split; [exact Hreq |].
  split; [exact Hall |]. split; [reflexivity |].
  split.
  { rewrite Fs. unfold spent_view. rewrite Hu. unfold update_where_id. rewrite !map_map.
    apply map_ext. intros u. cbn [fst snd].
    destruct (bool_decide (u_ID u = buyer)); reflexivity. }
  rewrite Hps.
  pose proof (process_items_spec (cor_Items req) 0 []
                (with_world (uuid_New (world s)).2 s)) as Hloop.
  cbv zeta in Hloop. rewrite Hp in Hloop. destruct Hloop as (_ & SO & _). exact SO.
Qed.

Lemma CreateOrder_places_order_witness :
  exists order,
    (CreateOrder (Some 5%N) (Some Stall.basket) Stall.stall).1
    = mkResponse 201 true "Order created successfully" (Some order)
    ∧ o_TotalAmount order = items_total (o_Items order).
Proof.
  destruct (CreateOrder_places_order (Some 5%N) (Some Stall.basket) Stall.stall)
    as (buyer & req & order & _ & _ & Hr & _ & _ & _ & _ & _ & _ & _ & _ & Ht & _);
    [vm_compute; reflexivity |].
  exists order. exact (conj Hr Ht).
Defined.


Lemma count_orders_of_buyer_app (buyer : UUID) (w w' : World) (o : Order) :
  orders w' = orders w ++ [o] -> o_BuyerID o = buyer ->
  count_orders_of_buyer buyer w' = count_orders_of_buyer buyer w + 1.
Proof.
  intros Ho Hb. unfold count_orders_of_buyer. rewrite Ho, List.filter_app, length_app.
  cbn [List.filter]. rewrite (bool_decide_eq_true_2 _ Hb). cbn [length]. lia.
Qed.

(** The First Order badge check on a buyer who has an order and does not
    hold the badge, on a store that accepts every write. *)
Lemma checkAndAwardBadge_first_order (buyer : UUID) (w : World) (user : User) (badge : Badge) :
  write_faults w = [] ->
  first_user buyer w = Some user ->
  Orders.has_badge_of_type buyer BadgeFirstOrder w = false ->
  first_badge_of_type BadgeFirstOrder w = Some badge ->
  1 <= count_orders_of_buyer buyer w ->
  user_badges (Orders.checkAndAwardBadge buyer BadgeFirstOrder w).2
  = user_badges w ++ [mkUserBadge (uuid_supply w) buyer (b_ID badge)].
Proof.
  intros Hnf Hu Hhas Hbadge Hcount. unfold Orders.checkAndAwardBadge.
  rewrite bind_snd. cbn [get fst snd]. rewrite Hu, Hhas, Hbadge.
  rewrite bool_decide_eq_true_2 by reflexivity.
  apply Z.leb_le in Hcount. rewrite Hcount.
  rewrite bind_snd. cbn [uuid_New fst snd]. rewrite bind_snd.
  set (w1 := with_uuid_supply (N.succ (uuid_supply w)) w).
  assert (Hc : (create_user_badge (mkUserBadge (uuid_supply w) buyer (b_ID badge)) w1).2
               = with_user_badges
                   (user_badges w ++ [mkUserBadge (uuid_supply w) buyer (b_ID badge)]) w1).
  { unfold create_user_badge, db_exec. subst w1. destruct w as [us bs ubs txs os c sup fs].
    cbn in Hnf |- *. subst fs. reflexivity. }
  rewrite Hc. destruct (0 <? b_XPReward badge); [| reflexivity].
  destruct (awards_frame_callGamificationService buyer (b_XPReward badge)
              ("Badge: " +:+ b_Name badge) ""
              (with_user_badges
                 (user_badges w ++ [mkUserBadge (uuid_supply w) buyer (b_ID badge)]) w1))
    as [_ Hub].
  rewrite Hub. reflexivity.
Qed.

Lemma callGamificationService_awards u n r f w :
  write_faults w = [] ->
  let w' := (Orders.callGamificationService u n r f w).2 in
  badges w' = badges w ∧ user_badges w' = user_badges w
  ∧ (forall user, first_user u w = Some user -> exists user', first_user u w' = Some user').
Proof.
  intros Hnf. cbv zeta.
  destruct (awards_frame_callGamificationService u n r f w) as [Hb Hub].
  split; [exact Hb |]. split; [exact Hub |]. intros user Hu.
  unfold Orders.callGamificationService, bind, uuid_New, create_xp_transaction,
    increment_total_xp, db_exec, ret.
  destruct w as [us bs ubs txs os c sup fs]; cbn in Hnf. subst fs.
  cbn -[update_where_id first_user].
  match goal with |- context [if ?b then _ else _] => destruct b end;
    cbn -[update_where_id first_user].
  - unfold first_user, with_users in *. cbn [users] in *.
    rewrite find_update_where_id by reflexivity.
    rewrite Hu. eexists. reflexivity.
  - exists user. exact Hu.
Qed.

(** The first-order reward after [CreateOrder].  For a buyer who already
    had an order, a successful call records no XP and awards no badge:
    ledger, awards, balances and levels stay as they were.  For a buyer
    without orders, on a store that accepts every write, the ledger gains
    the entry of 50 XP "First Order", and a buyer on file who does not
    hold the First Order badge of the catalog is awarded it. *)
Theorem CreateOrder_rewards_first_order (buyer : UUID) (req : CreateOrderRequest) (s : Store) :
  let r := CreateOrder (Some buyer) (Some req) s in
  resp_Success r.1 = true ->
  (count_orders_of_buyer buyer (world s) <> 0 ->
     xp_transactions (world r.2) = xp_transactions (world s)
     ∧ user_badges (world r.2) = user_badges (world s)
     ∧ map (fun u => (u_ID u, u_TotalXP u, u_Level u)) (users (world r.2))
       = map (fun u => (u_ID u, u_TotalXP u, u_Level u)) (users (world s)))
  ∧ (count_orders_of_buyer buyer (world s) = 0 ->
     write_faults (world s) = [] ->
     (exists rest,
        map tx_entry (xp_transactions (world r.2))
        = map tx_entry (xp_transactions (world s)) ++ (buyer, 50, "First Order", "") :: rest)
     ∧ forall user badge,
         first_user buyer (world s) = Some user ->
         Orders.has_badge_of_type buyer BadgeFirstOrder (world s) = false ->
         first_badge_of_type BadgeFirstOrder (world s) = Some badge ->
         exists id,
           user_badges (world r.2) = user_badges (world s) ++ [mkUserBadge id buyer (b_ID badge)]).
Proof.
  cbv zeta. intros Hok.
  destruct (cor_Items req) as [|i0 irest] eqn:Ereq.
  { unfold CreateOrder in Hok. rewrite Ereq in Hok. cbn in Hok. discriminate. }
  destruct (decide (cor_ShippingAddress req = "")) as [Eaddr | Haddr].
  { unfold CreateOrder in Hok. rewrite Ereq in Hok. cbn [length Nat.eqb] in Hok.
    rewrite (bool_decide_eq_true_2 _ Eaddr) in Hok. cbn in Hok. discriminate. }
  destruct (CreateOrder_run buyer req s) as [(Hfail & _) | (items & w5 & s2 & Hrun)];
    [rewrite Ereq; discriminate | exact Haddr | congruence |].
  cbv zeta in Hrun.
  destruct Hrun as (_ & _ & _ & _ & _ & _ & Ho & Hu & Hb & Hub & Hx & _ & Hnf & Hw).
  pose proof (count_orders_of_buyer_app buyer (world s) w5 _ Ho eq_refl) as Hcount.
  rewrite Hw. unfold Orders.awardFirstOrderXP. rewrite bind_snd. cbn [get fst snd].
  split.
  - intros Hne. rewrite (proj2 (Z.eqb_neq _ 1)) by lia. cbn [ret snd].
    split; [exact Hx |]. split; [exact Hub |]. rewrite Hu.
    unfold update_where_id. rewrite map_map. apply map_ext. intros u.
    destruct (bool_decide _); reflexivity.
  - intros Hzero Hnf0. specialize (Hnf Hnf0).
    rewrite (proj2 (Z.eqb_eq _ 1)) by lia. rewrite bind_snd.
    destruct (callGamificationService_exact buyer 50 "First Order" "" w5 Hnf)
      as (Gx & Gnf & Go & _).
    destruct (callGamificationService_awards buyer 50 "First Order" "" w5 Hnf)
      as (Gb & Gub & Gu).
    set (w6 := (Orders.callGamificationService buyer 50 "First Order" "" w5).2) in *.
    split.
    + destruct (delivery_frame_checkAndAwardBadge buyer BadgeFirstOrder w6)
        as (_ & _ & _ & added & Hadded).
      exists (map tx_entry added). rewrite Hadded, Gx, Hx, !map_app. cbn [map].
      rewrite <- app_assoc. reflexivity.
    + intros user badge Huser Hhas Hbadge.
      assert (Hu5 : exists user5, first_user buyer w5 = Some user5).
      { unfold first_user in *. rewrite Hu, find_update_where_id by reflexivity.
        rewrite Huser. eexists. reflexivity. }
      destruct Hu5 as [user5 Hu5]. destruct (Gu user5 Hu5) as [user6 Hu6].
      exists (uuid_supply w6).
      rewrite (checkAndAwardBadge_first_order buyer w6 user6 badge Gnf Hu6).
      * rewrite Gub, Hub. reflexivity.
      * unfold Orders.has_badge_of_type in *. rewrite Gub, Gb, Hub, Hb. exact Hhas.
      * unfold first_badge_of_type in *. rewrite Gb, Hb. exact Hbadge.
      * unfold count_orders_of_buyer in *. rewrite Go. lia.
Qed.

Lemma CreateOrder_rewards_first_order_witness :
  exists rest,
    map tx_entry (xp_transactions
                    (world (CreateOrder (Some 5%N) (Some Stall.basket) Stall.stall).2))
    = map tx_entry (xp_transactions (world Stall.stall)) ++ (5%N, 50, "First Order", "") :: rest.
Proof.
  destruct (CreateOrder_rewards_first_order 5%N Stall.basket Stall.stall) as [_ H];
    [vm_compute; reflexivity |].
  destruct H as [H _]; [reflexivity | reflexivity | exact H].
Defined.


Lemma product_by_id (ps : list Product) (p q : Product) :
  NoDup (map p_ID ps) -> In p ps -> In q ps -> p_ID p = p_ID q -> p = q.
Proof.
  induction ps as [|a ps IH]; cbn; [intros _ [] |].
  intros Hnd Hp Hq Hid. inversion Hnd as [|? ? Hna Hnd']; subst. specialize (IH Hnd').
  destruct Hp as [<- | Hp], Hq as [<- | Hq].
  - reflexivity.
  - exfalso. apply Hna. rewrite Hid. apply list_elem_of_In, in_map. exact Hq.
  - exfalso. apply Hna. rewrite <- Hid. apply list_elem_of_In, in_map. exact Hp.
  - apply IH; assumption.
Qed.

(** The stock after the item loop, for a product table keyed by
    identifier and quantities that are not negative. *)
Lemma process_items_stock (items : list OrderItemRequest) : forall total acc s,
  NoDup (map p_ID (products s)) ->
  Forall (fun p => 0 <= p_Stock p <= int_max) (products s) ->
  Forall (fun it => 0 <= oir_Quantity it) items ->
  let r := process_items items total acc s in
  Forall (fun p => 0 <= p_Stock p <= int_max) (products r.2)
  ∧ match r.1 with
    | inl _ => True
    | inr _ =>
        products r.2
        = map (fun p => set_Stock (p_Stock p - ordered_quantity (p_ID p) items) p) (products s)
    end.
Proof.
  induction items as [|item rest IH]; intros total acc s Hnd Hb Hq; cbv zeta;
    cbn [process_items].
  - cbn. split; [exact Hb |]. symmetry. erewrite map_ext; [apply map_id |].
    intros p. rewrite Z.sub_0_r. destruct p; reflexivity.
  - apply Forall_cons_iff in Hq as [Hq0 Hq].
    rewrite sbind_run. cbn [sget fst snd]. unfold first_product.
    destruct (List.find _ (products s)) as [product|] eqn:Hfind; [| cbn; auto].
    destruct (p_IsActive product); cbn [negb]; [| cbn; auto].
    destruct (Z.ltb_spec (p_Stock product) (oir_Quantity item)) as [Hlt | Hge]; [cbn; auto |].
    apply find_some in Hfind as [Hin Hpid]. apply bool_decide_eq_true in Hpid.
    assert (Hpb : 0 <= p_Stock product <= int_max).
    { rewrite List.Forall_forall in Hb. apply Hb. exact Hin. }
    assert (Hv : int_sub (p_Stock product) (oir_Quantity item)
                 = p_Stock product - oir_Quantity item).
    { apply int_sub_exact. unfold in_range, int_min, int_max in *.
      apply andb_true_iff. split; apply Z.leb_le; lia. }
    rewrite Hv. rewrite sbind_run, lift_run. cbn [uuid_New fst snd].
    set (s1 := with_world _ s). rewrite sbind_run.
    destruct (update_stock_cases (p_ID product)
                (p_Stock product - oir_Quantity item) s1) as (_ & _ & Hps).
    set (r2 := update_stock _ _ s1) in *.
    destruct r2.1; cbn [negb]; [| cbn; rewrite Hps; auto].
    change (products s1) with (products s) in Hps.
    assert (Hnd2 : NoDup (map p_ID (products r2.2))).
    { rewrite Hps, map_map. erewrite map_ext; [exact Hnd |].
      intros p. destruct (bool_decide _); reflexivity. }
    assert (Hb2 : Forall (fun p => 0 <= p_Stock p <= int_max) (products r2.2)).
    { rewrite Hps. apply List.Forall_forall. intros p' Hp'. apply in_map_iff in Hp' as (p & <- & Hp).
      rewrite List.Forall_forall in Hb. specialize (Hb p Hp).
      destruct (bool_decide _); [cbn; lia | exact Hb]. }
    specialize (IH (PrimFloat.add total
                      (PrimFloat.mul (p_Price product) (float64_of_int (oir_Quantity item))))
                   (acc ++ [mkOrderItem (uuid_supply (world s)) (oir_ProductID item)
                              (oir_Quantity item) (p_Price product) (p_SellerID product)])
                   r2.2 Hnd2 Hb2 Hq).
    cbv zeta in IH. destruct IH as [G1 G2]. split; [exact G1 |].
    destruct (process_items rest _ _ r2.2).1 as [resp | res]; [exact I |].
    rewrite G2, Hps, map_map. apply map_ext_in. intros p Hp.
    cbn [ordered_quantity fold_right].
    change (fold_right _ 0 rest) with (ordered_quantity (p_ID p) rest) at 1.
    destruct (decide (p_ID p = p_ID product)) as [Heq | Hne].
    + rewrite (bool_decide_eq_true_2 _ Heq).
      assert (p = product) by (apply (product_by_id (products s)); assumption). subst p.
      rewrite bool_decide_eq_true_2 by (symmetry; exact Hpid).
      unfold set_Stock. cbn [p_ID p_Stock]. f_equal. lia.
    + rewrite (bool_decide_eq_false_2 _ Hne).
      rewrite bool_decide_eq_false_2 by congruence. reflexivity.
Qed.

(** Stock accounting of [CreateOrder], for a product table keyed by
    identifier whose stocks are not negative and a request whose
    quantities are not negative: whatever the outcome, no stock becomes
    negative; and after a successful order the stock of every product is
    its stock before minus the quantity requested of it over all lines
    of the request, nothing else of the product having changed. *)
Theorem CreateOrder_stock_accounting (userID : option UUID) (req : CreateOrderRequest)
    (s : Store) :
  NoDup (map p_ID (products s)) ->
  Forall (fun p => 0 <= p_Stock p <= int_max) (products s) ->
  Forall (fun it => 0 <= oir_Quantity it) (cor_Items req) ->
  let r := CreateOrder userID (Some req) s in
  Forall (fun p => 0 <= p_Stock p <= int_max) (products r.2)
  ∧ (resp_Success r.1 = true ->
     products r.2
     = map (fun p => set_Stock (p_Stock p - ordered_quantity (p_ID p) (cor_Items req)) p)
         (products s)).
Proof.
  intros Hnd Hb Hq. cbv zeta.
  destruct userID as [buyer|]; [| cbn; split; [exact Hb | discriminate]].
  destruct (cor_Items req) as [|i0 irest] eqn:Ereq.
  { unfold CreateOrder. rewrite Ereq. cbn. split; [exact Hb | discriminate]. }
  destruct (decide (cor_ShippingAddress req = "")) as [Eaddr | Haddr].
  { unfold CreateOrder. rewrite Ereq. cbn [length Nat.eqb].
    rewrite (bool_decide_eq_true_2 _ Eaddr). cbn. split; [exact Hb | discriminate]. }
  rewrite <- Ereq in *.
  destruct (CreateOrder_run buyer req s)
    as [(Hfail & _ & (Hps & _) & _) | (items & w5 & s2 & Hrun)];
    [rewrite Ereq; discriminate | exact Haddr | |].
  { rewrite Hps. split; [exact Hb | congruence]. }
  cbv zeta in Hrun. destruct Hrun as (_ & _ & _ & _ & Hp & Hps & _).
  pose proof (process_items_stock (cor_Items req) 0 []
                (with_world (uuid_New (world s)).2 s) Hnd Hb Hq) as Hloop.
  cbv zeta in Hloop. rewrite Hp in Hloop. cbn [fst snd] in Hloop.
  destruct Hloop as [G1 G2]. rewrite Hps. split; [exact G1 |]. intros _. exact G2.
Qed.

Lemma CreateOrder_stock_accounting_witness :
  map p_Stock (products (CreateOrder (Some 5%N) (Some Stall.basket) Stall.stall).2) = [8; 2].
Proof.
  destruct (CreateOrder_stock_accounting (Some 5%N) Stall.basket Stall.stall) as [_ H].
  - apply (bool_decide_unpack _). vm_compute. exact I.
  - repeat constructor; vm_compute; discriminate.
  - repeat constructor; vm_compute; discriminate.
  - rewrite H; [reflexivity | vm_compute; reflexivity].
Defined.


(** The item loop on a single line that passes the checks, on a store
    that accepts every write. *)
Lemma process_items_single (pid : UUID) (q : Z) (product : Product) (total : float)
    (acc : list OrderItem) (s : Store) :
  first_product pid s = Some product ->
  p_IsActive product = true ->
  q <= p_Stock product ->
  write_faults (world s) = [] ->
  process_items [mkOrderItemRequest pid q] total acc s
  = (inr (PrimFloat.add total (PrimFloat.mul (p_Price product) (float64_of_int q)),
          acc ++ [mkOrderItem (uuid_supply (world s)) pid q (p_Price product)
                    (p_SellerID product)]),
     mkStore (with_uuid_supply (N.succ (uuid_supply (world s))) (world s))
       (map (fun p => if bool_decide (p_ID p = pid)
                      then set_Stock (int_sub (p_Stock product) q) p else p)
          (products s))).
Proof.
  intros Hfind Hactive Hq Hnf.
  assert (Hpid : p_ID product = pid).
  { unfold first_product in Hfind. apply find_some in Hfind as [_ H].
    apply bool_decide_eq_true in H. exact H. }
  cbn [process_items]. unfold sbind at 1. cbn [sget oir_ProductID oir_Quantity].
  rewrite Hfind, Hactive. cbn [negb].
  rewrite (proj2 (Z.ltb_ge _ _) Hq).
  unfold sbind, lift, uuid_New, update_stock, store_exec, sret.
  destruct s as [w ps]. destruct w as [us bs ubs txs os c sup fs]. cbn in Hnf. subst fs.
  cbn. rewrite Hpid. reflexivity.
Qed.

(** The only check of [CreateOrder] on a requested quantity is that it
    does not exceed the stock; zero and negative quantities pass.  For a
    single line on an active product, a shipping address, a store that
    accepts every write and an order identifier not yet in use, the
    answer is 201 with one item, the total is the price times the
    quantity added to 0, and the stock of the product becomes the stock
    minus the quantity in machine arithmetic. *)
Theorem CreateOrder_quantity_bounded_by_stock_only (buyer pid : UUID) (q : Z)
    (address notes : string) (product : Product) (s : Store) :
  first_product pid s = Some product ->
  p_IsActive product = true ->
  q <= p_Stock product ->
  address <> "" ->
  write_faults (world s) = [] ->
  existsb (fun o => bool_decide (o_ID o = uuid_supply (world s))) (orders (world s)) = false ->
  let r := CreateOrder (Some buyer)
             (Some (mkCreateOrderRequest [mkOrderItemRequest pid q] address notes)) s in
  r.1 = mkResponse 201 true "Order created successfully"
          (Some (mkOrder (uuid_supply (world s)) buyer
                   (PrimFloat.add 0 (PrimFloat.mul (p_Price product) (float64_of_int q)))
                   OrderPending notes
                   [mkOrderItem (N.succ (uuid_supply (world s))) pid q (p_Price product)
                      (p_SellerID product)]))
  ∧ products r.2
    = map (fun p => if bool_decide (p_ID p = pid)
                    then set_Stock (int_sub (p_Stock product) q) p else p)
        (products s).
Proof.
  intros Hfind Hactive Hq Haddr Hnf Hfresh. cbv zeta.
  set (req := mkCreateOrderRequest [mkOrderItemRequest pid q] address notes).
  pose proof (process_items_single pid q product 0 [] (with_world (uuid_New (world s)).2 s)
                Hfind Hactive Hq Hnf) as Hloop.
  destruct (CreateOrder_run buyer req s) as [(_ & _ & _ & Hwhy) | (items & w5 & s2 & Hrun)];
    [discriminate | exact Haddr | |].
  { destruct (Hwhy Hnf Hfresh) as [resp Hresp]. cbn [cor_Items req] in Hresp.
    rewrite Hloop in Hresp. discriminate. }
  cbv zeta in Hrun. destruct Hrun as (Hr & _ & _ & _ & Hp & Hps & _).
  cbn [cor_Items req] in Hp. rewrite Hloop in Hp. injection Hp as Htotal Hitems Hs2.
  rewrite Hr, Hps, <- Hs2, <- Hitems. unfold items_total. cbn [fold_left app].
  split; reflexivity.
Qed.

Lemma CreateOrder_quantity_bounded_by_stock_only_witness :
  map p_Stock
    (products (CreateOrder (Some 5%N)
                 (Some (mkCreateOrderRequest [mkOrderItemRequest 51 (-4)] "Bole" ""))
                 Stall.stall).2)
  = [14; 3].
Proof.
  destruct (CreateOrder_quantity_bounded_by_stock_only 5%N 51%N (-4) "Bole" "" Stall.coffee
              Stall.stall) as [_ H];
    [reflexivity | reflexivity | vm_compute; discriminate | discriminate | reflexivity
    | reflexivity |].
  exact (f_equal (map p_Stock) H).
Defined.

End OrderPlacement.
(** ** The statistics of a user *)

Section Statistics.
Import Storefront UserStatistics GamificationViews.

(** The user service and the gamification service report the same
    balance and level for a user, and the same distance to the next
    level except that the statistics never show a negative one: where the
    gamification service reports a negative distance (a stored level that
    lags behind the balance), the statistics report 0.  For a stored
    level that is the level of a non-negative balance the two agree. *)
Theorem GetUserStats_distance_clamped (s : Store) (id : UUID) (user : User) :
  first_user id (world s) = Some user ->
  exists stats xp,
    GetUserStats (Some id) s
    = (SuccessResponse "User statistics retrieved successfully" stats, s)
    ∧ GetUserXP (Some id) (world s)
      = (SuccessResponse "User XP retrieved successfully" xp, world s)
    ∧ us_total_xp stats = ux_total_xp xp
    ∧ us_level stats = ux_level xp
    ∧ us_xp_to_next_level stats = Z.max 0 (ux_xp_to_next_level xp)
    ∧ (0 <= u_TotalXP user -> u_Level user = calculateLevel (u_TotalXP user) ->
       us_xp_to_next_level stats = ux_xp_to_next_level xp).
Proof.
  intros Hu. unfold GetUserStats, GetUserXP. rewrite sbind_run. cbn [sget fst snd].
  rewrite Hu. rewrite (first_user_run _ _ _ _ _ Hu).
  eexists. eexists. split; [reflexivity |]. split; [reflexivity |].
  cbn [us_total_xp us_level us_xp_to_next_level ux_total_xp ux_level ux_xp_to_next_level].
  split; [reflexivity |]. split; [reflexivity |].
  assert (Hsame : (if bool_decide (u_Level user = LevelBronze) then int_sub 500 (u_TotalXP user)
                   else if bool_decide (u_Level user = LevelSilver)
                        then int_sub 1500 (u_TotalXP user)
                        else if bool_decide (u_Level user = LevelGold)
                             then int_sub 5000 (u_TotalXP user)
                             else if bool_decide (u_Level user = LevelPlatinum) then 0 else 0)
                  = calculateXPToNextLevel (u_TotalXP user) (u_Level user)) by reflexivity.
  rewrite Hsame.
  assert (Hmax : (if calculateXPToNextLevel (u_TotalXP user) (u_Level user) <? 0 then 0
                  else calculateXPToNextLevel (u_TotalXP user) (u_Level user))
                 = Z.max 0 (calculateXPToNextLevel (u_TotalXP user) (u_Level user))).
  { destruct (Z.ltb_spec (calculateXPToNextLevel (u_TotalXP user) (u_Level user)) 0); lia. }
  rewrite Hmax. split; [reflexivity |].
  intros Hxp Hl. rewrite Hl.
  pose proof (calculateXPToNextLevel_nonneg (u_TotalXP user) Hxp). lia.
Qed.

Lemma GetUserStats_distance_clamped_witness :
  exists stats,
    GetUserStats (Some 1%N) Stall.stall
    = (SuccessResponse "User statistics retrieved successfully" stats, Stall.stall)
    ∧ us_xp_to_next_level stats = 10.
Proof.
  destruct (GetUserStats_distance_clamped Stall.stall 1%N
              (mkUser 1 "Abebe" RoleBuyer LevelBronze 490 250 0) eq_refl)
    as (stats & xp & H1 & H2 & _ & _ & H5 & _).
  exists stats. split; [exact H1 |]. rewrite H5.
  injection H2 as <-. reflexivity.
Defined.

End Statistics.
